(** * XCSF neural substrate and constant prediction: a shallow embedding

    The development embeds, function by function, the C sources

      - neural.c                 (network bookkeeping, copy, mutate, learn,
                                  output, save and load),
      - neural_layer_dropout.c   (dropout layers),
      - neural_layer_maxpool.c   (2D max-pooling layers),
      - pred_constant.c          (piece-wise constant predictions),

    over an explicit C-like store: every [malloc]ed object (a layer struct, a
    buffer of doubles, a buffer of ints) is a block at an address of a finite
    map, pointers are optional addresses, and every function is a state
    transformer that may return, call [exit] after printing a diagnostic, or
    run into undefined behaviour (a fault).

    C [int]s are integers with the 32-bit two's complement wrap-around written
    out; C [double]s are the kernel's binary64 floats. *)

From Stdlib Require Import ZArith Lia PrimFloat Uint63 String Ascii.
From Stdlib Require Import SpecFloat FloatOps FloatAxioms.
From stdpp Require Import gmap list strings pretty.

Open Scope Z_scope.

(** ** C integers *)

Definition INT_MIN : Z := - 2 ^ 31.
Definition INT_MAX : Z := 2 ^ 31 - 1.

(** Reduction of a mathematical integer to the range of [int]. *)
Definition int_wrap (z : Z) : Z := (z + 2 ^ 31) mod 2 ^ 32 - 2 ^ 31.

Definition iadd (a b : Z) : Z := int_wrap (a + b).
Definition isub (a b : Z) : Z := int_wrap (a - b).
Definition imul (a b : Z) : Z := int_wrap (a * b).
Definition ineg (a : Z) : Z := int_wrap (- a).

(** C division truncates toward zero; dividing by zero is undefined. *)
Definition idiv (a b : Z) : option Z :=
  if b =? 0 then None else Some (int_wrap (a ÷ b)).

Definition in_int (z : Z) : Prop := INT_MIN <= z <= INT_MAX.

(** ** C doubles *)

Abbreviation double := float.

(** Conversion [(double) z] of an [int]; exact on the whole [int] range. *)
Definition double_of_int (z : Z) : double :=
  if z <? 0 then PrimFloat.opp (of_uint63 (Uint63.of_Z (- z)))
  else of_uint63 (Uint63.of_Z z).

Definition DBL_MAX : double := 0x1.fffffffffffffp1023%float.

Definition dlt (a b : double) : bool := PrimFloat.ltb a b.

(** ** Pointers and layer structs *)

Definition addr := nat.

(** A pointer is [NULL] ([None]) or the address of a block. *)
Definition ptr := option addr.

(** The virtual table a layer points to. Tables of layer kinds whose sources
    are not part of this development are identified by their type code. *)
Inductive vptr : Type :=
| VDropout
| VMaxpool
| VExt (layer_type : Z).

Module Layer.
(** [struct Layer], restricted to the members the embedded sources use. *)
Record t : Type := mk {
  layer_type : Z;
  layer_vptr : vptr;
  n_inputs : Z;
  n_outputs : Z;
  max_outputs : Z;
  height : Z;
  width : Z;
  channels : Z;
  pad : Z;
  out_w : Z;
  out_h : Z;
  out_c : Z;
  size : Z;
  stride : Z;
  probability : double;
  scale : double;
  output : ptr;
  delta : ptr;
  state : ptr;
  indexes : ptr
}.

Definition set_layer_type v l := mk v (layer_vptr l) (n_inputs l) (n_outputs l) (max_outputs l) (height l) (width l) (channels l) (pad l) (out_w l) (out_h l) (out_c l) (size l) (stride l) (probability l) (scale l) (output l) (delta l) (state l) (indexes l).
Definition set_layer_vptr v l := mk (layer_type l) v (n_inputs l) (n_outputs l) (max_outputs l) (height l) (width l) (channels l) (pad l) (out_w l) (out_h l) (out_c l) (size l) (stride l) (probability l) (scale l) (output l) (delta l) (state l) (indexes l).
Definition set_n_inputs v l := mk (layer_type l) (layer_vptr l) v (n_outputs l) (max_outputs l) (height l) (width l) (channels l) (pad l) (out_w l) (out_h l) (out_c l) (size l) (stride l) (probability l) (scale l) (output l) (delta l) (state l) (indexes l).
Definition set_n_outputs v l := mk (layer_type l) (layer_vptr l) (n_inputs l) v (max_outputs l) (height l) (width l) (channels l) (pad l) (out_w l) (out_h l) (out_c l) (size l) (stride l) (probability l) (scale l) (output l) (delta l) (state l) (indexes l).
Definition set_max_outputs v l := mk (layer_type l) (layer_vptr l) (n_inputs l) (n_outputs l) v (height l) (width l) (channels l) (pad l) (out_w l) (out_h l) (out_c l) (size l) (stride l) (probability l) (scale l) (output l) (delta l) (state l) (indexes l).
Definition set_height v l := mk (layer_type l) (layer_vptr l) (n_inputs l) (n_outputs l) (max_outputs l) v (width l) (channels l) (pad l) (out_w l) (out_h l) (out_c l) (size l) (stride l) (probability l) (scale l) (output l) (delta l) (state l) (indexes l).
Definition set_width v l := mk (layer_type l) (layer_vptr l) (n_inputs l) (n_outputs l) (max_outputs l) (height l) v (channels l) (pad l) (out_w l) (out_h l) (out_c l) (size l) (stride l) (probability l) (scale l) (output l) (delta l) (state l) (indexes l).
Definition set_channels v l := mk (layer_type l) (layer_vptr l) (n_inputs l) (n_outputs l) (max_outputs l) (height l) (width l) v (pad l) (out_w l) (out_h l) (out_c l) (size l) (stride l) (probability l) (scale l) (output l) (delta l) (state l) (indexes l).
Definition set_pad v l := mk (layer_type l) (layer_vptr l) (n_inputs l) (n_outputs l) (max_outputs l) (height l) (width l) (channels l) v (out_w l) (out_h l) (out_c l) (size l) (stride l) (probability l) (scale l) (output l) (delta l) (state l) (indexes l).
Definition set_out_w v l := mk (layer_type l) (layer_vptr l) (n_inputs l) (n_outputs l) (max_outputs l) (height l) (width l) (channels l) (pad l) v (out_h l) (out_c l) (size l) (stride l) (probability l) (scale l) (output l) (delta l) (state l) (indexes l).
Definition set_out_h v l := mk (layer_type l) (layer_vptr l) (n_inputs l) (n_outputs l) (max_outputs l) (height l) (width l) (channels l) (pad l) (out_w l) v (out_c l) (size l) (stride l) (probability l) (scale l) (output l) (delta l) (state l) (indexes l).
Definition set_out_c v l := mk (layer_type l) (layer_vptr l) (n_inputs l) (n_outputs l) (max_outputs l) (height l) (width l) (channels l) (pad l) (out_w l) (out_h l) v (size l) (stride l) (probability l) (scale l) (output l) (delta l) (state l) (indexes l).
Definition set_size v l := mk (layer_type l) (layer_vptr l) (n_inputs l) (n_outputs l) (max_outputs l) (height l) (width l) (channels l) (pad l) (out_w l) (out_h l) (out_c l) v (stride l) (probability l) (scale l) (output l) (delta l) (state l) (indexes l).
Definition set_stride v l := mk (layer_type l) (layer_vptr l) (n_inputs l) (n_outputs l) (max_outputs l) (height l) (width l) (channels l) (pad l) (out_w l) (out_h l) (out_c l) (size l) v (probability l) (scale l) (output l) (delta l) (state l) (indexes l).
Definition set_probability v l := mk (layer_type l) (layer_vptr l) (n_inputs l) (n_outputs l) (max_outputs l) (height l) (width l) (channels l) (pad l) (out_w l) (out_h l) (out_c l) (size l) (stride l) v (scale l) (output l) (delta l) (state l) (indexes l).
Definition set_scale v l := mk (layer_type l) (layer_vptr l) (n_inputs l) (n_outputs l) (max_outputs l) (height l) (width l) (channels l) (pad l) (out_w l) (out_h l) (out_c l) (size l) (stride l) (probability l) v (output l) (delta l) (state l) (indexes l).
Definition set_output v l := mk (layer_type l) (layer_vptr l) (n_inputs l) (n_outputs l) (max_outputs l) (height l) (width l) (channels l) (pad l) (out_w l) (out_h l) (out_c l) (size l) (stride l) (probability l) (scale l) v (delta l) (state l) (indexes l).
Definition set_delta v l := mk (layer_type l) (layer_vptr l) (n_inputs l) (n_outputs l) (max_outputs l) (height l) (width l) (channels l) (pad l) (out_w l) (out_h l) (out_c l) (size l) (stride l) (probability l) (scale l) (output l) v (state l) (indexes l).
Definition set_state v l := mk (layer_type l) (layer_vptr l) (n_inputs l) (n_outputs l) (max_outputs l) (height l) (width l) (channels l) (pad l) (out_w l) (out_h l) (out_c l) (size l) (stride l) (probability l) (scale l) (output l) (delta l) v (indexes l).
Definition set_indexes v l := mk (layer_type l) (layer_vptr l) (n_inputs l) (n_outputs l) (max_outputs l) (height l) (width l) (channels l) (pad l) (out_w l) (out_h l) (out_c l) (size l) (stride l) (probability l) (scale l) (output l) (delta l) (state l) v.
End Layer.

(** ** The store *)

Inductive block : Type :=
| BDoubles (ds : list double)
| BInts (zs : list Z)
| BLayer (l : Layer.t).

(** Virtual calls of the learning path, recorded in call order. *)
Inductive event : Type :=
| EvForward (l : addr) (input : ptr)
| EvBackward (l : addr) (input : ptr) (delta : ptr)
| EvUpdate (l : addr).

(** The machine state: the heap, the number of random draws made so far, and
    the trace of virtual calls. *)
Record state : Type := mkState {
  heap : gmap addr block;
  rng : nat;
  trace : list event
}.

Definition set_heap (h : gmap addr block) (s : state) : state :=
  mkState h (rng s) (trace s).

(** ** Outcomes and the state monad *)

Inductive outcome (A : Type) : Type :=
| Ok (a : A) (s : state)                (* the call returns *)
| Exit (diag : string) (s : state)      (* printf(diag); exit(EXIT_FAILURE) *)
| Fault.                                (* undefined behaviour *)
Arguments Ok {A} a s.
Arguments Exit {A} diag s.
Arguments Fault {A}.

Definition M (A : Type) : Type := state -> outcome A.

Definition ret {A} (a : A) : M A := fun s => Ok a s.

Definition bind {A B} (m : M A) (f : A -> M B) : M B :=
  fun s =>
    match m s with
    | Ok a s' => f a s'
    | Exit d s' => Exit d s'
    | Fault => Fault
    end.

Notation "'let*' x ':=' m 'in' k" := (bind m (fun x => k))
  (at level 10, x name, m at level 100, k at level 200).
Notation "m ';;;' k" := (bind m (fun _ => k))
  (at level 100, k at level 200, right associativity).

Definition fault {A} : M A := fun _ => Fault.
Definition abort {A} (diag : string) : M A := fun s => Exit diag s.

Definition lift_option {A} (o : option A) : M A :=
  match o with Some a => ret a | None => fault end.

(** [for (int i = lo; i < hi; ++i) body(i)], for a bound the body leaves alone. *)
Fixpoint for_loop (n : nat) (i : Z) (body : Z -> M unit) : M unit :=
  match n with
  | O => ret tt
  | S n' => body i ;;; for_loop n' (i + 1) body
  end.

Definition for_int (lo hi : Z) (body : Z -> M unit) : M unit :=
  for_loop (Z.to_nat (hi - lo)) lo body.

(** A loop over the nodes of a list, in the order given. *)
Fixpoint for_each {A} (l : list A) (body : A -> M unit) : M unit :=
  match l with
  | [] => ret tt
  | a :: l' => body a ;;; for_each l' body
  end.

(** ** Memory primitives *)

Definition doubles_at (s : state) (p : ptr) : option (list double) :=
  match p with
  | Some a => match heap s !! a with Some (BDoubles ds) => Some ds | _ => None end
  | None => None
  end.

Definition ints_at (s : state) (p : ptr) : option (list Z) :=
  match p with
  | Some a => match heap s !! a with Some (BInts zs) => Some zs | _ => None end
  | None => None
  end.

Definition layer_at (s : state) (a : addr) : option Layer.t :=
  match heap s !! a with Some (BLayer l) => Some l | _ => None end.

(** [p[i]] as an rvalue, without touching the state. *)
Definition peek_double (s : state) (p : ptr) (i : Z) : option double :=
  match doubles_at s p with
  | Some ds => if 0 <=? i then ds !! Z.to_nat i else None
  | None => None
  end.

Definition peek_int (s : state) (p : ptr) (i : Z) : option Z :=
  match ints_at s p with
  | Some zs => if 0 <=? i then zs !! Z.to_nat i else None
  | None => None
  end.

Definition read_double (p : ptr) (i : Z) : M double :=
  fun s => match peek_double s p i with Some v => Ok v s | None => Fault end.

Definition read_int (p : ptr) (i : Z) : M Z :=
  fun s => match peek_int s p i with Some v => Ok v s | None => Fault end.

Definition write_double (p : ptr) (i : Z) (v : double) : M unit :=
  fun s =>
    match p, doubles_at s p with
    | Some a, Some ds =>
        if (0 <=? i) && (i <? Z.of_nat (length ds)) then
          Ok tt (set_heap (<[a := BDoubles (<[Z.to_nat i := v]> ds)]> (heap s)) s)
        else Fault
    | _, _ => Fault
    end.

Definition write_int (p : ptr) (i : Z) (v : Z) : M unit :=
  fun s =>
    match p, ints_at s p with
    | Some a, Some zs =>
        if (0 <=? i) && (i <? Z.of_nat (length zs)) then
          Ok tt (set_heap (<[a := BInts (<[Z.to_nat i := v]> zs)]> (heap s)) s)
        else Fault
    | _, _ => Fault
    end.

(** [l->member] reads and writes go through the struct's block. *)
Definition load_layer (l : addr) : M Layer.t :=
  fun s => match layer_at s l with Some L => Ok L s | None => Fault end.

Definition modify_layer (l : addr) (f : Layer.t -> Layer.t) : M unit :=
  fun s =>
    match layer_at s l with
    | Some L => Ok tt (set_heap (<[l := BLayer (f L)]> (heap s)) s)
    | None => Fault
    end.

(** [malloc]: a block at an address that is not in use. Allocation failure is
    not modelled. *)
Definition malloc_block (b : block) : M addr :=
  fun s =>
    let a := fresh (dom (heap s)) in
    Ok a (set_heap (<[a := b]> (heap s)) s).

(** [calloc(n, sizeof(double))] and [calloc(n, sizeof(int))]: zeroed cells. *)
Definition calloc_doubles (n : Z) : M ptr :=
  let* a := malloc_block (BDoubles (replicate (Z.to_nat n) 0%float)) in ret (Some a).

Definition calloc_ints (n : Z) : M ptr :=
  let* a := malloc_block (BInts (replicate (Z.to_nat n) 0)) in ret (Some a).

(** [free(p)]: nothing for [NULL], undefined for a pointer that is not live. *)
Definition free (p : ptr) : M unit :=
  fun s =>
    match p with
    | None => Ok tt s
    | Some a =>
        match heap s !! a with
        | Some _ => Ok tt (set_heap (delete a (heap s)) s)
        | None => Fault
        end
    end.

(** [memcpy(dst, src, sizeof(double) * n)]: the regions must lie inside their
    blocks and must not overlap. *)
Definition memcpy_doubles (dst src : ptr) (n : Z) : M unit :=
  fun s =>
    match dst, doubles_at s dst, doubles_at s src with
    | Some a, Some d, Some x =>
        if (0 <=? n) && (n <=? Z.of_nat (length d)) && (n <=? Z.of_nat (length x))
           && negb (bool_decide (dst = src)) then
          Ok tt (set_heap
                   (<[a := BDoubles (take (Z.to_nat n) x ++ drop (Z.to_nat n) d)]> (heap s)) s)
        else Fault
    | _, _, _ => Fault
    end.

(** [memset(p, 0, sizeof(double) * n)]: all-zero bytes are the double [+0.0]. *)
Definition memset_zero_doubles (p : ptr) (n : Z) : M unit :=
  fun s =>
    match p, doubles_at s p with
    | Some a, Some d =>
        if (0 <=? n) && (n <=? Z.of_nat (length d)) then
          Ok tt (set_heap
                   (<[a := BDoubles (replicate (Z.to_nat n) 0%float ++ drop (Z.to_nat n) d)]>
                      (heap s)) s)
        else Fault
    | _, _ => Fault
    end.

Definition emit (e : event) : M unit :=
  fun s => Ok tt (mkState (heap s) (rng s) (trace s ++ [e])).

(** ** Engine parameters, classifiers and files *)

(** [struct XCSF], restricted to the members the embedded sources read. *)
Record XCSF : Type := mkXCSF {
  BETA : double;
  y_dim : Z;
  explore : bool
}.

(** [struct Cl], restricted to the members [pred_constant.c] uses. *)
Record Cl : Type := mkCl {
  exp : Z;
  prediction : ptr
}.

(** A binary file as the sequence of elements written by [fwrite]: each item
    stands for the [sizeof] bytes of one element. *)
Inductive item : Type :=
| IInt (z : Z)
| IDouble (d : double).

Definition file := list item.

Definition newline : string := String (ascii_of_nat 10) EmptyString.

(** ** Virtual tables *)

(** [struct LayerVtbl] without its print entry. A save or load takes the file
    position and returns the element count with the new position. *)
Record LayerVtbl : Type := mkVtbl {
  layer_impl_mutate : XCSF -> addr -> M bool;
  layer_impl_resize : XCSF -> addr -> addr -> M unit;
  layer_impl_copy : XCSF -> addr -> M addr;
  layer_impl_free : XCSF -> addr -> M unit;
  layer_impl_rand : XCSF -> addr -> M unit;
  layer_impl_update : XCSF -> addr -> M unit;
  layer_impl_backward : XCSF -> addr -> ptr -> ptr -> M unit;
  layer_impl_forward : XCSF -> addr -> ptr -> M unit;
  layer_impl_output : XCSF -> addr -> M ptr;
  layer_impl_save : XCSF -> addr -> file -> M (Z * file);
  layer_impl_load : XCSF -> addr -> file -> M (Z * file)
}.

(** ** What the embedded sources take from the rest of the repository

    The headers [neural_layer.h], [neural.h], [xcsf.h] and the file [utils.c]
    are not among the embedded sources. Their constants, the initialiser
    [layer_init], the random source and the other layer kinds are parameters
    of the development. *)
Class Externals : Type := {
  (** layer type codes of [neural_layer.h] *)
  DROPOUT : Z;
  MAXPOOL : Z;
  DROPOUT_MAXPOOL : DROPOUT ≠ MAXPOOL;
  (** allocation limits of [neural_layer.h] *)
  N_INPUTS_MAX : Z;
  N_OUTPUTS_MAX : Z;
  (** [layer_init], applied to the members of a fresh struct *)
  layer_init : Layer.t -> Layer.t;
  (** the value of the [n]-th call of [rand_uniform(min, max)] *)
  rand_uniform_seq : nat -> double -> double -> double;
  (** indeterminate contents of fresh [malloc] and grown [realloc] memory *)
  junk_layer : addr -> Layer.t;
  junk_double : double;
  junk_int : Z;
  (** the virtual tables of the other layer kinds, by type code *)
  ext_vtbl : Z -> LayerVtbl
}.

Section Model.

Context {E : Externals}.

Definition rand_uniform (min max : double) : M double :=
  fun s => Ok (rand_uniform_seq (rng s) min max) (mkState (heap s) (S (rng s)) (trace s)).

(** [malloc(sizeof(struct Layer))] *)
Definition malloc_layer : M addr :=
  fun s =>
    let a := fresh (dom (heap s)) in
    Ok a (set_heap (<[a := BLayer (junk_layer a)]> (heap s)) s).

(** [realloc(p, sizeof(double) * n)]. A negative [n] converts to a size no
    allocation can serve: the call returns [NULL] and leaves the block. For
    [n = 0] the block is freed and [NULL] returned (the glibc behaviour).
    Otherwise the contents move to a block of [n] cells. *)
Definition realloc_doubles (p : ptr) (n : Z) : M ptr :=
  fun s =>
    if n <? 0 then Ok None s
    else
      match p with
      | None =>
          if n =? 0 then Ok None s
          else (let* a := malloc_block (BDoubles (replicate (Z.to_nat n) junk_double)) in
                ret (Some a)) s
      | Some a =>
          match heap s !! a with
          | Some (BDoubles ds) =>
              if n =? 0 then Ok None (set_heap (delete a (heap s)) s)
              else
                let ds' := take (Z.to_nat n) ds
                             ++ replicate (Z.to_nat n - length ds) junk_double in
                (let* a' := malloc_block (BDoubles ds') in ret (Some a'))
                  (set_heap (delete a (heap s)) s)
          | _ => Fault
          end
      end.

Definition realloc_ints (p : ptr) (n : Z) : M ptr :=
  fun s =>
    if n <? 0 then Ok None s
    else
      match p with
      | None =>
          if n =? 0 then Ok None s
          else (let* a := malloc_block (BInts (replicate (Z.to_nat n) junk_int)) in
                ret (Some a)) s
      | Some a =>
          match heap s !! a with
          | Some (BInts zs) =>
              if n =? 0 then Ok None (set_heap (delete a (heap s)) s)
              else
                let zs' := take (Z.to_nat n) zs
                             ++ replicate (Z.to_nat n - length zs) junk_int in
                (let* a' := malloc_block (BInts zs') in ret (Some a'))
                  (set_heap (delete a (heap s)) s)
          | _ => Fault
          end
      end.

(** [s += fread(&l->member, sizeof(int), 1, fp)]: at the end of the file
    nothing is read and the member keeps its value. Reading an [int] where a
    [double] was written (or the converse) is outside this file model. *)
Definition fread_int_member (l : addr) (set : Z -> Layer.t -> Layer.t)
    (sfp : Z * file) : M (Z * file) :=
  match snd sfp with
  | IInt z :: fp' => modify_layer l (set z) ;;; ret (fst sfp + 1, fp')
  | [] => ret sfp
  | IDouble _ :: _ => fault
  end.

Definition fread_double_member (l : addr) (set : double -> Layer.t -> Layer.t)
    (sfp : Z * file) : M (Z * file) :=
  match snd sfp with
  | IDouble d :: fp' => modify_layer l (set d) ;;; ret (fst sfp + 1, fp')
  | [] => ret sfp
  | IInt _ :: _ => fault
  end.

(** *** neural_layer_dropout.c *)

Definition dropout_malloc_layer_arrays (l : addr) : M unit :=
  let* L := load_layer l in
  if (Layer.n_inputs L <? 1) || (N_INPUTS_MAX <? Layer.n_inputs L) then
    modify_layer l (Layer.set_n_inputs 1) ;;;
    abort ("neural_layer_dropout: malloc() invalid size" ++ newline)
  else
    let* o := calloc_doubles (Layer.n_inputs L) in
    modify_layer l (Layer.set_output o) ;;;
    let* d := calloc_doubles (Layer.n_inputs L) in
    modify_layer l (Layer.set_delta d) ;;;
    let* st := calloc_doubles (Layer.n_inputs L) in
    modify_layer l (Layer.set_state st).

Definition dropout_free_layer_arrays (l : addr) : M unit :=
  let* L := load_layer l in
  free (Layer.output L) ;;;
  free (Layer.delta L) ;;;
  free (Layer.state L).

Definition neural_layer_dropout_init (xcsf : XCSF) (n_inputs : Z)
    (probability : double) : M addr :=
  let* l := malloc_layer in
  modify_layer l layer_init ;;;
  modify_layer l (Layer.set_layer_type DROPOUT) ;;;
  modify_layer l (Layer.set_layer_vptr VDropout) ;;;
  modify_layer l (Layer.set_n_inputs n_inputs) ;;;
  modify_layer l (Layer.set_n_outputs n_inputs) ;;;
  modify_layer l (Layer.set_max_outputs n_inputs) ;;;
  modify_layer l (Layer.set_probability probability) ;;;
  modify_layer l (Layer.set_scale (1 / (1 - probability))%float) ;;;
  dropout_malloc_layer_arrays l ;;;
  ret l.

Definition neural_layer_dropout_free (xcsf : XCSF) (l : addr) : M unit :=
  dropout_free_layer_arrays l.

Definition neural_layer_dropout_copy (xcsf : XCSF) (src : addr) : M addr :=
  let* S := load_layer src in
  if negb (Layer.layer_type S =? DROPOUT) then
    abort ("neural_layer_dropout_copy(): incorrect source layer type" ++ newline)
  else
    let* l := malloc_layer in
    modify_layer l layer_init ;;;
    let* S := load_layer src in
    modify_layer l (Layer.set_layer_type (Layer.layer_type S)) ;;;
    modify_layer l (Layer.set_layer_vptr (Layer.layer_vptr S)) ;;;
    modify_layer l (Layer.set_n_inputs (Layer.n_inputs S)) ;;;
    modify_layer l (Layer.set_n_outputs (Layer.n_inputs S)) ;;;
    modify_layer l (Layer.set_max_outputs (Layer.max_outputs S)) ;;;
    modify_layer l (Layer.set_probability (Layer.probability S)) ;;;
    modify_layer l (Layer.set_scale (Layer.scale S)) ;;;
    dropout_malloc_layer_arrays l ;;;
    ret l.

Definition neural_layer_dropout_rand (xcsf : XCSF) (l : addr) : M unit := ret tt.

Definition neural_layer_dropout_forward (xcsf : XCSF) (l : addr) (input : ptr) : M unit :=
  let* L := load_layer l in
  if negb (explore xcsf) then
    memcpy_doubles (Layer.output L) input (Layer.n_inputs L)
  else
    for_int 0 (Layer.n_inputs L) (fun i =>
      let* r := rand_uniform 0%float 1%float in
      write_double (Layer.state L) i r ;;;
      let* st := read_double (Layer.state L) i in
      if dlt st (Layer.probability L) then
        write_double (Layer.output L) i 0%float
      else
        let* x := read_double input i in
        write_double (Layer.output L) i (x * Layer.scale L)%float).

Definition neural_layer_dropout_backward (xcsf : XCSF) (l : addr) (input : ptr)
    (delta : ptr) : M unit :=
  let* L := load_layer l in
  match delta with
  | None => ret tt
  | Some _ =>
      for_int 0 (Layer.n_inputs L) (fun i =>
        let* st := read_double (Layer.state L) i in
        if dlt st (Layer.probability L) then
          write_double delta i 0%float
        else
          let* d := read_double delta i in
          let* ld := read_double (Layer.delta L) i in
          write_double delta i (d + ld * Layer.scale L)%float)
  end.

Definition neural_layer_dropout_update (xcsf : XCSF) (l : addr) : M unit := ret tt.

Definition neural_layer_dropout_mutate (xcsf : XCSF) (l : addr) : M bool := ret false.

Definition neural_layer_dropout_resize (xcsf : XCSF) (l : addr) (prev : addr) : M unit :=
  let* P := load_layer prev in
  modify_layer l (Layer.set_n_inputs (Layer.n_outputs P)) ;;;
  let* P := load_layer prev in
  modify_layer l (Layer.set_n_outputs (Layer.n_outputs P)) ;;;
  let* P := load_layer prev in
  modify_layer l (Layer.set_max_outputs (Layer.n_outputs P)) ;;;
  let* L := load_layer l in
  let* st := realloc_doubles (Layer.state L) (Layer.n_outputs L) in
  modify_layer l (Layer.set_state st) ;;;
  let* L := load_layer l in
  let* o := realloc_doubles (Layer.output L) (Layer.n_outputs L) in
  modify_layer l (Layer.set_output o) ;;;
  let* L := load_layer l in
  let* d := realloc_doubles (Layer.delta L) (Layer.n_outputs L) in
  modify_layer l (Layer.set_delta d).

Definition neural_layer_dropout_output (xcsf : XCSF) (l : addr) : M ptr :=
  let* L := load_layer l in ret (Layer.output L).

Definition neural_layer_dropout_save (xcsf : XCSF) (l : addr) (fp : file) : M (Z * file) :=
  let* L := load_layer l in
  ret (5, fp ++ [IInt (Layer.n_inputs L); IInt (Layer.n_outputs L);
                 IInt (Layer.max_outputs L); IDouble (Layer.probability L);
                 IDouble (Layer.scale L)]).

Definition neural_layer_dropout_load (xcsf : XCSF) (l : addr) (fp : file) : M (Z * file) :=
  let* r := fread_int_member l Layer.set_n_inputs (0, fp) in
  let* r := fread_int_member l Layer.set_n_outputs r in
  let* r := fread_int_member l Layer.set_max_outputs r in
  let* r := fread_double_member l Layer.set_probability r in
  let* r := fread_double_member l Layer.set_scale r in
  dropout_malloc_layer_arrays l ;;;
  ret r.

Definition layer_dropout_vtbl : LayerVtbl :=
  mkVtbl neural_layer_dropout_mutate neural_layer_dropout_resize
         neural_layer_dropout_copy neural_layer_dropout_free
         neural_layer_dropout_rand neural_layer_dropout_update
         neural_layer_dropout_backward neural_layer_dropout_forward
         neural_layer_dropout_output neural_layer_dropout_save
         neural_layer_dropout_load.


(** *** neural_layer_maxpool.c *)

Definition maxpool_malloc_layer_arrays (l : addr) : M unit :=
  let* L := load_layer l in
  if (Layer.n_outputs L <? 1) || (N_OUTPUTS_MAX <? Layer.n_outputs L) then
    modify_layer l (Layer.set_n_outputs 1) ;;;
    abort ("neural_layer_maxpool: malloc() invalid size" ++ newline)
  else
    let* ix := calloc_ints (Layer.n_outputs L) in
    modify_layer l (Layer.set_indexes ix) ;;;
    let* o := calloc_doubles (Layer.n_outputs L) in
    modify_layer l (Layer.set_output o) ;;;
    let* d := calloc_doubles (Layer.n_outputs L) in
    modify_layer l (Layer.set_delta d).

Definition neural_layer_maxpool_init (xcsf : XCSF) (h w c size stride pad : Z) : M addr :=
  let* l := malloc_layer in
  modify_layer l layer_init ;;;
  modify_layer l (Layer.set_layer_type MAXPOOL) ;;;
  modify_layer l (Layer.set_layer_vptr VMaxpool) ;;;
  modify_layer l (Layer.set_height h) ;;;
  modify_layer l (Layer.set_width w) ;;;
  modify_layer l (Layer.set_channels c) ;;;
  modify_layer l (Layer.set_pad pad) ;;;
  let* qw := lift_option (idiv (isub (iadd w pad) size) stride) in
  modify_layer l (Layer.set_out_w (iadd qw 1)) ;;;
  let* qh := lift_option (idiv (isub (iadd h pad) size) stride) in
  modify_layer l (Layer.set_out_h (iadd qh 1)) ;;;
  modify_layer l (Layer.set_out_c c) ;;;
  let* L := load_layer l in
  modify_layer l
    (Layer.set_n_outputs (imul (imul (Layer.out_h L) (Layer.out_w L)) (Layer.out_c L))) ;;;
  let* L := load_layer l in
  modify_layer l (Layer.set_max_outputs (Layer.n_outputs L)) ;;;
  modify_layer l (Layer.set_n_inputs (imul (imul h w) c)) ;;;
  modify_layer l (Layer.set_size size) ;;;
  modify_layer l (Layer.set_stride stride) ;;;
  maxpool_malloc_layer_arrays l ;;;
  ret l.

Definition neural_layer_maxpool_copy (xcsf : XCSF) (src : addr) : M addr :=
  let* S := load_layer src in
  if negb (Layer.layer_type S =? MAXPOOL) then
    abort ("neural_layer_maxpool_copy(): incorrect source layer type" ++ newline)
  else
    let* l := malloc_layer in
    modify_layer l layer_init ;;;
    let* S := load_layer src in
    modify_layer l (Layer.set_layer_type (Layer.layer_type S)) ;;;
    modify_layer l (Layer.set_layer_vptr (Layer.layer_vptr S)) ;;;
    modify_layer l (Layer.set_height (Layer.height S)) ;;;
    modify_layer l (Layer.set_width (Layer.width S)) ;;;
    modify_layer l (Layer.set_channels (Layer.channels S)) ;;;
    modify_layer l (Layer.set_pad (Layer.pad S)) ;;;
    modify_layer l (Layer.set_out_w (Layer.out_w S)) ;;;
    modify_layer l (Layer.set_out_h (Layer.out_h S)) ;;;
    modify_layer l (Layer.set_out_c (Layer.out_c S)) ;;;
    modify_layer l (Layer.set_n_outputs (Layer.n_outputs S)) ;;;
    modify_layer l (Layer.set_max_outputs (Layer.max_outputs S)) ;;;
    modify_layer l (Layer.set_n_inputs (Layer.n_inputs S)) ;;;
    modify_layer l (Layer.set_size (Layer.size S)) ;;;
    modify_layer l (Layer.set_stride (Layer.stride S)) ;;;
    maxpool_malloc_layer_arrays l ;;;
    ret l.

Definition neural_layer_maxpool_free (xcsf : XCSF) (l : addr) : M unit :=
  let* L := load_layer l in
  free (Layer.indexes L) ;;;
  free (Layer.output L) ;;;
  free (Layer.delta L).

Definition neural_layer_maxpool_rand (xcsf : XCSF) (l : addr) : M unit := ret tt.

(** A loop that only computes: [body i] maps the loop variables to their next
    values, or is undefined. *)
Fixpoint scan_loop {St} (n : nat) (i : Z) (body : Z -> St -> option St) (st : St)
    : option St :=
  match n with
  | O => Some st
  | S n' => match body i st with
            | Some st' => scan_loop n' (i + 1) body st'
            | None => None
            end
  end.

Definition scan_int {St} (lo hi : Z) (body : Z -> St -> option St) (st : St) : option St :=
  scan_loop (Z.to_nat (hi - lo)) lo body st.

(** [max_pool] writes nothing: it is a function of the layer's members and of
    the input array, given as the partial map [input] from indices to cells
    (undefined outside the array). The loop variables are [(max, max_index)]. *)
Definition max_pool (L : Layer.t) (input : Z -> option double) (i j k : Z) : option Z :=
  let w_offset := int_wrap (ineg (Layer.pad L) ÷ 2) in
  let h_offset := w_offset in
  let max := (- DBL_MAX)%float in
  let max_index := -1 in
  match
    scan_int 0 (Layer.size L) (fun n st =>
      scan_int 0 (Layer.size L) (fun m '(max, max_index) =>
        let cur_h := iadd (iadd h_offset (imul i (Layer.stride L))) n in
        let cur_w := iadd (iadd w_offset (imul j (Layer.stride L))) m in
        let index := iadd cur_w (imul (Layer.width L)
                                      (iadd cur_h (imul (Layer.height L) k))) in
        if (0 <=? cur_h) && (cur_h <? Layer.height L) && (0 <=? cur_w)
           && (cur_w <? Layer.width L) then
          match input index with
          | Some v => if dlt max v then Some (v, index) else Some (max, max_index)
          | None => None
          end
        else Some (max, max_index)) st)
      (max, max_index)
  with
  | Some (_, max_index) => Some max_index
  | None => None
  end.

(** The call [max_pool(l, input, i, j, k)] in the current state. *)
Definition call_max_pool (L : Layer.t) (input : ptr) (i j k : Z) : M Z :=
  fun s => lift_option (max_pool L (peek_double s input) i j k) s.

Definition neural_layer_maxpool_forward (xcsf : XCSF) (l : addr) (input : ptr) : M unit :=
  let* L := load_layer l in
  for_int 0 (Layer.channels L) (fun k =>
    for_int 0 (Layer.out_h L) (fun i =>
      for_int 0 (Layer.out_w L) (fun j =>
        let out_index := iadd j (imul (Layer.out_w L) (iadd i (imul (Layer.out_h L) k))) in
        let* max_index := call_max_pool L input i j k in
        write_int (Layer.indexes L) out_index max_index ;;;
        let* v := read_double input max_index in
        write_double (Layer.output L) out_index v))).

Definition neural_layer_maxpool_backward (xcsf : XCSF) (l : addr) (input : ptr)
    (delta : ptr) : M unit :=
  let* L := load_layer l in
  match delta with
  | None => ret tt
  | Some _ =>
      for_int 0 (Layer.n_outputs L) (fun i =>
        let* ix := read_int (Layer.indexes L) i in
        let* d := read_double delta ix in
        let* ld := read_double (Layer.delta L) i in
        write_double delta ix (d + ld)%float)
  end.

Definition neural_layer_maxpool_update (xcsf : XCSF) (l : addr) : M unit := ret tt.

Definition neural_layer_maxpool_mutate (xcsf : XCSF) (l : addr) : M bool := ret false.

Definition neural_layer_maxpool_resize (xcsf : XCSF) (l : addr) (prev : addr) : M unit :=
  let* P := load_layer prev in
  let w := Layer.out_w P in
  let h := Layer.out_h P in
  let c := Layer.out_c P in
  modify_layer l (Layer.set_height h) ;;;
  modify_layer l (Layer.set_width w) ;;;
  modify_layer l (Layer.set_channels c) ;;;
  modify_layer l (Layer.set_n_inputs (imul (imul h w) c)) ;;;
  let* L := load_layer l in
  let* qw := lift_option (idiv (isub (iadd w (Layer.pad L)) (Layer.size L)) (Layer.stride L)) in
  modify_layer l (Layer.set_out_w (iadd qw 1)) ;;;
  let* L := load_layer l in
  let* qh := lift_option (idiv (isub (iadd h (Layer.pad L)) (Layer.size L)) (Layer.stride L)) in
  modify_layer l (Layer.set_out_h (iadd qh 1)) ;;;
  modify_layer l (Layer.set_out_c c) ;;;
  let* L := load_layer l in
  modify_layer l
    (Layer.set_n_outputs (imul (imul (Layer.out_h L) (Layer.out_w L)) (Layer.out_c L))) ;;;
  let* L := load_layer l in
  modify_layer l (Layer.set_max_outputs (Layer.n_outputs L)) ;;;
  let* L := load_layer l in
  let* ix := realloc_ints (Layer.indexes L) (Layer.n_outputs L) in
  modify_layer l (Layer.set_indexes ix) ;;;
  let* L := load_layer l in
  let* o := realloc_doubles (Layer.output L) (Layer.n_outputs L) in
  modify_layer l (Layer.set_output o) ;;;
  let* L := load_layer l in
  let* d := realloc_doubles (Layer.delta L) (Layer.n_outputs L) in
  modify_layer l (Layer.set_delta d).

Definition neural_layer_maxpool_output (xcsf : XCSF) (l : addr) : M ptr :=
  let* L := load_layer l in ret (Layer.output L).

Definition neural_layer_maxpool_save (xcsf : XCSF) (l : addr) (fp : file) : M (Z * file) :=
  let* L := load_layer l in
  ret (12, fp ++ [IInt (Layer.height L); IInt (Layer.width L); IInt (Layer.channels L);
                  IInt (Layer.pad L); IInt (Layer.out_w L); IInt (Layer.out_h L);
                  IInt (Layer.out_c L); IInt (Layer.n_outputs L);
                  IInt (Layer.max_outputs L); IInt (Layer.n_inputs L);
                  IInt (Layer.size L); IInt (Layer.stride L)]).

Definition neural_layer_maxpool_load (xcsf : XCSF) (l : addr) (fp : file) : M (Z * file) :=
  let* r := fread_int_member l Layer.set_height (0, fp) in
  let* r := fread_int_member l Layer.set_width r in
  let* r := fread_int_member l Layer.set_channels r in
  let* r := fread_int_member l Layer.set_pad r in
  let* r := fread_int_member l Layer.set_out_w r in
  let* r := fread_int_member l Layer.set_out_h r in
  let* r := fread_int_member l Layer.set_out_c r in
  let* r := fread_int_member l Layer.set_n_outputs r in
  let* r := fread_int_member l Layer.set_max_outputs r in
  let* r := fread_int_member l Layer.set_n_inputs r in
  let* r := fread_int_member l Layer.set_size r in
  let* r := fread_int_member l Layer.set_stride r in
  maxpool_malloc_layer_arrays l ;;;
  ret r.

Definition layer_maxpool_vtbl : LayerVtbl :=
  mkVtbl neural_layer_maxpool_mutate neural_layer_maxpool_resize
         neural_layer_maxpool_copy neural_layer_maxpool_free
         neural_layer_maxpool_rand neural_layer_maxpool_update
         neural_layer_maxpool_backward neural_layer_maxpool_forward
         neural_layer_maxpool_output neural_layer_maxpool_save
         neural_layer_maxpool_load.

(** *** Virtual dispatch *)

Definition vtbl_of (v : vptr) : LayerVtbl :=
  match v with
  | VDropout => layer_dropout_vtbl
  | VMaxpool => layer_maxpool_vtbl
  | VExt t => ext_vtbl t
  end.

(** Modelled from the spec: [neural_layer.h] with [layer_set_vptr] is missing;
    following section 9 (variant tags select the virtual table), the table is
    chosen by the layer's type code. *)
Definition layer_set_vptr (l : addr) : M unit :=
  let* L := load_layer l in
  modify_layer l
    (Layer.set_layer_vptr
       (if Layer.layer_type L =? MAXPOOL then VMaxpool
        else if Layer.layer_type L =? DROPOUT then VDropout
        else VExt (Layer.layer_type L))).

(** Modelled from the spec: the inline dispatchers of the missing
    [neural_layer.h]; each calls the entry of the table the layer points to
    (section 9). The three calls of the learning path are traced. *)
Definition layer_mutate (xcsf : XCSF) (l : addr) : M bool :=
  let* L := load_layer l in layer_impl_mutate (vtbl_of (Layer.layer_vptr L)) xcsf l.

Definition layer_resize (xcsf : XCSF) (l prev : addr) : M unit :=
  let* L := load_layer l in layer_impl_resize (vtbl_of (Layer.layer_vptr L)) xcsf l prev.


Definition layer_free (xcsf : XCSF) (l : addr) : M unit :=
  let* L := load_layer l in layer_impl_free (vtbl_of (Layer.layer_vptr L)) xcsf l.

Definition layer_rand (xcsf : XCSF) (l : addr) : M unit :=
  let* L := load_layer l in layer_impl_rand (vtbl_of (Layer.layer_vptr L)) xcsf l.

Definition layer_update (xcsf : XCSF) (l : addr) : M unit :=
  emit (EvUpdate l) ;;;
  let* L := load_layer l in layer_impl_update (vtbl_of (Layer.layer_vptr L)) xcsf l.

Definition layer_backward (xcsf : XCSF) (l : addr) (input delta : ptr) : M unit :=
  emit (EvBackward l input delta) ;;;
  let* L := load_layer l in
  layer_impl_backward (vtbl_of (Layer.layer_vptr L)) xcsf l input delta.

Definition layer_forward (xcsf : XCSF) (l : addr) (input : ptr) : M unit :=
  emit (EvForward l input) ;;;
  let* L := load_layer l in layer_impl_forward (vtbl_of (Layer.layer_vptr L)) xcsf l input.

Definition layer_output (xcsf : XCSF) (l : addr) : M ptr :=
  let* L := load_layer l in layer_impl_output (vtbl_of (Layer.layer_vptr L)) xcsf l.

Definition layer_save (xcsf : XCSF) (l : addr) (fp : file) : M (Z * file) :=
  let* L := load_layer l in layer_impl_save (vtbl_of (Layer.layer_vptr L)) xcsf l fp.

Definition layer_load (xcsf : XCSF) (l : addr) (fp : file) : M (Z * file) :=
  let* L := load_layer l in layer_impl_load (vtbl_of (Layer.layer_vptr L)) xcsf l fp.

(** *** neural.c

    [struct NET] owns a doubly linked list of nodes, each holding a layer
    pointer. The list is embedded as the sequence [Net.layers] of its layer
    pointers from [net->tail] (index 0, the input side) to [net->head] (the
    last element, the output side): [iter->prev] moves one index up and
    [iter->next] one index down. A position [p] of the C interface is an index
    of this sequence. *)

End Model.

Module Net.
Record t : Type := mk {
  layers : list addr;
  n_layers : Z;
  n_inputs : Z;
  n_outputs : Z;
  output : ptr
}.
End Net.

Section Network.

Context {E : Externals}.

Definition neural_init (xcsf : XCSF) : Net.t := Net.mk [] 0 0 0 None.

(** The node reached from the tail by [p] steps of [iter = iter->prev]
    (no step for [p <= 0]); [None] is [iter == NULL]. *)
Definition walk (ls : list addr) (p : Z) : option nat :=
  let q := Z.to_nat (Z.max p 0) in
  if decide (q < length ls)%nat then Some q else None.

Definition neural_layer_insert (xcsf : XCSF) (net : Net.t) (l : addr) (p : Z) : M Net.t :=
  match Net.layers net with
  | [] =>
      (* empty list *)
      let* L := load_layer l in
      ret (Net.mk [l] (iadd (Net.n_layers net) 1) (Layer.n_inputs L) (Layer.n_outputs L)
                  (Layer.output L))
  | _ :: _ =>
      match walk (Net.layers net) p with
      | None =>
          (* iter == NULL: new head *)
          let* L := load_layer l in
          ret (Net.mk (Net.layers net ++ [l]) (iadd (Net.n_layers net) 1)
                      (Net.n_inputs net) (Layer.n_outputs L) (Layer.output L))
      | Some q =>
          (* new->next = iter->next; iter->next = new; the test
             [iter->next == NULL] then reads the pointer just stored, so the
             "new tail" branch is never taken and the "middle" branch runs
             [new->next->prev = new]. *)
          match q with
          | O =>
              (* iter is the tail: new->next is NULL and is dereferenced *)
              fault
          | S _ =>
              ret (Net.mk (take q (Net.layers net) ++ l :: drop q (Net.layers net))
                          (iadd (Net.n_layers net) 1)
                          (Net.n_inputs net) (Net.n_outputs net) (Net.output net))
          end
      end
  end.

Definition neural_layer_remove (xcsf : XCSF) (net : Net.t) (p : Z) : M Net.t :=
  match walk (Net.layers net) p with
  | None =>
      abort ("neural_layer_remove(): error finding layer to remove" ++ newline)
  | Some q =>
      match Net.layers net !! q with
      | None => fault
      | Some l =>
          if decide (length (Net.layers net) = 1%nat) then
            abort ("neural_layer_remove(): attempted to remove the only layer" ++ newline)
          else
            let ls := delete q (Net.layers net) in
            (* head: iter->prev == NULL *)
            let* net1 :=
              (if decide (S q = length (Net.layers net)) then
                 match last ls with
                 | Some hd =>
                     let* HL := load_layer hd in
                     ret (Net.mk (Net.layers net) (Net.n_layers net) (Net.n_inputs net)
                                 (Layer.n_outputs HL) (Layer.output HL))
                 | None => fault
                 end
               else ret net) in
            (* tail and middle: pointers only *)
            let net2 := Net.mk ls (isub (Net.n_layers net1) 1) (Net.n_inputs net1)
                               (Net.n_outputs net1) (Net.output net1) in
            layer_free xcsf l ;;;
            free (Some l) ;;;
            ret net2
      end
  end.

(** A loop over list nodes that threads loop variables. *)
Fixpoint fold_nodes {A St} (l : list A) (body : A -> St -> M St) (st : St) : M St :=
  match l with
  | [] => ret st
  | a :: l' => let* st' := body a st in fold_nodes l' body st'
  end.


Definition neural_rand (xcsf : XCSF) (net : Net.t) : M unit :=
  for_each (Net.layers net) (fun l => layer_rand xcsf l).

(** The loop variables are [(mod_, prev, do_resize)] ([mod] in the source); [prev] is [NULL] only
    on entry to the first iteration. *)
Definition neural_mutate (xcsf : XCSF) (net : Net.t) : M bool :=
  let* r := fold_nodes (Net.layers net) (fun iter '(mod_, prev, do_resize) =>
              (if (do_resize : bool) then
                 match (prev : ptr) with
                 | Some pv => layer_resize xcsf iter pv
                 | None => fault
                 end
               else ret tt) ;;;
              let* L := load_layer iter in
              let orig_outputs := Layer.n_outputs L in
              let* m := layer_mutate xcsf iter in
              if (m : bool) then
                let* L' := load_layer iter in
                ret (true, Some iter, negb (Layer.n_outputs L' =? orig_outputs))
              else
                ret (mod_, Some iter, false)) (false, None, false) in
  ret (fst (fst r)).

Definition neural_resize (xcsf : XCSF) (net : Net.t) : M unit :=
  let* _ := fold_nodes (Net.layers net) (fun iter (prev : ptr) =>
              (match prev with
               | Some pv =>
                   let* L := load_layer iter in
                   let* P := load_layer pv in
                   if negb (Layer.n_inputs L =? Layer.n_outputs P) then
                     layer_resize xcsf iter pv
                   else ret tt
               | None => ret tt
               end) ;;;
              ret (Some iter)) None in
  ret tt.

(** The loop variable is [input]. *)
Definition neural_propagate (xcsf : XCSF) (net : Net.t) (input : ptr) : M unit :=
  let* _ := fold_nodes (Net.layers net) (fun iter input =>
              layer_forward xcsf iter input ;;;
              layer_output xcsf iter) input in
  ret tt.

(** The four phases of [neural_learn], in source order. *)
Definition learn_reset_deltas (net : Net.t) : M unit :=
  for_each (Net.layers net) (fun l =>
    let* L := load_layer l in
    memset_zero_doubles (Layer.delta L) (Layer.n_outputs L)).

Definition learn_output_error (net : Net.t) (truth : ptr) : M unit :=
  match last (Net.layers net) with
  | None => fault
  | Some p =>
      let* P := load_layer p in
      for_int 0 (Layer.n_outputs P) (fun i =>
        let* t := read_double truth i in
        let* o := read_double (Layer.output P) i in
        write_double (Layer.delta P) i (t - o)%float)
  end.

(** The backward loop runs from the head along [iter->next]: [hl] lists the
    layers from the head down to the tail. *)
Fixpoint learn_backward (xcsf : XCSF) (hl : list addr) (input : ptr) : M unit :=
  match hl with
  | [] => ret tt
  | l :: rest =>
      (match rest with
       | [] => layer_backward xcsf l input None
       | prev :: _ =>
           let* P := load_layer prev in
           layer_backward xcsf l (Layer.output P) (Layer.delta P)
       end) ;;;
      learn_backward xcsf rest input
  end.

Definition learn_update (xcsf : XCSF) (net : Net.t) : M unit :=
  for_each (Net.layers net) (fun l => layer_update xcsf l).

Definition neural_learn (xcsf : XCSF) (net : Net.t) (truth input : ptr) : M unit :=
  learn_reset_deltas net ;;;
  learn_output_error net truth ;;;
  learn_backward xcsf (rev (Net.layers net)) input ;;;
  learn_update xcsf net.

Definition neural_output (xcsf : XCSF) (net : Net.t) (i : Z) : M double :=
  if i <? Net.n_outputs net then
    match last (Net.layers net) with
    | Some hd => let* o := layer_output xcsf hd in read_double o i
    | None => fault
    end
  else
    abort ("neural_output(): requested (" ++ pretty i ++ ") in output layer of size ("
           ++ pretty (Net.n_outputs net) ++ ")" ++ newline).

(** The loop variables are [(s, fp)]: the element count and the file. *)
Definition neural_save (xcsf : XCSF) (net : Net.t) (fp : file) : M (Z * file) :=
  let s := 3 in
  let fp := fp ++ [IInt (Net.n_layers net); IInt (Net.n_inputs net);
                   IInt (Net.n_outputs net)] in
  fold_nodes (Net.layers net) (fun iter '(s, fp) =>
    let* L := load_layer iter in
    let fp := fp ++ [IInt (Layer.layer_type L)] in
    let* r := layer_save xcsf iter fp in
    ret (s + 1 + fst r, snd r)) (s, fp).

(** [s += fread(&var, sizeof(int), 1, fp)] for a local [var]. *)
Definition fread_int_local (var : Z) (sfp : Z * file) : M (Z * (Z * file)) :=
  match snd sfp with
  | IInt z :: fp' => ret (z, (fst sfp + 1, fp'))
  | [] => ret (var, sfp)
  | IDouble _ :: _ => fault
  end.

(** A counting loop that threads loop variables. *)
Fixpoint fold_loop {St} (n : nat) (i : Z) (body : Z -> St -> M St) (st : St) : M St :=
  match n with
  | O => ret st
  | S n' => let* st' := body i st in fold_loop n' (i + 1) body st'
  end.

Definition fold_int {St} (lo hi : Z) (body : Z -> St -> M St) (st : St) : M St :=
  fold_loop (Z.to_nat (hi - lo)) lo body st.

(** The loop variables are [(s, fp, net)]. *)
Definition neural_load (xcsf : XCSF) (fp : file) : M (Z * file * Net.t) :=
  let* r := fread_int_local 0 (0, fp) in
  let nlayers := fst r in
  let* r := fread_int_local 0 (snd r) in
  let ninputs := fst r in
  let* r := fread_int_local 0 (snd r) in
  let noutputs := fst r in
  let net := neural_init xcsf in
  fold_int 0 nlayers (fun i '(s, fp, net) =>
    let* l := malloc_layer in
    let* r := fread_int_member l Layer.set_layer_type (s, fp) in
    layer_set_vptr l ;;;
    let* r' := layer_load xcsf l (snd r) in
    let* net' := neural_layer_insert xcsf net l i in
    ret (fst r + fst r', snd r', net')) (snd r, neural_init xcsf).

(** The loop variable is [net]: every iteration frees the tail layer and
    unlinks its node; [net->head], [net->n_inputs], [net->n_outputs] and
    [net->output] are left as they were. *)
Definition neural_free (xcsf : XCSF) (net : Net.t) : M Net.t :=
  fold_nodes (Net.layers net) (fun iter net =>
    layer_free xcsf iter ;;;
    free (Some iter) ;;;
    ret (Net.mk (tail (Net.layers net)) (isub (Net.n_layers net) 1) (Net.n_inputs net)
                (Net.n_outputs net) (Net.output net))) net.

(** *** pred_constant.c *)

Definition pred_constant_update (xcsf : XCSF) (c : Cl) (x y : ptr) : M unit :=
  if dlt (double_of_int (exp c) * BETA xcsf)%float 1%float then
    for_int 0 (y_dim xcsf) (fun var =>
      let* p := read_double (prediction c) var in
      let* yv := read_double y var in
      write_double (prediction c) var
        ((p * double_of_int (isub (exp c) 1) + yv) / double_of_int (exp c))%float)
  else
    for_int 0 (y_dim xcsf) (fun var =>
      let* p := read_double (prediction c) var in
      let* yv := read_double y var in
      write_double (prediction c) var (p + BETA xcsf * (yv - p))%float).

End Network.

(** ** A sample environment

    One instance of the parameters, on which the definitions are run: layer
    type codes in the order of the spec's list of layer kinds, zeroing
    [layer_init], zeroed fresh memory, a two-valued random sequence, and, for
    every other layer kind, a width-changing layer: its mutation adds one
    output neuron, its resize adopts the previous layer's output width. *)

Definition zero_layer : Layer.t :=
  Layer.mk 0 (VExt 0) 0 0 0 0 0 0 0 0 0 0 0 0 0%float 0%float None None None None.

Definition sample_rand (n : nat) (min max : double) : double :=
  (min + (max - min) * (if Nat.even n then 0.25 else 0.75))%float.

Definition grow_vtbl : LayerVtbl :=
  mkVtbl
    (fun _ l => modify_layer l (fun L => Layer.set_n_outputs (iadd (Layer.n_outputs L) 1) L) ;;;
                ret true)
    (fun _ l prev => let* P := load_layer prev in
                     modify_layer l (Layer.set_n_inputs (Layer.n_outputs P)))
    (fun _ src => let* S := load_layer src in malloc_block (BLayer S))
    (fun _ _ => ret tt)
    (fun _ _ => ret tt)
    (fun _ _ => ret tt)
    (fun _ _ _ _ => ret tt)
    (fun _ _ _ => ret tt)
    (fun _ l => let* L := load_layer l in ret (Layer.output L))
    (fun _ _ fp => ret (0, fp))
    (fun _ _ fp => ret (0, fp)).

Lemma sample_codes_distinct : (1 : Z) ≠ 2.
Proof. discriminate. Qed.

Definition sample_env : Externals :=
  {| DROPOUT := 1;
     MAXPOOL := 2;
     DROPOUT_MAXPOOL := sample_codes_distinct;
     N_INPUTS_MAX := 1000000;
     N_OUTPUTS_MAX := 1000000;
     layer_init := fun _ => zero_layer;
     rand_uniform_seq := sample_rand;
     junk_layer := fun _ => zero_layer;
     junk_double := 0%float;
     junk_int := 0;
     ext_vtbl := fun _ => grow_vtbl |}.

Definition empty_state : state := mkState ∅ 0 [].

(** ** Executable checks on networks *)

(** Every layer's [n_inputs] is the [n_outputs] of the layer before it, from
    the input side to the output side. *)
Fixpoint widths_consistent (s : state) (ls : list addr) : bool :=
  match ls with
  | [] => true
  | a :: rest =>
      match rest with
      | [] => true
      | b :: _ =>
          match layer_at s a, layer_at s b with
          | Some La, Some Lb =>
              (Layer.n_inputs Lb =? Layer.n_outputs La) && widths_consistent s rest
          | _, _ => false
          end
      end
  end.

(** The bookkeeping of the input side: [net.n_inputs] is the tail layer's. *)
Definition tail_n_inputs_ok (s : state) (net : Net.t) : bool :=
  match Net.layers net with
  | [] => true
  | tl :: _ =>
      match layer_at s tl with
      | Some TL => Net.n_inputs net =? Layer.n_inputs TL
      | None => false
      end
  end.

(** The bookkeeping of the output side: [net.n_outputs] and [net.output] are
    the head layer's. *)
Definition head_outputs_ok (s : state) (net : Net.t) : bool :=
  match last (Net.layers net) with
  | None => true
  | Some hd =>
      match layer_at s hd with
      | Some HL => (Net.n_outputs net =? Layer.n_outputs HL)
                   && bool_decide (Net.output net = Layer.output HL)
      | None => false
      end
  end.

Definition n_layers_ok (net : Net.t) : bool :=
  Net.n_layers net =? Z.of_nat (length (Net.layers net)).

(** ** The forward passes as functions of the arrays *)

(** [xs[z]] for an array given by its cells. *)
Definition rd (xs : list float) (z : Z) : option float :=
  if 0 <=? z then xs !! Z.to_nat z else None.

(** One iteration of the innermost loop of [neural_layer_maxpool_forward] on
    the contents [(ix, os)] of the index and output arrays: undefined where
    the code reads or writes outside an array. *)
Definition maxpool_cell (L : Layer.t) (xs : list float) (k i j : Z)
    (st : list Z * list float) : option (list Z * list float) :=
  let out_index := iadd j (imul (Layer.out_w L) (iadd i (imul (Layer.out_h L) k))) in
  match max_pool L (rd xs) i j k with
  | None => None
  | Some max_index =>
      if (0 <=? out_index) && (out_index <? Z.of_nat (length (fst st))) then
        match rd xs max_index with
        | None => None
        | Some v =>
            if (0 <=? out_index) && (out_index <? Z.of_nat (length (snd st))) then
              Some (<[Z.to_nat out_index := max_index]> (fst st),
                    <[Z.to_nat out_index := v]> (snd st))
            else None
        end
      else None
  end.

Definition maxpool_forward_pure (L : Layer.t) (xs : list float)
    (st : list Z * list float) : option (list Z * list float) :=
  scan_int 0 (Layer.channels L) (fun k =>
    scan_int 0 (Layer.out_h L) (fun i =>
      scan_int 0 (Layer.out_w L) (fun j => maxpool_cell L xs k i j))) st.

(** One iteration of the loop of [neural_layer_dropout_forward] on the
    contents [(st, os)] of the state and output arrays, at random position
    [r0 + i]. *)
Definition dropout_cell `{Externals} (L : Layer.t) (xs : list float) (r0 : nat) (i : Z)
    (b : list float * list float) : option (list float * list float) :=
  let r := rand_uniform_seq (r0 + Z.to_nat i)%nat 0%float 1%float in
  if (0 <=? i) && (i <? Z.of_nat (length (fst b))) then
    let stv := <[Z.to_nat i := r]> (fst b) in
    if dlt r (Layer.probability L) then
      if i <? Z.of_nat (length (snd b)) then
        Some (stv, <[Z.to_nat i := 0%float]> (snd b))
      else None
    else
      match rd xs i with
      | None => None
      | Some x =>
          if i <? Z.of_nat (length (snd b)) then
            Some (stv, <[Z.to_nat i := (x * Layer.scale L)%float]> (snd b))
          else None
      end
  else None.

(** The grid coordinate [offset + i * stride + n] that [max_pool] computes
    for output coordinate [i] and window offset [n] (rows and columns
    alike), the flat index of a grid position in channel [k], and the bounds
    test of [max_pool]. *)
Definition window_coord (L : Layer.t) (i n : Z) : Z :=
  iadd (iadd (int_wrap (ineg (Layer.pad L) ÷ 2)) (imul i (Layer.stride L))) n.

Definition grid_index (L : Layer.t) (k cur_h cur_w : Z) : Z :=
  iadd cur_w (imul (Layer.width L) (iadd cur_h (imul (Layer.height L) k))).

Definition in_grid (L : Layer.t) (cur_h cur_w : Z) : bool :=
  (0 <=? cur_h) && (cur_h <? Layer.height L) && (0 <=? cur_w) && (cur_w <? Layer.width L).

(** The window of output cell [(k, i, j)] has, at offset [(n, m)], an
    in-bounds grid position whose input is greater than [-DBL_MAX]. *)
Definition window_hit (L : Layer.t) (xs : list float) (k i j n m : Z) : Prop :=
  0 <= n < Layer.size L /\ 0 <= m < Layer.size L /\
  in_grid L (window_coord L i n) (window_coord L j m) = true /\
  exists v, rd xs (grid_index L k (window_coord L i n) (window_coord L j m)) = Some v /\
            dlt (- DBL_MAX)%float v = true.

(** A double that is neither a NaN nor an infinity. *)
Definition is_finite (x : float) : bool := negb (is_nan x) && negb (is_infinity x).

(** * Properties *)

(** ** Integers *)

Lemma int_wrap_id z : in_int z -> int_wrap z = z.
Proof.
  unfold in_int, INT_MIN, INT_MAX, int_wrap. intros Hz.
  rewrite Z.mod_small by lia. lia.
Qed.

Lemma int_wrap_range z : in_int (int_wrap z).
Proof.
  unfold in_int, INT_MIN, INT_MAX, int_wrap.
  pose proof (Z.mod_pos_bound (z + 2 ^ 31) (2 ^ 32)). lia.
Qed.

(** ** The monad *)

Lemma bind_Ok {A B} (m : M A) (f : A -> M B) s a s' :
  m s = Ok a s' -> bind m f s = f a s'.
Proof. unfold bind. intros ->. reflexivity. Qed.

Lemma bind_Exit {A B} (m : M A) (f : A -> M B) s d s' :
  m s = Exit d s' -> bind m f s = Exit d s'.
Proof. unfold bind. intros ->. reflexivity. Qed.

Lemma bind_Fault {A B} (m : M A) (f : A -> M B) s :
  m s = Fault -> bind m f s = Fault.
Proof. unfold bind. intros ->. reflexivity. Qed.

Lemma bind_ret {A B} (a : A) (f : A -> M B) s : bind (ret a) f s = f a s.
Proof. reflexivity. Qed.

Lemma bind_inv_Ok {A B} (m : M A) (f : A -> M B) s b s2 :
  bind m f s = Ok b s2 -> exists a s1, m s = Ok a s1 /\ f a s1 = Ok b s2.
Proof.
  unfold bind. destruct (m s) as [a s1| |]; try discriminate. eauto.
Qed.

(** A counting loop returns when every iteration does; [I k] holds after [k]
    iterations. *)
Lemma for_loop_inv (I : nat -> state -> Prop) n i0 body s :
  I 0%nat s ->
  (forall k t, (k < n)%nat -> I k t ->
     exists t', body (i0 + Z.of_nat k) t = Ok tt t' /\ I (S k) t') ->
  exists s', for_loop n i0 body s = Ok tt s' /\ I n s'.
Proof.
  revert I i0 s. induction n as [|n IH]; intros I i0 s H0 Hstep.
  - exists s. split; [reflexivity | exact H0].
  - destruct (Hstep 0%nat s ltac:(lia) H0) as (t & Hb & H1).
    rewrite Z.add_0_r in Hb.
    destruct (IH (fun k => I (S k)) (i0 + 1) t H1) as (s' & Hl & Hn).
    + intros k u Hk Hu. destruct (Hstep (S k) u ltac:(lia) Hu) as (u' & Hb' & Hu').
      exists u'. split; [| exact Hu'].
      rewrite <- Hb'. f_equal. lia.
    + exists s'. split; [| exact Hn].
      simpl. rewrite (bind_Ok _ _ _ _ _ Hb). exact Hl.
Qed.

Lemma for_int_inv (I : nat -> state -> Prop) hi body s :
  I 0%nat s ->
  (forall k t, (Z.of_nat k < hi) -> I k t ->
     exists t', body (Z.of_nat k) t = Ok tt t' /\ I (S k) t') ->
  exists s', for_int 0 hi body s = Ok tt s' /\ I (Z.to_nat hi) s'.
Proof.
  intros H0 Hstep. unfold for_int. rewrite Z.sub_0_r.
  apply for_loop_inv; [exact H0|].
  intros k t Hk Ht. rewrite Z.add_0_l. apply Hstep; [lia | exact Ht].
Qed.

(** ** Reading and writing buffers *)

Lemma read_double_peek s p i v :
  peek_double s p i = Some v -> read_double p i s = Ok v s.
Proof. unfold read_double. intros ->. reflexivity. Qed.

Lemma peek_double_at s p i ds :
  doubles_at s p = Some ds -> 0 <= i ->
  peek_double s p i = ds !! Z.to_nat i.
Proof.
  unfold peek_double. intros -> Hi.
  destruct (0 <=? i) eqn:E0; [reflexivity | lia].
Qed.

Lemma write_double_at s a ds i v :
  doubles_at s (Some a) = Some ds -> 0 <= i < Z.of_nat (length ds) ->
  write_double (Some a) i v s
  = Ok tt (set_heap (<[a := BDoubles (<[Z.to_nat i := v]> ds)]> (heap s)) s).
Proof.
  unfold write_double. intros -> Hi.
  destruct (0 <=? i) eqn:E0; [| lia].
  destruct (i <? Z.of_nat (length ds)) eqn:E1; [reflexivity | lia].
Qed.

Lemma doubles_at_insert_eq s a ds :
  doubles_at (set_heap (<[a := BDoubles ds]> (heap s)) s) (Some a) = Some ds.
Proof. unfold doubles_at. simpl. rewrite lookup_insert_eq. reflexivity. Qed.

Lemma doubles_at_insert_ne s a b q :
  q ≠ Some a ->
  doubles_at (set_heap (<[a := b]> (heap s)) s) q = doubles_at s q.
Proof.
  unfold doubles_at. intros Hq. destruct q as [c|]; [| reflexivity].
  simpl. rewrite lookup_insert_ne by congruence. reflexivity.
Qed.

Lemma doubles_at_Some_addr s p ds : doubles_at s p = Some ds -> exists a, p = Some a.
Proof. destruct p; [eauto | discriminate]. Qed.

(** ** Layer structs and allocation *)

Lemma heap_set_heap h s : heap (set_heap h s) = h.
Proof. reflexivity. Qed.

Lemma set_heap_twice h h' s : set_heap h' (set_heap h s) = set_heap h' s.
Proof. reflexivity. Qed.

Lemma layer_at_lookup s l L : heap s !! l = Some (BLayer L) -> layer_at s l = Some L.
Proof. unfold layer_at. intros ->. reflexivity. Qed.

Lemma layer_at_inv s l L : layer_at s l = Some L -> heap s !! l = Some (BLayer L).
Proof.
  unfold layer_at. destruct (heap s !! l) as [[| |L']|]; try discriminate.
  intros [= ->]. reflexivity.
Qed.

Lemma doubles_at_lookup s a ds :
  heap s !! a = Some (BDoubles ds) -> doubles_at s (Some a) = Some ds.
Proof. unfold doubles_at. intros ->. reflexivity. Qed.

Lemma doubles_at_inv s p ds :
  doubles_at s p = Some ds -> exists a, p = Some a /\ heap s !! a = Some (BDoubles ds).
Proof.
  unfold doubles_at. destruct p as [a|]; [| discriminate].
  destruct (heap s !! a) as [[ds'| |]|] eqn:Ea; try discriminate.
  intros [= ->]. exists a. split; [reflexivity | exact Ea].
Qed.

Lemma ints_at_lookup s a zs :
  heap s !! a = Some (BInts zs) -> ints_at s (Some a) = Some zs.
Proof. unfold ints_at. intros ->. reflexivity. Qed.

Lemma ints_at_inv s p zs :
  ints_at s p = Some zs -> exists a, p = Some a /\ heap s !! a = Some (BInts zs).
Proof.
  unfold ints_at. destruct p as [a|]; [| discriminate].
  destruct (heap s !! a) as [[|zs'|]|] eqn:Ea; try discriminate.
  intros [= ->]. exists a. split; [reflexivity | exact Ea].
Qed.

Lemma load_layer_at s l L : heap s !! l = Some (BLayer L) -> load_layer l s = Ok L s.
Proof. intros Hl. unfold load_layer. rewrite (layer_at_lookup _ _ _ Hl). reflexivity. Qed.

Lemma modify_layer_at s l L f :
  heap s !! l = Some (BLayer L) ->
  modify_layer l f s = Ok tt (set_heap (<[l := BLayer (f L)]> (heap s)) s).
Proof. intros Hl. unfold modify_layer. rewrite (layer_at_lookup _ _ _ Hl). reflexivity. Qed.

Lemma malloc_block_at b s :
  malloc_block b s
  = Ok (fresh (dom (heap s))) (set_heap (<[fresh (dom (heap s)) := b]> (heap s)) s).
Proof. reflexivity. Qed.

Lemma fresh_not_in (h : gmap addr block) : h !! fresh (dom h) = None.
Proof. apply not_elem_of_dom. apply is_fresh. Qed.

Lemma fresh_ne (h : gmap addr block) a : is_Some (h !! a) -> fresh (dom h) ≠ a.
Proof.
  intros Ha Heq. subst a. rewrite fresh_not_in in Ha. destruct Ha as [? ?]. discriminate.
Qed.

(** Rewriting an overwritten struct away. *)
Lemma insert_over (h : gmap addr block) l a x y b :
  a ≠ l -> <[l := x]> (<[a := b]> (<[l := y]> h)) = <[l := x]> (<[a := b]> h).
Proof.
  intros Hne. rewrite (insert_insert_ne _ a l) by exact Hne.
  rewrite insert_insert_eq. reflexivity.
Qed.

Lemma calloc_doubles_at n s :
  calloc_doubles n s
  = Ok (Some (fresh (dom (heap s))))
       (set_heap (<[fresh (dom (heap s)) := BDoubles (replicate (Z.to_nat n) 0%float)]>
                    (heap s)) s).
Proof. reflexivity. Qed.

Lemma calloc_ints_at n s :
  calloc_ints n s
  = Ok (Some (fresh (dom (heap s))))
       (set_heap (<[fresh (dom (heap s)) := BInts (replicate (Z.to_nat n) 0)]> (heap s)) s).
Proof. reflexivity. Qed.

Lemma malloc_layer_at `{Externals} s :
  malloc_layer s
  = Ok (fresh (dom (heap s)))
       (set_heap (<[fresh (dom (heap s)) := BLayer (junk_layer (fresh (dom (heap s))))]>
                    (heap s)) s).
Proof. reflexivity. Qed.

Lemma doubles_at_write s a ds n v q :
  doubles_at (set_heap (<[a := BDoubles (<[n := v]> ds)]> (heap s)) s) q
  = if decide (q = Some a) then Some (<[n := v]> ds) else doubles_at s q.
Proof.
  destruct (decide (q = Some a)) as [->|Hne].
  - apply doubles_at_insert_eq.
  - apply doubles_at_insert_ne, Hne.
Qed.

Lemma doubles_at_rng s p n : doubles_at (mkState (heap s) n (trace s)) p = doubles_at s p.
Proof. reflexivity. Qed.

(** Three fresh, pairwise distinct addresses. *)
Definition fresh3 (h : gmap addr block) (a1 a2 a3 : addr) : Prop :=
  h !! a1 = None /\ h !! a2 = None /\ h !! a3 = None /\
  a1 ≠ a2 /\ a1 ≠ a3 /\ a2 ≠ a3.

Lemma fresh_insert_None (h : gmap addr block) a b :
  h !! fresh (dom (<[a := b]> h)) = None /\ fresh (dom (<[a := b]> h)) ≠ a.
Proof.
  pose proof (fresh_not_in (<[a := b]> h)) as Hf.
  apply lookup_insert_None in Hf. destruct Hf as [Hf Hne]. split; [exact Hf | congruence].
Qed.

(** ** Weakest preconditions

    [wp m s Q]: run from [s], [m] returns, and its result and final state
    satisfy [Q]. *)

Definition wp {A} (m : M A) (s : state) (Q : A -> state -> Prop) : Prop :=
  match m s with
  | Ok a s' => Q a s'
  | Exit _ _ => False
  | Fault => False
  end.

Lemma wp_Ok {A} (m : M A) s a s' (Q : A -> state -> Prop) :
  m s = Ok a s' -> Q a s' -> wp m s Q.
Proof. unfold wp. intros ->. exact id. Qed.

Lemma wp_inv {A} (m : M A) s (Q : A -> state -> Prop) :
  wp m s Q -> exists a s', m s = Ok a s' /\ Q a s'.
Proof. unfold wp. destruct (m s) as [a s'| |]; [eauto | contradiction | contradiction]. Qed.

Lemma wp_mono {A} (m : M A) s (Q Q' : A -> state -> Prop) :
  wp m s Q -> (forall a s', Q a s' -> Q' a s') -> wp m s Q'.
Proof. unfold wp. destruct (m s); [eauto | contradiction | contradiction]. Qed.

Lemma wp_bind {A B} (m : M A) (f : A -> M B) s (Q : B -> state -> Prop) :
  wp m s (fun a s' => wp (f a) s' Q) -> wp (bind m f) s Q.
Proof. unfold wp, bind. destruct (m s); [exact id | contradiction | contradiction]. Qed.

Lemma wp_ret {A} (a : A) s (Q : A -> state -> Prop) : Q a s -> wp (ret a) s Q.
Proof. exact id. Qed.

Lemma wp_load_layer l s L (Q : Layer.t -> state -> Prop) :
  heap s !! l = Some (BLayer L) -> Q L s -> wp (load_layer l) s Q.
Proof. intros Hl HQ. eapply wp_Ok; [apply load_layer_at, Hl | exact HQ]. Qed.

Lemma wp_modify_layer l f s L (Q : unit -> state -> Prop) :
  heap s !! l = Some (BLayer L) ->
  Q tt (set_heap (<[l := BLayer (f L)]> (heap s)) s) ->
  wp (modify_layer l f) s Q.
Proof. intros Hl HQ. eapply wp_Ok; [apply modify_layer_at, Hl | exact HQ]. Qed.

Lemma wp_malloc_block b s (Q : addr -> state -> Prop) :
  (forall a, heap s !! a = None -> Q a (set_heap (<[a := b]> (heap s)) s)) ->
  wp (malloc_block b) s Q.
Proof. intros HQ. eapply wp_Ok; [apply malloc_block_at | apply HQ, fresh_not_in]. Qed.

Lemma wp_malloc_layer `{Externals} s (Q : addr -> state -> Prop) :
  (forall a, heap s !! a = None ->
     Q a (set_heap (<[a := BLayer (junk_layer a)]> (heap s)) s)) ->
  wp malloc_layer s Q.
Proof. intros HQ. eapply wp_Ok; [reflexivity | apply HQ, fresh_not_in]. Qed.

Lemma wp_calloc_doubles n s (Q : ptr -> state -> Prop) :
  (forall a, heap s !! a = None ->
     Q (Some a) (set_heap (<[a := BDoubles (replicate (Z.to_nat n) 0%float)]> (heap s)) s)) ->
  wp (calloc_doubles n) s Q.
Proof. intros HQ. eapply wp_Ok; [reflexivity | apply HQ, fresh_not_in]. Qed.

Lemma wp_calloc_ints n s (Q : ptr -> state -> Prop) :
  (forall a, heap s !! a = None ->
     Q (Some a) (set_heap (<[a := BInts (replicate (Z.to_nat n) 0)]> (heap s)) s)) ->
  wp (calloc_ints n) s Q.
Proof. intros HQ. eapply wp_Ok; [reflexivity | apply HQ, fresh_not_in]. Qed.

Lemma wp_read_double p i s v (Q : double -> state -> Prop) :
  peek_double s p i = Some v -> Q v s -> wp (read_double p i) s Q.
Proof. intros Hp HQ. eapply wp_Ok; [apply read_double_peek, Hp | exact HQ]. Qed.

Lemma wp_write_double a i v s ds (Q : unit -> state -> Prop) :
  heap s !! a = Some (BDoubles ds) -> 0 <= i < Z.of_nat (length ds) ->
  Q tt (set_heap (<[a := BDoubles (<[Z.to_nat i := v]> ds)]> (heap s)) s) ->
  wp (write_double (Some a) i v) s Q.
Proof.
  intros Ha Hi HQ. eapply wp_Ok; [| exact HQ].
  apply write_double_at; [apply doubles_at_lookup, Ha | exact Hi].
Qed.

Lemma wp_for_loop (I : nat -> state -> Prop) n i0 body s (Q : unit -> state -> Prop) :
  I 0%nat s ->
  (forall k t, (k < n)%nat -> I k t ->
     wp (body (i0 + Z.of_nat k)) t (fun _ t' => I (S k) t')) ->
  (forall t, I n t -> Q tt t) ->
  wp (for_loop n i0 body) s Q.
Proof.
  intros H0 Hstep HQ.
  destruct (for_loop_inv I n i0 body s H0) as (s' & Hrun & Hn).
  - intros k t Hk Ht. destruct (wp_inv _ _ _ (Hstep k t Hk Ht)) as ([] & t' & Hb & Ht').
    eauto.
  - eapply wp_Ok; [exact Hrun | apply HQ, Hn].
Qed.

Lemma wp_for_int (I : nat -> state -> Prop) hi body s (Q : unit -> state -> Prop) :
  I 0%nat s ->
  (forall k t, Z.of_nat k < hi -> I k t ->
     wp (body (Z.of_nat k)) t (fun _ t' => I (S k) t')) ->
  (forall t, I (Z.to_nat hi) t -> Q tt t) ->
  wp (for_int 0 hi body) s Q.
Proof.
  intros H0 Hstep HQ. unfold for_int. rewrite Z.sub_0_r.
  apply (wp_for_loop I); [exact H0 | | exact HQ].
  intros k t Hk Ht. rewrite Z.add_0_l. apply Hstep; [lia | exact Ht].
Qed.

(** Loops over list nodes: [I pre] holds once the nodes of [pre] are done. *)
Lemma wp_for_each {A} (I : list A -> state -> Prop) (l : list A) body s
    (Q : unit -> state -> Prop) :
  I [] s ->
  (forall pre a post t, l = pre ++ a :: post -> I pre t ->
     wp (body a) t (fun _ t' => I (pre ++ [a]) t')) ->
  (forall t, I l t -> Q tt t) ->
  wp (for_each l body) s Q.
Proof.
  revert I s. induction l as [|a l IH]; intros I s H0 Hstep HQ.
  - apply wp_ret, HQ, H0.
  - simpl. apply wp_bind.
    eapply wp_mono; [apply (Hstep [] a l s eq_refl H0)|].
    intros [] t Ht. simpl in Ht.
    apply (IH (fun pre => I (a :: pre))); [exact Ht | | exact HQ].
    intros pre b post u Hl Hu.
    apply (Hstep (a :: pre) b post u); [simpl; f_equal; exact Hl | exact Hu].
Qed.


(** Lookups in a heap built by insertions. *)
Ltac solve_ne :=
  first [ assumption
        | congruence
        | let X := fresh in intros X; subst; congruence ].

Ltac solve_lookup :=
  cbn [heap set_heap rng trace];
  first [ eassumption
        | rewrite lookup_insert_eq; reflexivity
        | rewrite lookup_insert_ne by solve_ne; solve_lookup ].

Ltac fresh_split H :=
  cbn [heap set_heap rng trace] in H;
  repeat (apply lookup_insert_None in H; destruct H as [H ?]).

(** Equality of two heaps built by insertions over the same base. *)
Ltac heap_eq :=
  apply map_eq; intros ?; rewrite !lookup_insert; repeat case_decide;
  solve [ reflexivity | congruence | subst; congruence ].

(** One symbolic step. *)
Ltac wstep :=
  cbn [heap set_heap rng trace]; rewrite ?set_heap_twice;
  lazymatch goal with
  | |- wp (bind _ _) _ _ => apply wp_bind; wstep
  | |- wp (ret _) _ _ => apply wp_ret
  | |- wp (load_layer _) _ _ => eapply wp_load_layer; [solve_lookup |]
  | |- wp (modify_layer _ _) _ _ =>
      eapply wp_modify_layer; [solve_lookup |]; rewrite ?insert_insert_eq
  | |- wp malloc_layer _ _ =>
      apply wp_malloc_layer; let a := fresh "a" in let Ha := fresh "Ha" in
      intros a Ha; fresh_split Ha
  | |- wp (calloc_doubles _) _ _ =>
      apply wp_calloc_doubles; let a := fresh "a" in let Ha := fresh "Ha" in
      intros a Ha; fresh_split Ha
  | |- wp (calloc_ints _) _ _ =>
      apply wp_calloc_ints; let a := fresh "a" in let Ha := fresh "Ha" in
      intros a Ha; fresh_split Ha
  end;
  cbn [heap set_heap rng trace]; rewrite ?set_heap_twice.

(** ** C1: the constant prediction update *)

Section PredConstant.

Context {E : Externals}.

(** The value [pred_constant_update] stores for one output dimension. *)
Definition constant_blend (xcsf : XCSF) (c : Cl) (pv yv : double) : double :=
  if dlt (double_of_int (exp c) * BETA xcsf)%float 1%float then
    ((pv * double_of_int (exp c - 1) + yv) / double_of_int (exp c))%float
  else
    (pv + BETA xcsf * (yv - pv))%float.

(** Cells of the prediction and truth arrays after [k] iterations: the first
    [k] predictions are blended, every later cell is as on entry. *)
Definition blended_upto (xcsf : XCSF) (c : Cl) (y : ptr) (ps ys : list double)
    (s0 : state) (k : nat) (t : state) : Prop :=
  (exists ps', doubles_at t (prediction c) = Some ps' /\ length ps' = length ps /\
     (forall v pv yv, (v < k)%nat -> ps !! v = Some pv -> ys !! v = Some yv ->
        ps' !! v = Some (constant_blend xcsf c pv yv)) /\
     (forall v, (k <= v)%nat -> ps' !! v = ps !! v)) /\
  (exists ys', doubles_at t y = Some ys' /\
     (forall v, (k <= v)%nat -> ys' !! v = ys !! v)) /\
  (forall a, Some a ≠ prediction c -> heap t !! a = heap s0 !! a) /\
  rng t = rng s0 /\ trace t = trace s0.

Lemma blend_loop (xcsf : XCSF) (c : Cl) (y : ptr) (ps ys : list double) (s : state)
    (f : double -> double -> double) :
  (forall pv yv, f pv yv = constant_blend xcsf c pv yv) ->
  doubles_at s (prediction c) = Some ps ->
  doubles_at s y = Some ys ->
  y_dim xcsf <= Z.of_nat (length ps) ->
  y_dim xcsf <= Z.of_nat (length ys) ->
  exists s',
    for_int 0 (y_dim xcsf) (fun var =>
      let* p := read_double (prediction c) var in
      let* yv := read_double y var in
      write_double (prediction c) var (f p yv)) s = Ok tt s' /\
    blended_upto xcsf c y ps ys s (Z.to_nat (y_dim xcsf)) s'.
Proof.
  intros Hf Hp Hy Hlp Hly.
  apply for_int_inv.
  - repeat split; eauto.
    exists ps. repeat split; eauto. intros; lia.
  - intros k t Hk ((ps' & Hp' & Hlen & Hlo & Hhi) & (ys' & Hy' & Hyhi) & Hfr & Hrng & Htr).
    destruct (doubles_at_Some_addr _ _ _ Hp') as [a Ha].
    assert (Hkp : (k < length ps)%nat) by lia.
    assert (Hky : (k < length ys)%nat) by lia.
    destruct (lookup_lt_is_Some_2 ps k Hkp) as [pv Hpv].
    destruct (lookup_lt_is_Some_2 ys k Hky) as [yv Hyv].
    assert (Hrp : peek_double t (prediction c) (Z.of_nat k) = Some pv).
    { rewrite (peek_double_at _ _ _ _ Hp') by lia.
      rewrite Nat2Z.id, Hhi by lia. exact Hpv. }
    assert (Hry : peek_double t y (Z.of_nat k) = Some yv).
    { rewrite (peek_double_at _ _ _ _ Hy') by lia.
      rewrite Nat2Z.id, Hyhi by lia. exact Hyv. }
    rewrite (bind_Ok _ _ _ _ _ (read_double_peek _ _ _ _ Hrp)).
    rewrite (bind_Ok _ _ _ _ _ (read_double_peek _ _ _ _ Hry)).
    rewrite Ha in *.
    rewrite (write_double_at _ _ _ _ _ Hp') by lia.
    eexists. split; [reflexivity|].
    rewrite Nat2Z.id. unfold blended_upto. rewrite Ha.
    split; [| split; [| split; [| split]]].
    + exists (<[k := f pv yv]> ps'). rewrite doubles_at_insert_eq.
      split; [reflexivity|]. split; [rewrite length_insert; exact Hlen|]. split.
      * intros v pv' yv' Hv Hpv' Hyv'.
        destruct (decide (v = k)) as [->|Hne].
        -- rewrite list_lookup_insert_eq by lia.
           rewrite Hpv in Hpv'. rewrite Hyv in Hyv'.
           injection Hpv' as <-. injection Hyv' as <-. rewrite Hf. reflexivity.
        -- rewrite list_lookup_insert_ne by congruence.
           apply Hlo; [lia | exact Hpv' | exact Hyv'].
      * intros v Hv. rewrite list_lookup_insert_ne by lia. apply Hhi. lia.
    + destruct (decide (y = Some a)) as [->|Hne].
      * exists (<[k := f pv yv]> ps'). rewrite doubles_at_insert_eq.
        split; [reflexivity|]. intros v Hv.
        rewrite list_lookup_insert_ne by lia.
        rewrite Hp' in Hy'. injection Hy' as <-. apply Hyhi. lia.
      * exists ys'. rewrite doubles_at_insert_ne by exact Hne. split; [exact Hy'|].
        intros v Hv. apply Hyhi. lia.
    + intros b Hb. simpl. rewrite lookup_insert_ne by congruence. apply Hfr, Hb.
    + exact Hrng.
    + exact Htr.
Qed.

(** C1. For a classifier with [1 <= exp] and prediction and truth arrays of
    at least [y_dim] cells, [pred_constant_update] returns (whatever [x] is)
    and has replaced, for each output dimension [v], [prediction[v]] by
    [(prediction[v] * (exp - 1) + y[v]) / exp] when [exp * BETA < 1] and by
    [prediction[v] + BETA * (y[v] - prediction[v])] otherwise; nothing but
    the prediction array changes. *)
Theorem pred_constant_update_spec (xcsf : XCSF) (c : Cl) (x y : ptr)
    (ps ys : list double) (s : state) :
  1 <= exp c <= INT_MAX ->
  doubles_at s (prediction c) = Some ps ->
  doubles_at s y = Some ys ->
  y_dim xcsf <= Z.of_nat (length ps) ->
  y_dim xcsf <= Z.of_nat (length ys) ->
  exists s',
    pred_constant_update xcsf c x y s = Ok tt s' /\
    (forall x', pred_constant_update xcsf c x' y s = Ok tt s') /\
    (forall v pv yv, 0 <= v < y_dim xcsf ->
       ps !! Z.to_nat v = Some pv -> ys !! Z.to_nat v = Some yv ->
       peek_double s' (prediction c) v
       = Some (if dlt (double_of_int (exp c) * BETA xcsf)%float 1%float
               then ((pv * double_of_int (exp c - 1) + yv) / double_of_int (exp c))%float
               else (pv + BETA xcsf * (yv - pv))%float)) /\
    (forall a, Some a ≠ prediction c -> heap s' !! a = heap s !! a).
Proof.
  intros Hexp Hp Hy Hlp Hly.
  assert (Hsub : isub (exp c) 1 = exp c - 1).
  { unfold isub. apply int_wrap_id. unfold in_int, INT_MIN, INT_MAX in *. lia. }
  assert (Hrun : exists s', pred_constant_update xcsf c x y s = Ok tt s' /\
                   blended_upto xcsf c y ps ys s (Z.to_nat (y_dim xcsf)) s').
  { unfold pred_constant_update.
    destruct (dlt (double_of_int (exp c) * BETA xcsf)%float 1%float) eqn:Eb.
    - apply blend_loop; try assumption.
      intros pv yv. unfold constant_blend. rewrite Eb, Hsub. reflexivity.
    - apply blend_loop; try assumption.
      intros pv yv. unfold constant_blend. rewrite Eb. reflexivity. }
  destruct Hrun as (s' & Hrun & (ps' & Hp' & Hlen & Hlo & Hhi) & _ & Hfr & _).
  exists s'. split; [exact Hrun|]. split; [intros x'; exact Hrun|]. split.
  - intros v pv yv Hv Hpv Hyv.
    rewrite (peek_double_at _ _ _ _ Hp') by lia.
    rewrite (Hlo (Z.to_nat v) pv yv) by (try assumption; lia).
    reflexivity.
  - exact Hfr.
Qed.

End PredConstant.

(** ** Dropout layers *)

Section Dropout.

Context {E : Externals}.

Definition zeros (n : Z) : block := BDoubles (replicate (Z.to_nat n) 0%float).

(** The struct after [malloc_layer_arrays] has stored its three buffers. *)
Definition with_dropout_arrays (a1 a2 a3 : addr) (L : Layer.t) : Layer.t :=
  Layer.set_state (Some a3) (Layer.set_delta (Some a2) (Layer.set_output (Some a1) L)).

Lemma wp_dropout_malloc_layer_arrays s l L (Q : unit -> state -> Prop) :
  heap s !! l = Some (BLayer L) ->
  1 <= Layer.n_inputs L <= N_INPUTS_MAX ->
  (forall a1 a2 a3, fresh3 (heap s) a1 a2 a3 ->
     Q tt (set_heap
             (<[l := BLayer (with_dropout_arrays a1 a2 a3 L)]>
                (<[a3 := zeros (Layer.n_inputs L)]>
                   (<[a2 := zeros (Layer.n_inputs L)]>
                      (<[a1 := zeros (Layer.n_inputs L)]> (heap s))))) s)) ->
  wp (dropout_malloc_layer_arrays l) s Q.
Proof.
  intros Hl Hn HQ. unfold dropout_malloc_layer_arrays.
  wstep.
  destruct (Layer.n_inputs L <? 1) eqn:E1; [lia|].
  destruct (N_INPUTS_MAX <? Layer.n_inputs L) eqn:E2; [lia|].
  cbn [orb].
  do 5 wstep.
  eapply wp_modify_layer; [solve_lookup|]. cbn [heap set_heap]. rewrite ?set_heap_twice.
  assert (Hf : fresh3 (heap s) a a0 a1) by (unfold fresh3; repeat split; solve_ne).
  specialize (HQ a a0 a1 Hf).
  match goal with
  | HQ : Q tt (set_heap ?h1 _) |- Q tt (set_heap ?h2 _) => replace h2 with h1; [exact HQ|]
  end.
  unfold with_dropout_arrays. heap_eq.
Qed.

(** The members [neural_layer_dropout_init] sets before it allocates. *)
Definition dropout_members (n : Z) (p : double) (L : Layer.t) : Layer.t :=
  Layer.set_scale (1 / (1 - p))%float
    (Layer.set_probability p
       (Layer.set_max_outputs n
          (Layer.set_n_outputs n
             (Layer.set_n_inputs n
                (Layer.set_layer_vptr VDropout (Layer.set_layer_type DROPOUT L)))))).

Lemma wp_neural_layer_dropout_init xcsf n p s (Q : addr -> state -> Prop) :
  1 <= n <= N_INPUTS_MAX ->
  (forall l a1 a2 a3,
     heap s !! l = None -> fresh3 (heap s) a1 a2 a3 -> l ≠ a1 -> l ≠ a2 -> l ≠ a3 ->
     Q l (set_heap
            (<[l := BLayer (with_dropout_arrays a1 a2 a3
                              (dropout_members n p (layer_init (junk_layer l))))]>
               (<[a3 := zeros n]> (<[a2 := zeros n]> (<[a1 := zeros n]> (heap s))))) s)) ->
  wp (neural_layer_dropout_init xcsf n p) s Q.
Proof.
  intros Hn HQ. unfold neural_layer_dropout_init.
  do 9 wstep.
  apply wp_bind.
  eapply wp_dropout_malloc_layer_arrays; [solve_lookup | cbn; exact Hn |].
  intros a1 a2 a3 (H1 & H2 & H3 & H12 & H13 & H23).
  cbn [heap set_heap] in *. rewrite set_heap_twice.
  fresh_split H1. fresh_split H2. fresh_split H3.
  apply wp_ret.
  assert (Hf : fresh3 (heap s) a1 a2 a3) by (unfold fresh3; repeat split; solve_ne).
  specialize (HQ a a1 a2 a3 Ha Hf ltac:(solve_ne) ltac:(solve_ne) ltac:(solve_ne)).
  match goal with
  | HQ : Q _ (set_heap ?h1 _) |- Q _ (set_heap ?h2 _) => replace h2 with h1; [exact HQ|]
  end.
  unfold dropout_members. cbn [Layer.n_inputs Layer.set_scale Layer.set_probability
    Layer.set_max_outputs Layer.set_n_outputs Layer.set_n_inputs Layer.set_layer_vptr
    Layer.set_layer_type].
  heap_eq.
Qed.

Lemma peek_double_lookup s a ds i :
  heap s !! a = Some (BDoubles ds) -> 0 <= i ->
  peek_double s (Some a) i = ds !! Z.to_nat i.
Proof. intros Ha Hi. apply peek_double_at; [apply doubles_at_lookup, Ha | exact Hi]. Qed.

Lemma wp_rand_uniform min max s (Q : double -> state -> Prop) :
  Q (rand_uniform_seq (rng s) min max) (mkState (heap s) (S (rng s)) (trace s)) ->
  wp (rand_uniform min max) s Q.
Proof. exact id. Qed.

Lemma memcpy_doubles_at s a b d x n :
  heap s !! a = Some (BDoubles d) -> heap s !! b = Some (BDoubles x) -> a ≠ b ->
  0 <= n <= Z.of_nat (length d) -> n <= Z.of_nat (length x) ->
  memcpy_doubles (Some a) (Some b) n s
  = Ok tt (set_heap (<[a := BDoubles (take (Z.to_nat n) x ++ drop (Z.to_nat n) d)]> (heap s)) s).
Proof.
  intros Ha Hb Hab Hn Hx. unfold memcpy_doubles.
  rewrite (doubles_at_lookup _ _ _ Ha), (doubles_at_lookup _ _ _ Hb).
  destruct (0 <=? n) eqn:E0; [| lia].
  destruct (n <=? Z.of_nat (length d)) eqn:E1; [| lia].
  destruct (n <=? Z.of_nat (length x)) eqn:E2; [| lia].
  rewrite bool_decide_eq_false_2 by congruence. reflexivity.
Qed.

(** The dropout loop after [k] iterations: the first [k] outputs are dropped
    or scaled inputs, and [k] random numbers have been drawn. *)
Definition dropout_upto (L : Layer.t) (ao ast ai : addr) (xs os st : list double)
    (s0 : state) (k : nat) (t : state) : Prop :=
  exists os' st',
    heap t !! ao = Some (BDoubles os') /\ heap t !! ast = Some (BDoubles st') /\
    heap t !! ai = Some (BDoubles xs) /\
    length os' = length os /\ length st' = length st /\
    rng t = (rng s0 + k)%nat /\
    (forall v x, (v < k)%nat -> xs !! v = Some x ->
       os' !! v = Some 0%float \/ os' !! v = Some (x * Layer.scale L)%float).

(** C8. A dropout layer whose output and state buffers and whose input array
    are distinct live blocks of at least [n_inputs] cells: the forward pass
    returns; when [explore] is off it draws no random number and
    [output[i] = input[i]] for [0 <= i < n_inputs], so the outputs are a
    function of the inputs alone; when [explore] is on every [output[i]] is
    [0] or [input[i] * scale]. [neural_layer_dropout_init] sets [scale] to
    [1 / (1 - probability)]. *)
Theorem neural_layer_dropout_forward_spec (xcsf : XCSF) (l : addr) (input : ptr)
    (s : state) (L : Layer.t) (xs os st : list double) :
  layer_at s l = Some L ->
  doubles_at s input = Some xs ->
  doubles_at s (Layer.output L) = Some os ->
  doubles_at s (Layer.state L) = Some st ->
  input ≠ Layer.output L -> input ≠ Layer.state L -> Layer.output L ≠ Layer.state L ->
  0 <= Layer.n_inputs L ->
  Layer.n_inputs L <= Z.of_nat (length xs) ->
  Layer.n_inputs L <= Z.of_nat (length os) ->
  Layer.n_inputs L <= Z.of_nat (length st) ->
  (exists s',
     neural_layer_dropout_forward xcsf l input s = Ok tt s' /\
     (explore xcsf = false ->
        rng s' = rng s /\
        forall i, 0 <= i < Layer.n_inputs L ->
          is_Some (peek_double s input i) /\
          peek_double s' (Layer.output L) i = peek_double s input i) /\
     (explore xcsf = true ->
        forall i x, 0 <= i < Layer.n_inputs L -> peek_double s input i = Some x ->
          peek_double s' (Layer.output L) i = Some 0%float \/
          peek_double s' (Layer.output L) i = Some (x * Layer.scale L)%float)) /\
  (forall xcsf0 n p s0, 1 <= n <= N_INPUTS_MAX ->
     exists l0 s1 L0,
       neural_layer_dropout_init xcsf0 n p s0 = Ok l0 s1 /\
       layer_at s1 l0 = Some L0 /\
       Layer.scale L0 = (1 / (1 - p))%float /\
       Layer.probability L0 = p /\ Layer.n_inputs L0 = n).
Proof.
  intros Hl Hin Hout Hst Hio His Hos Hn0 Hnx Hno Hns. split.
  - apply layer_at_inv in Hl.
    destruct (doubles_at_inv _ _ _ Hin) as (ai & -> & Hai).
    destruct (doubles_at_inv _ _ _ Hout) as (ao & Eo & Hao).
    destruct (doubles_at_inv _ _ _ Hst) as (ast & Es & Hast).
    rewrite Eo in Hio, Hos. rewrite Es in His, Hos.
    assert (Hne1 : ai ≠ ao) by congruence.
    assert (Hne2 : ai ≠ ast) by congruence.
    assert (Hne3 : ao ≠ ast) by congruence.
    unfold neural_layer_dropout_forward.
    rewrite (bind_Ok _ _ _ _ _ (load_layer_at _ _ _ Hl)).
    destruct (explore xcsf) eqn:Ex; cbn [negb].
    + (* explore: the loop *)
      assert (W : wp (for_int 0 (Layer.n_inputs L) (fun i =>
                    let* r := rand_uniform 0%float 1%float in
                    write_double (Layer.state L) i r ;;;
                    let* st := read_double (Layer.state L) i in
                    if dlt st (Layer.probability L) then
                      write_double (Layer.output L) i 0%float
                    else
                      let* x := read_double (Some ai) i in
                      write_double (Layer.output L) i (x * Layer.scale L)%float)) s
                  (fun _ t => dropout_upto L ao ast ai xs os st s
                                (Z.to_nat (Layer.n_inputs L)) t)).
      { rewrite Eo, Es.
        apply (wp_for_int (dropout_upto L ao ast ai xs os st s)).
        - exists os, st. repeat split; try assumption; try lia.
        - intros k t Hk (os' & st' & Ho' & Hs' & Hi' & Hlo & Hls & Hr & Hdone).
          apply wp_bind, wp_rand_uniform. cbn [heap].
          apply wp_bind. eapply wp_write_double; [cbn; exact Hs' | lia |].
          cbn [heap set_heap]. rewrite Nat2Z.id.
          set (r := rand_uniform_seq (rng t) 0%float 1%float).
          apply wp_bind. eapply wp_read_double.
          { rewrite (peek_double_lookup _ ast (<[k := r]> st')) by (solve_lookup || lia).
            rewrite Nat2Z.id. apply list_lookup_insert_eq. lia. }
          assert (Hxk : exists x, xs !! k = Some x)
            by (apply lookup_lt_is_Some_2; lia).
          destruct Hxk as [x Hxk].
          assert (Hfin : forall v : double,
                     (v = 0%float \/ v = (x * Layer.scale L)%float) ->
                     dropout_upto L ao ast ai xs os st s (S k)
                       (set_heap (<[ao := BDoubles (<[k := v]> os')]>
                                    (<[ast := BDoubles (<[k := r]> st')]> (heap t)))
                                 (mkState (heap t) (S (rng t)) (trace t)))).
          { intros v Hv. exists (<[k := v]> os'), (<[k := r]> st').
            cbn [heap set_heap rng]. repeat split.
            - solve_lookup.
            - solve_lookup.
            - solve_lookup.
            - rewrite length_insert. exact Hlo.
            - rewrite length_insert. exact Hls.
            - lia.
            - intros w y Hw Hy. destruct (decide (w = k)) as [->|Hwk].
              + rewrite list_lookup_insert_eq by lia.
                rewrite Hxk in Hy. injection Hy as <-.
                destruct Hv as [-> | ->]; [left | right]; reflexivity.
              + rewrite list_lookup_insert_ne by congruence.
                apply Hdone; [lia | exact Hy]. }
          destruct (dlt r (Layer.probability L)).
          + eapply wp_write_double; [solve_lookup | lia |].
            rewrite Nat2Z.id. cbn [heap set_heap]. apply Hfin. left; reflexivity.
          + apply wp_bind. eapply wp_read_double.
            { rewrite (peek_double_lookup _ ai xs) by (solve_lookup || lia).
              rewrite Nat2Z.id. exact Hxk. }
            eapply wp_write_double; [solve_lookup | lia |].
            rewrite Nat2Z.id. cbn [heap set_heap]. apply Hfin. right; reflexivity.
        - intros t Ht. exact Ht. }
      destruct (wp_inv _ _ _ W) as ([] & s' & Hrun & (os' & st' & Ho' & _ & _ & _ & _ & _ & Hdone)).
      exists s'. split; [exact Hrun|]. split; [discriminate|].
      intros _ i x Hi Hx.
      rewrite (peek_double_lookup _ ai xs) in Hx by (assumption || lia).
      rewrite Eo, (peek_double_lookup _ ao os') by (assumption || lia).
      apply Hdone; [lia | exact Hx].
    + (* no exploration: memcpy *)
      rewrite Eo.
      rewrite (memcpy_doubles_at _ _ _ _ _ _ Hao Hai) by (congruence || lia).
      eexists. split; [reflexivity|]. split; [| discriminate].
      intros _. split; [reflexivity|].
      intros i Hi.
      rewrite (peek_double_lookup _ ai xs) by (assumption || lia).
      rewrite (peek_double_lookup _ ao (take (Z.to_nat (Layer.n_inputs L)) xs
                                          ++ drop (Z.to_nat (Layer.n_inputs L)) os))
        by (solve_lookup || lia).
      split; [apply lookup_lt_is_Some_2; lia|].
      rewrite lookup_app_l by (rewrite length_take; lia).
      apply lookup_take_lt. lia.
  - intros xcsf0 n p s0 Hn.
    assert (W : wp (neural_layer_dropout_init xcsf0 n p) s0
                  (fun l0 s1 => exists L0, layer_at s1 l0 = Some L0 /\
                     Layer.scale L0 = (1 / (1 - p))%float /\
                     Layer.probability L0 = p /\ Layer.n_inputs L0 = n)).
    { apply wp_neural_layer_dropout_init; [exact Hn|].
      intros l0 a1 a2 a3 _ _ _ _ _. eexists. split.
      - apply layer_at_lookup. solve_lookup.
      - repeat split. }
    destruct (wp_inv _ _ _ W) as (l0 & s1 & Hrun & L0 & HL0).
    exists l0, s1, L0. split; [exact Hrun | exact HL0].
Qed.

End Dropout.

(** ** Networks *)

Section NetworkProofs.

Context {E : Externals}.

(** A live dropout layer: its three buffers are distinct live arrays. *)
Definition dropout_live (s : state) (L : Layer.t) : Prop :=
  exists os ds st,
    doubles_at s (Layer.output L) = Some os /\
    doubles_at s (Layer.delta L) = Some ds /\
    doubles_at s (Layer.state L) = Some st /\
    Layer.output L ≠ Layer.delta L /\ Layer.output L ≠ Layer.state L /\
    Layer.delta L ≠ Layer.state L.

(** A live max-pooling layer: an index array and two distinct live arrays. *)
Definition maxpool_live (s : state) (L : Layer.t) : Prop :=
  exists ix os ds,
    ints_at s (Layer.indexes L) = Some ix /\
    doubles_at s (Layer.output L) = Some os /\
    doubles_at s (Layer.delta L) = Some ds /\
    Layer.output L ≠ Layer.delta L.

(** The pointers a layer's [free] releases. *)
Definition layer_owned (L : Layer.t) : list ptr :=
  match Layer.layer_vptr L with
  | VDropout => [Layer.output L; Layer.delta L; Layer.state L]
  | VMaxpool => [Layer.indexes L; Layer.output L; Layer.delta L]
  | VExt _ => []
  end.

(** [l] points to a live dropout or max-pooling layer. *)
Definition layer_ok (s : state) (l : addr) : Prop :=
  exists L, layer_at s l = Some L /\
    ((Layer.layer_vptr L = VDropout /\ dropout_live s L) \/
     (Layer.layer_vptr L = VMaxpool /\ maxpool_live s L)).

Lemma wp_free a s b (Q : unit -> state -> Prop) :
  heap s !! a = Some b ->
  Q tt (set_heap (delete a (heap s)) s) ->
  wp (free (Some a)) s Q.
Proof. intros Ha HQ. unfold wp, free. rewrite Ha. exact HQ. Qed.

Lemma walk_in_range (ls : list addr) p :
  0 <= p < Z.of_nat (length ls) -> walk ls p = Some (Z.to_nat p).
Proof.
  intros Hp. unfold walk. rewrite Z.max_l by lia.
  destruct (decide (Z.to_nat p < length ls)%nat); [reflexivity | lia].
Qed.

Lemma elem_of_delete_list {A} (ls : list A) q x : x ∈ delete q ls -> x ∈ ls.
Proof.
  revert q. induction ls as [|a ls IH]; intros [|q] Hx; simpl in *.
  - exact Hx.
  - exact Hx.
  - apply elem_of_cons. right. exact Hx.
  - apply elem_of_cons in Hx as [->|Hx].
    + apply elem_of_cons. left. reflexivity.
    + apply elem_of_cons. right. eapply IH, Hx.
Qed.

Lemma last_delete_is_Some {A} (ls : list A) q :
  (2 <= length ls)%nat -> exists x, last (delete q ls) = Some x /\ x ∈ ls.
Proof.
  intros Hlen.
  destruct (last (delete q ls)) as [x|] eqn:El.
  - exists x. split; [reflexivity|].
    apply last_Some in El as [l' El].
    eapply elem_of_delete_list. rewrite El. apply elem_of_app. right.
    apply list_elem_of_singleton. reflexivity.
  - apply last_None in El.
    assert (Hd : length (delete q ls) = 0%nat) by (rewrite El; reflexivity).
    destruct ls as [|a [|b ls]]; simpl in Hlen; try lia.
    destruct q as [|[|q]]; simpl in Hd; lia.
Qed.

(** [layer_free] releases the buffers of the layer at [l] and nothing else. *)
Lemma wp_layer_free xcsf s l L (Q : unit -> state -> Prop) :
  layer_at s l = Some L ->
  ((Layer.layer_vptr L = VDropout /\ dropout_live s L) \/
   (Layer.layer_vptr L = VMaxpool /\ maxpool_live s L)) ->
  (forall s',
     (forall a, Some a ∉ layer_owned L -> heap s' !! a = heap s !! a) ->
     rng s' = rng s -> trace s' = trace s ->
     Q tt s') ->
  wp (layer_free xcsf l) s Q.
Proof.
  intros Hl Hok HQ. apply layer_at_inv in Hl.
  unfold layer_free. apply wp_bind.
  eapply wp_load_layer; [exact Hl|].
  destruct Hok as [[Hv (os & ds & st & Ho & Hd & Hs & Hod & Hos & Hds)]
                  |[Hv (ix & os & ds & Hi & Ho & Hd & Hod)]];
    rewrite Hv; cbn [vtbl_of layer_impl_free layer_dropout_vtbl layer_maxpool_vtbl].
  - destruct (doubles_at_inv _ _ _ Ho) as (ao & Eo & Hao).
    destruct (doubles_at_inv _ _ _ Hd) as (ad & Ed & Had).
    destruct (doubles_at_inv _ _ _ Hs) as (ast & Es & Hast).
    rewrite Eo, Ed in Hod. rewrite Eo, Es in Hos. rewrite Ed, Es in Hds.
    unfold neural_layer_dropout_free, dropout_free_layer_arrays.
    apply wp_bind. eapply wp_load_layer; [exact Hl|].
    rewrite Eo, Ed, Es.
    apply wp_bind. eapply wp_free; [exact Hao|]. cbn [heap set_heap].
    apply wp_bind. eapply wp_free.
    { cbn [heap set_heap]. rewrite lookup_delete_ne by congruence. exact Had. }
    cbn [heap set_heap].
    eapply wp_free.
    { cbn [heap set_heap]. rewrite !lookup_delete_ne by congruence. exact Hast. }
    cbn [heap set_heap].
    apply HQ; cbn [heap set_heap rng trace]; try reflexivity.
    intros a Hown. unfold layer_owned in Hown. rewrite Hv, Eo, Ed, Es in Hown.
    rewrite !not_elem_of_cons in Hown. destruct Hown as (H1 & H2 & H3 & _).
    rewrite !lookup_delete_ne by congruence. reflexivity.
  - destruct (ints_at_inv _ _ _ Hi) as (ai & Ei & Hai).
    destruct (doubles_at_inv _ _ _ Ho) as (ao & Eo & Hao).
    destruct (doubles_at_inv _ _ _ Hd) as (ad & Ed & Had).
    rewrite Eo, Ed in Hod.
    unfold neural_layer_maxpool_free.
    apply wp_bind. eapply wp_load_layer; [exact Hl|].
    rewrite Ei, Eo, Ed.
    apply wp_bind. eapply wp_free; [exact Hai|]. cbn [heap set_heap].
    apply wp_bind. eapply wp_free.
    { cbn [heap set_heap]. rewrite lookup_delete_ne by congruence. exact Hao. }
    cbn [heap set_heap].
    eapply wp_free.
    { cbn [heap set_heap]. rewrite !lookup_delete_ne by congruence. exact Had. }
    cbn [heap set_heap].
    apply HQ; cbn [heap set_heap rng trace]; try reflexivity.
    intros a Hown. unfold layer_owned in Hown. rewrite Hv, Ei, Eo, Ed in Hown.
    rewrite !not_elem_of_cons in Hown. destruct Hown as (H1 & H2 & H3 & _).
    rewrite !lookup_delete_ne by congruence. reflexivity.
Qed.

(** X1 (C4). On a network of exactly one layer, [neural_layer_remove] prints a
    diagnostic and exits at every position, with the state as it was; on a
    network of at least two live layers and a position [0 <= p < length] it
    returns the network without the layer at [p], with [n_layers]
    decremented, and has freed that layer and nothing else. *)
Theorem neural_layer_remove_spec (xcsf : XCSF) :
  (forall net p s,
     length (Net.layers net) = 1%nat ->
     exists diag, neural_layer_remove xcsf net p s = Exit diag s) /\
  (forall net p s l,
     (2 <= length (Net.layers net))%nat ->
     0 <= p < Z.of_nat (length (Net.layers net)) ->
     Net.layers net !! Z.to_nat p = Some l ->
     Forall (layer_ok s) (Net.layers net) ->
     exists net' s' L,
       neural_layer_remove xcsf net p s = Ok net' s' /\
       Net.layers net' = delete (Z.to_nat p) (Net.layers net) /\
       length (Net.layers net') = (length (Net.layers net) - 1)%nat /\
       Net.n_layers net' = isub (Net.n_layers net) 1 /\
       (INT_MIN < Net.n_layers net <= INT_MAX -> Net.n_layers net' = Net.n_layers net - 1) /\
       layer_at s l = Some L /\
       heap s' !! l = None /\
       (forall a, a ≠ l -> Some a ∉ layer_owned L -> heap s' !! a = heap s !! a)).
Proof.
  split.
  - intros net p s Hlen. unfold neural_layer_remove, walk.
    destruct (Net.layers net) as [|l [|l2 ls]] eqn:El; try discriminate.
    cbn [length].
    destruct (decide (Z.to_nat (Z.max p 0) < 1)%nat) as [Hq|Hq].
    + replace (Z.to_nat (Z.max p 0)) with 0%nat by lia. cbn.
      eexists. reflexivity.
    + eexists. reflexivity.
  - intros net p s l Hlen Hp Hl Hok.
    assert (Hokl : layer_ok s l).
    { eapply Forall_forall; [exact Hok|]. eapply list_elem_of_lookup_2, Hl. }
    destruct Hokl as (L & HL & HLok).
    assert (W : wp (neural_layer_remove xcsf net p) s
                  (fun net' s' =>
                     Net.layers net' = delete (Z.to_nat p) (Net.layers net) /\
                     Net.n_layers net' = isub (Net.n_layers net) 1 /\
                     heap s' !! l = None /\
                     (forall a, a ≠ l -> Some a ∉ layer_owned L ->
                        heap s' !! a = heap s !! a))).
    { unfold neural_layer_remove. rewrite (walk_in_range _ _ Hp), Hl.
      destruct (decide (length (Net.layers net) = 1%nat)) as [H1|_]; [lia|].
      apply wp_bind.
      assert (Hhead : wp
                (if decide (S (Z.to_nat p) = length (Net.layers net))
                 then match last (delete (Z.to_nat p) (Net.layers net)) with
                      | Some hd =>
                          let* HL := load_layer hd in
                          ret (Net.mk (Net.layers net) (Net.n_layers net) (Net.n_inputs net)
                                      (Layer.n_outputs HL) (Layer.output HL))
                      | None => fault
                      end
                 else ret net) s
                (fun net1 s1 => s1 = s /\ Net.n_layers net1 = Net.n_layers net)).
      { destruct (decide (S (Z.to_nat p) = length (Net.layers net))) as [Hh|Hh].
        - destruct (last_delete_is_Some (Net.layers net) (Z.to_nat p) Hlen)
            as (hd & -> & Hin).
          assert (Hokh : layer_ok s hd) by (eapply Forall_forall; eauto).
          destruct Hokh as (HL' & HHL & _). apply layer_at_inv in HHL.
          apply wp_bind. eapply wp_load_layer; [exact HHL|].
          apply wp_ret. split; reflexivity.
        - apply wp_ret. split; reflexivity. }
      eapply wp_mono; [exact Hhead|].
      intros net1 s1 [-> Hn1]. cbn beta.
      apply wp_bind.
      apply (wp_layer_free xcsf s l L); [exact HL | exact HLok |].
      intros s1 Hframe _ _.
      assert (Hnown : Some l ∉ layer_owned L).
      { intros Hin. apply layer_at_inv in HL. unfold layer_owned in Hin.
        destruct HLok as [[Hv (os & ds & st & Ho & Hd & Hs & _)]
                         |[Hv (ix & os & ds & Hi & Ho & Hd & _)]];
          rewrite Hv in Hin; rewrite !elem_of_cons in Hin;
          destruct Hin as [Hin|[Hin|[Hin|Hin]]];
          try (apply elem_of_nil in Hin; contradiction); rewrite <- Hin in *;
          unfold doubles_at, ints_at in *; rewrite HL in *; discriminate. }
      apply wp_bind. eapply wp_free.
      { rewrite (Hframe l Hnown). apply layer_at_inv, HL. }
      apply wp_ret. cbn [Net.layers Net.n_layers heap set_heap]. rewrite Hn1.
      split; [reflexivity|]. split; [reflexivity|]. split.
      - apply lookup_delete_eq.
      - intros a Hal Hown. rewrite lookup_delete_ne by congruence.
        apply Hframe, Hown. }
    destruct (wp_inv _ _ _ W) as (net' & s' & Hrun & Hls & Hnl & Hgone & Hframe).
    exists net', s', L. split; [exact Hrun|]. split; [exact Hls|].
    split; [rewrite Hls, length_delete by (rewrite Hl; eauto); reflexivity|].
    split; [exact Hnl|]. split.
    { intros Hr. rewrite Hnl. unfold isub. apply int_wrap_id.
      unfold in_int, INT_MIN, INT_MAX in *. lia. }
    split; [exact HL|]. split; [exact Hgone | exact Hframe].
Qed.

(** The call gives control back to its caller. *)
Definition returns {A} (o : outcome A) : Prop := exists a s', o = Ok a s'.

(** The diagnostic of [neural_output]. *)
Definition neural_output_diag (i n : Z) : string :=
  "neural_output(): requested (" ++ pretty i ++ ") in output layer of size ("
  ++ pretty n ++ ")" ++ newline.

(** X2 (C5, as amended). For [0 <= i < net.n_outputs], a live dropout or
    max-pooling head layer and an output array of more than [i] cells,
    [neural_output] returns the [i]-th cell of the head layer's output array
    and leaves the state as it was. For [i >= net.n_outputs] it prints a
    diagnostic and exits the process, the state being as it was on entry:
    control never returns to the caller. *)
Theorem neural_output_spec (xcsf : XCSF) :
  (forall net i s hd HL os v,
     0 <= i < Net.n_outputs net ->
     last (Net.layers net) = Some hd ->
     layer_at s hd = Some HL ->
     (Layer.layer_vptr HL = VDropout \/ Layer.layer_vptr HL = VMaxpool) ->
     doubles_at s (Layer.output HL) = Some os ->
     os !! Z.to_nat i = Some v ->
     neural_output xcsf net i s = Ok v s) /\
  (forall net i s,
     Net.n_outputs net <= i ->
     neural_output xcsf net i s = Exit (neural_output_diag i (Net.n_outputs net)) s /\
     ~ returns (neural_output xcsf net i s)).
Proof.
  split.
  - intros net i s hd HL os v Hi Hlast HHL Hv Hos Hvi.
    unfold neural_output.
    destruct (i <? Net.n_outputs net) eqn:Ei; [| lia].
    rewrite Hlast. apply layer_at_inv in HHL.
    assert (Hout : layer_output xcsf hd s = Ok (Layer.output HL) s).
    { unfold layer_output. rewrite (bind_Ok _ _ _ _ _ (load_layer_at _ _ _ HHL)).
      destruct Hv as [-> | ->]; cbn [vtbl_of layer_impl_output layer_dropout_vtbl
                                       layer_maxpool_vtbl];
        unfold neural_layer_dropout_output, neural_layer_maxpool_output;
        rewrite (bind_Ok _ _ _ _ _ (load_layer_at _ _ _ HHL)); reflexivity. }
    rewrite (bind_Ok _ _ _ _ _ Hout).
    apply read_double_peek. rewrite (peek_double_at _ _ _ _ Hos) by lia. exact Hvi.
  - intros net i s Hi. unfold neural_output.
    destruct (i <? Net.n_outputs net) eqn:Ei; [lia|].
    split; [reflexivity|]. intros (a & s' & Hr). discriminate.
Qed.

End NetworkProofs.

(** ** Allocating layers: copy and load *)

Section Allocation.

Context {E : Externals}.

Definition zero_ints (n : Z) : block := BInts (replicate (Z.to_nat n) 0).

(** The struct after the max-pooling [malloc_layer_arrays]. *)
Definition with_maxpool_arrays (a1 a2 a3 : addr) (L : Layer.t) : Layer.t :=
  Layer.set_delta (Some a3) (Layer.set_output (Some a2) (Layer.set_indexes (Some a1) L)).

Lemma wp_maxpool_malloc_layer_arrays s l L (Q : unit -> state -> Prop) :
  heap s !! l = Some (BLayer L) ->
  1 <= Layer.n_outputs L <= N_OUTPUTS_MAX ->
  (forall a1 a2 a3, fresh3 (heap s) a1 a2 a3 ->
     Q tt (set_heap
             (<[l := BLayer (with_maxpool_arrays a1 a2 a3 L)]>
                (<[a3 := zeros (Layer.n_outputs L)]>
                   (<[a2 := zeros (Layer.n_outputs L)]>
                      (<[a1 := zero_ints (Layer.n_outputs L)]> (heap s))))) s)) ->
  wp (maxpool_malloc_layer_arrays l) s Q.
Proof.
  intros Hl Hn HQ. unfold maxpool_malloc_layer_arrays.
  wstep.
  destruct (Layer.n_outputs L <? 1) eqn:E1; [lia|].
  destruct (N_OUTPUTS_MAX <? Layer.n_outputs L) eqn:E2; [lia|].
  cbn [orb].
  do 5 wstep.
  eapply wp_modify_layer; [solve_lookup|]. cbn [heap set_heap]. rewrite ?set_heap_twice.
  assert (Hf : fresh3 (heap s) a a0 a1) by (unfold fresh3; repeat split; solve_ne).
  specialize (HQ a a0 a1 Hf).
  match goal with
  | HQ : Q tt (set_heap ?h1 _) |- Q tt (set_heap ?h2 _) => replace h2 with h1; [exact HQ|]
  end.
  unfold with_maxpool_arrays. heap_eq.
Qed.

(** The state [t] is [s] with more blocks: every block of [s] is as it was,
    no random number was drawn and no virtual call traced. *)
Definition grown (s t : state) : Prop :=
  (forall a, is_Some (heap s !! a) -> heap t !! a = heap s !! a) /\
  rng t = rng s /\ trace t = trace s.

Lemma grown_refl s : grown s s.
Proof. repeat split. Qed.

Lemma grown_trans s t u : grown s t -> grown t u -> grown s u.
Proof.
  intros (H1 & R1 & T1) (H2 & R2 & T2). repeat split; try congruence.
  intros a Ha. rewrite H2 by (rewrite H1 by exact Ha; exact Ha). apply H1, Ha.
Qed.

Lemma grown_layer_at s t a L : grown s t -> layer_at s a = Some L -> layer_at t a = Some L.
Proof.
  intros (Hg & _) Ha. apply layer_at_inv in Ha. apply layer_at_lookup.
  rewrite Hg by eauto. exact Ha.
Qed.

Lemma grown_fresh s t a : grown s t -> heap t !! a = None -> heap s !! a = None.
Proof.
  intros (Hg & _) Ha. destruct (heap s !! a) as [b|] eqn:Eb; [| reflexivity].
  rewrite <- Eb, <- (Hg a) by (rewrite Eb; eauto). exact Ha.
Qed.

(** A layer can be copied or reloaded: its table matches its type and its
    size passes the allocation check of its kind. *)
Definition copyable (L : Layer.t) : Prop :=
  (Layer.layer_vptr L = VDropout /\ Layer.layer_type L = DROPOUT /\
   1 <= Layer.n_inputs L <= N_INPUTS_MAX) \/
  (Layer.layer_vptr L = VMaxpool /\ Layer.layer_type L = MAXPOOL /\
   1 <= Layer.n_outputs L <= N_OUTPUTS_MAX).

Definition copyable_at (s : state) (a : addr) : Prop :=
  exists L, layer_at s a = Some L /\ copyable L.

(** The members a max-pooling layer saves; those a dropout layer saves. *)
Definition same_maxpool_members (A B : Layer.t) : Prop :=
  Layer.height B = Layer.height A /\ Layer.width B = Layer.width A /\
  Layer.channels B = Layer.channels A /\ Layer.pad B = Layer.pad A /\
  Layer.out_w B = Layer.out_w A /\ Layer.out_h B = Layer.out_h A /\
  Layer.out_c B = Layer.out_c A /\ Layer.n_outputs B = Layer.n_outputs A /\
  Layer.max_outputs B = Layer.max_outputs A /\ Layer.n_inputs B = Layer.n_inputs A /\
  Layer.size B = Layer.size A /\ Layer.stride B = Layer.stride A.

Definition same_dropout_members (A B : Layer.t) : Prop :=
  Layer.n_inputs B = Layer.n_inputs A /\ Layer.n_outputs B = Layer.n_outputs A /\
  Layer.max_outputs B = Layer.max_outputs A /\
  Layer.probability B = Layer.probability A /\ Layer.scale B = Layer.scale A.

(** Same layer type and same configuration. *)
Definition same_config (A B : Layer.t) : Prop :=
  Layer.layer_type B = Layer.layer_type A /\
  Layer.layer_vptr B = Layer.layer_vptr A /\
  match Layer.layer_vptr A with
  | VDropout => same_dropout_members A B
  | VMaxpool => same_maxpool_members A B
  | VExt _ => True
  end.


(** The buffers of a freshly made layer: zeroed arrays of the checked size,
    at addresses that were free in [s]. *)
Definition fresh_arrays (s t : state) (L : Layer.t) : Prop :=
  match Layer.layer_vptr L with
  | VDropout =>
      exists a1 a2 a3, fresh3 (heap s) a1 a2 a3 /\
        Layer.output L = Some a1 /\ Layer.delta L = Some a2 /\ Layer.state L = Some a3 /\
        heap t !! a1 = Some (zeros (Layer.n_inputs L)) /\
        heap t !! a2 = Some (zeros (Layer.n_inputs L)) /\
        heap t !! a3 = Some (zeros (Layer.n_inputs L))
  | VMaxpool =>
      exists a1 a2 a3, fresh3 (heap s) a1 a2 a3 /\
        Layer.indexes L = Some a1 /\ Layer.output L = Some a2 /\ Layer.delta L = Some a3 /\
        heap t !! a1 = Some (zero_ints (Layer.n_outputs L)) /\
        heap t !! a2 = Some (zeros (Layer.n_outputs L)) /\
        heap t !! a3 = Some (zeros (Layer.n_outputs L))
  | VExt _ => True
  end.

(** A layer made by a copy or a load: a new struct with new buffers. *)
Definition fresh_layer (s t : state) (b : addr) (L : Layer.t) : Prop :=
  heap s !! b = None /\ layer_at t b = Some L /\ fresh_arrays s t L /\ grown s t.


End Allocation.

(** ** C6: copying a network *)

Section Copy.

Context {E : Externals}.

Lemma fresh_layer_grown s t t' b L :
  fresh_layer s t b L -> grown t t' -> fresh_layer s t' b L.
Proof.
  intros (Hb & HL & Harr & Hg) Hg'. split; [exact Hb|].
  split; [eapply grown_layer_at; eauto|]. split; [| eapply grown_trans; eauto].
  destruct Hg' as (Hh & _). unfold fresh_arrays in *.
  destruct (Layer.layer_vptr L); [| | exact I];
    destruct Harr as (a1 & a2 & a3 & Hf & Ha1 & Ha2 & Ha3 & H1 & H2 & H3);
    exists a1, a2, a3; (split; [exact Hf|]);
    do 3 (split; [assumption|]);
    (split; [| split]); rewrite Hh by eauto; assumption.
Qed.

Lemma fresh_layer_base s t t' b L :
  grown s t -> fresh_layer t t' b L -> fresh_layer s t' b L.
Proof.
  intros Hg (Hb & HL & Harr & Hg'). split; [eapply grown_fresh; eauto|].
  split; [exact HL|]. split; [| eapply grown_trans; eauto].
  unfold fresh_arrays in *.
  destruct (Layer.layer_vptr L); [| | exact I];
    destruct Harr as (a1 & a2 & a3 & (F1 & F2 & F3 & Hne) & Hrest);
    exists a1, a2, a3; (split; [| exact Hrest]);
    repeat split; try (eapply grown_fresh; eassumption); apply Hne.
Qed.

Lemma walk_end (ls : list addr) : walk ls (Z.of_nat (length ls)) = None.
Proof.
  unfold walk. rewrite Z.max_l by lia. rewrite Nat2Z.id.
  destruct (decide (length ls < length ls)%nat); [lia | reflexivity].
Qed.

(** Inserting at the position after the last layer makes the new head; on an
    empty network it also makes the tail. *)
Definition appended (net : Net.t) (l : addr) (L : Layer.t) : Net.t :=
  Net.mk (Net.layers net ++ [l]) (iadd (Net.n_layers net) 1)
         (match Net.layers net with [] => Layer.n_inputs L | _ :: _ => Net.n_inputs net end)
         (Layer.n_outputs L) (Layer.output L).

Lemma wp_neural_layer_insert_end xcsf net l s L (Q : Net.t -> state -> Prop) :
  heap s !! l = Some (BLayer L) ->
  Q (appended net l L) s ->
  wp (neural_layer_insert xcsf net l (Z.of_nat (length (Net.layers net)))) s Q.
Proof.
  intros Hl HQ. unfold neural_layer_insert, appended in *.
  destruct (Net.layers net) as [|a ls] eqn:El.
  - apply wp_bind. eapply wp_load_layer; [exact Hl|]. apply wp_ret. exact HQ.
  - rewrite walk_end.
    apply wp_bind. eapply wp_load_layer; [exact Hl|]. apply wp_ret. exact HQ.
Qed.

Lemma tail_ok_appended s t net l L :
  grown s t -> layer_at t l = Some L ->
  tail_n_inputs_ok s net = true -> tail_n_inputs_ok t (appended net l L) = true.
Proof.
  intros Hg Hl. unfold tail_n_inputs_ok, appended. cbn [Net.layers Net.n_inputs].
  destruct (Net.layers net) as [|tl ls].
  - intros _. cbn. rewrite Hl. apply Z.eqb_refl.
  - cbn. destruct (layer_at s tl) as [TL|] eqn:Etl; [| discriminate].
    rewrite (grown_layer_at _ _ _ _ Hg Etl). exact id.
Qed.

Lemma head_ok_appended t net l L :
  layer_at t l = Some L -> head_outputs_ok t (appended net l L) = true.
Proof.
  intros Hl. unfold head_outputs_ok, appended. cbn [Net.layers Net.n_outputs Net.output].
  rewrite last_snoc, Hl, Z.eqb_refl. cbn. apply bool_decide_eq_true_2. reflexivity.
Qed.










End Copy.

(** ** C7: one backpropagation step *)

Section Learn.

Context {E : Externals}.

(** Two states of the same shape: the same layer structs and index arrays,
    arrays of doubles of the same lengths, the same random position. *)
Definition same_block_shape (b b' : option block) : Prop :=
  match b, b' with
  | Some (BLayer L), Some (BLayer L') => L = L'
  | Some (BInts z), Some (BInts z') => z = z'
  | Some (BDoubles d), Some (BDoubles d') => length d = length d'
  | None, None => True
  | _, _ => False
  end.

Definition same_shape (s t : state) : Prop :=
  (forall a, same_block_shape (heap s !! a) (heap t !! a)) /\ rng t = rng s.

Lemma same_block_shape_refl b : same_block_shape b b.
Proof. destruct b as [[| |]|]; reflexivity. Qed.

Lemma same_block_shape_trans b1 b2 b3 :
  same_block_shape b1 b2 -> same_block_shape b2 b3 -> same_block_shape b1 b3.
Proof.
  destruct b1 as [[| |]|], b2 as [[| |]|], b3 as [[| |]|]; cbn; try contradiction;
    try congruence; auto.
Qed.

Lemma same_shape_refl s : same_shape s s.
Proof. split; [intros a; apply same_block_shape_refl | reflexivity]. Qed.

Lemma same_shape_trans s t u : same_shape s t -> same_shape t u -> same_shape s u.
Proof.
  intros [H1 R1] [H2 R2]. split; [| congruence].
  intros a. eapply same_block_shape_trans; [apply H1 | apply H2].
Qed.

Lemma same_shape_layer s t a L : same_shape s t -> heap s !! a = Some (BLayer L) ->
  heap t !! a = Some (BLayer L).
Proof.
  intros [H _] Ha. specialize (H a). rewrite Ha in H.
  destruct (heap t !! a) as [[| |]|]; cbn in H; try contradiction. congruence.
Qed.

Lemma same_shape_ints s t a z : same_shape s t -> heap s !! a = Some (BInts z) ->
  heap t !! a = Some (BInts z).
Proof.
  intros [H _] Ha. specialize (H a). rewrite Ha in H.
  destruct (heap t !! a) as [[| |]|]; cbn in H; try contradiction. congruence.
Qed.

Lemma same_shape_doubles s t a d : same_shape s t -> heap s !! a = Some (BDoubles d) ->
  exists d', heap t !! a = Some (BDoubles d') /\ length d' = length d.
Proof.
  intros [H _] Ha. specialize (H a). rewrite Ha in H.
  destruct (heap t !! a) as [[d'| |]|]; cbn in H; try contradiction. eauto.
Qed.

(** A write into an array keeps the shape. *)
Lemma same_shape_write s a d d' :
  heap s !! a = Some (BDoubles d) -> length d' = length d ->
  same_shape s (set_heap (<[a := BDoubles d']> (heap s)) s).
Proof.
  intros Ha Hlen. split; [| reflexivity]. intros c. cbn [heap set_heap].
  destruct (decide (c = a)) as [->|Hne].
  - rewrite lookup_insert_eq, Ha. cbn. congruence.
  - rewrite lookup_insert_ne by congruence. apply same_block_shape_refl.
Qed.

Lemma same_shape_emit s e : same_shape s (mkState (heap s) (rng s) (trace s ++ [e])).
Proof. split; [intros a; apply same_block_shape_refl | reflexivity]. Qed.

(** A live array of doubles of at least [n] cells. *)
Definition array_ge (s : state) (p : ptr) (n : Z) : Prop :=
  exists a d, p = Some a /\ heap s !! a = Some (BDoubles d) /\ n <= Z.of_nat (length d).

Lemma array_ge_shape s t p n : same_shape s t -> array_ge s p n -> array_ge t p n.
Proof.
  intros Hs (a & d & -> & Ha & Hn).
  destruct (same_shape_doubles _ _ _ _ Hs Ha) as (d' & Ha' & Hl).
  exists a, d'. repeat split; [exact Ha' | lia].
Qed.

(** What [neural_learn] needs of one layer: a live struct of a known kind, a
    delta array covering its outputs and, per kind, the arrays its backward
    pass reads. *)
Definition learn_layer_ready (s : state) (l : addr) : Prop :=
  exists L, heap s !! l = Some (BLayer L) /\
    0 <= Layer.n_outputs L /\
    array_ge s (Layer.delta L) (Layer.n_outputs L) /\
    ((Layer.layer_vptr L = VDropout /\
      array_ge s (Layer.state L) (Layer.n_inputs L) /\
      array_ge s (Layer.delta L) (Layer.n_inputs L)) \/
     (Layer.layer_vptr L = VMaxpool /\
      exists a ix, Layer.indexes L = Some a /\ heap s !! a = Some (BInts ix) /\
                   Layer.n_outputs L <= Z.of_nat (length ix))).

(** What the backward pass of [l] needs of the delta array of the layer
    [prev] before it: room for the cells it writes. *)
Definition learn_pair_ready (s : state) (prev l : addr) : Prop :=
  exists P L, heap s !! prev = Some (BLayer P) /\ heap s !! l = Some (BLayer L) /\
    ((Layer.layer_vptr L = VDropout /\ array_ge s (Layer.delta P) (Layer.n_inputs L)) \/
     (Layer.layer_vptr L = VMaxpool /\
      exists a ix ad d, Layer.indexes L = Some a /\ heap s !! a = Some (BInts ix) /\
        Layer.delta P = Some ad /\ heap s !! ad = Some (BDoubles d) /\
        forall i v, 0 <= i < Layer.n_outputs L -> ix !! Z.to_nat i = Some v ->
                    0 <= v < Z.of_nat (length d))).

Fixpoint learn_pairs_ready (s : state) (ls : list addr) : Prop :=
  match ls with
  | prev :: rest =>
      match rest with
      | l :: _ => learn_pair_ready s prev l /\ learn_pairs_ready s rest
      | [] => True
      end
  | [] => True
  end.

Lemma learn_layer_ready_shape s t l :
  same_shape s t -> learn_layer_ready s l -> learn_layer_ready t l.
Proof.
  intros Hs (L & HL & Hn & Hd & Hk). exists L.
  split; [eapply same_shape_layer; eauto|]. split; [exact Hn|].
  split; [eapply array_ge_shape; eauto|].
  destruct Hk as [(Hv & H1 & H2) | (Hv & a & ix & Ha & Hix & Hlen)]; [left | right].
  - split; [exact Hv|]. split; eapply array_ge_shape; eauto.
  - split; [exact Hv|]. exists a, ix. split; [exact Ha|].
    split; [eapply same_shape_ints; eauto | exact Hlen].
Qed.

Lemma learn_pair_ready_shape s t prev l :
  same_shape s t -> learn_pair_ready s prev l -> learn_pair_ready t prev l.
Proof.
  intros Hs (P & L & HP & HL & Hk). exists P, L.
  split; [eapply same_shape_layer; eauto|]. split; [eapply same_shape_layer; eauto|].
  destruct Hk as [(Hv & H1) | (Hv & a & ix & ad & d & Ha & Hix & Had & Hd & Hb)];
    [left | right].
  - split; [exact Hv | eapply array_ge_shape; eauto].
  - split; [exact Hv|].
    destruct (same_shape_doubles _ _ _ _ Hs Hd) as (d' & Hd' & Hl).
    exists a, ix, ad, d'. split; [exact Ha|].
    split; [eapply same_shape_ints; eauto|]. split; [exact Had|]. split; [exact Hd'|].
    intros i v Hi Hv'. rewrite Hl. eapply Hb; eauto.
Qed.

Lemma learn_pairs_ready_shape s t ls :
  same_shape s t -> learn_pairs_ready s ls -> learn_pairs_ready t ls.
Proof.
  intros Hs. induction ls as [|a [|b ls] IH]; cbn; try exact id.
  intros [H1 H2]. split; [eapply learn_pair_ready_shape; eauto | apply IH, H2].
Qed.

(** The state [t] has the shape of [t0] and the same trace. *)
Definition quiet (t0 t : state) : Prop := same_shape t0 t /\ trace t = trace t0.

Lemma quiet_refl t : quiet t t.
Proof. split; [apply same_shape_refl | reflexivity]. Qed.

Lemma quiet_trans s t u : quiet s t -> quiet t u -> quiet s u.
Proof. intros [H1 T1] [H2 T2]. split; [eapply same_shape_trans; eauto | congruence]. Qed.

Lemma wp_read_ge p i n t (Q : double -> state -> Prop) :
  array_ge t p n -> 0 <= i < n -> (forall v, Q v t) -> wp (read_double p i) t Q.
Proof.
  intros (a & d & -> & Ha & Hn) Hi HQ.
  destruct (lookup_lt_is_Some_2 d (Z.to_nat i)) as [v Hv]; [lia|].
  eapply wp_read_double; [| apply HQ].
  rewrite (peek_double_lookup _ _ _ _ Ha) by lia. exact Hv.
Qed.

Lemma wp_write_ge p i n v t (Q : unit -> state -> Prop) :
  array_ge t p n -> 0 <= i < n -> (forall t', quiet t t' -> Q tt t') ->
  wp (write_double p i v) t Q.
Proof.
  intros (a & d & -> & Ha & Hn) Hi HQ.
  eapply wp_write_double; [exact Ha | lia |].
  apply HQ. split; [| reflexivity].
  apply (same_shape_write _ _ d); [exact Ha | apply length_insert].
Qed.

Lemma array_ge_quiet s t p n : quiet s t -> array_ge s p n -> array_ge t p n.
Proof. intros [Hs _]. apply array_ge_shape, Hs. Qed.

Lemma array_ge_le s p n m : array_ge s p n -> m <= n -> array_ge s p m.
Proof. intros (a & d & -> & Ha & Hn) Hm. exists a, d. repeat split; [exact Ha | lia]. Qed.

(** A loop whose iterations keep the shape and the trace keeps them. *)
Lemma wp_for_int_quiet hi body t (Q : unit -> state -> Prop) :
  (forall k u, 0 <= k < hi -> quiet t u ->
     wp (body k) u (fun _ u' => quiet u u')) ->
  (forall t', quiet t t' -> Q tt t') ->
  wp (for_int 0 hi body) t Q.
Proof.
  intros Hbody HQ.
  apply (wp_for_int (fun _ u => quiet t u)).
  - apply quiet_refl.
  - intros k u Hk Hu. eapply wp_mono; [apply Hbody; [lia | exact Hu]|].
    intros [] u' Hu'. eapply quiet_trans; eauto.
  - intros t' Ht'. apply HQ, Ht'.
Qed.

Lemma wp_emit e t (Q : unit -> state -> Prop) :
  Q tt (mkState (heap t) (rng t) (trace t ++ [e])) -> wp (emit e) t Q.
Proof. exact id. Qed.

(** The backward pass of a ready layer into the delta array of the layer
    before it: it returns, keeps the shape, and is traced once. *)
Lemma wp_layer_backward_inner xcsf t prev l (Q : unit -> state -> Prop) :
  learn_layer_ready t l ->
  learn_pair_ready t prev l ->
  (forall P t', heap t !! prev = Some (BLayer P) -> same_shape t t' ->
     trace t' = trace t ++ [EvBackward l (Layer.output P) (Layer.delta P)] -> Q tt t') ->
  wp (let* P := load_layer prev in
      layer_backward xcsf l (Layer.output P) (Layer.delta P)) t Q.
Proof.
  intros (L & HL & Hn0 & Hdl & Hkind) (P & L' & HP & HL' & Hpair) HQ.
  rewrite HL in HL'. injection HL' as <-.
  apply wp_bind. eapply wp_load_layer; [exact HP|].
  unfold layer_backward. apply wp_bind, wp_emit.
  set (t1 := mkState (heap t) (rng t)
                     (trace t ++ [EvBackward l (Layer.output P) (Layer.delta P)])).
  assert (Hs1 : same_shape t t1) by apply same_shape_emit.
  assert (Hfin : forall t', quiet t1 t' -> Q tt t').
  { intros t' [Hs' Ht']. apply (HQ P); [exact HP | | exact Ht'].
    exact (same_shape_trans _ _ _ Hs1 Hs'). }
  apply wp_bind. eapply wp_load_layer; [exact HL|].
  destruct Hkind as [(Hv & Hst & Hdl') | (Hv & ai & ix & Hai & Hix & Hlen)];
    rewrite Hv; cbn [vtbl_of layer_impl_backward layer_dropout_vtbl layer_maxpool_vtbl].
  - (* dropout *)
    destruct Hpair as [(_ & Hpd) | (Hv' & _)]; [| congruence].
    unfold neural_layer_dropout_backward.
    apply wp_bind. eapply wp_load_layer; [exact HL|].
    destruct Hpd as (ad & d & Ead & Had & Hdn). rewrite Ead.
    assert (Hpd1 : array_ge t1 (Some ad) (Layer.n_inputs L)) by (exists ad, d; auto).
    apply wp_for_int_quiet; [| exact Hfin].
    intros k u Hk Hu.
    apply wp_bind. eapply (wp_read_ge _ _ (Layer.n_inputs L)); [| exact Hk |].
    { eapply array_ge_quiet; [exact Hu|]. exact Hst. }
    intros st. destruct (dlt st (Layer.probability L)).
    + eapply (wp_write_ge _ _ (Layer.n_inputs L)); [| exact Hk | auto].
      eapply array_ge_quiet; eauto.
    + apply wp_bind. eapply (wp_read_ge _ _ (Layer.n_inputs L)); [| exact Hk |].
      { eapply array_ge_quiet; eauto. }
      intros dv.
      apply wp_bind. eapply (wp_read_ge _ _ (Layer.n_inputs L)); [| exact Hk |].
      { eapply array_ge_quiet; [exact Hu|]. exact Hdl'. }
      intros ld.
      eapply (wp_write_ge _ _ (Layer.n_inputs L)); [| exact Hk | auto].
      eapply array_ge_quiet; eauto.
  - (* max-pooling *)
    destruct Hpair as [(Hv' & _) | (_ & ai' & ix' & ad & d & Hai' & Hix' & Had & Hd & Hb)];
      [congruence|].
    rewrite Hai in Hai'. injection Hai' as <-. rewrite Hix in Hix'. injection Hix' as <-.
    unfold neural_layer_maxpool_backward.
    apply wp_bind. eapply wp_load_layer; [exact HL|].
    rewrite Had, Hai.
    apply wp_for_int_quiet; [| exact Hfin].
    intros k u Hk Hu.
    destruct (lookup_lt_is_Some_2 ix (Z.to_nat k)) as [v Hv']; [lia|].
    pose proof (Hb k v Hk Hv') as Hvb.
    assert (Hix_u : heap u !! ai = Some (BInts ix)).
    { eapply same_shape_ints; [apply Hu|]. exact Hix. }
    assert (Hd_u : array_ge u (Some ad) (Z.of_nat (length d))).
    { eapply array_ge_quiet; [exact Hu|]. exists ad, d. repeat split; [exact Hd | lia]. }
    apply wp_bind.
    eapply (wp_Ok (read_int (Some ai) k) u v u).
    { unfold read_int, peek_int, ints_at. rewrite Hix_u.
      destruct (0 <=? k) eqn:E0; [| lia]. rewrite Hv'. reflexivity. }
    apply wp_bind. eapply (wp_read_ge _ _ _ _ _ Hd_u Hvb). intros dv.
    apply wp_bind. eapply (wp_read_ge _ _ (Layer.n_outputs L)); [| exact Hk |].
    { eapply array_ge_quiet; [exact Hu|]. exact Hdl. }
    intros ld.
    eapply (wp_write_ge _ _ _ _ _ _ Hd_u Hvb). auto.
Qed.

(** The backward pass of the input layer: no delta array to fill. *)
Lemma wp_layer_backward_tail xcsf t l input (Q : unit -> state -> Prop) :
  learn_layer_ready t l ->
  (forall t', same_shape t t' ->
     trace t' = trace t ++ [EvBackward l input None] -> Q tt t') ->
  wp (layer_backward xcsf l input None) t Q.
Proof.
  intros (L & HL & Hn0 & Hdl & Hkind) HQ.
  unfold layer_backward. apply wp_bind, wp_emit.
  apply wp_bind. eapply wp_load_layer; [exact HL|].
  destruct Hkind as [(Hv & _) | (Hv & _)]; rewrite Hv;
    cbn [vtbl_of layer_impl_backward layer_dropout_vtbl layer_maxpool_vtbl];
    unfold neural_layer_dropout_backward, neural_layer_maxpool_backward;
    (apply wp_bind; eapply wp_load_layer; [exact HL|]); apply wp_ret;
    (apply HQ; [apply same_shape_emit | reflexivity]).
Qed.

(** The layers from the head down, each ready and, but for the last, with a
    ready layer before it. *)
Fixpoint learn_chain_ready (s : state) (hl : list addr) : Prop :=
  match hl with
  | [] => True
  | l :: rest =>
      learn_layer_ready s l /\
      match rest with
      | prev :: _ => learn_pair_ready s prev l
      | [] => True
      end /\
      learn_chain_ready s rest
  end.

Lemma learn_chain_ready_shape s t hl :
  same_shape s t -> learn_chain_ready s hl -> learn_chain_ready t hl.
Proof.
  intros Hs. induction hl as [|l [|prev rest] IH]; cbn; try exact id.
  - intros (H1 & _ & _). repeat split. eapply learn_layer_ready_shape; eauto.
  - intros (H1 & H2 & H3). split; [eapply learn_layer_ready_shape; eauto|].
    split; [eapply learn_pair_ready_shape; eauto | apply IH, H3].
Qed.

(** The calls of the backward phase: each layer once, from the head down,
    with the output and delta arrays of the layer before it, the input layer
    with the raw input and no delta array. *)
Fixpoint backward_events (s : state) (hl : list addr) (input : ptr) : list event :=
  match hl with
  | [] => []
  | l :: rest =>
      match rest with
      | [] => EvBackward l input None
      | prev :: _ =>
          match layer_at s prev with
          | Some P => EvBackward l (Layer.output P) (Layer.delta P)
          | None => EvBackward l None None
          end
      end :: backward_events s rest input
  end.

Lemma backward_events_shape s t hl input :
  same_shape s t -> learn_chain_ready s hl ->
  backward_events t hl input = backward_events s hl input.
Proof.
  intros Hs. induction hl as [|l [|prev rest] IH]; cbn [backward_events learn_chain_ready];
    try reflexivity.
  intros (_ & (P & L & HP & _) & H3). f_equal; [| apply IH, H3].
  rewrite (layer_at_lookup _ _ _ HP).
  rewrite (layer_at_lookup _ _ _ (same_shape_layer _ _ _ _ Hs HP)). reflexivity.
Qed.

Lemma wp_learn_backward xcsf hl input t (Q : unit -> state -> Prop) :
  learn_chain_ready t hl ->
  (forall t', same_shape t t' -> trace t' = trace t ++ backward_events t hl input ->
     Q tt t') ->
  wp (learn_backward xcsf hl input) t Q.
Proof.
  revert t Q. induction hl as [|l rest IH]; intros t Q Hready HQ.
  - apply wp_ret. apply HQ; [apply same_shape_refl|]. cbn. rewrite app_nil_r. reflexivity.
  - cbn [learn_backward]. destruct Hready as (Hl & Hpair & Hrest).
    apply wp_bind.
    destruct rest as [|prev rest'].
    + apply wp_layer_backward_tail; [exact Hl|].
      intros t' Hs Ht. apply wp_ret. apply HQ; [exact Hs | exact Ht].
    + apply wp_layer_backward_inner; [exact Hl | exact Hpair |].
      intros P t' HP Hs Ht.
      apply IH; [eapply learn_chain_ready_shape; eauto|].
      intros t'' Hs' Ht'. apply HQ; [eapply same_shape_trans; eauto|].
      rewrite Ht', Ht.
      rewrite (backward_events_shape t t') by assumption.
      cbn [backward_events]. rewrite (layer_at_lookup _ _ _ HP).
      rewrite <- app_assoc. reflexivity.
Qed.

Lemma wp_learn_update xcsf net t (Q : unit -> state -> Prop) :
  Forall (learn_layer_ready t) (Net.layers net) ->
  (forall t', same_shape t t' ->
     trace t' = trace t ++ map EvUpdate (Net.layers net) -> Q tt t') ->
  wp (learn_update xcsf net) t Q.
Proof.
  intros Hready HQ. unfold learn_update.
  apply (wp_for_each (fun pre u => same_shape t u /\ trace u = trace t ++ map EvUpdate pre)).
  - split; [apply same_shape_refl|]. cbn. rewrite app_nil_r. reflexivity.
  - intros pre a post u Hl [Hs Ht].
    assert (Ha : learn_layer_ready t a).
    { eapply Forall_forall; [exact Hready|]. rewrite Hl. apply elem_of_app. right.
      apply elem_of_cons. left. reflexivity. }
    destruct (learn_layer_ready_shape _ _ _ Hs Ha) as (L & HL & _ & _ & Hkind).
    unfold layer_update. apply wp_bind, wp_emit.
    apply wp_bind. eapply wp_load_layer; [exact HL|].
    assert (Hdone : same_shape t (mkState (heap u) (rng u) (trace u ++ [EvUpdate a])) /\
                    trace (mkState (heap u) (rng u) (trace u ++ [EvUpdate a]))
                    = trace t ++ map EvUpdate (pre ++ [a])).
    { split; [eapply same_shape_trans; [exact Hs | apply same_shape_emit]|].
      cbn [trace]. rewrite Ht, map_app, <- app_assoc. reflexivity. }
    destruct Hkind as [(Hv & _) | (Hv & _)]; rewrite Hv; exact Hdone.
  - intros t' [Hs Ht]. apply HQ; assumption.
Qed.

Lemma wp_memset_zero a n t d (Q : unit -> state -> Prop) :
  heap t !! a = Some (BDoubles d) -> 0 <= n <= Z.of_nat (length d) ->
  Q tt (set_heap (<[a := BDoubles (replicate (Z.to_nat n) 0%float ++ drop (Z.to_nat n) d)]>
                    (heap t)) t) ->
  wp (memset_zero_doubles (Some a) n) t Q.
Proof.
  intros Ha Hn HQ. unfold wp, memset_zero_doubles.
  rewrite (doubles_at_lookup _ _ _ Ha).
  destruct (0 <=? n) eqn:E0; [| lia].
  destruct (n <=? Z.of_nat (length d)) eqn:E1; [| lia]. exact HQ.
Qed.

Lemma lookup_zeroed (d : list float) n i :
  (n <= length d)%nat ->
  (replicate n 0%float ++ drop n d) !! i
  = if decide (i < n)%nat then Some 0%float else d !! i.
Proof.
  intros Hn. destruct (decide (i < n)%nat) as [Hi|Hi].
  - rewrite lookup_app_l by (rewrite length_replicate; lia).
    apply lookup_replicate. split; [reflexivity | exact Hi].
  - rewrite lookup_app_r by (rewrite length_replicate; lia).
    rewrite length_replicate, lookup_drop. f_equal. lia.
Qed.

Lemma peek_memset_keep t a d n q i :
  heap t !! a = Some (BDoubles d) -> 0 <= n <= Z.of_nat (length d) ->
  peek_double t q i = Some 0%float ->
  peek_double (set_heap (<[a := BDoubles (replicate (Z.to_nat n) 0%float
                                           ++ drop (Z.to_nat n) d)]> (heap t)) t) q i
  = Some 0%float.
Proof.
  intros Ha Hn Hq. unfold peek_double in *.
  destruct (decide (q = Some a)) as [->|Hne].
  - rewrite doubles_at_insert_eq. rewrite (doubles_at_lookup _ _ _ Ha) in Hq.
    destruct (0 <=? i); [| discriminate].
    rewrite lookup_zeroed by lia. destruct (decide _); [reflexivity | exact Hq].
  - rewrite doubles_at_insert_ne by exact Hne. exact Hq.
Qed.

Lemma peek_memset_new t a d n i :
  0 <= n <= Z.of_nat (length d) -> 0 <= i < n ->
  peek_double (set_heap (<[a := BDoubles (replicate (Z.to_nat n) 0%float
                                           ++ drop (Z.to_nat n) d)]> (heap t)) t)
              (Some a) i
  = Some 0%float.
Proof.
  intros Hn Hi. unfold peek_double. rewrite doubles_at_insert_eq.
  destruct (0 <=? i) eqn:E0; [| lia].
  rewrite lookup_zeroed by lia. destruct (decide _); [reflexivity | lia].
Qed.

(** The reset loop after the layers of [pre]: their delta arrays are zero on
    their outputs, and no block but a delta array has changed. *)
Definition deltas_reset (t : state) (all pre : list addr) (u : state) : Prop :=
  quiet t u /\
  (forall l L i, l ∈ pre -> heap t !! l = Some (BLayer L) ->
     0 <= i < Layer.n_outputs L -> peek_double u (Layer.delta L) i = Some 0%float) /\
  (forall a, (forall l L, l ∈ all -> heap t !! l = Some (BLayer L) ->
                Layer.delta L ≠ Some a) ->
     heap u !! a = heap t !! a).

Lemma wp_learn_reset_deltas net t (Q : unit -> state -> Prop) :
  Forall (learn_layer_ready t) (Net.layers net) ->
  (forall t', deltas_reset t (Net.layers net) (Net.layers net) t' -> Q tt t') ->
  wp (learn_reset_deltas net) t Q.
Proof.
  intros Hready HQ. unfold learn_reset_deltas.
  apply (wp_for_each (deltas_reset t (Net.layers net))).
  - split; [apply quiet_refl|]. split; [| reflexivity].
    intros l L i Hl. apply elem_of_nil in Hl. contradiction.
  - intros pre a post u Hl (Hq & Hzero & Hframe).
    assert (Hin : a ∈ Net.layers net).
    { rewrite Hl. apply elem_of_app. right. apply elem_of_cons. left. reflexivity. }
    assert (Ha : learn_layer_ready t a) by (eapply Forall_forall; eauto).
    destruct Ha as (L & HL & Hn0 & Hdl & _).
    apply wp_bind. eapply wp_load_layer; [eapply same_shape_layer; [apply Hq | exact HL]|].
    destruct (array_ge_quiet _ _ _ _ Hq Hdl) as (ad & d & Ead & Had & Hlen).
    rewrite Ead. eapply wp_memset_zero; [exact Had | lia |].
    split; [| split].
    + eapply quiet_trans; [exact Hq|]. split; [| reflexivity].
      apply (same_shape_write _ _ d); [exact Had|].
      rewrite length_app, length_replicate, length_drop. lia.
    + intros l L' i Hl' HL' Hi. apply elem_of_app in Hl' as [Hl' | Hl'].
      * apply peek_memset_keep; [exact Had | lia | eapply Hzero; eauto].
      * apply list_elem_of_singleton in Hl'. subst l.
        rewrite HL in HL'. injection HL' as <-. rewrite Ead.
        apply peek_memset_new; lia.
    + intros c Hc. cbn [heap set_heap].
      rewrite lookup_insert_ne; [apply Hframe, Hc|].
      intros ->. eapply (Hc a L); eauto.
  - exact HQ.
Qed.

Lemma wp_learn_output_error net truth t hd HL at' ts ao os (Q : unit -> state -> Prop) :
  last (Net.layers net) = Some hd ->
  heap t !! hd = Some (BLayer HL) ->
  0 <= Layer.n_outputs HL ->
  array_ge t (Layer.delta HL) (Layer.n_outputs HL) ->
  truth = Some at' -> heap t !! at' = Some (BDoubles ts) ->
  Layer.n_outputs HL <= Z.of_nat (length ts) ->
  Layer.output HL = Some ao -> heap t !! ao = Some (BDoubles os) ->
  Layer.n_outputs HL <= Z.of_nat (length os) ->
  Layer.delta HL ≠ Some at' -> Layer.delta HL ≠ Some ao ->
  (forall t', quiet t t' ->
     (forall i tv ov, 0 <= i < Layer.n_outputs HL ->
        ts !! Z.to_nat i = Some tv -> os !! Z.to_nat i = Some ov ->
        peek_double t' (Layer.delta HL) i = Some (tv - ov)%float) ->
     Q tt t') ->
  wp (learn_output_error net truth) t Q.
Proof.
  intros Hlast HHL Hn0 (ad & d & Ead & Had & Hdn) -> Hat Htn Eao Hao Hon Hne1 Hne2 HQ.
  rewrite Ead in Hne1, Hne2.
  unfold learn_output_error. rewrite Hlast.
  apply wp_bind. eapply wp_load_layer; [exact HHL|].
  rewrite Eao, Ead.
  apply (wp_for_int (fun k u =>
           quiet t u /\ heap u !! at' = Some (BDoubles ts) /\
           heap u !! ao = Some (BDoubles os) /\
           exists d', heap u !! ad = Some (BDoubles d') /\ length d' = length d /\
             forall i tv ov, (i < k)%nat -> ts !! i = Some tv -> os !! i = Some ov ->
               d' !! i = Some (tv - ov)%float)).
  - split; [apply quiet_refl|]. split; [exact Hat|]. split; [exact Hao|].
    exists d. split; [exact Had|]. split; [reflexivity|]. intros; lia.
  - intros k u Hk (Hq & Hat_u & Hao_u & d' & Had_u & Hlen & Hdone).
    destruct (lookup_lt_is_Some_2 ts k) as [tv Htv]; [lia|].
    destruct (lookup_lt_is_Some_2 os k) as [ov Hov]; [lia|].
    apply wp_bind. eapply wp_read_double.
    { rewrite (peek_double_lookup _ _ _ _ Hat_u) by lia. rewrite Nat2Z.id. exact Htv. }
    apply wp_bind. eapply wp_read_double.
    { rewrite (peek_double_lookup _ _ _ _ Hao_u) by lia. rewrite Nat2Z.id. exact Hov. }
    eapply wp_write_double; [exact Had_u | lia |].
    rewrite Nat2Z.id. cbn [heap set_heap].
    split; [| split; [| split]].
    + eapply quiet_trans; [exact Hq|]. split; [| reflexivity].
      apply (same_shape_write _ _ d'); [exact Had_u | apply length_insert].
    + rewrite lookup_insert_ne by congruence. exact Hat_u.
    + rewrite lookup_insert_ne by congruence. exact Hao_u.
    + exists (<[k := (tv - ov)%float]> d'). rewrite lookup_insert_eq.
      split; [reflexivity|]. split; [rewrite length_insert; exact Hlen|].
      intros i tv' ov' Hi Htv' Hov'. destruct (decide (i = k)) as [->|Hik].
      * rewrite list_lookup_insert_eq by lia. congruence.
      * rewrite list_lookup_insert_ne by congruence. eapply Hdone; eauto. lia.
  - intros t' (Hq & _ & _ & d' & Had' & _ & Hdone). apply HQ; [exact Hq|].
    intros i tv ov Hi Htv Hov.
    rewrite Ead, (peek_double_lookup _ _ _ _ Had') by lia.
    eapply Hdone; eauto. lia.
Qed.

Lemma learn_chain_ready_Forall s hl :
  learn_chain_ready s hl -> Forall (learn_layer_ready s) hl.
Proof.
  induction hl as [|l rest IH]; cbn; [constructor|].
  intros (H1 & _ & H3). constructor; [exact H1 | apply IH, H3].
Qed.

(** X4 (C7). On a network whose layers are live dropout and max-pooling layers
    with arrays large enough for their backward passes, [neural_learn]
    returns after its four phases: every layer's delta array is zeroed on its
    outputs; the head layer's delta becomes [truth - output] componentwise;
    the backward pass of each layer is called once, from the head down to
    the tail, with the output and delta arrays of the layer before it (the
    tail with the raw input and no delta array); then the update of each
    layer is called once. *)
Theorem neural_learn_spec (xcsf : XCSF) (net : Net.t) (truth input : ptr) (s : state)
    (hd : addr) (HL : Layer.t) (ts os : list float) :
  learn_chain_ready s (rev (Net.layers net)) ->
  last (Net.layers net) = Some hd ->
  layer_at s hd = Some HL ->
  doubles_at s truth = Some ts ->
  doubles_at s (Layer.output HL) = Some os ->
  Layer.n_outputs HL <= Z.of_nat (length ts) ->
  Layer.n_outputs HL <= Z.of_nat (length os) ->
  (forall l L, l ∈ Net.layers net -> layer_at s l = Some L ->
     Layer.delta L ≠ truth /\ Layer.delta L ≠ Layer.output HL) ->
  exists s1 s2 s3 s4,
    learn_reset_deltas net s = Ok tt s1 /\
    (forall l L i, l ∈ Net.layers net -> layer_at s l = Some L ->
       0 <= i < Layer.n_outputs L -> peek_double s1 (Layer.delta L) i = Some 0%float) /\
    learn_output_error net truth s1 = Ok tt s2 /\
    (forall i tv ov, 0 <= i < Layer.n_outputs HL ->
       ts !! Z.to_nat i = Some tv -> os !! Z.to_nat i = Some ov ->
       peek_double s2 (Layer.delta HL) i = Some (tv - ov)%float) /\
    learn_backward xcsf (rev (Net.layers net)) input s2 = Ok tt s3 /\
    trace s3 = trace s ++ backward_events s (rev (Net.layers net)) input /\
    learn_update xcsf net s3 = Ok tt s4 /\
    trace s4 = trace s ++ backward_events s (rev (Net.layers net)) input
                       ++ map EvUpdate (Net.layers net) /\
    neural_learn xcsf net truth input s = Ok tt s4 /\
    same_shape s s4.
Proof.
  intros Hchain Hlast HHL Htruth Hout Htn Hon Hdistinct.
  apply layer_at_inv in HHL.
  destruct (doubles_at_inv _ _ _ Htruth) as (at' & Eat & Hat).
  destruct (doubles_at_inv _ _ _ Hout) as (ao & Eao & Hao).
  assert (Hall : Forall (learn_layer_ready s) (Net.layers net)).
  { pose proof (learn_chain_ready_Forall _ _ Hchain) as Hf. rewrite Forall_forall in *.
    intros x Hx. apply Hf. apply list_elem_of_In. apply -> in_rev.
    apply list_elem_of_In. exact Hx. }
  assert (Hhd_in : hd ∈ Net.layers net).
  { apply last_Some in Hlast as [pre ->]. apply elem_of_app. right.
    apply list_elem_of_singleton. reflexivity. }
  (* phase 1 *)
  destruct (wp_inv _ _ _
              (wp_learn_reset_deltas net s
                 (fun _ t' => deltas_reset s (Net.layers net) (Net.layers net) t')
                 Hall (fun t' H => H)))
    as ([] & s1 & Hrun1 & Hq1 & Hzero & Hframe).
  assert (Hkeep : forall a, a = at' \/ a = ao -> heap s1 !! a = heap s !! a).
  { intros a Ha. apply Hframe. intros l L Hl HLl Hd.
    destruct (Hdistinct l L Hl (layer_at_lookup _ _ _ HLl)) as [Hd1 Hd2].
    destruct Ha as [-> | ->]; congruence. }
  (* phase 2 *)
  assert (Hhd_ready : learn_layer_ready s hd) by (eapply Forall_forall; eauto).
  destruct Hhd_ready as (HL' & HHL' & Hn0 & Hdl & _).
  rewrite HHL in HHL'. injection HHL' as <-.
  destruct (Hdistinct hd HL Hhd_in (layer_at_lookup _ _ _ HHL)) as [Hd1 Hd2].
  assert (W2 : wp (learn_output_error net truth) s1
                 (fun _ t' => quiet s1 t' /\
                    forall i tv ov, 0 <= i < Layer.n_outputs HL ->
                      ts !! Z.to_nat i = Some tv -> os !! Z.to_nat i = Some ov ->
                      peek_double t' (Layer.delta HL) i = Some (tv - ov)%float)).
  { eapply (wp_learn_output_error net truth s1 hd HL at' ts ao os); try eassumption.
    - eapply same_shape_layer; [apply Hq1 | exact HHL].
    - eapply array_ge_quiet; eauto.
    - rewrite Hkeep by auto. exact Hat.
    - rewrite Hkeep by auto. exact Hao.
    - congruence.
    - congruence.
    - intros t' Hq Hv. split; assumption. }
  destruct (wp_inv _ _ _ W2) as ([] & s2 & Hrun2 & Hq2 & Herr).
  (* phase 3 *)
  assert (Hq02 : quiet s s2) by (eapply quiet_trans; eauto).
  assert (W3 : wp (learn_backward xcsf (rev (Net.layers net)) input) s2
                 (fun _ t' => same_shape s2 t' /\
                    trace t' = trace s2 ++ backward_events s2 (rev (Net.layers net)) input)).
  { apply wp_learn_backward; [eapply learn_chain_ready_shape; [apply Hq02 | exact Hchain]|].
    intros t' Hs Ht. split; assumption. }
  destruct (wp_inv _ _ _ W3) as ([] & s3 & Hrun3 & Hs3 & Ht3).
  rewrite (backward_events_shape s s2) in Ht3 by (apply Hq02 || exact Hchain).
  destruct Hq02 as [Hs02 Ht02]. rewrite Ht02 in Ht3.
  assert (Hs03 : same_shape s s3) by (eapply same_shape_trans; eauto).
  (* phase 4 *)
  assert (W4 : wp (learn_update xcsf net) s3
                 (fun _ t' => same_shape s3 t' /\
                    trace t' = trace s3 ++ map EvUpdate (Net.layers net))).
  { apply wp_learn_update.
    - eapply Forall_impl; [exact Hall|]. intros x Hx.
      eapply learn_layer_ready_shape; eauto.
    - intros t' Hs Ht. split; assumption. }
  destruct (wp_inv _ _ _ W4) as ([] & s4 & Hrun4 & Hs4 & Ht4).
  exists s1, s2, s3, s4.
  split; [exact Hrun1|]. split.
  { intros l L i Hl HLl Hi. eapply Hzero; eauto. apply layer_at_inv, HLl. }
  split; [exact Hrun2|]. split; [exact Herr|].
  split; [exact Hrun3|]. split; [exact Ht3|].
  split; [exact Hrun4|]. split; [rewrite Ht4, Ht3, <- app_assoc; reflexivity|].
  split; [| eapply same_shape_trans; eauto].
  unfold neural_learn.
  rewrite (bind_Ok _ _ _ _ _ Hrun1), (bind_Ok _ _ _ _ _ Hrun2), (bind_Ok _ _ _ _ _ Hrun3).
  exact Hrun4.
Qed.

End Learn.

(** ** Max-pooling layers *)

Section Maxpool.

Context {E : Externals}.

(** A stateful loop against a computing loop: both fault, or both finish in
    related states. *)
Definition sim {St} (R : St -> state -> Prop) (o : outcome unit) (p : option St) : Prop :=
  match o, p with
  | Ok _ t, Some st => R st t
  | Fault, None => True
  | _, _ => False
  end.

Lemma for_loop_sim {St} (R : St -> state -> Prop) n i0 body step st t :
  R st t ->
  (forall k a u, (k < n)%nat -> R a u ->
     sim R (body (i0 + Z.of_nat k) u) (step (i0 + Z.of_nat k) a)) ->
  sim R (for_loop n i0 body t) (scan_loop n i0 step st).
Proof.
  revert i0 st t. induction n as [|n IH]; intros i0 st t H0 Hstep.
  - exact H0.
  - cbn [for_loop scan_loop].
    pose proof (Hstep 0%nat st t ltac:(lia) H0) as H1. rewrite Z.add_0_r in H1.
    unfold sim in H1. unfold bind.
    destruct (body i0 t) as [[] t'| |], (step i0 st) as [st'|]; try contradiction.
    + apply IH; [exact H1|]. intros k a u Hk Ha.
      replace (i0 + 1 + Z.of_nat k) with (i0 + Z.of_nat (S k)) by lia.
      apply Hstep; [lia | exact Ha].
    + exact I.
Qed.

Lemma for_int_sim {St} (R : St -> state -> Prop) hi body step st t :
  R st t ->
  (forall k a u, 0 <= k < hi -> R a u -> sim R (body k u) (step k a)) ->
  sim R (for_int 0 hi body t) (scan_int 0 hi step st).
Proof.
  intros H0 Hstep. unfold for_int, scan_int. apply for_loop_sim; [exact H0|].
  intros k a u Hk Ha. apply Hstep; [lia | exact Ha].
Qed.

Lemma scan_loop_ext {St} n i0 (f g : Z -> St -> option St) st :
  (forall i a, f i a = g i a) -> scan_loop n i0 f st = scan_loop n i0 g st.
Proof.
  intros Hfg. revert i0 st. induction n as [|n IH]; intros i0 st; [reflexivity|].
  cbn. rewrite Hfg. destruct (g i0 st); [apply IH | reflexivity].
Qed.

Lemma max_pool_ext L f g i j k :
  (forall z, f z = g z) -> max_pool L f i j k = max_pool L g i j k.
Proof.
  intros Hfg. unfold max_pool, scan_int.
  erewrite scan_loop_ext; [reflexivity|].
  intros n a. apply scan_loop_ext. intros m [mx mi]. cbn beta iota.
  rewrite Hfg. reflexivity.
Qed.

Lemma peek_double_rd t a xs z :
  heap t !! a = Some (BDoubles xs) -> peek_double t (Some a) z = rd xs z.
Proof. intros Ha. unfold peek_double, rd. rewrite (doubles_at_lookup _ _ _ Ha). reflexivity. Qed.

(** The arrays of a max-pooling layer hold [(ix, os)] in [u]; everything
    else is as in [t]. *)
Definition maxpool_holds (t : state) (aix ao : addr) (st : list Z * list float)
    (u : state) : Prop :=
  heap u = <[ao := BDoubles (snd st)]> (<[aix := BInts (fst st)]> (heap t)) /\
  rng u = rng t /\ trace u = trace t.

Lemma maxpool_cell_sim t L ai xs aix ao k i j st u :
  heap t !! ai = Some (BDoubles xs) -> ai ≠ ao -> aix ≠ ao -> aix ≠ ai ->
  Layer.indexes L = Some aix -> Layer.output L = Some ao ->
  maxpool_holds t aix ao st u ->
  sim (maxpool_holds t aix ao)
    ((let* max_index := call_max_pool L (Some ai) i j k in
      write_int (Layer.indexes L)
        (iadd j (imul (Layer.out_w L) (iadd i (imul (Layer.out_h L) k)))) max_index ;;;
      let* v := read_double (Some ai) max_index in
      write_double (Layer.output L)
        (iadd j (imul (Layer.out_w L) (iadd i (imul (Layer.out_h L) k)))) v) u)
    (maxpool_cell L xs k i j st).
Proof.
  intros Hai Hne Hne2 Hne3 Eix Eo (Hh & Hr & Ht). destruct st as [ix os].
  cbn [fst snd] in *.
  set (c := iadd j (imul (Layer.out_w L) (iadd i (imul (Layer.out_h L) k)))).
  assert (Hai_u : heap u !! ai = Some (BDoubles xs)).
  { rewrite Hh, !lookup_insert_ne by congruence. exact Hai. }
  assert (Hix_u : heap u !! aix = Some (BInts ix)).
  { rewrite Hh, lookup_insert_ne, lookup_insert_eq by congruence. reflexivity. }
  assert (Ho_u : heap u !! ao = Some (BDoubles os)).
  { rewrite Hh, lookup_insert_eq. reflexivity. }
  unfold maxpool_cell. cbn [fst snd]. fold c.
  unfold bind at 1. unfold call_max_pool.
  rewrite (max_pool_ext L (peek_double u (Some ai)) (rd xs))
    by (intros z; apply peek_double_rd, Hai_u).
  destruct (max_pool L (rd xs) i j k) as [m|]; [| exact I].
  cbn [lift_option ret]. rewrite Eix, Eo.
  unfold bind at 1. unfold write_int. rewrite (ints_at_lookup _ _ _ Hix_u).
  destruct ((0 <=? c) && (c <? Z.of_nat (length ix))) eqn:Ec; [| exact I].
  unfold bind at 1. unfold read_double.
  rewrite (peek_double_rd _ ai xs)
    by (cbn [heap set_heap]; rewrite lookup_insert_ne by congruence; exact Hai_u).
  destruct (rd xs m) as [v|]; [| exact I].
  unfold write_double.
  rewrite (doubles_at_lookup _ ao os)
    by (cbn [heap set_heap]; rewrite lookup_insert_ne by congruence; exact Ho_u).
  destruct ((0 <=? c) && (c <? Z.of_nat (length os))) eqn:Ec'; [| exact I].
  cbn [sim]. unfold maxpool_holds. cbn [fst snd heap set_heap rng trace].
  split; [| split; assumption].
  rewrite Hh. heap_eq.
Qed.

Lemma maxpool_holds_init t aix ao ix os :
  heap t !! aix = Some (BInts ix) -> heap t !! ao = Some (BDoubles os) ->
  maxpool_holds t aix ao (ix, os) t.
Proof.
  intros Hix Ho. split; [| split; reflexivity]. cbn [fst snd].
  rewrite (insert_id _ aix) by exact Hix. rewrite insert_id by exact Ho. reflexivity.
Qed.

(** The forward pass of a max-pooling layer faults exactly when its
    computing counterpart is undefined, and otherwise leaves the computed
    contents in the index and output arrays. *)
Lemma maxpool_forward_sim xcsf t l L ai xs aix ao ix os :
  heap t !! l = Some (BLayer L) ->
  Layer.indexes L = Some aix -> Layer.output L = Some ao ->
  heap t !! ai = Some (BDoubles xs) ->
  heap t !! aix = Some (BInts ix) -> heap t !! ao = Some (BDoubles os) ->
  ai ≠ ao ->
  sim (maxpool_holds t aix ao)
      (neural_layer_maxpool_forward xcsf l (Some ai) t)
      (maxpool_forward_pure L xs (ix, os)).
Proof.
  intros Hl Eix Eo Hai Hix Ho Hne.
  assert (Hne2 : aix ≠ ao) by congruence.
  assert (Hne3 : aix ≠ ai) by congruence.
  unfold neural_layer_maxpool_forward, maxpool_forward_pure.
  rewrite (bind_Ok _ _ _ _ _ (load_layer_at _ _ _ Hl)).
  apply for_int_sim; [apply maxpool_holds_init; assumption|].
  intros k a u Hk Ha.
  apply for_int_sim; [exact Ha|].
  intros i a' u' Hi Ha'.
  apply for_int_sim; [exact Ha'|].
  intros j a'' u'' Hj Ha''.
  apply maxpool_cell_sim; assumption.
Qed.

Lemma scan_loop_inv {St} (I : nat -> St -> Prop) n i0 step (st : St) :
  I 0%nat st ->
  (forall k a, (k < n)%nat -> I k a ->
     exists a', step (i0 + Z.of_nat k) a = Some a' /\ I (S k) a') ->
  exists a', scan_loop n i0 step st = Some a' /\ I n a'.
Proof.
  revert I i0 st. induction n as [|n IH]; intros I i0 st H0 Hstep.
  - exists st. split; [reflexivity | exact H0].
  - destruct (Hstep 0%nat st ltac:(lia) H0) as (a1 & Hs1 & H1).
    rewrite Z.add_0_r in Hs1. cbn [scan_loop]. rewrite Hs1.
    apply (IH (fun k => I (S k))); [exact H1|].
    intros k a Hk Ha. destruct (Hstep (S k) a ltac:(lia) Ha) as (a' & Hs & Ha').
    exists a'. split; [| exact Ha'].
    rewrite <- Hs. f_equal. lia.
Qed.

Lemma scan_int_inv {St} (I : nat -> St -> Prop) hi step (st : St) :
  I 0%nat st ->
  (forall k a, Z.of_nat k < hi -> I k a ->
     exists a', step (Z.of_nat k) a = Some a' /\ I (S k) a') ->
  exists a', scan_int 0 hi step st = Some a' /\ I (Z.to_nat hi) a'.
Proof.
  intros H0 Hstep. unfold scan_int. rewrite Z.sub_0_r.
  apply scan_loop_inv; [exact H0|].
  intros k a Hk Ha. rewrite Z.add_0_l. apply Hstep; [lia | exact Ha].
Qed.

(** A flat index into an [h] by [w] by [c] array is computed without
    overflow and lies in the array. *)
Lemma flat_index_range h w c k a b :
  0 <= k < c -> 0 <= a < h -> 0 <= b < w -> h * w * c <= INT_MAX ->
  iadd b (imul w (iadd a (imul h k))) = b + w * (a + h * k) /\
  0 <= b + w * (a + h * k) < h * w * c.
Proof.
  intros Hk Ha Hb Hmax.
  assert (B1 : 0 <= h * k <= h * (c - 1)) by nia.
  assert (B2 : 0 <= a + h * k <= h * c - 1) by nia.
  assert (B3 : 0 <= w * (a + h * k) <= w * (h * c - 1)) by nia.
  assert (B4 : 0 <= b + w * (a + h * k) <= h * w * c - 1) by nia.
  assert (B5 : h * c <= h * w * c) by nia.
  assert (B6 : w * (h * c - 1) <= h * w * c) by nia.
  unfold iadd, imul. unfold INT_MAX in Hmax.
  rewrite (int_wrap_id (h * k)) by (unfold in_int, INT_MIN, INT_MAX; lia).
  rewrite (int_wrap_id (a + h * k)) by (unfold in_int, INT_MIN, INT_MAX; lia).
  rewrite (int_wrap_id (w * (a + h * k))) by (unfold in_int, INT_MIN, INT_MAX; lia).
  rewrite (int_wrap_id (b + w * (a + h * k))) by (unfold in_int, INT_MIN, INT_MAX; lia).
  split; [reflexivity | lia].
Qed.

Lemma grid_index_range L k ch cw :
  0 <= k < Layer.channels L ->
  Layer.height L * Layer.width L * Layer.channels L <= INT_MAX ->
  in_grid L ch cw = true ->
  grid_index L k ch cw = cw + Layer.width L * (ch + Layer.height L * k) /\
  0 <= grid_index L k ch cw < Layer.height L * Layer.width L * Layer.channels L.
Proof.
  intros Hk Hmax Hin. unfold in_grid in Hin.
  apply andb_true_iff in Hin as [Hin H4]. apply andb_true_iff in Hin as [Hin H3].
  apply andb_true_iff in Hin as [H1 H2].
  apply Z.leb_le in H1, H3. apply Z.ltb_lt in H2, H4.
  destruct (flat_index_range (Layer.height L) (Layer.width L) (Layer.channels L) k ch cw)
    as [He Hr]; try lia.
  unfold grid_index. rewrite He. split; [reflexivity | exact Hr].
Qed.

(** The loop variables of [max_pool]: no index yet and the initial maximum,
    or an index inside the input. *)
Definition pool_vars_ok (N : Z) (found : Prop) (st : float * Z) : Prop :=
  ((snd st = -1 /\ fst st = (- DBL_MAX)%float) \/ 0 <= snd st < N) /\
  (found -> 0 <= snd st < N).

Lemma max_pool_unfold L f i j k :
  max_pool L f i j k
  = match
      scan_int 0 (Layer.size L) (fun n st =>
        scan_int 0 (Layer.size L) (fun m (st : float * Z) =>
          if in_grid L (window_coord L i n) (window_coord L j m) then
            match f (grid_index L k (window_coord L i n) (window_coord L j m)) with
            | Some v => if dlt (fst st) v
                        then Some (v, grid_index L k (window_coord L i n) (window_coord L j m))
                        else Some st
            | None => None
            end
          else Some st) st) ((- DBL_MAX)%float, -1)
    with
    | Some st => Some (snd st)
    | None => None
    end.
Proof.
  unfold max_pool, scan_int. cbv zeta.
  match goal with
  | |- match ?a with _ => _ end = match ?b with _ => _ end =>
      assert (Hab : a = b); [| rewrite Hab; destruct b as [[mx mi]|]; reflexivity]
  end.
  apply scan_loop_ext. intros n a. apply scan_loop_ext. intros m [mx mi].
  unfold in_grid, grid_index, window_coord. cbn [fst]. reflexivity.
Qed.

(** When the window holds a grid position whose input exceeds [-DBL_MAX],
    [max_pool] returns an index inside the input. *)
Lemma max_pool_in_range L xs i j k n0 m0 :
  0 <= k < Layer.channels L ->
  Layer.height L * Layer.width L * Layer.channels L <= INT_MAX ->
  Layer.height L * Layer.width L * Layer.channels L <= Z.of_nat (length xs) ->
  window_hit L xs k i j n0 m0 ->
  exists idx, max_pool L (rd xs) i j k = Some idx /\
              0 <= idx < Layer.height L * Layer.width L * Layer.channels L.
Proof.
  intros Hk Hmax Hlen (Hn0 & Hm0 & Hin0 & v0 & Hv0 & Hgt0).
  set (N := Layer.height L * Layer.width L * Layer.channels L) in *.
  rewrite max_pool_unfold.
  assert (Hrow : forall n (F : Prop) st, 0 <= n < Layer.size L ->
            pool_vars_ok N F st ->
            exists st',
              scan_int 0 (Layer.size L) (fun m (st : float * Z) =>
                if in_grid L (window_coord L i n) (window_coord L j m) then
                  match rd xs (grid_index L k (window_coord L i n) (window_coord L j m)) with
                  | Some v => if dlt (fst st) v
                              then Some (v, grid_index L k (window_coord L i n)
                                                        (window_coord L j m))
                              else Some st
                  | None => None
                  end
                else Some st) st = Some st' /\
              pool_vars_ok N (F \/ n = n0) st').
  { intros n F st Hn Hst.
    destruct (scan_int_inv
                (fun m st => pool_vars_ok N (F \/ (n = n0 /\ m0 < Z.of_nat m)) st)
                (Layer.size L)
                (fun m (st : float * Z) =>
                   if in_grid L (window_coord L i n) (window_coord L j m) then
                     match rd xs (grid_index L k (window_coord L i n) (window_coord L j m)) with
                     | Some v => if dlt (fst st) v
                                 then Some (v, grid_index L k (window_coord L i n)
                                                           (window_coord L j m))
                                 else Some st
                     | None => None
                     end
                   else Some st) st) as (st' & Hrun & Hst').
    - destruct Hst as [H1 H2]. split; [exact H1|]. intros [HF | [_ Hc]]; [auto | lia].
    - intros m [mx mi] Hm [HJ Hfound]. cbn [fst snd] in *.
      destruct (in_grid L (window_coord L i n) (window_coord L j (Z.of_nat m))) eqn:Hin.
      + destruct (grid_index_range L k _ _ Hk Hmax Hin) as [_ Hrange]. fold N in Hrange.
        assert (Hrd : exists v, rd xs (grid_index L k (window_coord L i n)
                                         (window_coord L j (Z.of_nat m))) = Some v).
        { unfold rd. destruct (0 <=? _) eqn:E0; [| lia].
          apply lookup_lt_is_Some_2. lia. }
        destruct Hrd as [v Hv]. rewrite Hv.
        destruct (dlt mx v) eqn:Hcmp.
        * eexists. split; [reflexivity|]. split; cbn [fst snd]; [right; lia | intros _; lia].
        * eexists. split; [reflexivity|]. split; cbn [fst snd]; [exact HJ|].
          intros [HF | [-> Hc]]; [auto|].
          destruct (decide (Z.of_nat m = m0)) as [Hmm | Hmm].
          -- (* the witness position: the comparison cannot have failed
                with no index yet *)
             rewrite Hmm in Hv. rewrite Hv0 in Hv. injection Hv as <-.
             destruct HJ as [[Hmi Hmx] | HJ]; [| exact HJ].
             rewrite Hmx in Hcmp. congruence.
          -- apply Hfound. right. split; [reflexivity | lia].
      + eexists. split; [reflexivity|]. split; cbn [fst snd]; [exact HJ|].
        intros [HF | [-> Hc]]; [auto|].
        destruct (decide (Z.of_nat m = m0)) as [Hmm | Hmm].
        * rewrite Hmm in Hin. congruence.
        * apply Hfound. right. split; [reflexivity | lia].
    - exists st'. split; [exact Hrun|]. destruct Hst' as [H1 H2]. split; [exact H1|].
      intros [HF | ->]; apply H2; [left; exact HF | right; split; [reflexivity | lia]]. }
  destruct (scan_int_inv (fun n st => pool_vars_ok N (n0 < Z.of_nat n) st) (Layer.size L)
              (fun n st =>
                 scan_int 0 (Layer.size L) (fun m (st : float * Z) =>
                   if in_grid L (window_coord L i n) (window_coord L j m) then
                     match rd xs (grid_index L k (window_coord L i n) (window_coord L j m)) with
                     | Some v => if dlt (fst st) v
                                 then Some (v, grid_index L k (window_coord L i n)
                                                           (window_coord L j m))
                                 else Some st
                     | None => None
                     end
                   else Some st) st) ((- DBL_MAX)%float, -1)) as (st' & Hrun & Hst').
  - split; cbn [fst snd]; [left; split; reflexivity | lia].
  - intros n st Hn Hst.
    destruct (Hrow (Z.of_nat n) _ st ltac:(lia) Hst) as (st' & Hrun & [H1 H2]).
    exists st'. split; [exact Hrun|]. split; [exact H1|].
    intros Hc. apply H2. lia.
  - rewrite Hrun. exists (snd st'). split; [reflexivity|].
    destruct Hst' as [_ H2]. apply H2. lia.
Qed.

(** The first [c] cells of the index and output arrays hold an index inside
    the input and the input found there; the arrays keep their lengths. *)
Definition cells_ok (N : Z) (xs : list float) (n_ix n_os : nat) (c : Z)
    (st : list Z * list float) : Prop :=
  length (fst st) = n_ix /\ length (snd st) = n_os /\
  forall c', 0 <= c' < c ->
    exists m, fst st !! Z.to_nat c' = Some m /\ 0 <= m < N /\
              snd st !! Z.to_nat c' = rd xs m.

Lemma cells_ok_mono N xs n_ix n_os c d st :
  d <= c -> cells_ok N xs n_ix n_os c st -> cells_ok N xs n_ix n_os d st.
Proof. intros Hd (H1 & H2 & H3). repeat split; try assumption. intros c' Hc'. apply H3. lia. Qed.

(** All the windows of the layer contain an in-bounds position whose input
    exceeds [-DBL_MAX]. *)
Definition windows_hit (L : Layer.t) (xs : list float) : Prop :=
  forall k i j, 0 <= k < Layer.channels L -> 0 <= i < Layer.out_h L ->
    0 <= j < Layer.out_w L -> exists n m, window_hit L xs k i j n m.

Section Forward_total.
Variables (L : Layer.t) (xs : list float) (n_ix n_os : nat).
Let Nin := Layer.height L * Layer.width L * Layer.channels L.
Let Nout := Layer.out_h L * Layer.out_w L * Layer.channels L.
Hypothesis HN : Nin <= INT_MAX.
Hypothesis Hxs : Nin <= Z.of_nat (length xs).
Hypothesis Hoh : 0 <= Layer.out_h L.
Hypothesis How : 0 <= Layer.out_w L.
Hypothesis HM : Nout <= INT_MAX.
Hypothesis Hix : Nout <= Z.of_nat n_ix.
Hypothesis Hos : Nout <= Z.of_nat n_os.
Hypothesis Hwin : windows_hit L xs.

Lemma maxpool_cell_total k i j st :
  0 <= k < Layer.channels L -> 0 <= i < Layer.out_h L -> 0 <= j < Layer.out_w L ->
  cells_ok Nin xs n_ix n_os (j + Layer.out_w L * (i + Layer.out_h L * k)) st ->
  exists st', maxpool_cell L xs k i j st = Some st' /\
    cells_ok Nin xs n_ix n_os (j + 1 + Layer.out_w L * (i + Layer.out_h L * k)) st'.
Proof.
  intros Hk Hi Hj (Hl1 & Hl2 & Hc).
  destruct (flat_index_range (Layer.out_h L) (Layer.out_w L) (Layer.channels L) k i j)
    as [He Hr]; try assumption.
  fold Nout in Hr.
  destruct (Hwin k i j Hk Hi Hj) as (n0 & m0 & Hhit).
  destruct (max_pool_in_range L xs i j k n0 m0 Hk HN Hxs Hhit) as (idx & Hmp & Hidx).
  fold Nin in Hidx.
  unfold maxpool_cell. rewrite He, Hmp, Hl1, Hl2.
  set (c := j + Layer.out_w L * (i + Layer.out_h L * k)) in *.
  replace ((0 <=? c) && (c <? Z.of_nat n_ix)) with true by (symmetry; apply andb_true_iff; lia).
  replace ((0 <=? c) && (c <? Z.of_nat n_os)) with true by (symmetry; apply andb_true_iff; lia).
  assert (Hv : exists v, rd xs idx = Some v).
  { unfold rd. destruct (0 <=? idx) eqn:E0; [| lia]. apply lookup_lt_is_Some_2. lia. }
  destruct Hv as [v Hv]. rewrite Hv.
  eexists. split; [reflexivity|].
  unfold cells_ok. cbn [fst snd]. rewrite !length_insert.
  repeat split; try assumption.
  intros c' Hc'. destruct (decide (c' = c)) as [-> | Hne].
  - exists idx. rewrite !list_lookup_insert_eq by lia. rewrite Hv. auto.
  - destruct (Hc c' ltac:(lia)) as (m & H1 & H2 & H3).
    exists m. rewrite !list_lookup_insert_ne by lia. auto.
Qed.

Lemma maxpool_forward_pure_total st :
  length (fst st) = n_ix -> length (snd st) = n_os ->
  exists st', maxpool_forward_pure L xs st = Some st' /\ cells_ok Nin xs n_ix n_os Nout st'.
Proof.
  intros Hl1 Hl2. unfold maxpool_forward_pure.
  destruct (Z_le_gt_dec (Layer.channels L) 0) as [Hc0 | Hc0].
  { (* no channel: the loops do not run and no cell is claimed *)
    unfold scan_int. replace (Z.to_nat (Layer.channels L - 0)) with 0%nat by lia.
    exists st. split; [reflexivity|]. repeat split; try assumption.
    intros c' Hc'. exfalso. unfold Nout in Hc'. nia. }
  destruct (scan_int_inv
              (fun k st => cells_ok Nin xs n_ix n_os
                             (Layer.out_w L * (Layer.out_h L * Z.of_nat k)) st)
              (Layer.channels L)
              (fun k => scan_int 0 (Layer.out_h L) (fun i =>
                 scan_int 0 (Layer.out_w L) (fun j => maxpool_cell L xs k i j))) st)
    as (st' & Hrun & Hst').
  - repeat split; try assumption. intros c' Hc'. lia.
  - intros k a Hk Ha.
    destruct (scan_int_inv
                (fun i st => cells_ok Nin xs n_ix n_os
                   (Layer.out_w L * (Z.of_nat i + Layer.out_h L * Z.of_nat k)) st)
                (Layer.out_h L)
                (fun i => scan_int 0 (Layer.out_w L)
                            (fun j => maxpool_cell L xs (Z.of_nat k) i j)) a)
      as (a' & Hrun & Ha').
    + replace (Layer.out_w L * (Z.of_nat 0 + Layer.out_h L * Z.of_nat k))
        with (Layer.out_w L * (Layer.out_h L * Z.of_nat k)) by lia. exact Ha.
    + intros i b Hi Hb.
      destruct (scan_int_inv
                  (fun j st => cells_ok Nin xs n_ix n_os
                     (Z.of_nat j + Layer.out_w L
                                   * (Z.of_nat i + Layer.out_h L * Z.of_nat k)) st)
                  (Layer.out_w L)
                  (fun j => maxpool_cell L xs (Z.of_nat k) (Z.of_nat i) j) b)
        as (b' & Hrun & Hb').
      * exact Hb.
      * intros j d Hj Hd.
        destruct (maxpool_cell_total (Z.of_nat k) (Z.of_nat i) (Z.of_nat j) d)
          as (d' & Hcell & Hd'); try lia; [exact Hd|].
        exists d'. split; [exact Hcell|].
        replace (Z.of_nat (S j)) with (Z.of_nat j + 1) by lia. exact Hd'.
      * exists b'. split; [exact Hrun|].
        rewrite Z2Nat.id in Hb' by lia.
        replace (Layer.out_w L * (Z.of_nat (S i) + Layer.out_h L * Z.of_nat k))
          with (Layer.out_w L + Layer.out_w L * (Z.of_nat i + Layer.out_h L * Z.of_nat k))
          by lia.
        exact Hb'.
    + exists a'. split; [exact Hrun|].
      rewrite Z2Nat.id in Ha' by lia.
      replace (Layer.out_w L * (Layer.out_h L * Z.of_nat (S k)))
        with (Layer.out_w L * (Layer.out_h L + Layer.out_h L * Z.of_nat k)) by lia.
      exact Ha'.
  - exists st'. split; [exact Hrun|].
    rewrite Z2Nat.id in Hst' by lia.
    replace Nout with (Layer.out_w L * (Layer.out_h L * Layer.channels L)) by (unfold Nout; lia).
    exact Hst'.
Qed.

End Forward_total.

(** Inputs that all exceed [-DBL_MAX], with an in-bounds position in every
    window, give [windows_hit]. *)
Lemma windows_hit_of_inputs L xs :
  Layer.height L * Layer.width L * Layer.channels L <= INT_MAX ->
  Layer.height L * Layer.width L * Layer.channels L <= Z.of_nat (length xs) ->
  Forall (fun x => dlt (- DBL_MAX)%float x = true) xs ->
  (forall i j, 0 <= i < Layer.out_h L -> 0 <= j < Layer.out_w L ->
     exists n m, 0 <= n < Layer.size L /\ 0 <= m < Layer.size L /\
                 in_grid L (window_coord L i n) (window_coord L j m) = true) ->
  windows_hit L xs.
Proof.
  intros Hmax Hlen Hall Hpos k i j Hk Hi Hj.
  destruct (Hpos i j Hi Hj) as (n & m & Hn & Hm & Hin).
  exists n, m. split; [exact Hn|]. split; [exact Hm|]. split; [exact Hin|].
  destruct (grid_index_range L k _ _ Hk Hmax Hin) as [_ Hr].
  unfold rd. destruct (0 <=? _) eqn:E0; [| lia].
  destruct (lookup_lt_is_Some_2 xs
              (Z.to_nat (grid_index L k (window_coord L i n) (window_coord L j m))))
    as [v Hv]; [lia|].
  exists v. split; [exact Hv|].
  rewrite Forall_forall in Hall. apply Hall. eapply list_elem_of_lookup_2, Hv.
Qed.

Lemma doubles_at_Some s a xs :
  doubles_at s (Some a) = Some xs -> heap s !! a = Some (BDoubles xs).
Proof. unfold doubles_at. destruct (heap s !! a) as [[]|]; congruence. Qed.

Lemma ints_at_Some s a zs :
  ints_at s (Some a) = Some zs -> heap s !! a = Some (BInts zs).
Proof. unfold ints_at. destruct (heap s !! a) as [[]|]; congruence. Qed.

(** X5 (C9, amended). For a max-pooling layer whose [n_inputs] is
    [height * width * channels], with arrays of the sizes the layer
    announces, and an input in which every pooling window contains an
    in-bounds grid position whose value is greater than [-DBL_MAX] (so it is
    not a NaN), [max_pool] returns an index in [[0, n_inputs)] for every
    output cell, [neural_layer_maxpool_forward] runs to completion, and every
    index it stores in [indexes] lies in [[0, n_inputs)], the output cell
    holding the input read there. *)
Theorem neural_layer_maxpool_forward_indexes (xcsf : XCSF) (l : addr) (input : ptr)
    (s : state) (L : Layer.t) (xs os : list double) (ix : list Z) :
  layer_at s l = Some L ->
  doubles_at s input = Some xs ->
  ints_at s (Layer.indexes L) = Some ix ->
  doubles_at s (Layer.output L) = Some os ->
  input ≠ Layer.output L ->
  Layer.n_inputs L = Layer.height L * Layer.width L * Layer.channels L ->
  Layer.n_inputs L <= INT_MAX ->
  Layer.n_inputs L <= Z.of_nat (length xs) ->
  0 <= Layer.out_h L -> 0 <= Layer.out_w L ->
  Layer.out_h L * Layer.out_w L * Layer.channels L <= INT_MAX ->
  Layer.out_h L * Layer.out_w L * Layer.channels L <= Z.of_nat (length ix) ->
  Layer.out_h L * Layer.out_w L * Layer.channels L <= Z.of_nat (length os) ->
  windows_hit L xs ->
  (forall k i j, 0 <= k < Layer.channels L -> 0 <= i < Layer.out_h L ->
     0 <= j < Layer.out_w L ->
     exists m, max_pool L (peek_double s input) i j k = Some m /\
               0 <= m < Layer.n_inputs L) /\
  exists s',
    neural_layer_maxpool_forward xcsf l input s = Ok tt s' /\
    forall c, 0 <= c < Layer.out_h L * Layer.out_w L * Layer.channels L ->
      exists m v, peek_int s' (Layer.indexes L) c = Some m /\
                  0 <= m < Layer.n_inputs L /\
                  peek_double s input m = Some v /\
                  peek_double s' (Layer.output L) c = Some v.
Proof.
  intros Hl Hxs Hix Hos Hne Hn Hnmax Hnlen Hoh How Hmmax Hmix Hmos Hwin.
  apply layer_at_inv in Hl.
  destruct input as [ai|]; [| discriminate].
  destruct (Layer.indexes L) as [aix|] eqn:Eix; [| discriminate].
  destruct (Layer.output L) as [ao|] eqn:Eo; [| discriminate].
  apply doubles_at_Some in Hxs. apply ints_at_Some in Hix. apply doubles_at_Some in Hos.
  assert (Hne' : ai ≠ ao) by congruence.
  rewrite Hn in *.
  split.
  - intros k i j Hk Hi Hj.
    destruct (Hwin k i j Hk Hi Hj) as (n0 & m0 & Hhit).
    rewrite (max_pool_ext L (peek_double s (Some ai)) (rd xs))
      by (intros z; apply peek_double_rd, Hxs).
    exact (max_pool_in_range L xs i j k n0 m0 Hk Hnmax Hnlen Hhit).
  - destruct (maxpool_forward_pure_total L xs (length ix) (length os)
                Hnmax Hnlen Hoh How Hmmax Hmix Hmos Hwin (ix, os) eq_refl eq_refl)
      as ([ix' os'] & Hpure & Hl1 & Hl2 & Hcells).
    pose proof (maxpool_forward_sim xcsf s l L ai xs aix ao ix os
                  Hl Eix Eo Hxs Hix Hos Hne') as Hsim.
    rewrite Hpure in Hsim.
    destruct (neural_layer_maxpool_forward xcsf l (Some ai) s) as [[] s'| |];
      cbn [sim] in Hsim; try contradiction.
    destruct Hsim as (Hh & _ & _). cbn [fst snd] in *.
    exists s'. split; [reflexivity|].
    intros c Hc. destruct (Hcells c Hc) as (m & Hm1 & Hm2 & Hm3).
    assert (Hv : exists v, rd xs m = Some v).
    { unfold rd. destruct (0 <=? m) eqn:E0; [| lia]. apply lookup_lt_is_Some_2. lia. }
    destruct Hv as [v Hv].
    assert (Hao : aix ≠ ao).
    { intros ->. rewrite Hix in Hos. discriminate. }
    exists m, v. split.
    { unfold peek_int, ints_at. rewrite Hh, lookup_insert_ne, lookup_insert_eq by congruence.
      destruct (0 <=? c) eqn:E0; [exact Hm1 | lia]. }
    split; [exact Hm2|]. split.
    { rewrite (peek_double_rd _ _ _ _ Hxs). exact Hv. }
    unfold peek_double, doubles_at. rewrite Hh, lookup_insert_eq.
    destruct (0 <=? c) eqn:E0; [| lia]. rewrite Hm3. exact Hv.
Qed.

End Maxpool.
(** * Backward passes *)

Section Backward.

Context {E : Externals}.

(** A list whose first [k] cells have been rewritten by [f]. *)
Definition upd_prefix {A} (f : nat -> A -> A) (k : nat) (d : list A) : list A :=
  imap (fun i x => if decide (i < k)%nat then f i x else x) d.

Lemma upd_prefix_length {A} (f : nat -> A -> A) k d : length (upd_prefix f k d) = length d.
Proof. apply length_imap. Qed.

Lemma upd_prefix_lookup {A} (f : nat -> A -> A) k d i :
  upd_prefix f k d !! i = (fun x => if decide (i < k)%nat then f i x else x) <$> d !! i.
Proof. apply list_lookup_imap. Qed.

Lemma upd_prefix_0 {A} (f : nat -> A -> A) d : upd_prefix f 0 d = d.
Proof.
  apply list_eq. intros i. rewrite upd_prefix_lookup.
  destruct (d !! i); [| reflexivity]. cbn. destruct (decide (i < 0)%nat); [lia | reflexivity].
Qed.

Lemma upd_prefix_S {A} (f : nat -> A -> A) k d x :
  d !! k = Some x -> <[k := f k x]> (upd_prefix f k d) = upd_prefix f (S k) d.
Proof.
  intros Hk. apply list_eq. intros i. rewrite upd_prefix_lookup.
  destruct (decide (i = k)) as [-> | Hne].
  - rewrite list_lookup_insert_eq
      by (rewrite upd_prefix_length; apply lookup_lt_is_Some_1; eauto).
    rewrite Hk. cbn. destruct (decide (k < S k)%nat); [reflexivity | lia].
  - rewrite list_lookup_insert_ne by congruence. rewrite upd_prefix_lookup.
    destruct (d !! i); [| reflexivity]. cbn.
    destruct (decide (i < k)%nat), (decide (i < S k)%nat); try reflexivity; lia.
Qed.

(** What [neural_layer_dropout_backward] leaves in [delta[i]]: zero where
    the forward pass dropped the input, else the cell plus the scaled error of
    the layer. *)
Definition dropout_backward_cell (L : Layer.t) (st ld : list double) (i : nat)
    (x : double) : double :=
  match st !! i, ld !! i with
  | Some sv, Some lv =>
      if dlt sv (Layer.probability L) then 0%float else (x + lv * Layer.scale L)%float
  | _, _ => x
  end.

Lemma dropout_backward_run (xcsf : XCSF) (l : addr) (input : ptr)
    (ad : addr) (s : state) (L : Layer.t) (st ld d : list double) :
  layer_at s l = Some L ->
  doubles_at s (Layer.state L) = Some st ->
  doubles_at s (Layer.delta L) = Some ld ->
  doubles_at s (Some ad) = Some d ->
  Layer.state L ≠ Some ad -> Layer.delta L ≠ Some ad ->
  Layer.n_inputs L <= Z.of_nat (length st) ->
  Layer.n_inputs L <= Z.of_nat (length ld) ->
  Layer.n_inputs L <= Z.of_nat (length d) ->
  neural_layer_dropout_backward xcsf l input None s = Ok tt s /\
  neural_layer_dropout_backward xcsf l input (Some ad) s
  = Ok tt (set_heap (<[ad := BDoubles (upd_prefix (dropout_backward_cell L st ld)
                                          (Z.to_nat (Layer.n_inputs L)) d)]> (heap s)) s).
Proof.
  intros Hl Hst Hld Hd Hne1 Hne2 Hn1 Hn2 Hn3.
  apply layer_at_inv in Hl.
  unfold neural_layer_dropout_backward.
  rewrite (bind_Ok _ _ _ _ _ (load_layer_at _ _ _ Hl)).
  split; [reflexivity|].
  destruct (Layer.state L) as [ast|] eqn:Es; [| discriminate].
  destruct (Layer.delta L) as [ald|] eqn:El; [| discriminate].
  apply doubles_at_Some in Hst, Hld, Hd.
  assert (Hne1' : ast ≠ ad) by congruence.
  assert (Hne2' : ald ≠ ad) by congruence.
  set (f := dropout_backward_cell L st ld).
  destruct (for_int_inv
              (fun k t => t = set_heap (<[ad := BDoubles (upd_prefix f k d)]> (heap s)) s)
              (Layer.n_inputs L)
              (fun i =>
                 let* sv := read_double (Some ast) i in
                 if dlt sv (Layer.probability L) then write_double (Some ad) i 0%float
                 else
                   let* dv := read_double (Some ad) i in
                   let* lv := read_double (Some ald) i in
                   write_double (Some ad) i (dv + lv * Layer.scale L)%float) s)
    as (s' & Hrun & Hs').
  - rewrite upd_prefix_0. destruct s as [h r tr]. unfold set_heap. cbn [heap rng trace] in *.
    f_equal. symmetry. apply insert_id. exact Hd.
  - intros k t Hk ->.
    destruct (lookup_lt_is_Some_2 st k ltac:(lia)) as [sv Hsv].
    destruct (lookup_lt_is_Some_2 ld k ltac:(lia)) as [lv Hlv].
    destruct (lookup_lt_is_Some_2 d k ltac:(lia)) as [x Hx].
    assert (Hcell : f k x = if dlt sv (Layer.probability L) then 0%float
                            else (x + lv * Layer.scale L)%float).
    { unfold f, dropout_backward_cell. rewrite Hsv, Hlv. reflexivity. }
    assert (Hpk : upd_prefix f k d !! k = Some x).
    { rewrite upd_prefix_lookup, Hx. cbn. destruct (decide (k < k)%nat); [lia | reflexivity]. }
    exists (set_heap (<[ad := BDoubles (<[k := f k x]> (upd_prefix f k d))]> (heap s)) s).
    split.
    + erewrite bind_Ok; cycle 1.
      { apply read_double_peek. rewrite (peek_double_lookup _ ast st) by (solve_lookup || lia).
        rewrite Nat2Z.id. exact Hsv. }
      rewrite Hcell.
      destruct (dlt sv (Layer.probability L)) eqn:Hdrop.
      * erewrite write_double_at; cycle 1.
        { apply doubles_at_lookup. solve_lookup. }
        { rewrite upd_prefix_length. lia. }
        cbn [heap set_heap]. rewrite set_heap_twice, insert_insert_eq, Nat2Z.id. reflexivity.
      * erewrite bind_Ok; cycle 1.
        { apply read_double_peek.
          rewrite (peek_double_lookup _ ad (upd_prefix f k d)) by (solve_lookup || lia).
          rewrite Nat2Z.id. exact Hpk. }
        erewrite bind_Ok; cycle 1.
        { apply read_double_peek.
          rewrite (peek_double_lookup _ ald ld) by (solve_lookup || lia).
          rewrite Nat2Z.id. exact Hlv. }
        erewrite write_double_at; cycle 1.
        { apply doubles_at_lookup. solve_lookup. }
        { rewrite upd_prefix_length. lia. }
        cbn [heap set_heap]. rewrite set_heap_twice, insert_insert_eq, Nat2Z.id. reflexivity.
    + rewrite (upd_prefix_S f k d x Hx). reflexivity.
  - rewrite (bind_Ok _ _ _ _ _ (load_layer_at _ _ _ Hl)), Es, El. rewrite Hrun, Hs'. reflexivity.
Qed.

(** X6. The backward pass of a dropout layer. With a null [delta] nothing
    happens. Otherwise, for a [delta] array distinct from the state and delta
    arrays of the layer and arrays of at least [n_inputs] cells, the call
    returns having changed the block of [delta] only: for [i < n_inputs],
    [delta[i]] is zeroed where [state[i] < probability] and gains
    [l->delta[i] * scale] elsewhere; the cells from [n_inputs] on are as
    before. *)
Theorem neural_layer_dropout_backward_spec (xcsf : XCSF) (l : addr) (input : ptr)
    (ad : addr) (s : state) (L : Layer.t) (st ld d : list double) :
  layer_at s l = Some L ->
  doubles_at s (Layer.state L) = Some st ->
  doubles_at s (Layer.delta L) = Some ld ->
  doubles_at s (Some ad) = Some d ->
  Layer.state L ≠ Some ad -> Layer.delta L ≠ Some ad ->
  Layer.n_inputs L <= Z.of_nat (length st) ->
  Layer.n_inputs L <= Z.of_nat (length ld) ->
  Layer.n_inputs L <= Z.of_nat (length d) ->
  neural_layer_dropout_backward xcsf l input None s = Ok tt s /\
  exists d',
    neural_layer_dropout_backward xcsf l input (Some ad) s
    = Ok tt (set_heap (<[ad := BDoubles d']> (heap s)) s) /\
    length d' = length d /\
    (forall i sv lv x, 0 <= i < Layer.n_inputs L ->
       st !! Z.to_nat i = Some sv -> ld !! Z.to_nat i = Some lv ->
       d !! Z.to_nat i = Some x ->
       d' !! Z.to_nat i = Some (if dlt sv (Layer.probability L) then 0%float
                                else (x + lv * Layer.scale L)%float)) /\
    (forall i, Layer.n_inputs L <= i -> d' !! Z.to_nat i = d !! Z.to_nat i).
Proof.
  intros Hl Hst Hld Hd Hne1 Hne2 Hn1 Hn2 Hn3.
  destruct (dropout_backward_run xcsf l input ad s L st ld d Hl Hst Hld Hd Hne1 Hne2
              Hn1 Hn2 Hn3) as [Hnull Hrun].
  split; [exact Hnull|].
  eexists. split; [exact Hrun|]. split; [apply upd_prefix_length|]. split.
  - intros i sv lv x Hi Hsv Hlv Hx. rewrite upd_prefix_lookup, Hx. cbn.
    destruct (decide (Z.to_nat i < Z.to_nat (Layer.n_inputs L))%nat); [| lia].
    unfold dropout_backward_cell. rewrite Hsv, Hlv. reflexivity.
  - intros i Hi. rewrite upd_prefix_lookup.
    destruct (d !! Z.to_nat i) as [x|] eqn:Hx; [| reflexivity]. cbn.
    destruct (decide (Z.to_nat i < Z.to_nat (Layer.n_inputs L))%nat) as [Hlt|]; [| reflexivity].
    exfalso. apply lookup_lt_Some in Hx. lia.
Qed.

(** One iteration of the loop of [neural_layer_maxpool_backward] on the
    contents of [delta]. *)
Definition scatter_step (ix : list Z) (ld : list double) (d : list double) (i : nat)
    : list double :=
  match ix !! i, ld !! i with
  | Some m, Some v =>
      match d !! Z.to_nat m with
      | Some x => <[Z.to_nat m := (x + v)%float]> d
      | None => d
      end
  | _, _ => d
  end.

Definition scatter_upto (ix : list Z) (ld : list double) (k : nat) (d : list double)
    : list double :=
  fold_left (scatter_step ix ld) (seq 0 k) d.

Lemma scatter_upto_S ix ld k d :
  scatter_upto ix ld (S k) d = scatter_step ix ld (scatter_upto ix ld k d) k.
Proof. unfold scatter_upto. rewrite seq_S, fold_left_app. reflexivity. Qed.

Lemma scatter_step_length ix ld d i : length (scatter_step ix ld d i) = length d.
Proof.
  unfold scatter_step. destruct (ix !! i); [| reflexivity]. destruct (ld !! i); [| reflexivity].
  destruct (d !! Z.to_nat z); [apply length_insert | reflexivity].
Qed.

Lemma scatter_upto_length ix ld k d : length (scatter_upto ix ld k d) = length d.
Proof.
  induction k as [|k IH]; [reflexivity|].
  rewrite scatter_upto_S, scatter_step_length. exact IH.
Qed.

(** A cell no index of the first [k] names is as before. *)
Lemma scatter_upto_other ix ld k d p :
  (forall i m, (i < k)%nat -> ix !! i = Some m -> Z.to_nat m ≠ p) ->
  scatter_upto ix ld k d !! p = d !! p.
Proof.
  induction k as [|k IH]; intros Hp; [reflexivity|].
  assert (IH' : scatter_upto ix ld k d !! p = d !! p).
  { apply IH. intros i m Hi. apply Hp. lia. }
  rewrite scatter_upto_S. unfold scatter_step.
  destruct (ix !! k) as [m|] eqn:Hm; [| exact IH'].
  destruct (ld !! k) as [v|]; [| exact IH'].
  destruct (scatter_upto ix ld k d !! Z.to_nat m) as [x|]; [| exact IH'].
  rewrite list_lookup_insert_ne by (apply (Hp k m); [lia | exact Hm]).
  exact IH'.
Qed.

(** With pairwise distinct indexes, the cell named by the [i]-th index has
    gained the [i]-th error. *)
Lemma scatter_upto_hit ix ld k d i m x v :
  (forall a b ma mb, (a < k)%nat -> (b < k)%nat -> ix !! a = Some ma -> ix !! b = Some mb ->
     Z.to_nat ma = Z.to_nat mb -> a = b) ->
  (i < k)%nat -> ix !! i = Some m -> ld !! i = Some v -> d !! Z.to_nat m = Some x ->
  scatter_upto ix ld k d !! Z.to_nat m = Some (x + v)%float.
Proof.
  induction k as [|k IH]; intros Hinj Hi Hm Hv Hx; [lia|].
  rewrite scatter_upto_S.
  destruct (decide (i = k)) as [-> | Hne].
  - unfold scatter_step. rewrite Hm, Hv.
    rewrite (scatter_upto_other ix ld k d (Z.to_nat m)).
    + rewrite Hx. apply list_lookup_insert_eq.
      rewrite scatter_upto_length. apply lookup_lt_Some in Hx. exact Hx.
    + intros a ma Ha Hma Heq.
      assert (a = k) by (eapply Hinj; eauto; lia). lia.
  - assert (IH' : scatter_upto ix ld k d !! Z.to_nat m = Some (x + v)%float).
    { apply IH; try assumption; [| lia].
      intros a b ma mb Ha Hb. apply Hinj; lia. }
    unfold scatter_step.
    destruct (ix !! k) as [mk|] eqn:Hmk; [| exact IH'].
    destruct (ld !! k) as [vk|]; [| exact IH'].
    destruct (scatter_upto ix ld k d !! Z.to_nat mk) as [xk|]; [| exact IH'].
    rewrite list_lookup_insert_ne; [exact IH'|].
    intros Heq. assert (k = i) by (eapply Hinj; eauto; lia). lia.
Qed.

Lemma peek_int_lookup s a zs i :
  heap s !! a = Some (BInts zs) -> 0 <= i -> peek_int s (Some a) i = zs !! Z.to_nat i.
Proof.
  intros Ha Hi. unfold peek_int. rewrite (ints_at_lookup _ _ _ Ha).
  destruct (0 <=? i) eqn:E0; [reflexivity | lia].
Qed.

Lemma read_int_peek s p i v : peek_int s p i = Some v -> read_int p i s = Ok v s.
Proof. unfold read_int. intros ->. reflexivity. Qed.

Lemma maxpool_backward_run (xcsf : XCSF) (l : addr) (input : ptr)
    (ad : addr) (s : state) (L : Layer.t) (ix : list Z) (ld d : list double) :
  layer_at s l = Some L ->
  ints_at s (Layer.indexes L) = Some ix ->
  doubles_at s (Layer.delta L) = Some ld ->
  doubles_at s (Some ad) = Some d ->
  Layer.delta L ≠ Some ad ->
  Layer.n_outputs L <= Z.of_nat (length ix) ->
  Layer.n_outputs L <= Z.of_nat (length ld) ->
  (forall i m, 0 <= i < Layer.n_outputs L -> ix !! Z.to_nat i = Some m ->
     0 <= m < Z.of_nat (length d)) ->
  neural_layer_maxpool_backward xcsf l input (Some ad) s
  = Ok tt (set_heap (<[ad := BDoubles (scatter_upto ix ld (Z.to_nat (Layer.n_outputs L)) d)]>
                       (heap s)) s).
Proof.
  intros Hl Hix Hld Hd Hne Hn1 Hn2 Hrange.
  apply layer_at_inv in Hl.
  unfold neural_layer_maxpool_backward.
  rewrite (bind_Ok _ _ _ _ _ (load_layer_at _ _ _ Hl)).
  destruct (Layer.indexes L) as [aix|] eqn:Ei; [| discriminate].
  destruct (Layer.delta L) as [ald|] eqn:El; [| discriminate].
  apply ints_at_Some in Hix. apply doubles_at_Some in Hld, Hd.
  assert (Hne' : ald ≠ ad) by congruence.
  assert (Hne2 : aix ≠ ad) by (intros ->; rewrite Hix in Hd; discriminate).
  destruct (for_int_inv
              (fun k t => t = set_heap (<[ad := BDoubles (scatter_upto ix ld k d)]> (heap s)) s)
              (Layer.n_outputs L)
              (fun i =>
                 let* m := read_int (Some aix) i in
                 let* dv := read_double (Some ad) m in
                 let* lv := read_double (Some ald) i in
                 write_double (Some ad) m (dv + lv)%float) s)
    as (s' & Hrun & Hs').
  - destruct s as [h r tr]. unfold set_heap. cbn [heap rng trace] in *.
    f_equal. symmetry. apply insert_id. exact Hd.
  - intros k t Hk ->.
    destruct (lookup_lt_is_Some_2 ix k ltac:(lia)) as [m Hm].
    destruct (lookup_lt_is_Some_2 ld k ltac:(lia)) as [lv Hlv].
    assert (Hmr : 0 <= m < Z.of_nat (length d)).
    { apply (Hrange (Z.of_nat k)); [lia | rewrite Nat2Z.id; exact Hm]. }
    destruct (lookup_lt_is_Some_2 (scatter_upto ix ld k d) (Z.to_nat m)
                ltac:(rewrite scatter_upto_length; lia)) as [x Hx].
    exists (set_heap (<[ad := BDoubles (<[Z.to_nat m := (x + lv)%float]>
                                          (scatter_upto ix ld k d))]> (heap s)) s).
    split.
    + erewrite bind_Ok; cycle 1.
      { apply read_int_peek. rewrite (peek_int_lookup _ aix ix) by (solve_lookup || lia).
        rewrite Nat2Z.id. exact Hm. }
      erewrite bind_Ok; cycle 1.
      { apply read_double_peek.
        rewrite (peek_double_lookup _ ad (scatter_upto ix ld k d)) by (solve_lookup || lia).
        exact Hx. }
      erewrite bind_Ok; cycle 1.
      { apply read_double_peek.
        rewrite (peek_double_lookup _ ald ld) by (solve_lookup || lia).
        rewrite Nat2Z.id. exact Hlv. }
      erewrite write_double_at; cycle 1.
      { apply doubles_at_lookup. solve_lookup. }
      { rewrite scatter_upto_length. lia. }
      cbn [heap set_heap]. rewrite set_heap_twice, insert_insert_eq. reflexivity.
    + rewrite scatter_upto_S. unfold scatter_step. rewrite Hm, Hlv, Hx. reflexivity.
  - cbv beta. rewrite Hrun, Hs'. reflexivity.
Qed.

(** X7. The backward pass of a max-pooling layer. With a null [delta] nothing
    happens. Otherwise, when the first [n_outputs] indexes name cells of the
    [delta] array, the call returns having changed the block of [delta]
    only: a cell that no index names is as before, and when the indexes are
    pairwise distinct the cell named by [indexes[i]] has gained
    [l->delta[i]]. *)
Theorem neural_layer_maxpool_backward_spec (xcsf : XCSF) (l : addr) (input : ptr)
    (ad : addr) (s : state) (L : Layer.t) (ix : list Z) (ld d : list double) :
  layer_at s l = Some L ->
  ints_at s (Layer.indexes L) = Some ix ->
  doubles_at s (Layer.delta L) = Some ld ->
  doubles_at s (Some ad) = Some d ->
  Layer.delta L ≠ Some ad ->
  Layer.n_outputs L <= Z.of_nat (length ix) ->
  Layer.n_outputs L <= Z.of_nat (length ld) ->
  (forall i m, 0 <= i < Layer.n_outputs L -> ix !! Z.to_nat i = Some m ->
     0 <= m < Z.of_nat (length d)) ->
  neural_layer_maxpool_backward xcsf l input None s = Ok tt s /\
  exists d',
    neural_layer_maxpool_backward xcsf l input (Some ad) s
    = Ok tt (set_heap (<[ad := BDoubles d']> (heap s)) s) /\
    length d' = length d /\
    (forall p, 0 <= p ->
       (forall i, 0 <= i < Layer.n_outputs L -> ix !! Z.to_nat i ≠ Some p) ->
       d' !! Z.to_nat p = d !! Z.to_nat p) /\
    (NoDup (take (Z.to_nat (Layer.n_outputs L)) ix) ->
     forall i m x v, 0 <= i < Layer.n_outputs L ->
       ix !! Z.to_nat i = Some m -> ld !! Z.to_nat i = Some v ->
       d !! Z.to_nat m = Some x ->
       d' !! Z.to_nat m = Some (x + v)%float).
Proof.
  intros Hl Hix Hld Hd Hne Hn1 Hn2 Hrange.
  split.
  { unfold neural_layer_maxpool_backward.
    rewrite (bind_Ok _ _ _ _ _ (load_layer_at _ _ _ (layer_at_inv _ _ _ Hl))). reflexivity. }
  eexists. split; [exact (maxpool_backward_run xcsf l input ad s L ix ld d
                            Hl Hix Hld Hd Hne Hn1 Hn2 Hrange)|].
  split; [apply scatter_upto_length|]. split.
  - intros p Hp0 Hp.
    apply scatter_upto_other. intros i m Hi Hm Heq.
    assert (Hmr : 0 <= m < Z.of_nat (length d)).
    { apply (Hrange (Z.of_nat i)); [lia | rewrite Nat2Z.id; exact Hm]. }
    apply (Hp (Z.of_nat i)); [lia|]. rewrite Nat2Z.id, Hm. f_equal. lia.
  - intros Hnd i m x v Hi Hm Hv Hx.
    apply (scatter_upto_hit ix ld _ d (Z.to_nat i) m x v); try assumption; [| lia].
    intros a b ma mb Ha Hb Hma Hmb Heq.
    assert (Hra : 0 <= ma < Z.of_nat (length d)).
    { apply (Hrange (Z.of_nat a)); [lia | rewrite Nat2Z.id; exact Hma]. }
    assert (Hrb : 0 <= mb < Z.of_nat (length d)).
    { apply (Hrange (Z.of_nat b)); [lia | rewrite Nat2Z.id; exact Hmb]. }
    assert (ma = mb) by lia. subst mb.
    eapply NoDup_lookup; [exact Hnd | |];
      rewrite lookup_take_lt by lia; eassumption.
Qed.

End Backward.
(** * Saving and loading *)

Section SaveLoad.

Context {E : Externals}.

(** The elements [neural_layer_dropout_save] and
    [neural_layer_maxpool_save] write, in order. *)
Definition dropout_items (L : Layer.t) : list item :=
  [IInt (Layer.n_inputs L); IInt (Layer.n_outputs L); IInt (Layer.max_outputs L);
   IDouble (Layer.probability L); IDouble (Layer.scale L)].

Definition maxpool_items (L : Layer.t) : list item :=
  [IInt (Layer.height L); IInt (Layer.width L); IInt (Layer.channels L);
   IInt (Layer.pad L); IInt (Layer.out_w L); IInt (Layer.out_h L);
   IInt (Layer.out_c L); IInt (Layer.n_outputs L); IInt (Layer.max_outputs L);
   IInt (Layer.n_inputs L); IInt (Layer.size L); IInt (Layer.stride L)].

Definition member_items (L : Layer.t) : list item :=
  match Layer.layer_vptr L with
  | VDropout => dropout_items L
  | VMaxpool => maxpool_items L
  | VExt _ => []
  end.

(** What [neural_save] writes for one layer: its type code, then its
    members. *)
Definition layer_items (L : Layer.t) : list item :=
  IInt (Layer.layer_type L) :: member_items L.

Definition layers_items (Ls : list Layer.t) : list item :=
  concat (map layer_items Ls).

(** The three bookkeeping members at the start of a saved network. *)
Definition net_header (net : Net.t) : list item :=
  [IInt (Net.n_layers net); IInt (Net.n_inputs net); IInt (Net.n_outputs net)].

(** The layer structs of a network, in list order. *)
Definition layers_at (s : state) (ls : list addr) (Ls : list Layer.t) : Prop :=
  Forall2 (fun a L => layer_at s a = Some L /\ copyable L) ls Ls.

Lemma layers_at_exists s ls :
  Forall (copyable_at s) ls -> exists Ls, layers_at s ls Ls.
Proof.
  induction 1 as [|a ls (L & HL & Hc) _ (Ls & IH)].
  - exists []. constructor.
  - exists (L :: Ls). constructor; [split; assumption | exact IH].
Qed.

Lemma layer_save_run xcsf s a L fp :
  layer_at s a = Some L -> copyable L ->
  layer_save xcsf a fp s = Ok (Z.of_nat (length (member_items L)), fp ++ member_items L) s.
Proof.
  intros Ha Hc. apply layer_at_inv in Ha. unfold layer_save.
  rewrite (bind_Ok _ _ _ _ _ (load_layer_at _ _ _ Ha)).
  unfold member_items.
  destruct Hc as [(Hv & _) | (Hv & _)]; rewrite Hv;
    cbn [vtbl_of layer_impl_save layer_dropout_vtbl layer_maxpool_vtbl].
  - unfold neural_layer_dropout_save.
    rewrite (bind_Ok _ _ _ _ _ (load_layer_at _ _ _ Ha)). reflexivity.
  - unfold neural_layer_maxpool_save.
    rewrite (bind_Ok _ _ _ _ _ (load_layer_at _ _ _ Ha)). reflexivity.
Qed.

Lemma save_loop_run xcsf s ls Ls c fp :
  layers_at s ls Ls ->
  fold_nodes ls (fun iter '(c, fp) =>
    let* L := load_layer iter in
    let fp := fp ++ [IInt (Layer.layer_type L)] in
    let* r := layer_save xcsf iter fp in
    ret (c + 1 + fst r, snd r)) (c, fp) s
  = Ok (c + Z.of_nat (length (layers_items Ls)), fp ++ layers_items Ls) s.
Proof.
  intros H. revert c fp. induction H as [|a L ls Ls (Ha & Hc) _ IH]; intros c fp.
  - cbn. rewrite Z.add_0_r, app_nil_r. reflexivity.
  - cbn [fold_nodes].
    erewrite bind_Ok; cycle 1.
    { rewrite (bind_Ok _ _ _ _ _ (load_layer_at _ _ _ (layer_at_inv _ _ _ Ha))).
      cbv zeta.
      rewrite (bind_Ok _ _ _ _ _ (layer_save_run xcsf s a L _ Ha Hc)). reflexivity. }
    cbn [fst snd]. rewrite IH.
    unfold layers_items. cbn [map concat].
    change (layer_items L) with ([IInt (Layer.layer_type L)] ++ member_items L).
    rewrite !length_app. cbn [length].
    f_equal. f_equal; [lia|].
    rewrite <- !app_assoc. reflexivity.
Qed.

(** [neural_save] writes the header and then every layer, leaves the state
    as it was and returns the number of elements written. *)
Lemma neural_save_run xcsf net fp s Ls :
  layers_at s (Net.layers net) Ls ->
  neural_save xcsf net fp s
  = Ok (Z.of_nat (length (net_header net ++ layers_items Ls)),
        fp ++ net_header net ++ layers_items Ls) s.
Proof.
  intros H. unfold neural_save. cbv zeta.
  rewrite (save_loop_run xcsf s _ Ls _ _ H).
  rewrite length_app. cbn [net_header length].
  f_equal. f_equal; [lia|]. rewrite <- app_assoc. reflexivity.
Qed.

(** The body of the loop of [neural_load]. *)
Definition load_body (xcsf : XCSF) (i : Z) (st : Z * file * Net.t) : M (Z * file * Net.t) :=
  let '(s, fp, net) := st in
  let* l := malloc_layer in
  let* r := fread_int_member l Layer.set_layer_type (s, fp) in
  layer_set_vptr l ;;;
  let* r' := layer_load xcsf l (snd r) in
  let* net' := neural_layer_insert xcsf net l i in
  ret (fst r + fst r', snd r', net').

Lemma neural_load_unfold xcsf fp :
  neural_load xcsf fp
  = (let* r := fread_int_local 0 (0, fp) in
     let nlayers := fst r in
     let* r := fread_int_local 0 (snd r) in
     let* r := fread_int_local 0 (snd r) in
     fold_int 0 nlayers (load_body xcsf) (snd r, neural_init xcsf)).
Proof. reflexivity. Qed.

Lemma wp_fread_int_member l set c z fp s L (Q : Z * file -> state -> Prop) :
  heap s !! l = Some (BLayer L) ->
  Q (c + 1, fp) (set_heap (<[l := BLayer (set z L)]> (heap s)) s) ->
  wp (fread_int_member l set (c, IInt z :: fp)) s Q.
Proof.
  intros Hl HQ. unfold fread_int_member. cbn [fst snd].
  apply wp_bind. eapply wp_modify_layer; [exact Hl|]. apply wp_ret. exact HQ.
Qed.

Lemma wp_fread_double_member l set c d fp s L (Q : Z * file -> state -> Prop) :
  heap s !! l = Some (BLayer L) ->
  Q (c + 1, fp) (set_heap (<[l := BLayer (set d L)]> (heap s)) s) ->
  wp (fread_double_member l set (c, IDouble d :: fp)) s Q.
Proof.
  intros Hl HQ. unfold fread_double_member. cbn [fst snd].
  apply wp_bind. eapply wp_modify_layer; [exact Hl|]. apply wp_ret. exact HQ.
Qed.

Ltac rstep :=
  cbn [heap set_heap rng trace]; rewrite ?set_heap_twice;
  apply wp_bind;
  first [ eapply wp_fread_int_member; [solve_lookup |]
        | eapply wp_fread_double_member; [solve_lookup |] ];
  rewrite ?insert_insert_eq;
  cbn [heap set_heap rng trace]; rewrite ?set_heap_twice.

(** One iteration of the loop of [neural_load] on the elements of a saved
    layer: a new struct with new zeroed buffers and the saved type and
    members becomes the head of the network. *)
Lemma wp_load_body xcsf La c rest net t (Q : Z * file * Net.t -> state -> Prop) :
  copyable La ->
  (forall b Lb t', fresh_layer t t' b Lb -> same_config La Lb ->
     Q (c + Z.of_nat (length (layer_items La)), rest, appended net b Lb) t') ->
  wp (load_body xcsf (Z.of_nat (length (Net.layers net)))
                (c, layer_items La ++ rest, net)) t Q.
Proof.
  intros Hc HQ. unfold load_body.
  wstep.
  unfold layer_items, member_items. cbn [app].
  destruct Hc as [(Hv & Ht & Hn) | (Hv & Ht & Hn)]; rewrite Hv.
  - rstep. unfold layer_set_vptr. do 2 wstep.
    cbn [Layer.layer_type Layer.set_layer_type]. rewrite Ht.
    destruct (DROPOUT =? MAXPOOL) eqn:Edm;
      [apply Z.eqb_eq in Edm; exfalso; exact (DROPOUT_MAXPOOL Edm)|].
    rewrite Z.eqb_refl.
    unfold layer_load. wstep.
    cbn [Layer.layer_vptr Layer.set_layer_vptr vtbl_of layer_impl_load layer_dropout_vtbl].
    unfold neural_layer_dropout_load, dropout_items. cbn [app].
    cbn [fst snd]. do 5 rstep.
    apply wp_bind.
    eapply wp_dropout_malloc_layer_arrays; [solve_lookup | cbn; exact Hn |].
    intros a1 a2 a3 (H1 & H2 & H3 & H12 & H13 & H23).
    cbn [heap set_heap] in *. rewrite ?set_heap_twice.
    fresh_split H1. fresh_split H2. fresh_split H3.
    apply wp_ret. cbn [fst snd].
    eapply wp_bind, wp_neural_layer_insert_end; [solve_lookup|].
    apply wp_ret.
    replace (c + 1 + (0 + 1 + 1 + 1 + 1 + 1)) with (c + 6) by lia.
    assert (Hlen : Z.of_nat (length (layer_items La)) = 6)
      by (unfold layer_items, member_items; rewrite Hv; reflexivity).
    rewrite Hlen in HQ.
    eapply HQ.
    + split; [exact Ha|]. split; [apply layer_at_lookup; solve_lookup|]. split.
      * unfold fresh_arrays. cbn. exists a1, a2, a3.
        split; [unfold fresh3; repeat split; solve_ne|].
        do 3 (split; [reflexivity|]).
        repeat split; solve_lookup.
      * repeat split. intros x Hx. cbn [heap set_heap].
        destruct Hx as [? Hx].
        rewrite !lookup_insert_ne by (intros Heq; subst; congruence). reflexivity.
    + unfold same_config, same_dropout_members. cbn. rewrite Hv. repeat split.
      symmetry. exact Ht.
  - rstep. unfold layer_set_vptr. do 2 wstep.
    cbn [Layer.layer_type Layer.set_layer_type]. rewrite Ht, Z.eqb_refl.
    unfold layer_load. wstep.
    cbn [Layer.layer_vptr Layer.set_layer_vptr vtbl_of layer_impl_load layer_maxpool_vtbl].
    unfold neural_layer_maxpool_load, maxpool_items. cbn [app].
    cbn [fst snd]. do 12 rstep.
    apply wp_bind.
    eapply wp_maxpool_malloc_layer_arrays; [solve_lookup | cbn; exact Hn |].
    intros a1 a2 a3 (H1 & H2 & H3 & H12 & H13 & H23).
    cbn [heap set_heap] in *. rewrite ?set_heap_twice.
    fresh_split H1. fresh_split H2. fresh_split H3.
    apply wp_ret. cbn [fst snd].
    eapply wp_bind, wp_neural_layer_insert_end; [solve_lookup|].
    apply wp_ret.
    replace (c + 1 + (0 + 1 + 1 + 1 + 1 + 1 + 1 + 1 + 1 + 1 + 1 + 1 + 1))
      with (c + 13) by lia.
    assert (Hlen : Z.of_nat (length (layer_items La)) = 13)
      by (unfold layer_items, member_items; rewrite Hv; reflexivity).
    rewrite Hlen in HQ.
    eapply HQ.
    + split; [exact Ha|]. split; [apply layer_at_lookup; solve_lookup|]. split.
      * unfold fresh_arrays. cbn. exists a1, a2, a3.
        split; [unfold fresh3; repeat split; solve_ne|].
        do 3 (split; [reflexivity|]).
        repeat split; solve_lookup.
      * repeat split. intros x Hx. cbn [heap set_heap].
        destruct Hx as [? Hx].
        rewrite !lookup_insert_ne by (intros Heq; subst; congruence). reflexivity.
    + unfold same_config, same_maxpool_members. cbn. rewrite Hv. repeat split.
      symmetry. exact Ht.
Qed.

(** The layer at [b] in [t'] was loaded from the elements of [La]: a new
    struct with new zeroed buffers, of the type and members of [La]. *)
Definition loaded_from (t t' : state) (La : Layer.t) (b : addr) : Prop :=
  exists Lb, fresh_layer t t' b Lb /\ same_config La Lb.

(** The network after the loop of [neural_load] has read the layers [Ls]. *)
Definition loaded_net (t t' : state) (net : Net.t) (Ls : list Layer.t) (net' : Net.t)
    : Prop :=
  grown t t' /\
  (exists new, Net.layers net' = Net.layers net ++ new /\ Forall2 (loaded_from t t') Ls new) /\
  Net.n_layers net' = Z.of_nat (length (Net.layers net')) /\
  (tail_n_inputs_ok t net = true -> tail_n_inputs_ok t' net' = true) /\
  (head_outputs_ok t net = true -> head_outputs_ok t' net' = true).

Lemma loaded_from_grown t t1 t' La b :
  loaded_from t t1 La b -> grown t1 t' -> loaded_from t t' La b.
Proof.
  intros (Lb & Hf & Hc) Hg. exists Lb. split; [eapply fresh_layer_grown; eauto | exact Hc].
Qed.

Lemma loaded_from_base t t1 t' La b :
  grown t t1 -> loaded_from t1 t' La b -> loaded_from t t' La b.
Proof.
  intros Hg (Lb & Hf & Hc). exists Lb. split; [eapply fresh_layer_base; eauto | exact Hc].
Qed.

Lemma wp_load_loop xcsf Ls :
  forall net c rest t (Q : Z * file * Net.t -> state -> Prop),
    Forall copyable Ls ->
    Z.of_nat (length (Net.layers net)) + Z.of_nat (length Ls) <= INT_MAX ->
    Net.n_layers net = Z.of_nat (length (Net.layers net)) ->
    (forall net' t', loaded_net t t' net Ls net' ->
       Q (c + Z.of_nat (length (layers_items Ls)), rest, net') t') ->
    wp (fold_loop (length Ls) (Z.of_nat (length (Net.layers net))) (load_body xcsf)
                  (c, layers_items Ls ++ rest, net)) t Q.
Proof.
  induction Ls as [|La Ls IH]; intros net c rest t Q Hall Hlen Hn HQ.
  - cbn [length fold_loop]. apply wp_ret.
    replace c with (c + Z.of_nat (length (layers_items []))) at 1 by (cbn; lia).
    apply HQ. split; [apply grown_refl|]. split.
    { exists []. rewrite app_nil_r. split; [reflexivity | constructor]. }
    split; [exact Hn|]. split; exact id.
  - apply Forall_cons in Hall as [Hc Hall].
    cbn [length] in Hlen.
    cbn [length fold_loop]. apply wp_bind.
    unfold layers_items. cbn [map concat]. rewrite <- app_assoc.
    apply wp_load_body; [exact Hc|].
    intros b Lb t1 Hfresh Hsame.
    assert (Hg1 : grown t t1) by apply Hfresh.
    assert (HLb : layer_at t1 b = Some Lb) by apply Hfresh.
    replace (Z.of_nat (length (Net.layers net)) + 1)
      with (Z.of_nat (length (Net.layers (appended net b Lb))))
      by (cbn [appended Net.layers]; rewrite length_app; cbn [length]; lia).
    apply (IH (appended net b Lb)); [exact Hall | | |].
    + cbn [appended Net.layers]. rewrite length_app. cbn [length]. lia.
    + cbn [appended Net.layers Net.n_layers]. rewrite length_app. cbn [length].
      rewrite Hn. unfold iadd. rewrite int_wrap_id; [lia|].
      unfold in_int, INT_MIN, INT_MAX in *. lia.
    + intros net' t' (Hg & (new & Hnew & Hloaded) & Hn' & Htl & Hhd).
      replace (c + Z.of_nat (length (layer_items La)) + Z.of_nat (length (layers_items Ls)))
        with (c + Z.of_nat (length (layers_items (La :: Ls))))
        by (unfold layers_items; cbn [map concat]; rewrite length_app; lia).
      apply HQ. split; [eapply grown_trans; eauto|]. split.
      { exists (b :: new). split.
        - rewrite Hnew. cbn [appended Net.layers]. rewrite <- app_assoc. reflexivity.
        - constructor.
          + eapply loaded_from_grown; [| exact Hg]. exists Lb. split; assumption.
          + eapply Forall2_impl; [exact Hloaded|]. intros x y Hxy.
            eapply loaded_from_base; eauto. }
      split; [exact Hn'|]. split.
      * intros H0. apply Htl. eapply tail_ok_appended; eauto.
      * intros _. apply Hhd. apply head_ok_appended, HLb.
Qed.

(** X8. Saving a network and loading what was written. For a network of live
    dropout and max-pooling layers that pass the allocation check, whose
    [n_layers] is the number of its layers, [neural_save] appends its
    elements to the file, leaves the state as it was and returns their
    number. [neural_load], run in any state on these elements followed by
    anything, consumes exactly them, returns the same count, and builds a
    network with the same [n_layers], whose layers are new structs with new
    zeroed buffers and the type and saved members of the layers written, in
    the same order; its [n_inputs], [n_outputs] and [output] are those of
    its tail and head layers, and no block of the loading state is touched. *)
Theorem neural_save_load_roundtrip (xcsf : XCSF) (net : Net.t) (fp : file) (s : state) :
  Forall (copyable_at s) (Net.layers net) ->
  Net.n_layers net = Z.of_nat (length (Net.layers net)) ->
  Z.of_nat (length (Net.layers net)) <= INT_MAX ->
  exists items,
    neural_save xcsf net fp s = Ok (Z.of_nat (length items), fp ++ items) s /\
    forall s0 rest,
      exists net' s',
        neural_load xcsf (items ++ rest) s0 = Ok (Z.of_nat (length items), rest, net') s' /\
        Net.n_layers net' = Net.n_layers net /\
        Forall2 (fun a b => exists La Lb,
                   layer_at s a = Some La /\ fresh_layer s0 s' b Lb /\ same_config La Lb)
                (Net.layers net) (Net.layers net') /\
        tail_n_inputs_ok s' net' = true /\
        head_outputs_ok s' net' = true /\
        grown s0 s'.
Proof.
  intros Hall Hn Hlen.
  destruct (layers_at_exists s _ Hall) as (Ls & HLs).
  exists (net_header net ++ layers_items Ls).
  split; [apply neural_save_run, HLs|].
  intros s0 rest.
  assert (HlenLs : length Ls = length (Net.layers net))
    by (symmetry; eapply Forall2_length, HLs).
  assert (Hcop : Forall copyable Ls).
  { clear -HLs. induction HLs as [|a L ls Ls (_ & Hc) _ IH]; constructor; assumption. }
  assert (W : wp (neural_load xcsf ((net_header net ++ layers_items Ls) ++ rest)) s0
                (fun r t' =>
                   fst (fst r) = Z.of_nat (length (net_header net ++ layers_items Ls)) /\
                   snd (fst r) = rest /\
                   loaded_net s0 t' (neural_init xcsf) Ls (snd r))).
  { rewrite neural_load_unfold. unfold net_header. cbn [app].
    unfold fread_int_local at 1. cbn [fst snd]. apply wp_bind, wp_ret. cbv zeta. cbn [fst snd].
    unfold fread_int_local at 1. cbn [fst snd]. apply wp_bind, wp_ret. cbn [fst snd].
    unfold fread_int_local at 1. cbn [fst snd]. apply wp_bind, wp_ret. cbn [fst snd].
    unfold fold_int. rewrite Z.sub_0_r, Hn, Nat2Z.id, <- HlenLs.
    apply (wp_load_loop xcsf Ls (neural_init xcsf));
      [exact Hcop | cbn [neural_init Net.layers length]; lia | reflexivity |].
    intros net' t' Hloaded. cbn [fst snd].
    split; [cbn [length]; rewrite ?length_app; cbn [length]; lia|].
    split; [reflexivity | exact Hloaded]. }
  destruct (wp_inv _ _ _ W) as ([[cnt fp'] net'] & s' & Hrun & Hcnt & Hrest & Hloaded).
  cbn [fst snd] in *. subst cnt fp'.
  destruct Hloaded as (Hg & (new & Hnew & Hfrom) & Hn' & Htl & Hhd).
  cbn [neural_init Net.layers app] in Hnew.
  exists net', s'. split; [exact Hrun|].
  split.
  { rewrite Hn', Hn, Hnew, <- HlenLs. f_equal.
    symmetry. eapply Forall2_length, Hfrom. }
  split.
  { rewrite Hnew. clear -HLs Hfrom. revert new Hfrom.
    induction HLs as [|a L ls Ls (Ha & _) _ IH]; intros new Hfrom.
    - inversion Hfrom. constructor.
    - inversion Hfrom as [|? b ? new' (Lb & Hf & Hc) Hrest]; subst.
      constructor; [| apply IH, Hrest].
      exists L, Lb. split; [exact Ha|]. split; [exact Hf | exact Hc]. }
  split; [apply Htl; reflexivity|].
  split; [apply Hhd; reflexivity | exact Hg].
Qed.

End SaveLoad.
(** * Bookkeeping of the layer list *)

Section Bookkeeping.

Context {E : Externals}.

Lemma walk_beyond (ls : list addr) p :
  Z.of_nat (length ls) <= p -> walk ls p = None.
Proof.
  intros Hp. unfold walk. rewrite Z.max_l by lia.
  destruct (decide (Z.to_nat p < length ls)%nat); [lia | reflexivity].
Qed.

Lemma walk_nonpositive (ls : list addr) p :
  p <= 0 -> ls ≠ [] -> walk ls p = Some 0%nat.
Proof.
  intros Hp Hls. unfold walk. rewrite Z.max_r by lia. cbn.
  destruct ls; [contradiction|]. cbn [length].
  destruct (decide (0 < S (length ls))%nat); [reflexivity | lia].
Qed.

Lemma last_insert_middle {A} (ls : list A) q (x : A) :
  (q < length ls)%nat -> last (take q ls ++ x :: drop q ls) = last ls.
Proof.
  intros Hq. rewrite <- (take_drop q ls) at 3.
  destruct (drop q ls) as [|y rest] eqn:Ed.
  - apply (f_equal length) in Ed. rewrite length_drop in Ed. cbn in Ed. lia.
  - rewrite !last_app. cbn [last]. destruct rest; reflexivity.
Qed.

(** X9. [neural_layer_insert] and the bookkeeping of the network. An insertion
    at a position [p <= 0] of a network that has a layer dereferences a null
    pointer. Every other insertion returns with the state as it was and the
    layer at position [min p length]; when [n_layers], [n_inputs],
    [n_outputs] and [output] agreed with the layers before, they agree with
    the layers after. *)
Theorem neural_layer_insert_bookkeeping (xcsf : XCSF) (net : Net.t) (l : addr) (p : Z)
    (s : state) (L : Layer.t) :
  layer_at s l = Some L ->
  Z.of_nat (length (Net.layers net)) < INT_MAX ->
  (Net.layers net ≠ [] -> p <= 0 -> neural_layer_insert xcsf net l p s = Fault) /\
  (Net.layers net = [] \/ 0 < p ->
   exists net',
     neural_layer_insert xcsf net l p s = Ok net' s /\
     Net.layers net'
     = take (Z.to_nat p) (Net.layers net) ++ l :: drop (Z.to_nat p) (Net.layers net) /\
     (n_layers_ok net = true -> n_layers_ok net' = true) /\
     (tail_n_inputs_ok s net = true -> tail_n_inputs_ok s net' = true) /\
     (head_outputs_ok s net = true -> head_outputs_ok s net' = true)).
Proof.
  intros HL Hlen. pose proof (layer_at_inv _ _ _ HL) as Hl. split.
  - intros Hne Hp. unfold neural_layer_insert.
    destruct (Net.layers net) as [|a ls] eqn:El; [contradiction|].
    rewrite walk_nonpositive by (assumption || discriminate). reflexivity.
  - intros Hcase.
    assert (Hwrap : n_layers_ok net = true ->
                    iadd (Net.n_layers net) 1 = Z.of_nat (S (length (Net.layers net)))).
    { unfold n_layers_ok. intros Hn. apply Z.eqb_eq in Hn. rewrite Hn.
      unfold iadd. rewrite int_wrap_id; [lia|]. unfold in_int, INT_MIN, INT_MAX in *. lia. }
    unfold neural_layer_insert.
    destruct (Net.layers net) as [|a ls] eqn:El.
    + (* empty list *)
      rewrite (bind_Ok _ _ _ _ _ (load_layer_at _ _ _ Hl)).
      eexists. split; [reflexivity|]. cbn [Net.layers].
      split; [rewrite take_nil, drop_nil; reflexivity|].
      split.
      { intros Hn. unfold n_layers_ok. cbn [Net.layers Net.n_layers length].
        rewrite (Hwrap Hn). apply Z.eqb_refl. }
      split.
      { intros _. unfold tail_n_inputs_ok. cbn [Net.layers Net.n_inputs].
        rewrite HL. apply Z.eqb_refl. }
      intros _. unfold head_outputs_ok. cbn [Net.layers Net.n_outputs Net.output last].
      rewrite HL, Z.eqb_refl. cbn. apply bool_decide_eq_true_2. reflexivity.
    + destruct Hcase as [Hnil | Hp]; [discriminate|].
      destruct (Z_lt_le_dec p (Z.of_nat (length (a :: ls)))) as [Hin | Hout].
      * (* middle *)
        rewrite walk_in_range by lia.
        destruct (Z.to_nat p) as [|q] eqn:Eq; [lia|].
        eexists. split; [reflexivity|]. cbn [Net.layers Net.n_layers Net.n_inputs].
        split; [reflexivity|].
        split.
        { intros Hn. unfold n_layers_ok. cbn [Net.layers Net.n_layers].
          rewrite (Hwrap Hn). rewrite length_app, length_take. cbn [length].
          rewrite length_drop. apply Z.eqb_eq. cbn [length] in *. lia. }
        split.
        { unfold tail_n_inputs_ok. cbn [Net.layers Net.n_inputs]. rewrite El.
          cbn [take app]. exact id. }
        unfold head_outputs_ok. cbn [Net.layers Net.n_outputs Net.output]. rewrite El.
        rewrite last_insert_middle by (cbn [length] in *; lia). exact id.
      * (* new head *)
        rewrite walk_beyond by exact Hout.
        rewrite (bind_Ok _ _ _ _ _ (load_layer_at _ _ _ Hl)).
        eexists. split; [reflexivity|]. cbn [Net.layers Net.n_layers Net.n_inputs].
        split.
        { rewrite take_ge, drop_ge by lia. reflexivity. }
        split.
        { intros Hn. unfold n_layers_ok. cbn [Net.layers Net.n_layers].
          rewrite (Hwrap Hn). rewrite length_app. cbn [length]. apply Z.eqb_eq. lia. }
        split.
        { unfold tail_n_inputs_ok. cbn [Net.layers Net.n_inputs]. rewrite El.
          cbn [app]. exact id. }
        intros _. unfold head_outputs_ok. cbn [Net.layers Net.n_outputs Net.output].
        rewrite last_snoc, HL, Z.eqb_refl. cbn. apply bool_decide_eq_true_2. reflexivity.
Qed.

(** A network made of dropout and max-pooling layers only. *)
Definition fixed_layers (s : state) (net : Net.t) : Prop :=
  Forall (fun l => exists L, layer_at s l = Some L /\
            (Layer.layer_vptr L = VDropout \/ Layer.layer_vptr L = VMaxpool))
         (Net.layers net).

(** X10. Dropout and max-pooling layers have nothing to mutate or randomise: on
    a network made only of them, [neural_mutate] returns [false] and
    [neural_rand] returns, both with the state as it was. *)
Theorem neural_mutate_fixed_layers (xcsf : XCSF) (net : Net.t) (s : state) :
  fixed_layers s net ->
  neural_mutate xcsf net s = Ok false s /\ neural_rand xcsf net s = Ok tt s.
Proof.
  intros Hfix. unfold fixed_layers in Hfix. split.
  - unfold neural_mutate.
    assert (W : forall ls prev,
               Forall (fun l => exists L, layer_at s l = Some L /\
                         (Layer.layer_vptr L = VDropout \/ Layer.layer_vptr L = VMaxpool)) ls ->
               exists prev',
                 fold_nodes ls (fun iter '(mod_, prev, do_resize) =>
                   (if (do_resize : bool) then
                      match (prev : ptr) with
                      | Some pv => layer_resize xcsf iter pv
                      | None => fault
                      end
                    else ret tt) ;;;
                   let* L := load_layer iter in
                   let orig_outputs := Layer.n_outputs L in
                   let* m := layer_mutate xcsf iter in
                   if (m : bool) then
                     let* L' := load_layer iter in
                     ret (true, Some iter, negb (Layer.n_outputs L' =? orig_outputs))
                   else
                     ret (mod_, Some iter, false)) (false, prev, false) s
                 = Ok (false, prev', false) s).
    { induction ls as [|a ls IH]; intros prev Hall.
      - exists prev. reflexivity.
      - apply Forall_cons in Hall as [(L & HL & Hv) Hall].
        apply layer_at_inv in HL.
        destruct (IH (Some a) Hall) as (prev' & Hrun).
        exists prev'. cbn [fold_nodes].
        erewrite bind_Ok; [exact Hrun|].
        rewrite bind_ret.
        rewrite (bind_Ok _ _ _ _ _ (load_layer_at _ _ _ HL)). cbv zeta.
        assert (Hm : layer_mutate xcsf a s = Ok false s).
        { unfold layer_mutate. rewrite (bind_Ok _ _ _ _ _ (load_layer_at _ _ _ HL)).
          destruct Hv as [-> | ->]; reflexivity. }
        rewrite (bind_Ok _ _ _ _ _ Hm). reflexivity. }
    destruct (W (Net.layers net) None Hfix) as (prev' & Hrun).
    erewrite bind_Ok; [| exact Hrun]. reflexivity.
  - unfold neural_rand. induction Hfix as [|a ls (L & HL & Hv) _ IH]; [reflexivity|].
    cbn [for_each]. erewrite bind_Ok; [exact IH|].
    unfold layer_rand. apply layer_at_inv in HL.
    rewrite (bind_Ok _ _ _ _ _ (load_layer_at _ _ _ HL)).
    destruct Hv as [-> | ->]; reflexivity.
Qed.

(** The blocks of a network: every layer struct followed by the buffers its
    [free] releases. *)
Definition net_blocks (s : state) (ls : list addr) : list ptr :=
  flat_map (fun l => match layer_at s l with
                     | Some L => Some l :: layer_owned L
                     | None => []
                     end) ls.

(** [layer_free] followed by [free] of the struct releases exactly the
    blocks of the layer. *)
Lemma wp_free_layer_node xcsf s l L (Q : unit -> state -> Prop) :
  layer_at s l = Some L ->
  ((Layer.layer_vptr L = VDropout /\ dropout_live s L) \/
   (Layer.layer_vptr L = VMaxpool /\ maxpool_live s L)) ->
  (forall s',
     (forall a, heap s' !! a
                = if decide (Some a ∈ Some l :: layer_owned L) then None else heap s !! a) ->
     rng s' = rng s -> trace s' = trace s ->
     Q tt s') ->
  wp (layer_free xcsf l ;;; free (Some l)) s Q.
Proof.
  intros Hl Hok HQ. apply layer_at_inv in Hl.
  apply wp_bind. unfold layer_free. apply wp_bind.
  eapply wp_load_layer; [exact Hl|].
  destruct Hok as [[Hv (os & ds & st & Ho & Hd & Hs & Hod & Hos & Hds)]
                  |[Hv (ix & os & ds & Hi & Ho & Hd & Hod)]];
    rewrite Hv; cbn [vtbl_of layer_impl_free layer_dropout_vtbl layer_maxpool_vtbl].
  - destruct (doubles_at_inv _ _ _ Ho) as (ao & Eo & Hao).
    destruct (doubles_at_inv _ _ _ Hd) as (ad & Ed & Had).
    destruct (doubles_at_inv _ _ _ Hs) as (ast & Es & Hast).
    rewrite Eo, Ed in Hod. rewrite Eo, Es in Hos. rewrite Ed, Es in Hds.
    assert (l ≠ ao) by (intros ->; rewrite Hl in Hao; discriminate).
    assert (l ≠ ad) by (intros ->; rewrite Hl in Had; discriminate).
    assert (l ≠ ast) by (intros ->; rewrite Hl in Hast; discriminate).
    unfold neural_layer_dropout_free, dropout_free_layer_arrays.
    apply wp_bind. eapply wp_load_layer; [exact Hl|].
    rewrite Eo, Ed, Es.
    apply wp_bind. eapply wp_free; [exact Hao|]. cbn [heap set_heap].
    apply wp_bind. eapply wp_free.
    { cbn [heap set_heap]. rewrite lookup_delete_ne by congruence. exact Had. }
    cbn [heap set_heap].
    eapply wp_free.
    { cbn [heap set_heap]. rewrite !lookup_delete_ne by congruence. exact Hast. }
    cbn [heap set_heap].
    eapply wp_free.
    { cbn [heap set_heap]. rewrite !lookup_delete_ne by congruence. exact Hl. }
    apply HQ; cbn [heap set_heap rng trace]; try reflexivity.
    intros a. unfold layer_owned. rewrite Hv, Eo, Ed, Es.
    destruct (decide _) as [Hin | Hout].
    + rewrite !elem_of_cons in Hin.
      destruct Hin as [Hin|[Hin|[Hin|[Hin|Hin]]]];
        try (apply elem_of_nil in Hin; contradiction); injection Hin as ->.
      * apply lookup_delete_eq.
      * rewrite !lookup_delete_ne by congruence. apply lookup_delete_eq.
      * rewrite !lookup_delete_ne by congruence. apply lookup_delete_eq.
      * rewrite !lookup_delete_ne by congruence. apply lookup_delete_eq.
    + rewrite !not_elem_of_cons in Hout. destruct Hout as (N1 & N2 & N3 & N4 & _).
      rewrite !lookup_delete_ne by congruence. reflexivity.
  - destruct (ints_at_inv _ _ _ Hi) as (ai & Ei & Hai).
    destruct (doubles_at_inv _ _ _ Ho) as (ao & Eo & Hao).
    destruct (doubles_at_inv _ _ _ Hd) as (ad & Ed & Had).
    rewrite Eo, Ed in Hod.
    assert (l ≠ ai) by (intros ->; rewrite Hl in Hai; discriminate).
    assert (l ≠ ao) by (intros ->; rewrite Hl in Hao; discriminate).
    assert (l ≠ ad) by (intros ->; rewrite Hl in Had; discriminate).
    assert (ai ≠ ao) by (intros ->; rewrite Hai in Hao; discriminate).
    assert (ai ≠ ad) by (intros ->; rewrite Hai in Had; discriminate).
    unfold neural_layer_maxpool_free.
    apply wp_bind. eapply wp_load_layer; [exact Hl|].
    rewrite Ei, Eo, Ed.
    apply wp_bind. eapply wp_free; [exact Hai|]. cbn [heap set_heap].
    apply wp_bind. eapply wp_free.
    { cbn [heap set_heap]. rewrite lookup_delete_ne by congruence. exact Hao. }
    cbn [heap set_heap].
    eapply wp_free.
    { cbn [heap set_heap]. rewrite !lookup_delete_ne by congruence. exact Had. }
    cbn [heap set_heap].
    eapply wp_free.
    { cbn [heap set_heap]. rewrite !lookup_delete_ne by congruence. exact Hl. }
    apply HQ; cbn [heap set_heap rng trace]; try reflexivity.
    intros a. unfold layer_owned. rewrite Hv, Ei, Eo, Ed.
    destruct (decide _) as [Hin | Hout].
    + rewrite !elem_of_cons in Hin.
      destruct Hin as [Hin|[Hin|[Hin|[Hin|Hin]]]];
        try (apply elem_of_nil in Hin; contradiction); injection Hin as ->.
      * apply lookup_delete_eq.
      * rewrite !lookup_delete_ne by congruence. apply lookup_delete_eq.
      * rewrite !lookup_delete_ne by congruence. apply lookup_delete_eq.
      * rewrite !lookup_delete_ne by congruence. apply lookup_delete_eq.
    + rewrite !not_elem_of_cons in Hout. destruct Hout as (N1 & N2 & N3 & N4 & _).
      rewrite !lookup_delete_ne by congruence. reflexivity.
Qed.

(** Membership in a list written out, or ending in the element. *)
Ltac elem_here :=
  repeat first [ apply list_elem_of_here
               | apply elem_of_app; right
               | apply list_elem_of_further ].

(** A layer is as live after a change of the heap that spares its struct and
    its buffers. *)
Lemma layer_ok_frame s s' l L :
  layer_at s l = Some L ->
  (forall a, Some a ∈ Some l :: layer_owned L -> heap s' !! a = heap s !! a) ->
  layer_ok s l -> layer_ok s' l /\ layer_at s' l = Some L.
Proof.
  intros HL Hframe (L' & HL' & Hok). rewrite HL in HL'. injection HL' as <-.
  assert (HL1 : layer_at s' l = Some L).
  { unfold layer_at. rewrite Hframe by (apply elem_of_cons; left; reflexivity).
    exact HL. }
  split; [| exact HL1]. exists L. split; [exact HL1|].
  assert (Hd : forall p ds, Some p ∈ layer_owned L -> doubles_at s (Some p) = Some ds ->
                 doubles_at s' (Some p) = Some ds).
  { intros p ds Hp Hds. unfold doubles_at in *.
    rewrite Hframe by (apply elem_of_cons; right; exact Hp). exact Hds. }
  assert (Hi : forall p zs, Some p ∈ layer_owned L -> ints_at s (Some p) = Some zs ->
                 ints_at s' (Some p) = Some zs).
  { intros p zs Hp Hzs. unfold ints_at in *.
    rewrite Hframe by (apply elem_of_cons; right; exact Hp). exact Hzs. }
  destruct Hok as [[Hv (os & ds & st & Ho & Hdl & Hs & Hne)]
                  |[Hv (ix & os & ds & Hix & Ho & Hdl & Hne)]]; [left | right];
    (split; [exact Hv|]).
  - destruct (doubles_at_inv _ _ _ Ho) as (ao & Eo & _).
    destruct (doubles_at_inv _ _ _ Hdl) as (ad & Ed & _).
    destruct (doubles_at_inv _ _ _ Hs) as (ast & Es & _).
    exists os, ds, st. unfold layer_owned in Hd. rewrite Hv in Hd.
    rewrite Eo, Ed, Es in *.
    split; [apply Hd; [elem_here | exact Ho]|].
    split; [apply Hd; [elem_here | exact Hdl]|].
    split; [apply Hd; [elem_here | exact Hs]|]. exact Hne.
  - destruct (ints_at_inv _ _ _ Hix) as (ai & Ei & _).
    destruct (doubles_at_inv _ _ _ Ho) as (ao & Eo & _).
    destruct (doubles_at_inv _ _ _ Hdl) as (ad & Ed & _).
    exists ix, os, ds. unfold layer_owned in Hd, Hi. rewrite Hv in Hd, Hi.
    rewrite Ei, Eo, Ed in *.
    split; [apply Hi; [elem_here | exact Hix]|].
    split; [apply Hd; [elem_here | exact Ho]|].
    split; [apply Hd; [elem_here | exact Hdl]|]. exact Hne.
Qed.

Lemma flat_map_ext_elem {A B} (f g : A -> list B) (l : list A) :
  (forall x, x ∈ l -> f x = g x) -> flat_map f l = flat_map g l.
Proof.
  induction l as [|a l IH]; intros H; [reflexivity|]. cbn.
  rewrite (H a) by (apply elem_of_cons; left; reflexivity).
  rewrite IH; [reflexivity|]. intros x Hx. apply H. apply elem_of_cons. right. exact Hx.
Qed.

Lemma wp_free_loop xcsf ls :
  forall net s (Q : Net.t -> state -> Prop),
    Forall (layer_ok s) ls ->
    NoDup (net_blocks s ls) ->
    (forall net' s',
       Net.layers net' = drop (length ls) (Net.layers net) ->
       Net.n_layers net' = Nat.iter (length ls) (fun z => isub z 1) (Net.n_layers net) ->
       Net.n_inputs net' = Net.n_inputs net -> Net.n_outputs net' = Net.n_outputs net ->
       Net.output net' = Net.output net ->
       (forall a, heap s' !! a
                  = if decide (Some a ∈ net_blocks s ls) then None else heap s !! a) ->
       rng s' = rng s -> trace s' = trace s ->
       Q net' s') ->
    wp (fold_nodes ls (fun iter net =>
          layer_free xcsf iter ;;;
          free (Some iter) ;;;
          ret (Net.mk (tail (Net.layers net)) (isub (Net.n_layers net) 1) (Net.n_inputs net)
                      (Net.n_outputs net) (Net.output net))) net) s Q.
Proof.
  induction ls as [|l ls IH]; intros net s Q Hok Hnd HQ.
  - cbn [fold_nodes]. apply wp_ret. apply HQ; reflexivity.
  - apply Forall_cons in Hok as [Hl Hrest].
    destruct Hl as (L & HL & HLok).
    cbn [net_blocks flat_map] in Hnd. rewrite HL in Hnd.
    fold (net_blocks s ls) in Hnd.
    apply NoDup_app in Hnd as (Hnd1 & Hdisj & Hnd2).
    cbn [fold_nodes]. apply wp_bind.
    change (layer_free xcsf l;;; free (Some l);;;
            ret (Net.mk (tail (Net.layers net)) (isub (Net.n_layers net) 1)
                        (Net.n_inputs net) (Net.n_outputs net) (Net.output net)))
      with (bind (layer_free xcsf l)
              (fun _ => bind (free (Some l)) (fun _ =>
                 ret (Net.mk (tail (Net.layers net)) (isub (Net.n_layers net) 1)
                             (Net.n_inputs net) (Net.n_outputs net) (Net.output net))))).
    assert (W : wp (layer_free xcsf l ;;; free (Some l)) s
                  (fun _ s1 =>
                     (forall a, heap s1 !! a
                        = if decide (Some a ∈ Some l :: layer_owned L) then None
                          else heap s !! a) /\
                     rng s1 = rng s /\ trace s1 = trace s)).
    { apply (wp_free_layer_node xcsf s l L); [exact HL | exact HLok |]. auto. }
    destruct (wp_inv _ _ _ W) as ([] & s1 & Hrun1 & Hh1 & Hr1 & Ht1).
    unfold wp. unfold bind in Hrun1 |- *.
    destruct (layer_free xcsf l s) as [[] s0| |]; try discriminate.
    rewrite Hrun1. cbn [ret].
    assert (Hsame : forall l', l' ∈ ls ->
              layer_ok s1 l' /\ layer_at s1 l' = layer_at s l').
    { intros l' Hin.
      assert (Hok' : layer_ok s l') by (eapply Forall_forall; eauto).
      destruct Hok' as (L' & HL' & Hok').
      destruct (layer_ok_frame s s1 l' L' HL') as [H1 H2].
      - intros a Ha. rewrite Hh1.
        destruct (decide (Some a ∈ Some l :: layer_owned L)) as [Hown|]; [| reflexivity].
        exfalso. apply (Hdisj (Some a) Hown).
        unfold net_blocks. apply list_elem_of_In, in_flat_map.
        exists l'. split; [apply list_elem_of_In, Hin|].
        rewrite HL'. apply list_elem_of_In, Ha.
      - exists L'. split; assumption.
      - split; [exact H1 | congruence]. }
    assert (Hblocks : net_blocks s1 ls = net_blocks s ls).
    { unfold net_blocks. apply flat_map_ext_elem. intros l' Hin.
      destruct (Hsame l' Hin) as [_ ->]. reflexivity. }
    apply (IH _ s1 Q).
    + apply Forall_forall. intros l' Hin. apply Hsame, Hin.
    + rewrite Hblocks. exact Hnd2.
    + intros net' s' Hls Hn Hni Hno Hout Hh Hr Ht.
      cbn [Net.layers Net.n_layers Net.n_inputs Net.n_outputs Net.output] in *.
      apply HQ; try congruence.
      * rewrite Hls. cbn [length]. destruct (Net.layers net); [| reflexivity].
        cbn. rewrite drop_nil. reflexivity.
      * rewrite Hn. cbn [length]. rewrite Nat.iter_succ_r. reflexivity.
      * intros a. rewrite Hh, Hblocks, Hh1.
        cbn [net_blocks flat_map]. rewrite HL. fold (net_blocks s ls).
        repeat match goal with |- context [decide ?P] => destruct (decide P) end;
          try reflexivity; exfalso; rewrite elem_of_app in *; tauto.
Qed.

(** X11. [neural_free] on a network of live dropout and max-pooling layers whose
    structs and buffers are pairwise distinct: every layer struct and every
    buffer is released, no other block is touched, the list becomes empty
    and [n_layers] drops to zero when it counted the layers; [n_inputs],
    [n_outputs] and [output] keep their values, so [output] now points to
    released memory. *)
Theorem neural_free_releases_all (xcsf : XCSF) (net : Net.t) (s : state) :
  Forall (layer_ok s) (Net.layers net) ->
  NoDup (net_blocks s (Net.layers net)) ->
  exists net' s',
    neural_free xcsf net s = Ok net' s' /\
    Net.layers net' = [] /\
    (n_layers_ok net = true -> Z.of_nat (length (Net.layers net)) <= INT_MAX ->
     Net.n_layers net' = 0) /\
    Net.n_inputs net' = Net.n_inputs net /\ Net.n_outputs net' = Net.n_outputs net /\
    Net.output net' = Net.output net /\
    (forall a, Some a ∈ net_blocks s (Net.layers net) -> heap s' !! a = None) /\
    (forall a, Some a ∉ net_blocks s (Net.layers net) -> heap s' !! a = heap s !! a) /\
    (forall hd HL, last (Net.layers net) = Some hd -> layer_at s hd = Some HL ->
       Net.output net = Layer.output HL ->
       forall a, Net.output net' = Some a -> heap s' !! a = None).
Proof.
  intros Hok Hnd.
  assert (W : wp (neural_free xcsf net) s
                (fun net' s' =>
                   Net.layers net' = drop (length (Net.layers net)) (Net.layers net) /\
                   Net.n_layers net'
                   = Nat.iter (length (Net.layers net)) (fun z => isub z 1) (Net.n_layers net) /\
                   Net.n_inputs net' = Net.n_inputs net /\
                   Net.n_outputs net' = Net.n_outputs net /\
                   Net.output net' = Net.output net /\
                   (forall a, heap s' !! a
                      = if decide (Some a ∈ net_blocks s (Net.layers net)) then None
                        else heap s !! a))).
  { unfold neural_free. apply wp_free_loop; [exact Hok | exact Hnd |]. intuition. }
  destruct (wp_inv _ _ _ W) as (net' & s' & Hrun & Hls & Hn & Hni & Hno & Hout & Hh).
  exists net', s'. split; [exact Hrun|].
  split; [rewrite Hls; apply drop_all|].
  split.
  { intros Hnok Hlen. rewrite Hn. unfold n_layers_ok in Hnok. apply Z.eqb_eq in Hnok.
    rewrite Hnok. clear -Hlen. induction (length (Net.layers net)) as [|n IH]; [reflexivity|].
    rewrite Nat.iter_succ_r.
    replace (isub (Z.of_nat (S n)) 1) with (Z.of_nat n).
    - apply IH. lia.
    - unfold isub. rewrite int_wrap_id; [lia|]. unfold in_int, INT_MIN, INT_MAX in *. lia. }
  split; [exact Hni|]. split; [exact Hno|]. split; [exact Hout|].
  split.
  { intros a Ha. rewrite Hh. destruct (decide _); [reflexivity | contradiction]. }
  split.
  { intros a Ha. rewrite Hh. destruct (decide _); [contradiction | reflexivity]. }
  intros hd HL Hlast HHL Hnetout a Ha.
  rewrite Hh. destruct (decide _) as [|Hnot]; [reflexivity|].
  exfalso. apply Hnot.
  apply last_Some in Hlast as [pre Hpre].
  unfold net_blocks. apply list_elem_of_In, in_flat_map.
  exists hd. split; [rewrite Hpre; apply in_app_iff; right; left; reflexivity|].
  rewrite HHL. apply list_elem_of_In. apply elem_of_cons. right.
  rewrite Hout, Hnetout in Ha.
  assert (Hokhd : layer_ok s hd).
  { eapply Forall_forall; [exact Hok|]. rewrite Hpre. elem_here. }
  destruct Hokhd as (L' & HL' & Hk). rewrite HHL in HL'. injection HL' as <-.
  unfold layer_owned. destruct Hk as [[-> _] | [-> _]]; rewrite Ha; elem_here.
Qed.

(** The struct of a live layer is none of the buffers of a live layer. *)
Lemma struct_not_owned s l L a :
  layer_at s l = Some L ->
  ((Layer.layer_vptr L = VDropout /\ dropout_live s L) \/
   (Layer.layer_vptr L = VMaxpool /\ maxpool_live s L)) ->
  is_Some (layer_at s a) -> Some a ∉ layer_owned L.
Proof.
  intros HL Hok [La Ha] Hin. apply layer_at_inv in Ha. unfold layer_owned in Hin.
  destruct Hok as [[Hv (os & ds & st & Ho & Hd & Hs & _)]
                  |[Hv (ix & os & ds & Hi & Ho & Hd & _)]];
    rewrite Hv in Hin; rewrite !elem_of_cons in Hin;
    destruct Hin as [Hin|[Hin|[Hin|Hin]]];
    try (apply elem_of_nil in Hin; contradiction); rewrite <- Hin in *;
    unfold doubles_at, ints_at in *; rewrite Ha in *; discriminate.
Qed.

Lemma wp_neural_layer_remove xcsf net p s l L (Q : Net.t -> state -> Prop) :
  (2 <= length (Net.layers net))%nat ->
  0 <= p < Z.of_nat (length (Net.layers net)) ->
  Net.layers net !! Z.to_nat p = Some l ->
  layer_at s l = Some L ->
  Forall (layer_ok s) (Net.layers net) ->
  (forall net' s',
     Net.layers net' = delete (Z.to_nat p) (Net.layers net) ->
     Net.n_layers net' = isub (Net.n_layers net) 1 ->
     Net.n_inputs net' = Net.n_inputs net ->
     (if decide (S (Z.to_nat p) = length (Net.layers net))
      then exists hd HL, last (delete (Z.to_nat p) (Net.layers net)) = Some hd /\
             layer_at s hd = Some HL /\
             Net.n_outputs net' = Layer.n_outputs HL /\ Net.output net' = Layer.output HL
      else Net.n_outputs net' = Net.n_outputs net /\ Net.output net' = Net.output net) ->
     (forall a, a ≠ l -> Some a ∉ layer_owned L -> heap s' !! a = heap s !! a) ->
     heap s' !! l = None ->
     Q net' s') ->
  wp (neural_layer_remove xcsf net p) s Q.
Proof.
  intros Hlen Hp Hl HL Hok HQ.
  assert (HLok : (Layer.layer_vptr L = VDropout /\ dropout_live s L) \/
                 (Layer.layer_vptr L = VMaxpool /\ maxpool_live s L)).
  { assert (Hokl : layer_ok s l)
      by (eapply Forall_forall; [exact Hok|]; eapply list_elem_of_lookup_2, Hl).
    destruct Hokl as (L' & HL' & Hk). rewrite HL in HL'. injection HL' as <-. exact Hk. }
  unfold neural_layer_remove. rewrite (walk_in_range _ _ Hp), Hl.
  destruct (decide (length (Net.layers net) = 1%nat)) as [H1|_]; [lia|].
  apply wp_bind.
  assert (Hhead : wp
            (if decide (S (Z.to_nat p) = length (Net.layers net))
             then match last (delete (Z.to_nat p) (Net.layers net)) with
                  | Some hd =>
                      let* HL := load_layer hd in
                      ret (Net.mk (Net.layers net) (Net.n_layers net) (Net.n_inputs net)
                                  (Layer.n_outputs HL) (Layer.output HL))
                  | None => fault
                  end
             else ret net) s
            (fun net1 s1 =>
               s1 = s /\ Net.n_layers net1 = Net.n_layers net /\
               Net.n_inputs net1 = Net.n_inputs net /\
               (if decide (S (Z.to_nat p) = length (Net.layers net))
                then exists hd HL, last (delete (Z.to_nat p) (Net.layers net)) = Some hd /\
                       layer_at s hd = Some HL /\
                       Net.n_outputs net1 = Layer.n_outputs HL /\
                       Net.output net1 = Layer.output HL
                else Net.n_outputs net1 = Net.n_outputs net /\
                     Net.output net1 = Net.output net))).
  { destruct (decide (S (Z.to_nat p) = length (Net.layers net))) as [Hh|Hh].
    - destruct (last_delete_is_Some (Net.layers net) (Z.to_nat p) Hlen)
        as (hd & Ehd & Hin). rewrite Ehd.
      assert (Hokh : layer_ok s hd) by (eapply Forall_forall; eauto).
      destruct Hokh as (HL' & HHL & _).
      apply wp_bind. eapply wp_load_layer; [apply layer_at_inv, HHL|].
      apply wp_ret. repeat split. exists hd, HL'. repeat split. exact HHL.
    - apply wp_ret. repeat split. }
  eapply wp_mono; [exact Hhead|].
  intros net1 s1 (-> & Hn1 & Hi1 & Ho1). cbn beta.
  apply wp_bind.
  apply (wp_layer_free xcsf s l L); [exact HL | exact HLok |].
  intros s1 Hframe _ _.
  assert (Hnown : Some l ∉ layer_owned L).
  { eapply struct_not_owned; eauto. }
  apply wp_bind. eapply wp_free.
  { rewrite (Hframe l Hnown). apply layer_at_inv, HL. }
  apply wp_ret. apply HQ; cbn [Net.layers Net.n_layers Net.n_inputs Net.n_outputs Net.output
                                heap set_heap].
  - reflexivity.
  - rewrite Hn1. reflexivity.
  - exact Hi1.
  - exact Ho1.
  - intros a Hal Hown. rewrite lookup_delete_ne by congruence. apply Hframe, Hown.
  - apply lookup_delete_eq.
Qed.

Lemma last_delete_not_last {A} (ls : list A) q :
  (S q < length ls)%nat -> last (delete q ls) = last ls.
Proof.
  revert q. induction ls as [|a ls IH]; intros q Hq; [reflexivity|].
  destruct q as [|q]; cbn [delete list_delete].
  - destruct ls; [cbn in Hq; lia | reflexivity].
  - cbn [length] in Hq. destruct ls as [|b ls]; [cbn in Hq; lia|].
    assert (Hq' : (S q < length (b :: ls))%nat) by (cbn [length] in *; lia).
    specialize (IH q Hq').
    destruct (delete q (b :: ls)) as [|c r] eqn:Ed.
    + apply (f_equal length) in Ed.
      rewrite length_delete in Ed by (apply lookup_lt_is_Some_2; lia).
      cbn [length] in *. lia.
    + cbn [last] in *. exact IH.
Qed.

(** X12. [neural_layer_remove] and the bookkeeping of the network. On a network
    of at least two distinct live layers and a position inside it, the call
    returns; [n_layers] and the output side ([n_outputs], [output]) agree
    with the layers after the call if they did before (the output side is
    recomputed when the head is removed); the input side is kept if a
    layer other than the tail is removed, but [n_inputs] is never written:
    after the removal of the tail it is still the removed layer's. *)
Theorem neural_layer_remove_bookkeeping (xcsf : XCSF) (net : Net.t) (p : Z) (s : state) :
  (2 <= length (Net.layers net))%nat ->
  0 <= p < Z.of_nat (length (Net.layers net)) ->
  Z.of_nat (length (Net.layers net)) <= INT_MAX ->
  Forall (layer_ok s) (Net.layers net) ->
  NoDup (Net.layers net) ->
  exists net' s',
    neural_layer_remove xcsf net p s = Ok net' s' /\
    Net.n_inputs net' = Net.n_inputs net /\
    (n_layers_ok net = true -> n_layers_ok net' = true) /\
    (head_outputs_ok s net = true -> head_outputs_ok s' net' = true) /\
    (0 < p -> tail_n_inputs_ok s net = true -> tail_n_inputs_ok s' net' = true).
Proof.
  intros Hlen Hp Hmax Hok Hnd.
  destruct (lookup_lt_is_Some_2 (Net.layers net) (Z.to_nat p) ltac:(lia)) as [l Hl].
  assert (Hokl : layer_ok s l)
    by (eapply Forall_forall; [exact Hok|]; eapply list_elem_of_lookup_2, Hl).
  destruct Hokl as (L & HL & HLok).
  assert (Hkeep : forall a, a ∈ Net.layers net -> a ≠ l ->
            forall s', (forall b, b ≠ l -> Some b ∉ layer_owned L ->
                          heap s' !! b = heap s !! b) ->
            layer_at s' a = layer_at s a).
  { intros a Ha Hal s' Hframe. unfold layer_at. rewrite Hframe; [reflexivity | exact Hal |].
    assert (Hoka : layer_ok s a) by (eapply Forall_forall; eauto).
    destruct Hoka as (La & HLa & _). eapply struct_not_owned; eauto. }
  assert (W : wp (neural_layer_remove xcsf net p) s
                (fun net' s' =>
                   Net.n_inputs net' = Net.n_inputs net /\
                   (n_layers_ok net = true -> n_layers_ok net' = true) /\
                   (head_outputs_ok s net = true -> head_outputs_ok s' net' = true) /\
                   (0 < p -> tail_n_inputs_ok s net = true ->
                    tail_n_inputs_ok s' net' = true))).
  { apply (wp_neural_layer_remove xcsf net p s l L); try assumption.
    intros net' s' Hls Hn Hni Hhead Hframe _.
    split; [exact Hni|]. split; [| split].
    - unfold n_layers_ok. intros Hnl. apply Z.eqb_eq in Hnl. apply Z.eqb_eq.
      rewrite Hn, Hls, length_delete by (rewrite Hl; eauto). rewrite Hnl.
      unfold isub. rewrite int_wrap_id; [lia|].
      unfold in_int, INT_MIN, INT_MAX in *. lia.
    - intros Hhd. unfold head_outputs_ok. rewrite Hls.
      destruct (decide (S (Z.to_nat p) = length (Net.layers net))) as [Hh|Hh].
      + destruct Hhead as (hd & HLh & Ehd & HHL & Hno & Hout). rewrite Ehd.
        assert (Hin : hd ∈ Net.layers net).
        { apply last_Some in Ehd as [pre Epre]. eapply elem_of_delete_list.
          rewrite Epre. elem_here. }
        assert (Hne : hd ≠ l).
        { intros ->. apply last_Some in Ehd as [pre Epre].
          assert (Hin' : l ∈ delete (Z.to_nat p) (Net.layers net)) by (rewrite Epre; elem_here).
          apply list_elem_of_lookup in Hin' as [i Hi].
          destruct (decide (i < Z.to_nat p)%nat) as [Hlt|Hge].
          - rewrite list_lookup_delete_lt in Hi by exact Hlt.
            pose proof (NoDup_lookup _ _ _ _ Hnd Hi Hl). lia.
          - rewrite list_lookup_delete_ge in Hi by lia.
            pose proof (NoDup_lookup _ _ _ _ Hnd Hi Hl). lia. }
        rewrite (Hkeep hd Hin Hne s' Hframe), HHL, Hno, Hout, Z.eqb_refl. cbn.
        apply bool_decide_eq_true_2. reflexivity.
      + destruct Hhead as [Hno Hout].
        rewrite last_delete_not_last by lia.
        unfold head_outputs_ok in Hhd.
        destruct (last (Net.layers net)) as [hd|] eqn:Ehd; [| reflexivity].
        assert (Hin : hd ∈ Net.layers net).
        { apply last_Some in Ehd as [pre Epre]. rewrite Epre. elem_here. }
        assert (Hne : hd ≠ l).
        { intros ->. rewrite last_lookup in Ehd.
          pose proof (NoDup_lookup _ _ _ _ Hnd Ehd Hl). lia. }
        rewrite (Hkeep hd Hin Hne s' Hframe), Hno, Hout. exact Hhd.
    - intros Hp0 Htl. unfold tail_n_inputs_ok in *. rewrite Hls, Hni.
      destruct (Net.layers net) as [|tl rest] eqn:El; [cbn in Hlen; lia|].
      destruct (Z.to_nat p) as [|q] eqn:Eq; [lia|]. cbn [delete list_delete].
      assert (Hne : tl ≠ l).
      { intros ->. pose proof (NoDup_lookup _ 0%nat (S q) _ Hnd eq_refl Hl). lia. }
      rewrite (Hkeep tl ltac:(elem_here) Hne s' Hframe). exact Htl. }
  destruct (wp_inv _ _ _ W) as (net' & s' & Hrun & Hrest).
  exists net', s'. split; [exact Hrun | exact Hrest].
Qed.

End Bookkeeping.
(** * Allocation checks and constructors *)

Section Constructors.

Context {E : Externals}.

(** [wpx m s Q]: run from [s], [m] prints a diagnostic and exits; the
    diagnostic and the state at the exit satisfy [Q]. *)
Definition wpx {A} (m : M A) (s : state) (Q : string -> state -> Prop) : Prop :=
  match m s with
  | Exit d s' => Q d s'
  | Ok _ _ => False
  | Fault => False
  end.

Lemma wpx_bind {A B} (m : M A) (f : A -> M B) s (Q : string -> state -> Prop) :
  wp m s (fun a s' => wpx (f a) s' Q) -> wpx (bind m f) s Q.
Proof. unfold wp, wpx, bind. destruct (m s); [exact id | contradiction | contradiction]. Qed.

Lemma wpx_bind_exit {A B} (m : M A) (f : A -> M B) s (Q : string -> state -> Prop) :
  wpx m s Q -> wpx (bind m f) s Q.
Proof. unfold wpx, bind. destruct (m s); [contradiction | exact id | contradiction]. Qed.

Lemma wpx_abort {A} d s (Q : string -> state -> Prop) : Q d s -> wpx (abort (A:=A) d) s Q.
Proof. exact id. Qed.

Lemma wpx_inv {A} (m : M A) s (Q : string -> state -> Prop) :
  wpx m s Q -> exists d s', m s = Exit d s' /\ Q d s'.
Proof. unfold wpx. destruct (m s) as [| d s' |]; [contradiction | eauto | contradiction]. Qed.

Ltac xstep := apply wpx_bind; wstep; cbv beta.

(** The diagnostics of the two allocation checks. *)
Definition dropout_size_diag : string :=
  "neural_layer_dropout: malloc() invalid size" ++ newline.


(** X13. [neural_layer_dropout_init] with a size outside [[1, N_INPUTS_MAX]]
    prints the diagnostic of the allocation check and exits. At the exit the
    blocks of the caller are as they were, no buffer has been allocated, and
    the struct made for the layer is still allocated, with [n_inputs] set to
    1. *)
Theorem neural_layer_dropout_init_invalid_size (xcsf : XCSF) (n : Z) (p : double)
    (s : state) :
  n < 1 \/ N_INPUTS_MAX < n ->
  exists s' l L,
    neural_layer_dropout_init xcsf n p s = Exit dropout_size_diag s' /\
    heap s !! l = None /\
    heap s' = <[l := BLayer L]> (heap s) /\
    Layer.n_inputs L = 1 /\ Layer.n_outputs L = n /\
    Layer.output L = Layer.output (layer_init (junk_layer l)).
Proof.
  intros Hn.
  assert (W : wpx (neural_layer_dropout_init xcsf n p) s
                (fun d s' => d = dropout_size_diag /\
                   exists l L, heap s !! l = None /\ heap s' = <[l := BLayer L]> (heap s) /\
                     Layer.n_inputs L = 1 /\ Layer.n_outputs L = n /\
                     Layer.output L = Layer.output (layer_init (junk_layer l)))).
  { unfold neural_layer_dropout_init.
    do 9 xstep.
    apply wpx_bind_exit. unfold dropout_malloc_layer_arrays. xstep.
    cbn [Layer.n_inputs Layer.set_scale Layer.set_probability Layer.set_max_outputs
         Layer.set_n_outputs Layer.set_n_inputs].
    replace ((n <? 1) || (N_INPUTS_MAX <? n)) with true
      by (symmetry; apply orb_true_iff; lia).
    xstep. apply wpx_abort.
    split; [reflexivity|].
    eexists a, _. split; [exact Ha|]. split.
    { cbn [heap set_heap]. rewrite ?insert_insert_eq. reflexivity. }
    repeat split. }
  destruct (wpx_inv _ _ _ W) as (d & s' & Hrun & -> & l & L & H1 & H2 & H3 & H4 & H5).
  exists s', l, L. repeat split; assumption.
Qed.

(** The diagnostics of the type checks of the two copies. *)
Definition dropout_copy_diag : string :=
  "neural_layer_dropout_copy(): incorrect source layer type" ++ newline.

Definition maxpool_copy_diag : string :=
  "neural_layer_maxpool_copy(): incorrect source layer type" ++ newline.

(** X14. The copy of a layer kind applied to a layer of another type prints its
    diagnostic and exits, with the state as it was: nothing is allocated. *)
Theorem layer_copy_checks_type (xcsf : XCSF) (src : addr) (s : state) (S : Layer.t) :
  layer_at s src = Some S ->
  (Layer.layer_type S ≠ DROPOUT ->
   neural_layer_dropout_copy xcsf src s = Exit dropout_copy_diag s) /\
  (Layer.layer_type S ≠ MAXPOOL ->
   neural_layer_maxpool_copy xcsf src s = Exit maxpool_copy_diag s).
Proof.
  intros HS. apply layer_at_inv in HS. split; intros Hne.
  - unfold neural_layer_dropout_copy.
    rewrite (bind_Ok _ _ _ _ _ (load_layer_at _ _ _ HS)).
    destruct (Layer.layer_type S =? DROPOUT) eqn:Et; [apply Z.eqb_eq in Et; contradiction|].
    reflexivity.
  - unfold neural_layer_maxpool_copy.
    rewrite (bind_Ok _ _ _ _ _ (load_layer_at _ _ _ HS)).
    destruct (Layer.layer_type S =? MAXPOOL) eqn:Et; [apply Z.eqb_eq in Et; contradiction|].
    reflexivity.
Qed.










End Constructors.
(** * Resizing *)

(** Lookups in a heap built by insertions and deletions. *)
Ltac look :=
  cbn [heap set_heap];
  repeat first [ rewrite lookup_insert_eq
               | rewrite lookup_insert_ne by solve_ne
               | rewrite lookup_delete_ne by solve_ne ];
  try eassumption; try reflexivity.

Ltac look_in H :=
  cbn [heap set_heap] in H;
  repeat first [ rewrite lookup_insert_eq in H
               | rewrite lookup_delete_eq in H
               | rewrite lookup_insert_ne in H by solve_ne
               | rewrite lookup_delete_ne in H by solve_ne ].

(** An address that is not in use differs from one that is. *)
Ltac fresh_ne H := let X := fresh in intros X; subst; look_in H; congruence.

Section Resize.

Context {E : Externals}.

(** The contents of an array of doubles after [realloc] to [n] cells. *)
Definition resized (n : Z) (ds : list double) : list double :=
  take (Z.to_nat n) ds ++ replicate (Z.to_nat n - length ds) junk_double.

Lemma resized_length n ds : 0 <= n -> length (resized n ds) = Z.to_nat n.
Proof.
  intros Hn. unfold resized. rewrite length_app, length_take, length_replicate. lia.
Qed.

Lemma resized_lookup n ds i :
  (i < Z.to_nat n)%nat -> (i < length ds)%nat -> resized n ds !! i = ds !! i.
Proof.
  intros Hi Hl. unfold resized. rewrite lookup_app_l by (rewrite length_take; lia).
  apply lookup_take_lt. exact Hi.
Qed.

Lemma wp_realloc_doubles a ds n s (Q : ptr -> state -> Prop) :
  heap s !! a = Some (BDoubles ds) -> 1 <= n ->
  (forall a', delete a (heap s) !! a' = None ->
     Q (Some a') (set_heap (<[a' := BDoubles (resized n ds)]> (delete a (heap s))) s)) ->
  wp (realloc_doubles (Some a) n) s Q.
Proof.
  intros Ha Hn HQ. unfold wp, realloc_doubles. rewrite Ha.
  destruct (n <? 0) eqn:E0; [lia|]. destruct (n =? 0) eqn:E1; [lia|].
  unfold bind, malloc_block, ret. cbn [heap set_heap].
  rewrite set_heap_twice. apply HQ. apply fresh_not_in.
Qed.


(** The run of [neural_layer_dropout_resize] on the heap: the struct and
    the three arrays it leaves, at addresses that no other live block had. *)
Lemma wp_neural_layer_dropout_resize xcsf l prev s L P ao ad ast os ds st
    (Q : unit -> state -> Prop) :
  heap s !! l = Some (BLayer L) ->
  heap s !! prev = Some (BLayer P) ->
  l ≠ prev ->
  Layer.output L = Some ao -> Layer.delta L = Some ad -> Layer.state L = Some ast ->
  heap s !! ao = Some (BDoubles os) ->
  heap s !! ad = Some (BDoubles ds) ->
  heap s !! ast = Some (BDoubles st) ->
  ao ≠ ad -> ao ≠ ast -> ad ≠ ast ->
  1 <= Layer.n_outputs P ->
  (forall s' a1 a2 a3,
     a1 ≠ a2 -> a1 ≠ a3 -> a2 ≠ a3 ->
     heap s' !! l
     = Some (BLayer (Layer.set_delta (Some a3)
                (Layer.set_output (Some a2)
                   (Layer.set_state (Some a1)
                      (Layer.set_max_outputs (Layer.n_outputs P)
                         (Layer.set_n_outputs (Layer.n_outputs P)
                            (Layer.set_n_inputs (Layer.n_outputs P) L))))))) ->
     heap s' !! a1 = Some (BDoubles (resized (Layer.n_outputs P) st)) ->
     heap s' !! a2 = Some (BDoubles (resized (Layer.n_outputs P) os)) ->
     heap s' !! a3 = Some (BDoubles (resized (Layer.n_outputs P) ds)) ->
     heap s' !! prev = Some (BLayer P) ->
     (forall b, is_Some (heap s !! b) -> b ≠ l -> b ≠ ao -> b ≠ ad -> b ≠ ast ->
        heap s' !! b = heap s !! b /\ b ≠ a1 /\ b ≠ a2 /\ b ≠ a3) ->
     rng s' = rng s -> trace s' = trace s ->
     Q tt s') ->
  wp (neural_layer_dropout_resize xcsf l prev) s Q.
Proof.
  intros HL HP Hlp Eo Ed Es Ho Hd Hs Hod Hos Hds Hn HQ.
  assert (l ≠ ao) by (intros ->; rewrite HL in Ho; discriminate).
  assert (l ≠ ad) by (intros ->; rewrite HL in Hd; discriminate).
  assert (l ≠ ast) by (intros ->; rewrite HL in Hs; discriminate).
  assert (prev ≠ ao) by (intros ->; rewrite HP in Ho; discriminate).
  assert (prev ≠ ad) by (intros ->; rewrite HP in Hd; discriminate).
  assert (prev ≠ ast) by (intros ->; rewrite HP in Hs; discriminate).
  set (n := Layer.n_outputs P) in *.
  unfold neural_layer_dropout_resize.
  do 7 wstep.
  cbn [Layer.state Layer.n_outputs Layer.set_max_outputs Layer.set_n_outputs
       Layer.set_n_inputs]. rewrite Es. fold n.
  apply wp_bind. eapply wp_realloc_doubles; [solve_lookup | exact Hn |].
  intros a1 Ha1. cbn [heap set_heap] in *. rewrite ?set_heap_twice.
  assert (a1 ≠ l) by fresh_ne Ha1.
  assert (a1 ≠ ao) by fresh_ne Ha1.
  assert (a1 ≠ ad) by fresh_ne Ha1.
  assert (a1 ≠ prev) by fresh_ne Ha1.
  apply wp_bind. eapply wp_modify_layer; [look|].
  cbn [heap set_heap]. rewrite ?set_heap_twice.
  apply wp_bind. eapply wp_load_layer; [look|].
  cbn [Layer.output Layer.n_outputs Layer.set_state Layer.set_max_outputs
       Layer.set_n_outputs Layer.set_n_inputs]. rewrite Eo. fold n.
  apply wp_bind. eapply wp_realloc_doubles; [look; exact Ho | exact Hn |].
  intros a2 Ha2. cbn [heap set_heap] in *. rewrite ?set_heap_twice.
  assert (a2 ≠ l) by fresh_ne Ha2.
  assert (a2 ≠ a1) by fresh_ne Ha2.
  assert (a2 ≠ ad) by fresh_ne Ha2.
  assert (a2 ≠ prev) by fresh_ne Ha2.
  apply wp_bind. eapply wp_modify_layer; [look|].
  cbn [heap set_heap]. rewrite ?set_heap_twice.
  apply wp_bind. eapply wp_load_layer; [look|].
  cbn [Layer.delta Layer.n_outputs Layer.set_output Layer.set_state Layer.set_max_outputs
       Layer.set_n_outputs Layer.set_n_inputs]. rewrite Ed. fold n.
  apply wp_bind. eapply wp_realloc_doubles; [look; exact Hd | exact Hn |].
  intros a3 Ha3. cbn [heap set_heap] in *. rewrite ?set_heap_twice.
  assert (a3 ≠ l) by fresh_ne Ha3.
  assert (a3 ≠ a2) by fresh_ne Ha3.
  assert (a3 ≠ a1) by fresh_ne Ha3.
  assert (a3 ≠ prev) by fresh_ne Ha3.
  eapply wp_modify_layer; [look|].
  cbn [heap set_heap].
  apply (HQ _ a1 a2 a3); cbn [heap set_heap rng trace];
    [congruence | congruence | congruence | look | look | look | look | look; exact HP
    | | reflexivity | reflexivity].
  intros b [x Hb] Hbl Hbo Hbd Hbs.
  assert (b ≠ a1) by fresh_ne Ha1.
  assert (b ≠ a2) by fresh_ne Ha2.
  assert (b ≠ a3) by fresh_ne Ha3.
  split; [look | split; [assumption | split; assumption]].
Qed.


End Resize.
(** * The maximum of a pooling window *)

Section PoolMax.

Context {E : Externals}.

(** [<] on doubles, through its specification on [spec_float]. *)
Lemma SFcompare_lt_nlt a b c :
  SFcompare a c = Some Lt -> SFcompare a b <> Some Lt -> SFcompare c b <> Some Lt.
Proof.
  destruct a as [sa| sa | | sa ma ea], b as [sb | sb | | sb mb eb], c as [sc | sc | | sc mc ec];
    cbn; try congruence;
    repeat match goal with
           | s : bool |- _ => destruct s
           end; cbn; try congruence;
    repeat match goal with
           | |- context [Z.compare ?x ?y] => destruct (Z.compare_spec x y)
           end; cbn; try congruence; try lia;
    try (subst;
         repeat match goal with
                | |- context [Pos.compare_cont Eq ?x ?y] =>
                    change (Pos.compare_cont Eq x y) with (Pos.compare x y);
                    destruct (Pos.compare_spec x y)
                end; cbn; try congruence; try lia).
Qed.

Lemma dlt_irrefl v : dlt v v = false.
Proof.
  unfold dlt. rewrite ltb_spec. unfold SFltb.
  destruct (Prim2SF v) as [s | s | | s m e]; cbn; try reflexivity.
  - destruct s; reflexivity.
  - destruct s; rewrite Z.compare_refl, Pos.compare_cont_refl; reflexivity.
Qed.

(** If [a < c] and not [a < b] then not [c < b] (also for a NaN [b]). *)
Lemma dlt_lt_nlt a b c : dlt a c = true -> dlt a b = false -> dlt c b = false.
Proof.
  unfold dlt. rewrite !ltb_spec. unfold SFltb. intros H1 H2.
  pose proof (SFcompare_lt_nlt (Prim2SF a) (Prim2SF b) (Prim2SF c)) as H.
  destruct (SFcompare (Prim2SF a) (Prim2SF c)) as [[]|]; try discriminate.
  destruct (SFcompare (Prim2SF c) (Prim2SF b)) as [[]|]; try reflexivity.
  exfalso. apply H; [reflexivity | | reflexivity].
  destruct (SFcompare (Prim2SF a) (Prim2SF b)) as [[]|]; congruence.
Qed.

(** The loop variables of [max_pool] after the window offsets [seen]:
    either nothing was taken, or the index is that of a visited in-bounds
    position and [max] is the input there; no visited in-bounds input is
    greater than [max]. *)
Definition best_of (L : Layer.t) (xs : list float) (i j k : Z) (seen : Z -> Z -> Prop)
    (st : float * Z) : Prop :=
  ((snd st = -1 /\ fst st = (- DBL_MAX)%float) \/
   (exists n m, seen n m /\
      in_grid L (window_coord L i n) (window_coord L j m) = true /\
      snd st = grid_index L k (window_coord L i n) (window_coord L j m) /\
      rd xs (snd st) = Some (fst st))) /\
  (forall n m v, seen n m ->
     in_grid L (window_coord L i n) (window_coord L j m) = true ->
     rd xs (grid_index L k (window_coord L i n) (window_coord L j m)) = Some v ->
     dlt (fst st) v = false).

Lemma best_of_mono L xs i j k (seen seen' : Z -> Z -> Prop) st :
  (forall n m, seen n m <-> seen' n m) ->
  best_of L xs i j k seen st -> best_of L xs i j k seen' st.
Proof.
  intros Heq [H1 H2]. split.
  - destruct H1 as [H1 | (n & m & Hs & Hrest)]; [left; exact H1 | right].
    exists n, m. split; [apply Heq, Hs | exact Hrest].
  - intros n m v Hs. apply H2, Heq, Hs.
Qed.

(** One iteration of the inner loop of [max_pool]. *)
Definition pool_step (L : Layer.t) (xs : list float) (i j k n m : Z) (st : float * Z)
    : option (float * Z) :=
  if in_grid L (window_coord L i n) (window_coord L j m) then
    match rd xs (grid_index L k (window_coord L i n) (window_coord L j m)) with
    | Some v => if dlt (fst st) v
                then Some (v, grid_index L k (window_coord L i n) (window_coord L j m))
                else Some st
    | None => None
    end
  else Some st.

Lemma max_pool_steps L xs i j k :
  max_pool L (rd xs) i j k
  = match scan_int 0 (Layer.size L) (fun n st =>
            scan_int 0 (Layer.size L) (fun m st => pool_step L xs i j k n m st) st)
          ((- DBL_MAX)%float, -1) with
    | Some st => Some (snd st)
    | None => None
    end.
Proof. rewrite max_pool_unfold. unfold pool_step. reflexivity. Qed.

Lemma pool_step_best L xs i j k n m (seen : Z -> Z -> Prop) st :
  0 <= k < Layer.channels L ->
  Layer.height L * Layer.width L * Layer.channels L <= INT_MAX ->
  Layer.height L * Layer.width L * Layer.channels L <= Z.of_nat (length xs) ->
  best_of L xs i j k seen st ->
  exists st', pool_step L xs i j k n m st = Some st' /\
    best_of L xs i j k (fun n' m' => seen n' m' \/ (n' = n /\ m' = m)) st'.
Proof.
  intros Hk Hmax Hlen [HJ Hbest]. unfold pool_step.
  destruct (in_grid L (window_coord L i n) (window_coord L j m)) eqn:Hin.
  - destruct (grid_index_range L k _ _ Hk Hmax Hin) as [_ Hrange].
    assert (Hrd : exists v, rd xs (grid_index L k (window_coord L i n)
                                     (window_coord L j m)) = Some v).
    { unfold rd. destruct (0 <=? _) eqn:E0; [| lia]. apply lookup_lt_is_Some_2. lia. }
    destruct Hrd as [v Hv]. rewrite Hv.
    destruct (dlt (fst st) v) eqn:Hcmp.
    + eexists. split; [reflexivity|]. split; cbn [fst snd].
      * right. exists n, m. split; [right; split; reflexivity|].
        split; [exact Hin|]. split; [reflexivity | exact Hv].
      * intros n' m' v' [Hs | [-> ->]] Hin' Hv'.
        -- eapply dlt_lt_nlt; [exact Hcmp|]. exact (Hbest n' m' v' Hs Hin' Hv').
        -- rewrite Hv in Hv'. injection Hv' as <-. apply dlt_irrefl.
    + eexists. split; [reflexivity|]. split.
      * destruct HJ as [HJ | (n0 & m0 & Hs & Hrest)]; [left; exact HJ | right].
        exists n0, m0. split; [left; exact Hs | exact Hrest].
      * intros n' m' v' [Hs | [-> ->]] Hin' Hv'.
        -- exact (Hbest n' m' v' Hs Hin' Hv').
        -- rewrite Hv in Hv'. injection Hv' as <-. exact Hcmp.
  - eexists. split; [reflexivity|]. split.
    + destruct HJ as [HJ | (n0 & m0 & Hs & Hrest)]; [left; exact HJ | right].
      exists n0, m0. split; [left; exact Hs | exact Hrest].
    + intros n' m' v' [Hs | [-> ->]] Hin' Hv'.
      * exact (Hbest n' m' v' Hs Hin' Hv').
      * congruence.
Qed.

(** The window offsets visited before [(n, m)] in loop order. *)
Definition before (size n m n' m' : Z) : Prop :=
  0 <= n' /\ 0 <= m' < size /\ (n' < n \/ (n' = n /\ m' < m)).

(** X17. [max_pool] returns the index of a maximum of its window. For a channel
    [k] of the layer and an input of at least [height * width * channels]
    cells, the call reads inside the input only, and its result is either
    [-1], when no in-bounds position of the window holds a value greater
    than [-DBL_MAX], or the flat index of an in-bounds position of the
    window such that no in-bounds position of the window holds a greater
    value. *)
Theorem max_pool_maximum (L : Layer.t) (xs : list float) (i j k : Z) :
  0 <= k < Layer.channels L ->
  Layer.height L * Layer.width L * Layer.channels L <= INT_MAX ->
  Layer.height L * Layer.width L * Layer.channels L <= Z.of_nat (length xs) ->
  exists idx,
    max_pool L (rd xs) i j k = Some idx /\
    ((idx = -1 /\
      forall n m v, 0 <= n < Layer.size L -> 0 <= m < Layer.size L ->
        in_grid L (window_coord L i n) (window_coord L j m) = true ->
        rd xs (grid_index L k (window_coord L i n) (window_coord L j m)) = Some v ->
        dlt (- DBL_MAX)%float v = false) \/
     (exists n0 m0 best,
        0 <= n0 < Layer.size L /\ 0 <= m0 < Layer.size L /\
        in_grid L (window_coord L i n0) (window_coord L j m0) = true /\
        idx = grid_index L k (window_coord L i n0) (window_coord L j m0) /\
        0 <= idx < Layer.height L * Layer.width L * Layer.channels L /\
        rd xs idx = Some best /\
        forall n m v, 0 <= n < Layer.size L -> 0 <= m < Layer.size L ->
          in_grid L (window_coord L i n) (window_coord L j m) = true ->
          rd xs (grid_index L k (window_coord L i n) (window_coord L j m)) = Some v ->
          dlt best v = false)).
Proof.
  intros Hk Hmax Hlen. rewrite max_pool_steps.
  set (sz := Layer.size L).
  assert (Hrow : forall n st, 0 <= n ->
            best_of L xs i j k (before sz n 0) st ->
            exists st',
              scan_int 0 sz (fun m st => pool_step L xs i j k n m st) st = Some st' /\
              best_of L xs i j k (before sz n (Z.max sz 0)) st').
  { intros n st Hn Hst.
    destruct (scan_int_inv
                (fun m st => best_of L xs i j k (before sz n (Z.of_nat m)) st)
                sz (fun m st => pool_step L xs i j k n m st) st) as (st' & Hrun & Hst').
    - exact Hst.
    - intros m a Hm Ha.
      destruct (pool_step_best L xs i j k n (Z.of_nat m) _ a Hk Hmax Hlen Ha)
        as (a' & Hstep & Ha').
      exists a'. split; [exact Hstep|].
      eapply best_of_mono; [| exact Ha'].
      intros n' m'. unfold before. lia.
    - exists st'. split; [exact Hrun|].
      eapply best_of_mono; [| exact Hst']. intros n' m'. unfold before. lia. }
  destruct (scan_int_inv
              (fun n st => best_of L xs i j k (before sz (Z.of_nat n) 0) st) sz
              (fun n st => scan_int 0 sz (fun m st => pool_step L xs i j k n m st) st)
              ((- DBL_MAX)%float, -1)) as (st' & Hrun & Hst').
  - split; cbn [fst snd]; [left; split; reflexivity|].
    intros n m v Hs. unfold before in Hs. lia.
  - intros n st Hn Hst.
    destruct (Hrow (Z.of_nat n) st ltac:(lia) Hst) as (st' & Hrun & Hst').
    exists st'. split; [exact Hrun|].
    eapply best_of_mono; [| exact Hst']. intros n' m'. unfold before. lia.
  - rewrite Hrun. exists (snd st'). split; [reflexivity|].
    destruct Hst' as [HJ Hbest].
    assert (Hall : forall n m, 0 <= n < sz -> 0 <= m < sz ->
                     before sz (Z.of_nat (Z.to_nat sz)) 0 n m).
    { intros n m Hn Hm. unfold before. lia. }
    destruct HJ as [[Hidx Hmx] | (n0 & m0 & Hs & Hin & Hidx & Hv)].
    + left. split; [exact Hidx|].
      intros n m v Hn Hm Hin Hv. rewrite <- Hmx.
      exact (Hbest n m v (Hall n m Hn Hm) Hin Hv).
    + right. exists n0, m0, (fst st').
      unfold before in Hs.
      split; [lia|]. split; [lia|]. split; [exact Hin|]. split; [exact Hidx|].
      split.
      { rewrite Hidx. apply (grid_index_range L k _ _ Hk Hmax Hin). }
      split; [exact Hv|].
      intros n m v Hn Hm Hin' Hv'. exact (Hbest n m v (Hall n m Hn Hm) Hin' Hv').
Qed.

End PoolMax.
(** * Resizing a network *)

Section NetResize.

Context {E : Externals}.

(** The body of the loop of [neural_resize]; the loop variable is [prev]. *)
Definition resize_step (xcsf : XCSF) (iter : addr) (prev : ptr) : M ptr :=
  (match prev with
   | Some pv =>
       let* L := load_layer iter in
       let* P := load_layer pv in
       if negb (Layer.n_inputs L =? Layer.n_outputs P) then
         layer_resize xcsf iter pv
       else ret tt
   | None => ret tt
   end) ;;;
  ret (Some iter).

Lemma neural_resize_unfold xcsf net :
  neural_resize xcsf net
  = (let* _ := fold_nodes (Net.layers net) (resize_step xcsf) None in ret tt).
Proof. reflexivity. Qed.

(** The layers seen by the loop from [prev] on. *)
Definition from_prev (prev : ptr) (ls : list addr) : list addr :=
  match prev with Some pv => pv :: ls | None => ls end.

Lemma widths_consistent_step s a b ls La Lb :
  layer_at s a = Some La -> layer_at s b = Some Lb ->
  widths_consistent s (a :: b :: ls)
  = (Layer.n_inputs Lb =? Layer.n_outputs La) && widths_consistent s (b :: ls).
Proof.
  intros Ha Hb. change (widths_consistent s (a :: b :: ls))
    with (match layer_at s a, layer_at s b with
          | Some La, Some Lb =>
              (Layer.n_inputs Lb =? Layer.n_outputs La) && widths_consistent s (b :: ls)
          | _, _ => false
          end).
  rewrite Ha, Hb. reflexivity.
Qed.

(** Nothing is resized where the widths agree. *)
Lemma resize_loop_consistent xcsf s ls :
  forall prev,
    Forall (fun l => is_Some (layer_at s l)) (from_prev prev ls) ->
    widths_consistent s (from_prev prev ls) = true ->
    exists r, fold_nodes ls (resize_step xcsf) prev s = Ok r s.
Proof.
  induction ls as [|a ls IH]; intros prev Hlive Hw.
  - exists prev. reflexivity.
  - cbn [fold_nodes].
    assert (Hstep : resize_step xcsf a prev s = Ok (Some a) s).
    { unfold resize_step. destruct prev as [pv|]; [| reflexivity].
      cbn [from_prev] in Hlive, Hw.
      apply Forall_cons in Hlive as [[P HP] Hlive].
      apply Forall_cons in Hlive as [[L HL] _].
      rewrite (widths_consistent_step _ _ _ _ _ _ HP HL) in Hw.
      apply andb_true_iff in Hw as [Hw _].
      apply Z.eqb_eq in Hw.
      unfold bind at 1.
      rewrite (bind_Ok _ _ _ _ _ (load_layer_at _ _ _ (layer_at_inv _ _ _ HL))).
      rewrite (bind_Ok _ _ _ _ _ (load_layer_at _ _ _ (layer_at_inv _ _ _ HP))).
      rewrite Hw, Z.eqb_refl. reflexivity. }
    rewrite (bind_Ok _ _ _ _ _ Hstep).
    apply (IH (Some a)).
    + destruct prev; cbn [from_prev] in *; [apply Forall_cons in Hlive as [_ H]|]; exact Hlive || exact H.
    + destruct prev as [pv|]; cbn [from_prev] in *; [| exact Hw].
      apply Forall_cons in Hlive as [[P HP] Hlive].
      apply Forall_cons in Hlive as [[L HL] _].
      rewrite (widths_consistent_step _ _ _ _ _ _ HP HL) in Hw.
      apply andb_true_iff in Hw as [_ Hw]. exact Hw.
Qed.

(** X18. [neural_resize] leaves a network alone whose widths agree: on live
    layers of any type with every [n_inputs] equal to the [n_outputs] of the
    layer before, it returns with the state as it was and calls no layer's
    resize. *)
Theorem neural_resize_consistent (xcsf : XCSF) (net : Net.t) (s : state) :
  Forall (fun l => is_Some (layer_at s l)) (Net.layers net) ->
  widths_consistent s (Net.layers net) = true ->
  neural_resize xcsf net s = Ok tt s.
Proof.
  intros Hlive Hw. rewrite neural_resize_unfold.
  destruct (resize_loop_consistent xcsf s (Net.layers net) None Hlive Hw) as [r Hr].
  rewrite (bind_Ok _ _ _ _ _ Hr). reflexivity.
Qed.

(** A dropout layer the loop can resize: live, with at least one output. *)
Definition resizable (s : state) (l : addr) : Prop :=
  exists L, layer_at s l = Some L /\ Layer.layer_vptr L = VDropout /\
            dropout_live s L /\ 1 <= Layer.n_outputs L.

Lemma net_blocks_cons s a ls L :
  layer_at s a = Some L ->
  net_blocks s (a :: ls) = (Some a :: layer_owned L) ++ net_blocks s ls.
Proof. intros H. unfold net_blocks. cbn [flat_map]. rewrite H. reflexivity. Qed.

Lemma net_blocks_ext s s' ls :
  (forall l, l ∈ ls -> layer_at s' l = layer_at s l) ->
  net_blocks s' ls = net_blocks s ls.
Proof.
  intros H. apply flat_map_ext_elem. intros x Hx. rewrite (H x Hx). reflexivity.
Qed.

Lemma blocks_of_member s l ls L x :
  l ∈ ls -> layer_at s l = Some L -> x ∈ Some l :: layer_owned L -> x ∈ net_blocks s ls.
Proof.
  intros Hl HL Hx. unfold net_blocks. apply list_elem_of_In, in_flat_map.
  exists l. split; [apply list_elem_of_In, Hl|]. rewrite HL. apply list_elem_of_In, Hx.
Qed.

Lemma dropout_owned_live s l L x :
  layer_at s l = Some L -> Layer.layer_vptr L = VDropout -> dropout_live s L ->
  x ∈ Some l :: layer_owned L -> exists b, x = Some b /\ is_Some (heap s !! b).
Proof.
  intros HL Hv (os & ds & st & Ho & Hd & Hs & _) Hx.
  unfold layer_owned in Hx. rewrite Hv in Hx.
  destruct (doubles_at_inv _ _ _ Ho) as (ao & Eo & Hao).
  destruct (doubles_at_inv _ _ _ Hd) as (ad & Ed & Had).
  destruct (doubles_at_inv _ _ _ Hs) as (ast & Es & Hast).
  rewrite Eo, Ed, Es in Hx. apply layer_at_inv in HL.
  rewrite !elem_of_cons in Hx.
  destruct Hx as [->|[->|[->|[->|Hx]]]]; [eauto | eauto | eauto | eauto |].
  apply elem_of_nil in Hx. contradiction.
Qed.

Lemma resizable_blocks_live s ls b :
  Forall (resizable s) ls -> Some b ∈ net_blocks s ls -> is_Some (heap s !! b).
Proof.
  intros Hall Hb. unfold net_blocks in Hb.
  apply list_elem_of_In, in_flat_map in Hb as (l & Hl & Hb).
  apply list_elem_of_In in Hl, Hb.
  destruct (proj1 (Forall_forall _ _) Hall l Hl) as (L & HL & Hv & Hlive & _).
  rewrite HL in Hb.
  destruct (dropout_owned_live s l L (Some b) HL Hv Hlive Hb) as (b' & [= ->] & Hb').
  exact Hb'.
Qed.

Lemma resizable_frame s s' l L :
  layer_at s l = Some L -> resizable s l ->
  (forall a, Some a ∈ Some l :: layer_owned L -> heap s' !! a = heap s !! a) ->
  resizable s' l /\ layer_at s' l = Some L.
Proof.
  intros HL (L0 & HL0 & Hv & Hlive & Hpos) Hframe.
  rewrite HL in HL0. injection HL0 as <-.
  destruct (layer_ok_frame s s' l L HL Hframe) as [(L' & HL' & Hok) HL1].
  { exists L. split; [exact HL|]. left. split; [exact Hv | exact Hlive]. }
  split; [| exact HL1]. rewrite HL1 in HL'. injection HL' as <-.
  exists L. split; [exact HL1|]. split; [exact Hv|]. split; [| exact Hpos].
  destruct Hok as [[_ H]|[Hv' _]]; [exact H | congruence].
Qed.

(** One turn of the loop on a dropout layer [a] after the layer [pv]. *)
Lemma resize_step_run xcsf s a pv PV :
  layer_at s pv = Some PV -> 1 <= Layer.n_outputs PV ->
  resizable s a -> a ≠ pv ->
  exists s1 L L1,
    resize_step xcsf a (Some pv) s = Ok (Some a) s1 /\
    layer_at s a = Some L /\
    layer_at s1 a = Some L1 /\
    Layer.layer_vptr L1 = VDropout /\ dropout_live s1 L1 /\ 1 <= Layer.n_outputs L1 /\
    Layer.n_inputs L1 = Layer.n_outputs PV /\
    NoDup (Some a :: layer_owned L1) /\
    layer_at s1 pv = Some PV /\
    (forall b, is_Some (heap s !! b) -> Some b ∉ Some a :: layer_owned L ->
       heap s1 !! b = heap s !! b /\ Some b ∉ Some a :: layer_owned L1).
Proof.
  intros HPV Hn (L & HL & Hv & Hlive & Hpos) Hne.
  pose proof Hlive as (os & ds & st & Ho & Hd & Hs & Nod & Nos & Nds).
  destruct (doubles_at_inv _ _ _ Ho) as (ao & Eo & Hao).
  destruct (doubles_at_inv _ _ _ Hd) as (ad & Ed & Had).
  destruct (doubles_at_inv _ _ _ Hs) as (ast & Es & Hast).
  pose proof (layer_at_inv _ _ _ HL) as Ha.
  pose proof (layer_at_inv _ _ _ HPV) as Hp.
  assert (a ≠ ao) by (intros ->; rewrite Ha in Hao; discriminate).
  assert (a ≠ ad) by (intros ->; rewrite Ha in Had; discriminate).
  assert (a ≠ ast) by (intros ->; rewrite Ha in Hast; discriminate).
  assert (ao ≠ ad) by congruence. assert (ao ≠ ast) by congruence.
  assert (ad ≠ ast) by congruence.
  destruct (Layer.n_inputs L =? Layer.n_outputs PV) eqn:Ew.
  - exists s, L, L. apply Z.eqb_eq in Ew.
    split.
    { unfold resize_step. unfold bind at 1.
      rewrite (bind_Ok _ _ _ _ _ (load_layer_at _ _ _ Ha)).
      rewrite (bind_Ok _ _ _ _ _ (load_layer_at _ _ _ Hp)).
      rewrite Ew, Z.eqb_refl. reflexivity. }
    split; [exact HL|]. split; [exact HL|]. split; [exact Hv|].
    split; [exact Hlive|]. split; [exact Hpos|]. split; [exact Ew|].
    split.
    { unfold layer_owned. rewrite Hv, Eo, Ed, Es.
      repeat (apply NoDup_cons; split;
              [rewrite ?elem_of_cons, elem_of_nil; intros Hx;
               repeat destruct Hx as [Hx|Hx]; congruence|]).
      apply NoDup_nil_2. }
    split; [exact HPV|]. intros b _ Hb. split; [reflexivity | exact Hb].
  - assert (W : wp (resize_step xcsf a (Some pv)) s
                  (fun r s1 =>
                     r = Some a /\
                     exists a1 a2 a3,
                       a1 ≠ a2 /\ a1 ≠ a3 /\ a2 ≠ a3 /\
                       heap s1 !! a
                       = Some (BLayer (Layer.set_delta (Some a3)
                                  (Layer.set_output (Some a2)
                                     (Layer.set_state (Some a1)
                                        (Layer.set_max_outputs (Layer.n_outputs PV)
                                           (Layer.set_n_outputs (Layer.n_outputs PV)
                                              (Layer.set_n_inputs (Layer.n_outputs PV)
                                                 L))))))) /\
                       heap s1 !! a1
                       = Some (BDoubles (resized (Layer.n_outputs PV) st)) /\
                       heap s1 !! a2
                       = Some (BDoubles (resized (Layer.n_outputs PV) os)) /\
                       heap s1 !! a3
                       = Some (BDoubles (resized (Layer.n_outputs PV) ds)) /\
                       heap s1 !! pv = Some (BLayer PV) /\
                       (forall b, is_Some (heap s !! b) -> b ≠ a -> b ≠ ao -> b ≠ ad ->
                          b ≠ ast ->
                          heap s1 !! b = heap s !! b /\ b ≠ a1 /\ b ≠ a2 /\ b ≠ a3))).
    { unfold resize_step. apply wp_bind. apply wp_bind.
      eapply wp_load_layer; [exact Ha|]. apply wp_bind.
      eapply wp_load_layer; [exact Hp|]. rewrite Ew. cbn [negb].
      unfold layer_resize. apply wp_bind. eapply wp_load_layer; [exact Ha|].
      rewrite Hv. cbn [vtbl_of layer_impl_resize layer_dropout_vtbl].
      eapply (wp_neural_layer_dropout_resize xcsf a pv s L PV ao ad ast os ds st);
        try eassumption.
      intros s1 a1 a2 a3 N12 N13 N23 Hl' H1' H2' H3' Hp' Hfr _ _.
      apply wp_ret. split; [reflexivity|].
      exists a1, a2, a3. do 3 (split; [assumption|]).
      split; [exact Hl'|]. split; [exact H1'|]. split; [exact H2'|].
      split; [exact H3'|]. split; [exact Hp'|]. exact Hfr. }
    destruct (wp_inv _ _ _ W)
      as (r & s1 & Hrun & -> & a1 & a2 & a3 & N12 & N13 & N23 & Hl' & H1' & H2' & H3'
          & Hp' & Hfr).
    set (L1 := Layer.set_delta (Some a3) _) in Hl'.
    assert (a ≠ a1) by (intros ->; rewrite Hl' in H1'; discriminate).
    assert (a ≠ a2) by (intros ->; rewrite Hl' in H2'; discriminate).
    assert (a ≠ a3) by (intros ->; rewrite Hl' in H3'; discriminate).
    exists s1, L, L1. split; [exact Hrun|]. split; [exact HL|].
    split; [apply layer_at_lookup, Hl'|]. split; [exact Hv|].
    split.
    { exists (resized (Layer.n_outputs PV) os), (resized (Layer.n_outputs PV) ds),
        (resized (Layer.n_outputs PV) st).
      subst L1.
      cbn [Layer.output Layer.delta Layer.state Layer.set_delta Layer.set_output
           Layer.set_state].
      split; [apply doubles_at_lookup, H2'|]. split; [apply doubles_at_lookup, H3'|].
      split; [apply doubles_at_lookup, H1'|].
      split; [congruence|]. split; congruence. }
    split; [exact Hn|]. split; [reflexivity|].
    assert (Hown : layer_owned L1 = [Some a2; Some a3; Some a1]).
    { unfold layer_owned. subst L1. cbn. rewrite Hv. reflexivity. }
    split.
    { rewrite Hown.
      repeat (apply NoDup_cons; split;
              [rewrite ?elem_of_cons, elem_of_nil; intros Hx;
               repeat destruct Hx as [Hx|Hx]; congruence|]).
      apply NoDup_nil_2. }
    split; [apply layer_at_lookup, Hp'|].
    intros b Hb Hnot. unfold layer_owned in Hnot. rewrite Hv, Eo, Ed, Es in Hnot.
    rewrite !not_elem_of_cons in Hnot. destruct Hnot as (M0 & M1 & M2 & M3 & _).
    destruct (Hfr b Hb) as (Hsame & B1 & B2 & B3); try congruence.
    split; [exact Hsame|]. rewrite Hown, !not_elem_of_cons.
    split; [congruence|]. split; [congruence|]. split; [congruence|].
    split; [congruence | apply not_elem_of_nil].
Qed.

(** The loop from the layer [pv] on, over dropout layers. *)
Lemma resize_loop_dropout xcsf :
  forall ls pv PV s,
    layer_at s pv = Some PV -> 1 <= Layer.n_outputs PV ->
    Forall (resizable s) ls ->
    NoDup (net_blocks s ls) ->
    Some pv ∉ net_blocks s ls ->
    exists s' r,
      fold_nodes ls (resize_step xcsf) (Some pv) s = Ok r s' /\
      widths_consistent s' (pv :: ls) = true /\
      Forall (resizable s') ls /\
      NoDup (net_blocks s' ls) /\
      (forall b, is_Some (heap s !! b) -> Some b ∉ net_blocks s ls ->
         heap s' !! b = heap s !! b /\ Some b ∉ net_blocks s' ls).
Proof.
  induction ls as [|a ls IH]; intros pv PV s HPV Hn Hall Hnd Hpv.
  - exists s, (Some pv). split; [reflexivity|]. split; [reflexivity|].
    split; [constructor|]. split; [constructor|].
    intros b _ Hb. split; [reflexivity | exact Hb].
  - apply Forall_cons in Hall as [Ha Hall].
    pose proof Ha as (L0 & HL0 & _).
    rewrite (net_blocks_cons _ _ _ _ HL0) in Hnd, Hpv.
    assert (Hapv : a ≠ pv).
    { intros ->. apply Hpv. apply elem_of_app. left. apply list_elem_of_here. }
    destruct (resize_step_run xcsf s a pv PV HPV Hn Ha Hapv)
      as (s1 & L & L1 & Hrun & HL & HL1 & Hv1 & Hlive1 & Hpos1 & Hw1 & Hnd1 & HPV1 & Hfr).
    rewrite HL in HL0. injection HL0 as <-.
    apply NoDup_app in Hnd as (Hseg & Hdis & Hnd).
    (* the layers after [a] are as they were *)
    assert (Hkeep : forall l, l ∈ ls -> resizable s1 l /\ layer_at s1 l = layer_at s l).
    { intros l Hl.
      pose proof (proj1 (Forall_forall _ _) Hall l Hl) as Hres.
      pose proof Hres as (Ll & HLl & Hvl & Hlivel & _).
      destruct (resizable_frame s s1 l Ll HLl Hres) as [H1 H2].
      - intros b Hb.
        destruct (dropout_owned_live s l Ll (Some b) HLl Hvl Hlivel Hb)
          as (b' & [= <-] & Hbl).
        apply (Hfr b Hbl). intros Hin.
        apply (Hdis _ Hin). eapply blocks_of_member; eauto.
      - split; [exact H1 | congruence]. }
    assert (Hall1 : Forall (resizable s1) ls).
    { apply Forall_forall. intros l Hl. apply (Hkeep l Hl). }
    assert (Hblocks : net_blocks s1 ls = net_blocks s ls).
    { apply net_blocks_ext. intros l Hl. apply (Hkeep l Hl). }
    assert (Hseg1 : forall x, x ∈ Some a :: layer_owned L1 ->
              exists b, x = Some b /\ is_Some (heap s1 !! b) /\ Some b ∉ net_blocks s1 ls).
    { intros x Hx.
      destruct (dropout_owned_live s1 a L1 x HL1 Hv1 Hlive1 Hx) as (b & -> & Hb).
      exists b. split; [reflexivity|]. split; [exact Hb|].
      rewrite Hblocks. intros Hin.
      pose proof (resizable_blocks_live s ls b Hall Hin) as Hbs.
      destruct (Hfr b Hbs) as [_ Hout]; [| exact (Hout Hx)].
      intros Hin'. exact (Hdis _ Hin' Hin). }
    destruct (IH a L1 s1 HL1 Hpos1 Hall1) as (s' & r & Hfold & Hw & Hall' & Hnd' & Hfr').
    { rewrite Hblocks. exact Hnd. }
    { destruct (Hseg1 (Some a)) as (b & [= <-] & _ & Hb);
        [apply list_elem_of_here | exact Hb]. }
    assert (Ha' : layer_at s' a = Some L1).
    { destruct (Hseg1 (Some a)) as (b & [= <-] & Hlv & Hb); [apply list_elem_of_here|].
      unfold layer_at. rewrite (proj1 (Hfr' a Hlv Hb)). exact HL1. }
    assert (Hpv' : layer_at s' pv = Some PV).
    { assert (Hlv : is_Some (heap s1 !! pv))
        by (rewrite (layer_at_inv _ _ _ HPV1); eauto).
      assert (Hout : Some pv ∉ net_blocks s1 ls).
      { rewrite Hblocks. intros Hin. apply Hpv. apply elem_of_app. right. exact Hin. }
      unfold layer_at. rewrite (proj1 (Hfr' pv Hlv Hout)). exact HPV1. }
    exists s', r. split.
    { cbn [fold_nodes]. rewrite (bind_Ok _ _ _ _ _ Hrun). exact Hfold. }
    split.
    { rewrite (widths_consistent_step _ _ _ _ _ _ Hpv' Ha'), Hw, Hw1, Z.eqb_refl.
      reflexivity. }
    split.
    { apply Forall_cons. split; [| exact Hall'].
      apply (resizable_frame s1 s' a L1 HL1).
      - exists L1. split; [exact HL1|]. split; [exact Hv1|]. split; assumption.
      - intros b Hb. destruct (Hseg1 _ Hb) as (b' & [= <-] & Hlv & Hout).
        apply (Hfr' b Hlv Hout). }
    split.
    { rewrite (net_blocks_cons _ _ _ _ Ha'). apply NoDup_app.
      split; [exact Hnd1|]. split; [| exact Hnd'].
      intros x Hx. destruct (Hseg1 _ Hx) as (b & -> & Hlv & Hout).
      apply (Hfr' b Hlv Hout). }
    intros b Hb Hout. rewrite (net_blocks_cons _ _ _ _ HL), not_elem_of_app in Hout. destruct Hout as [Ho1 Ho2].
    destruct (Hfr b Hb Ho1) as [Hsame Ho1'].
    destruct (Hfr' b) as [Hsame' Ho2'].
    { rewrite Hsame. exact Hb. }
    { rewrite Hblocks. exact Ho2. }
    split; [congruence|].
    rewrite (net_blocks_cons _ _ _ _ Ha'), not_elem_of_app. split; assumption.
Qed.

(** X19. [neural_resize] on a chain of dropout layers. For a live first layer of
    any type and live dropout layers after it, all with at least one output
    and pairwise distinct structs and buffers, the call returns with every
    layer's [n_inputs] equal to the [n_outputs] of the layer before; the
    first layer is as it was, the dropout layers are still live with
    distinct buffers, no block outside the dropout layers has changed, and
    a second call changes nothing. *)
Theorem neural_resize_dropout_chain (xcsf : XCSF) (net : Net.t) (s : state)
    (tl : addr) (rest : list addr) (TL : Layer.t) :
  Net.layers net = tl :: rest ->
  layer_at s tl = Some TL ->
  1 <= Layer.n_outputs TL ->
  Forall (resizable s) rest ->
  NoDup (net_blocks s rest) ->
  Some tl ∉ net_blocks s rest ->
  exists s',
    neural_resize xcsf net s = Ok tt s' /\
    widths_consistent s' (Net.layers net) = true /\
    layer_at s' tl = Some TL /\
    Forall (resizable s') rest /\
    NoDup (net_blocks s' rest) /\
    (forall b, is_Some (heap s !! b) -> Some b ∉ net_blocks s rest ->
       heap s' !! b = heap s !! b) /\
    neural_resize xcsf net s' = Ok tt s'.
Proof.
  intros Hls HTL Hn Hall Hnd Htl.
  destruct (resize_loop_dropout xcsf rest tl TL s HTL Hn Hall Hnd Htl)
    as (s' & r & Hfold & Hw & Hall' & Hnd' & Hfr).
  assert (Htl' : layer_at s' tl = Some TL).
  { assert (Hlv : is_Some (heap s !! tl))
      by (rewrite (layer_at_inv _ _ _ HTL); eauto).
    unfold layer_at. rewrite (proj1 (Hfr tl Hlv Htl)). exact HTL. }
  exists s'. split.
  { rewrite neural_resize_unfold, Hls. cbn [fold_nodes].
    unfold bind at 1. unfold bind at 1. unfold resize_step at 1. cbn [bind ret].
    rewrite Hfold. reflexivity. }
  split; [rewrite Hls; exact Hw|]. split; [exact Htl'|].
  split; [exact Hall'|]. split; [exact Hnd'|].
  split; [intros b Hb Hout; apply (Hfr b Hb Hout)|].
  rewrite neural_resize_unfold.
  destruct (resize_loop_consistent xcsf s' (Net.layers net) None) as [r' Hr'].
  - rewrite Hls. cbn [from_prev]. apply Forall_cons. split; [rewrite Htl'; eauto|].
    eapply Forall_impl; [exact Hall'|]. intros l (L & HL & _). rewrite HL. eauto.
  - rewrite Hls. exact Hw.
  - rewrite (bind_Ok _ _ _ _ _ Hr'). reflexivity.
Qed.

End NetResize.
(** * Forward propagation in prediction mode *)

Section Propagate.

Context {E : Externals}.

(** A dropout layer of [n] inputs whose output array holds them. *)
Definition feeds (s : state) (n : Z) (l : addr) : Prop :=
  exists L os, layer_at s l = Some L /\ Layer.layer_vptr L = VDropout /\
               Layer.n_inputs L = n /\
               doubles_at s (Layer.output L) = Some os /\ n <= Z.of_nat (length os).

(** The output arrays of the layers. *)
Definition outputs (s : state) (ls : list addr) : list ptr :=
  flat_map (fun l => match layer_at s l with
                     | Some L => [Layer.output L]
                     | None => []
                     end) ls.

Lemma outputs_cons s a ls L :
  layer_at s a = Some L -> outputs s (a :: ls) = Layer.output L :: outputs s ls.
Proof. intros H. unfold outputs. cbn [flat_map]. rewrite H. reflexivity. Qed.

Lemma outputs_member s l ls L :
  l ∈ ls -> layer_at s l = Some L -> Layer.output L ∈ outputs s ls.
Proof.
  intros Hl HL. unfold outputs. apply list_elem_of_In, in_flat_map.
  exists l. split; [apply list_elem_of_In, Hl|]. rewrite HL. left. reflexivity.
Qed.

Lemma struct_not_output s n ls a :
  Forall (feeds s n) ls -> is_Some (layer_at s a) -> Some a ∉ outputs s ls.
Proof.
  intros Hall [La Ha] Hin. unfold outputs in Hin.
  apply list_elem_of_In, in_flat_map in Hin as (l & Hl & Hin).
  apply list_elem_of_In in Hl.
  destruct (proj1 (Forall_forall _ _) Hall l Hl) as (L & os & HL & _ & _ & Ho & _).
  rewrite HL in Hin. destruct Hin as [Hin|[]].
  rewrite Hin in Ho. apply doubles_at_Some in Ho. apply layer_at_inv in Ha.
  rewrite Ha in Ho. discriminate Ho.
Qed.

(** The loop of [neural_propagate] in prediction mode, from the array [cur]. *)
Lemma propagate_loop_predict xcsf n :
  explore xcsf = false -> 0 <= n ->
  forall ls cur cs s,
    heap s !! cur = Some (BDoubles cs) -> n <= Z.of_nat (length cs) ->
    Forall (feeds s n) ls ->
    NoDup (Some cur :: outputs s ls) ->
    exists s' r,
      fold_nodes ls (fun iter input =>
                       layer_forward xcsf iter input ;;; layer_output xcsf iter)
                 (Some cur) s = Ok r s' /\
      rng s' = rng s /\
      (forall b, Some b ∉ outputs s ls -> heap s' !! b = heap s !! b) /\
      (forall l L, l ∈ ls -> layer_at s l = Some L ->
         layer_at s' l = Some L /\
         exists os', doubles_at s' (Layer.output L) = Some os' /\
                     take (Z.to_nat n) os' = take (Z.to_nat n) cs).
Proof.
  intros Hex Hn0.
  induction ls as [|a ls IH]; intros cur cs s Hcur Hlen Hall Hnd.
  - exists s, (Some cur). split; [reflexivity|]. split; [reflexivity|].
    split; [reflexivity|]. intros l L Hl. apply elem_of_nil in Hl. contradiction.
  - apply Forall_cons in Hall as [Ha Hall].
    destruct Ha as (L & os & HL & Hv & Hni & Ho & Hos).
    rewrite (outputs_cons _ _ _ _ HL) in Hnd.
    destruct (doubles_at_inv _ _ _ Ho) as (ao & Eo & Hao).
    pose proof (layer_at_inv _ _ _ HL) as Hal.
    apply NoDup_cons in Hnd as [Hcur_out Hnd].
    apply NoDup_cons in Hnd as [Hao_out Hnd].
    rewrite not_elem_of_cons in Hcur_out. destruct Hcur_out as [Hne Hcur_out].
    assert (Hca : ao ≠ cur) by congruence.
    assert (Hla : a ≠ ao) by (intros ->; rewrite Hal in Hao; discriminate).
    set (cs' := take (Z.to_nat n) cs ++ drop (Z.to_nat n) os).
    set (s0 := mkState (heap s) (rng s) (trace s ++ [EvForward a (Some cur)])).
    set (s1 := set_heap (<[ao := BDoubles cs']> (heap s0)) s0).
    assert (Hstep : (layer_forward xcsf a (Some cur) ;;; layer_output xcsf a) s
                    = Ok (Some ao) s1).
    { assert (Hf : layer_forward xcsf a (Some cur) s = Ok tt s1).
      { unfold layer_forward.
        rewrite (bind_Ok _ _ _ _ _ (eq_refl : emit (EvForward a (Some cur)) s = Ok tt s0)).
        rewrite (bind_Ok _ _ _ _ _ (load_layer_at s0 a L Hal)).
        rewrite Hv. cbn [vtbl_of layer_impl_forward layer_dropout_vtbl].
        unfold neural_layer_dropout_forward.
        rewrite (bind_Ok _ _ _ _ _ (load_layer_at s0 a L Hal)).
        rewrite Hex. cbn [negb]. rewrite Eo, Hni.
        apply (memcpy_doubles_at s0 ao cur os cs n);
          [exact Hao | exact Hcur | exact Hca | lia | exact Hlen]. }
      rewrite (bind_Ok _ _ _ _ _ Hf).
      assert (Hal1 : heap s1 !! a = Some (BLayer L)).
      { unfold s1. cbn [heap set_heap]. rewrite lookup_insert_ne by congruence. exact Hal. }
      unfold layer_output. rewrite (bind_Ok _ _ _ _ _ (load_layer_at _ a L Hal1)).
      rewrite Hv. cbn [vtbl_of layer_impl_output layer_dropout_vtbl].
      unfold neural_layer_dropout_output.
      rewrite (bind_Ok _ _ _ _ _ (load_layer_at _ a L Hal1)). rewrite Eo. reflexivity. }
    assert (Hheap1 : forall b, b ≠ ao -> heap s1 !! b = heap s !! b).
    { intros b Hb. unfold s1. cbn [heap set_heap]. apply lookup_insert_ne. congruence. }
    assert (Hao1 : heap s1 !! ao = Some (BDoubles cs')).
    { unfold s1. cbn [heap set_heap]. apply lookup_insert_eq. }
    assert (Hlayers1 : forall l, l ∈ ls -> layer_at s1 l = layer_at s l).
    { intros l Hl. unfold layer_at. rewrite Hheap1; [reflexivity|].
      intros ->. destruct (proj1 (Forall_forall _ _) Hall ao Hl) as (Lx & ? & HX & _).
      apply layer_at_inv in HX. rewrite HX in Hao. discriminate Hao. }
    assert (Houts1 : outputs s1 ls = outputs s ls).
    { apply flat_map_ext_elem. intros l Hl. rewrite (Hlayers1 l Hl). reflexivity. }
    assert (Hall1 : Forall (feeds s1 n) ls).
    { apply Forall_forall. intros l Hl.
      destruct (proj1 (Forall_forall _ _) Hall l Hl) as (Ll & ol & HLl & Hvl & Hnl & Hol & Hll).
      exists Ll, ol. rewrite (Hlayers1 l Hl).
      split; [exact HLl|]. split; [exact Hvl|]. split; [exact Hnl|]. split; [| exact Hll].
      destruct (doubles_at_inv _ _ _ Hol) as (al & El & Hal').
      rewrite El. apply doubles_at_lookup. rewrite Hheap1; [exact Hal'|].
      intros ->. apply Hao_out. rewrite Eo, <- El. eapply outputs_member; eauto. }
    assert (Hlen' : n <= Z.of_nat (length cs')).
    { unfold cs'. rewrite length_app, length_take, length_drop. lia. }
    destruct (IH ao cs' s1 Hao1 Hlen' Hall1) as (s' & r & Hfold & Hrng & Hfr & Hout).
    { apply NoDup_cons. split; [| rewrite Houts1; exact Hnd].
      rewrite Houts1, <- Eo. exact Hao_out. }
    assert (Htake : take (Z.to_nat n) cs' = take (Z.to_nat n) cs).
    { unfold cs'. rewrite take_app_le by (rewrite length_take; lia).
      rewrite take_take. f_equal. lia. }
    exists s', r. split.
    { cbn [fold_nodes]. rewrite (bind_Ok _ _ _ _ _ Hstep). exact Hfold. }
    split; [rewrite Hrng; reflexivity|].
    split.
    { intros b Hb. rewrite (outputs_cons _ _ _ _ HL), not_elem_of_cons in Hb.
      destruct Hb as [Hb1 Hb2]. rewrite Hfr by (rewrite Houts1; exact Hb2).
      apply Hheap1. congruence. }
    intros l Ll Hl HLl. apply elem_of_cons in Hl as [->|Hl].
    + rewrite HL in HLl. injection HLl as <-.
      assert (Ha' : heap s' !! a = Some (BLayer L)).
      { rewrite Hfr; [rewrite Hheap1 by congruence; exact Hal|].
        apply (struct_not_output s1 n ls a Hall1).
        unfold layer_at. rewrite Hheap1 by congruence. rewrite Hal. eauto. }
      split; [apply layer_at_lookup, Ha'|].
      exists cs'. split; [| exact Htake].
      rewrite Eo. apply doubles_at_lookup. rewrite Hfr; [exact Hao1|].
      rewrite Houts1, <- Eo. exact Hao_out.
    + destruct (Hout l Ll Hl) as (H1 & os' & H2 & H3).
      { rewrite (Hlayers1 l Hl). exact HLl. }
      split; [exact H1|]. exists os'. split; [exact H2|]. rewrite H3. exact Htake.
Qed.

(** X20. In prediction mode a chain of dropout layers hands its input on
    unchanged. With [explore] off, [n]-input live dropout layers whose
    output arrays are pairwise distinct and distinct from the input array,
    [neural_propagate] returns without drawing a random number; it writes
    only the layers' output arrays, each of which then holds the first [n]
    cells of the input; and [neural_output] then returns cell [i] of the
    input for every [i] below [n] and [net.n_outputs]. *)
Theorem neural_propagate_dropout_predict (xcsf : XCSF) (net : Net.t) (ai : addr)
    (xs : list double) (n : Z) (s : state) :
  explore xcsf = false ->
  doubles_at s (Some ai) = Some xs ->
  0 <= n <= Z.of_nat (length xs) ->
  Forall (feeds s n) (Net.layers net) ->
  NoDup (Some ai :: outputs s (Net.layers net)) ->
  exists s',
    neural_propagate xcsf net (Some ai) s = Ok tt s' /\
    rng s' = rng s /\
    (forall b, Some b ∉ outputs s (Net.layers net) -> heap s' !! b = heap s !! b) /\
    (forall l L i, l ∈ Net.layers net -> layer_at s l = Some L -> 0 <= i < n ->
       layer_at s' l = Some L /\
       peek_double s' (Layer.output L) i = xs !! Z.to_nat i) /\
    (forall i v, 0 <= i < n -> i < Net.n_outputs net -> Net.layers net ≠ [] ->
       xs !! Z.to_nat i = Some v ->
       neural_output xcsf net i s' = Ok v s').
Proof.
  intros Hex Hin Hn Hall Hnd. apply doubles_at_Some in Hin.
  destruct (propagate_loop_predict xcsf n Hex (proj1 Hn) (Net.layers net) ai xs s
              Hin (proj2 Hn) Hall Hnd) as (s' & r & Hfold & Hrng & Hfr & Hout).
  assert (Hcell : forall l L i, l ∈ Net.layers net -> layer_at s l = Some L ->
             0 <= i < n ->
             layer_at s' l = Some L /\
             peek_double s' (Layer.output L) i = xs !! Z.to_nat i).
  { intros l L i Hl HL Hi. destruct (Hout l L Hl HL) as (H1 & os' & H2 & H3).
    split; [exact H1|]. rewrite (peek_double_at _ _ _ _ H2) by lia.
    rewrite <- (lookup_take_lt os' (Z.to_nat n)) by lia.
    rewrite H3. apply lookup_take_lt. lia. }
  exists s'. split.
  { unfold neural_propagate. rewrite (bind_Ok _ _ _ _ _ Hfold). reflexivity. }
  split; [exact Hrng|]. split; [exact Hfr|]. split; [exact Hcell|].
  intros i v Hi Hio Hne Hv. unfold neural_output.
  destruct (i <? Net.n_outputs net) eqn:Ei; [| lia].
  destruct (last (Net.layers net)) as [hd|] eqn:Hlast.
  2:{ apply last_None in Hlast. contradiction. }
  assert (Hhd : hd ∈ Net.layers net).
  { apply last_Some in Hlast as [l' ->]. apply elem_of_app. right. apply list_elem_of_here. }
  destruct (proj1 (Forall_forall _ _) Hall hd Hhd) as (HL & os & HHL & Hv' & _).
  destruct (Hcell hd HL i Hhd HHL Hi) as [Hst Hpeek].
  apply layer_at_inv in Hst.
  assert (Hlo : layer_output xcsf hd s' = Ok (Layer.output HL) s').
  { unfold layer_output. rewrite (bind_Ok _ _ _ _ _ (load_layer_at _ _ _ Hst)).
    rewrite Hv'. cbn [vtbl_of layer_impl_output layer_dropout_vtbl].
    unfold neural_layer_dropout_output.
    rewrite (bind_Ok _ _ _ _ _ (load_layer_at _ _ _ Hst)). reflexivity. }
  rewrite (bind_Ok _ _ _ _ _ Hlo). apply read_double_peek. rewrite Hpeek. exact Hv.
Qed.

End Propagate.
(** * Resizing a max-pooling layer *)

Section PoolResize.

Context {E : Externals}.









End PoolResize.
(** * Inserting and removing a layer *)

Section InsertRemove.

Context {E : Externals}.

Lemma delete_inserted {A} (ls : list A) q (x : A) :
  (q <= length ls)%nat -> delete q (take q ls ++ x :: drop q ls) = ls.
Proof.
  intros Hq. rewrite <- (take_drop q ls) at 3.
  assert (Hlen : length (take q ls) = q) by (rewrite length_take; lia).
  revert Hlen. generalize (take q ls), (drop q ls). clear.
  intros pre post <-. induction pre as [|a pre IH]; [reflexivity|].
  change (a :: delete (length pre) (pre ++ x :: post) = a :: pre ++ post).
  f_equal. exact IH.
Qed.

Lemma lookup_inserted {A} (ls : list A) q (x : A) :
  (q <= length ls)%nat -> (take q ls ++ x :: drop q ls) !! q = Some x.
Proof.
  intros Hq. rewrite lookup_app_r by (rewrite length_take; lia).
  rewrite length_take. replace (q - q `min` length ls)%nat with 0%nat by lia. reflexivity.
Qed.

(** X22. [neural_layer_insert] followed by [neural_layer_remove] at the same
    position gives the network back. For a non-empty network of live layers
    whose [n_layers], [n_outputs] and [output] agree with its layers and a
    position [0 < p <= length], the insertion returns without touching the
    memory and the removal then returns the original network, field by
    field; it frees the struct of the inserted layer and leaves every block
    that layer does not own as it was. *)
Theorem neural_layer_insert_remove (xcsf : XCSF) (net : Net.t) (l : addr) (p : Z)
    (s : state) (L : Layer.t) :
  layer_at s l = Some L ->
  layer_ok s l ->
  Forall (layer_ok s) (Net.layers net) ->
  Net.layers net ≠ [] ->
  0 < p <= Z.of_nat (length (Net.layers net)) ->
  Z.of_nat (length (Net.layers net)) < INT_MAX ->
  n_layers_ok net = true ->
  head_outputs_ok s net = true ->
  exists net1 s',
    neural_layer_insert xcsf net l p s = Ok net1 s /\
    neural_layer_remove xcsf net1 p s = Ok net s' /\
    heap s' !! l = None /\
    (forall a, a ≠ l -> Some a ∉ layer_owned L -> heap s' !! a = heap s !! a).
Proof.
  intros HL Hokl Hok Hne Hp Hmax Hnl Hhd.
  pose proof (layer_at_inv _ _ _ HL) as Hl.
  destruct net as [ls nl ni no out]. cbn [Net.layers] in *.
  unfold n_layers_ok in Hnl. cbn [Net.layers Net.n_layers] in Hnl. apply Z.eqb_eq in Hnl.
  assert (Hwrap : isub (iadd nl 1) 1 = nl).
  { unfold isub, iadd. rewrite (int_wrap_id (nl + 1)), int_wrap_id;
      unfold in_int, INT_MIN, INT_MAX in *; lia. }
  set (ls1 := take (Z.to_nat p) ls ++ l :: drop (Z.to_nat p) ls).
  assert (Hins : exists no1 out1,
            neural_layer_insert xcsf (Net.mk ls nl ni no out) l p s
            = Ok (Net.mk ls1 (iadd nl 1) ni no1 out1) s /\
            (Z.to_nat p < length ls -> no1 = no /\ out1 = out)%nat).
  { unfold neural_layer_insert. cbn [Net.layers Net.n_layers Net.n_inputs Net.n_outputs
                                      Net.output].
    unfold ls1. clear ls1. destruct ls as [|a0 ls0]; [contradiction|].
    destruct (Z_lt_le_dec p (Z.of_nat (length (a0 :: ls0)))) as [Hin | Hout].
    - rewrite walk_in_range by lia.
      destruct (Z.to_nat p) as [|q] eqn:Eq; [lia|].
      exists no, out. split; [reflexivity|]. intros _. split; reflexivity.
    - rewrite walk_beyond by exact Hout.
      rewrite (bind_Ok _ _ _ _ _ (load_layer_at _ _ _ Hl)).
      exists (Layer.n_outputs L), (Layer.output L). split; [| lia].
      rewrite take_ge, drop_ge by lia. reflexivity. }
  destruct Hins as (no1 & out1 & Hins & Hmid).
  assert (Hlen1 : length ls1 = S (length ls)).
  { unfold ls1. rewrite length_app, length_take. cbn [length]. rewrite length_drop. lia. }
  assert (Hdel : delete (Z.to_nat p) ls1 = ls) by (apply delete_inserted; lia).
  assert (W : wp (neural_layer_remove xcsf (Net.mk ls1 (iadd nl 1) ni no1 out1) p) s
                (fun net' s' =>
                   net' = Net.mk ls nl ni no out /\
                   heap s' !! l = None /\
                   (forall a, a ≠ l -> Some a ∉ layer_owned L ->
                      heap s' !! a = heap s !! a))).
  { apply (wp_neural_layer_remove xcsf _ p s l L); cbn [Net.layers].
    - rewrite Hlen1. destruct ls; [contradiction | cbn [length]; lia].
    - rewrite Hlen1. lia.
    - apply lookup_inserted. lia.
    - exact HL.
    - unfold ls1. apply Forall_app. split; [apply Forall_take, Hok|].
      apply Forall_cons. split; [exact Hokl | apply Forall_drop, Hok].
    - intros net' s' Hls Hn Hni Hhead Hframe Hgone.
      cbn [Net.layers Net.n_layers Net.n_inputs Net.n_outputs Net.output] in *.
      split; [| split; [exact Hgone | exact Hframe]].
      destruct net' as [ls' nl' ni' no' out'].
      cbn [Net.layers Net.n_layers Net.n_inputs Net.n_outputs Net.output] in *.
      rewrite Hdel in Hls, Hhead. rewrite Hwrap in Hn. subst ls' nl' ni'.
      rewrite Hlen1 in Hhead.
      destruct (decide (S (Z.to_nat p) = S (length ls))) as [Hh|Hh].
      + destruct Hhead as (hd & HLh & Ehd & HHL & Hno & Hout).
        unfold head_outputs_ok in Hhd. cbn [Net.layers Net.n_outputs Net.output] in Hhd.
        rewrite Ehd, HHL in Hhd. apply andb_true_iff in Hhd as [H1 H2].
        apply Z.eqb_eq in H1. apply bool_decide_eq_true_1 in H2.
        rewrite Hno, Hout, <- H1, <- H2. reflexivity.
      + destruct Hhead as [-> ->].
        destruct Hmid as [-> ->]; [lia | reflexivity]. }
  destruct (wp_inv _ _ _ W) as (net' & s' & Hrun & -> & Hgone & Hframe).
  exists (Net.mk ls1 (iadd nl 1) ni no1 out1), s'.
  split; [exact Hins|]. split; [exact Hrun|]. split; [exact Hgone | exact Hframe].
Qed.

End InsertRemove.
(** * A pooling window without a maximum *)

Section PoolMiss.

Context {E : Externals}.

Lemma scan_loop_none {St} n (step : Z -> St -> option St) :
  forall i0 k, (k < n)%nat -> (forall a, step (i0 + Z.of_nat k) a = None) ->
               forall st, scan_loop n i0 step st = None.
Proof.
  induction n as [|n IH]; intros i0 k Hk Hnone st; [lia|].
  cbn [scan_loop]. destruct k as [|k].
  - rewrite Z.add_0_r in Hnone. rewrite Hnone. reflexivity.
  - destruct (step i0 st) as [st'|]; [| reflexivity].
    apply (IH (i0 + 1) k); [lia|]. intros a.
    replace (i0 + 1 + Z.of_nat k) with (i0 + Z.of_nat (S k)) by lia. apply Hnone.
Qed.

Lemma scan_int_none {St} hi (step : Z -> St -> option St) k :
  0 <= k < hi -> (forall a, step k a = None) -> forall st, scan_int 0 hi step st = None.
Proof.
  intros Hk Hnone st. unfold scan_int.
  apply (scan_loop_none _ step 0 (Z.to_nat k)); [lia|].
  intros a. replace (0 + Z.of_nat (Z.to_nat k)) with k by lia. apply Hnone.
Qed.

(** A window position that is out of bounds, or whose value is not above
    [-DBL_MAX], leaves the loop variables of [max_pool] as they were at the
    start. *)
Lemma pool_step_no_hit L xs i j k n m :
  0 <= k < Layer.channels L ->
  Layer.height L * Layer.width L * Layer.channels L <= INT_MAX ->
  Layer.height L * Layer.width L * Layer.channels L <= Z.of_nat (length xs) ->
  (forall v, in_grid L (window_coord L i n) (window_coord L j m) = true ->
     rd xs (grid_index L k (window_coord L i n) (window_coord L j m)) = Some v ->
     dlt (- DBL_MAX)%float v = false) ->
  pool_step L xs i j k n m ((- DBL_MAX)%float, -1) = Some ((- DBL_MAX)%float, -1).
Proof.
  intros Hk Hmax Hlen Hlow. unfold pool_step.
  destruct (in_grid L (window_coord L i n) (window_coord L j m)) eqn:Hin; [| reflexivity].
  destruct (grid_index_range L k _ _ Hk Hmax Hin) as [_ Hrange].
  assert (Hrd : exists v, rd xs (grid_index L k (window_coord L i n)
                                   (window_coord L j m)) = Some v).
  { unfold rd. destruct (0 <=? _) eqn:E0; [| lia]. apply lookup_lt_is_Some_2. lia. }
  destruct Hrd as [v Hv]. rewrite Hv.
  change (fst ((- DBL_MAX)%float, -1)) with (- DBL_MAX)%float.
  rewrite (Hlow v eq_refl Hv). reflexivity.
Qed.

(** With no in-bounds value above [-DBL_MAX] in the window, [max_pool]
    keeps its initial index. *)
Lemma max_pool_no_hit L xs i j k :
  0 <= k < Layer.channels L ->
  Layer.height L * Layer.width L * Layer.channels L <= INT_MAX ->
  Layer.height L * Layer.width L * Layer.channels L <= Z.of_nat (length xs) ->
  (forall n m v, 0 <= n < Layer.size L -> 0 <= m < Layer.size L ->
     in_grid L (window_coord L i n) (window_coord L j m) = true ->
     rd xs (grid_index L k (window_coord L i n) (window_coord L j m)) = Some v ->
     dlt (- DBL_MAX)%float v = false) ->
  max_pool L (rd xs) i j k = Some (-1).
Proof.
  intros Hk Hmax Hlen Hlow. rewrite max_pool_steps.
  set (init := ((- DBL_MAX)%float, -1)).
  set (sz := Layer.size L) in *.
  assert (Hrow : forall n, 0 <= n < sz ->
            scan_int 0 sz (fun m st => pool_step L xs i j k n m st) init = Some init).
  { intros n Hn.
    destruct (scan_int_inv (fun _ st => st = init) sz
                (fun m st => pool_step L xs i j k n m st) init) as (st' & Hrun & Hst').
    - reflexivity.
    - intros m a Hm Ha. exists init. split; [| reflexivity]. rewrite Ha.
      apply (pool_step_no_hit L xs i j k n (Z.of_nat m) Hk Hmax Hlen).
      intros v Hin Hv. apply (Hlow n (Z.of_nat m) v); [exact Hn | lia | exact Hin | exact Hv].
    - rewrite Hrun, Hst'. reflexivity. }
  destruct (scan_int_inv (fun _ st => st = init) sz
              (fun n st => scan_int 0 sz (fun m st => pool_step L xs i j k n m st) st)
              init) as (st' & Hrun & Hst').
  - reflexivity.
  - intros n a Hn Ha. exists init. split; [| reflexivity]. rewrite Ha.
    apply Hrow. lia.
  - rewrite Hrun, Hst'. reflexivity.
Qed.

(** X23. The forward pass of a max-pooling layer needs a maximum in every
    window. If one output cell [(k, i, j)] of a live layer has a window with
    no in-bounds position holding a value greater than [-DBL_MAX] (a
    window that lies in the padding, or over cells that are all [-inf],
    [-DBL_MAX] or NaN), [max_pool] returns [-1] for it and the pass reads
    [input[-1]], outside the array: undefined behaviour, a fault here. *)
Theorem neural_layer_maxpool_forward_window_miss (xcsf : XCSF) (l ai : addr)
    (s : state) (L : Layer.t) (xs os : list float) (ix : list Z) (k i j : Z) :
  layer_at s l = Some L ->
  doubles_at s (Some ai) = Some xs ->
  ints_at s (Layer.indexes L) = Some ix ->
  doubles_at s (Layer.output L) = Some os ->
  Some ai ≠ Layer.output L ->
  Layer.height L * Layer.width L * Layer.channels L <= INT_MAX ->
  Layer.height L * Layer.width L * Layer.channels L <= Z.of_nat (length xs) ->
  0 <= k < Layer.channels L -> 0 <= i < Layer.out_h L -> 0 <= j < Layer.out_w L ->
  (forall n m v, 0 <= n < Layer.size L -> 0 <= m < Layer.size L ->
     in_grid L (window_coord L i n) (window_coord L j m) = true ->
     rd xs (grid_index L k (window_coord L i n) (window_coord L j m)) = Some v ->
     dlt (- DBL_MAX)%float v = false) ->
  max_pool L (rd xs) i j k = Some (-1) /\
  neural_layer_maxpool_forward xcsf l (Some ai) s = Fault.
Proof.
  intros HL Hin Hix Hos Hne Hmax Hlen Hk Hi Hj Hlow.
  pose proof (max_pool_no_hit L xs i j k Hk Hmax Hlen Hlow) as Hmp.
  split; [exact Hmp|].
  apply layer_at_inv in HL. apply doubles_at_Some in Hin.
  destruct (ints_at_inv _ _ _ Hix) as (aix & Eix & Haix).
  destruct (doubles_at_inv _ _ _ Hos) as (ao & Eo & Hao).
  assert (Hne' : ai ≠ ao) by congruence.
  pose proof (maxpool_forward_sim xcsf s l L ai xs aix ao ix os HL Eix Eo Hin Haix Hao Hne')
    as Hsim.
  assert (Hpure : maxpool_forward_pure L xs (ix, os) = None).
  { unfold maxpool_forward_pure.
    apply (scan_int_none _ _ k Hk). intros a.
    apply (scan_int_none _ _ i Hi). intros a'.
    apply (scan_int_none _ _ j Hj). intros a''.
    unfold maxpool_cell. rewrite Hmp.
    destruct ((0 <=? _) && (_ <? Z.of_nat (length (fst a'')))); reflexivity. }
  rewrite Hpure in Hsim. unfold sim in Hsim.
  destruct (neural_layer_maxpool_forward xcsf l (Some ai) s); [contradiction | contradiction |].
  reflexivity.
Qed.

End PoolMiss.
(** * The dropout constructor *)

Section DropoutInit.

Context {E : Externals}.

(** X24. [neural_layer_dropout_init] with a size in [[1, N_INPUTS_MAX]] returns
    a new dropout layer: a struct at an address that was not in use, with
    [n_inputs = n_outputs = max_outputs = n], the given probability and
    [scale = 1 / (1 - probability)], and three new, pairwise distinct arrays
    of [n] zeros for output, delta and state. The blocks of the caller are
    as they were, no random number is drawn, and the layer is live and
    passes the size check of the copy. *)
Theorem neural_layer_dropout_init_spec (xcsf : XCSF) (n : Z) (p : double) (s : state) :
  1 <= n <= N_INPUTS_MAX ->
  exists l s' L ao ad ast,
    neural_layer_dropout_init xcsf n p s = Ok l s' /\
    heap s !! l = None /\
    layer_at s' l = Some L /\
    Layer.layer_type L = DROPOUT /\ Layer.layer_vptr L = VDropout /\
    Layer.n_inputs L = n /\ Layer.n_outputs L = n /\ Layer.max_outputs L = n /\
    Layer.probability L = p /\ Layer.scale L = (1 / (1 - p))%float /\
    Layer.output L = Some ao /\ Layer.delta L = Some ad /\ Layer.state L = Some ast /\
    fresh3 (heap s) ao ad ast /\
    heap s' !! ao = Some (zeros n) /\ heap s' !! ad = Some (zeros n) /\
    heap s' !! ast = Some (zeros n) /\
    layer_ok s' l /\ copyable_at s' l /\ grown s s'.
Proof.
  intros Hn.
  assert (W : wp (neural_layer_dropout_init xcsf n p) s
                (fun l s' =>
                   exists a1 a2 a3,
                     heap s !! l = None /\ fresh3 (heap s) a1 a2 a3 /\
                     l ≠ a1 /\ l ≠ a2 /\ l ≠ a3 /\
                     s' = set_heap
                            (<[l := BLayer (with_dropout_arrays a1 a2 a3
                                              (dropout_members n p
                                                 (layer_init (junk_layer l))))]>
                               (<[a3 := zeros n]>
                                  (<[a2 := zeros n]> (<[a1 := zeros n]> (heap s))))) s)).
  { apply wp_neural_layer_dropout_init; [exact Hn|].
    intros l a1 a2 a3 Hl Hf N1 N2 N3. exists a1, a2, a3.
    split; [exact Hl|]. split; [exact Hf|]. do 3 (split; [assumption|]). reflexivity. }
  destruct (wp_inv _ _ _ W)
    as (l & s' & Hrun & a1 & a2 & a3 & Hl & Hf & N1 & N2 & N3 & ->).
  pose proof Hf as (F1 & F2 & F3 & N12 & N13 & N23).
  set (L := with_dropout_arrays a1 a2 a3 (dropout_members n p (layer_init (junk_layer l)))).
  set (s' := set_heap _ s) in *.
  assert (HL : layer_at s' l = Some L).
  { apply layer_at_lookup. unfold s'. cbn [heap set_heap]. apply lookup_insert_eq. }
  assert (H1 : heap s' !! a1 = Some (zeros n)).
  { unfold s'. cbn [heap set_heap].
    rewrite lookup_insert_ne by congruence. rewrite lookup_insert_ne by congruence.
    rewrite lookup_insert_ne by congruence. apply lookup_insert_eq. }
  assert (H2 : heap s' !! a2 = Some (zeros n)).
  { unfold s'. cbn [heap set_heap].
    rewrite lookup_insert_ne by congruence. rewrite lookup_insert_ne by congruence.
    apply lookup_insert_eq. }
  assert (H3 : heap s' !! a3 = Some (zeros n)).
  { unfold s'. cbn [heap set_heap].
    rewrite lookup_insert_ne by congruence. apply lookup_insert_eq. }
  exists l, s', L, a1, a2, a3.
  split; [exact Hrun|]. split; [exact Hl|]. split; [exact HL|].
  do 7 (split; [reflexivity|]).
  do 3 (split; [reflexivity|]).
  split; [exact Hf|]. split; [exact H1|]. split; [exact H2|]. split; [exact H3|].
  split.
  { exists L. split; [exact HL|]. left. split; [reflexivity|].
    exists (replicate (Z.to_nat n) 0%float), (replicate (Z.to_nat n) 0%float),
      (replicate (Z.to_nat n) 0%float).
    change (Layer.output L) with (Some a1). change (Layer.delta L) with (Some a2).
    change (Layer.state L) with (Some a3).
    split; [apply doubles_at_lookup, H1|]. split; [apply doubles_at_lookup, H2|].
    split; [apply doubles_at_lookup, H3|].
    split; [congruence|]. split; congruence. }
  split.
  { exists L. split; [exact HL|]. left. split; [reflexivity|]. split; [reflexivity|].
    exact Hn. }
  split; [| split; reflexivity].
  intros a [b Ha]. unfold s'. cbn [heap set_heap].
  rewrite !lookup_insert_ne by (intros ->; congruence). reflexivity.
Qed.

End DropoutInit.
(** * The dropout mask *)

Section Mask.

Context {E : Externals}.

(** The [i]-th random number drawn from the state [s]. *)
Definition draw (s : state) (i : nat) : double :=
  rand_uniform_seq (rng s + i)%nat 0%float 1%float.

(** What the exploring forward pass leaves in [output[i]]. *)
Definition dropout_forward_cell (L : Layer.t) (s : state) (xs : list double) (i : nat)
    (o : double) : double :=
  match xs !! i with
  | Some x => if dlt (draw s i) (Layer.probability L) then 0%float
              else (x * Layer.scale L)%float
  | None => o
  end.

(** The exploring forward pass: the state array takes the random numbers
    and the output array the masked, scaled inputs. *)
Lemma dropout_forward_explore_run (xcsf : XCSF) (l ai ao ast : addr) (s : state)
    (L : Layer.t) (xs os st : list double) :
  explore xcsf = true ->
  heap s !! l = Some (BLayer L) ->
  Layer.output L = Some ao -> Layer.state L = Some ast ->
  heap s !! ai = Some (BDoubles xs) ->
  heap s !! ao = Some (BDoubles os) ->
  heap s !! ast = Some (BDoubles st) ->
  ai ≠ ao -> ai ≠ ast -> ao ≠ ast ->
  Layer.n_inputs L <= Z.of_nat (length xs) ->
  Layer.n_inputs L <= Z.of_nat (length os) ->
  Layer.n_inputs L <= Z.of_nat (length st) ->
  neural_layer_dropout_forward xcsf l (Some ai) s
  = Ok tt (mkState
             (<[ao := BDoubles (upd_prefix (dropout_forward_cell L s xs)
                                  (Z.to_nat (Layer.n_inputs L)) os)]>
                (<[ast := BDoubles (upd_prefix (fun i _ => draw s i)
                                      (Z.to_nat (Layer.n_inputs L)) st)]> (heap s)))
             (rng s + Z.to_nat (Layer.n_inputs L)) (trace s)).
Proof.
  intros Hex Hl Eo Es Hai Hao Hast N1 N2 N3 Hnx Hno Hns.
  unfold neural_layer_dropout_forward.
  rewrite (bind_Ok _ _ _ _ _ (load_layer_at _ _ _ Hl)), Hex. cbn [negb]. rewrite Eo, Es.
  set (fo := dropout_forward_cell L s xs). set (fs := fun (i : nat) (_ : double) => draw s i).
  destruct (for_int_inv
              (fun k t => t = mkState
                                (<[ao := BDoubles (upd_prefix fo k os)]>
                                   (<[ast := BDoubles (upd_prefix fs k st)]> (heap s)))
                                (rng s + k) (trace s))
              (Layer.n_inputs L)
              (fun i =>
                 let* r := rand_uniform 0%float 1%float in
                 write_double (Some ast) i r ;;;
                 let* sv := read_double (Some ast) i in
                 if dlt sv (Layer.probability L) then write_double (Some ao) i 0%float
                 else
                   let* x := read_double (Some ai) i in
                   write_double (Some ao) i (x * Layer.scale L)%float) s)
    as (s' & Hrun & Hs').
  - rewrite !upd_prefix_0, Nat.add_0_r. destruct s as [h r tr]. cbn [heap rng trace] in *.
    f_equal. rewrite (insert_id _ _ _ Hast). symmetry. apply insert_id. exact Hao.
  - intros k t Hk ->.
    destruct (lookup_lt_is_Some_2 xs k ltac:(lia)) as [x Hx].
    destruct (lookup_lt_is_Some_2 os k ltac:(lia)) as [o Ho].
    destruct (lookup_lt_is_Some_2 st k ltac:(lia)) as [sv Hsv].
    assert (Hcell : fo k o = if dlt (draw s k) (Layer.probability L) then 0%float
                             else (x * Layer.scale L)%float).
    { unfold fo, dropout_forward_cell. rewrite Hx. reflexivity. }
    assert (Hpre :
               (let* r := rand_uniform 0%float 1%float in
                write_double (Some ast) (Z.of_nat k) r ;;;
                let* sv := read_double (Some ast) (Z.of_nat k) in
                if dlt sv (Layer.probability L) then write_double (Some ao) (Z.of_nat k) 0%float
                else
                  let* x := read_double (Some ai) (Z.of_nat k) in
                  write_double (Some ao) (Z.of_nat k) (x * Layer.scale L)%float)
                 (mkState (<[ao := BDoubles (upd_prefix fo k os)]>
                             (<[ast := BDoubles (upd_prefix fs k st)]> (heap s)))
                          (rng s + k) (trace s))
               = (if dlt (draw s k) (Layer.probability L)
                  then write_double (Some ao) (Z.of_nat k) 0%float
                  else
                    let* x := read_double (Some ai) (Z.of_nat k) in
                    write_double (Some ao) (Z.of_nat k) (x * Layer.scale L)%float)
                   (mkState (<[ast := BDoubles (<[k := draw s k]> (upd_prefix fs k st))]>
                               (<[ao := BDoubles (upd_prefix fo k os)]>
                                  (<[ast := BDoubles (upd_prefix fs k st)]> (heap s))))
                            (S (rng s + k)) (trace s))).
    { unfold rand_uniform. cbn [bind heap rng trace].
      erewrite bind_Ok; cycle 1.
      { apply write_double_at; [apply doubles_at_lookup; solve_lookup|].
        rewrite upd_prefix_length. lia. }
      cbn [heap set_heap rng trace]. rewrite Nat2Z.id.
      erewrite bind_Ok; cycle 1.
      { apply read_double_peek. erewrite peek_double_lookup; [| solve_lookup | lia].
        rewrite Nat2Z.id. apply list_lookup_insert_eq. rewrite upd_prefix_length.
        apply lookup_lt_is_Some_1. eauto. }
      reflexivity. }
    rewrite Hpre.
    rewrite <- (upd_prefix_S fo k os o Ho), <- (upd_prefix_S fs k st sv Hsv), Hcell.
    rewrite Nat.add_succ_r.
    destruct (dlt (draw s k) (Layer.probability L)) eqn:Hdrop.
    + eexists. split.
      * erewrite write_double_at; cycle 1.
        { apply doubles_at_lookup. solve_lookup. }
        { rewrite upd_prefix_length. lia. }
        cbn [heap set_heap rng trace]. rewrite Nat2Z.id. reflexivity.
      * unfold set_heap. cbn [heap rng trace]. f_equal. heap_eq.
    + eexists. split.
      * erewrite bind_Ok; cycle 1.
        { apply read_double_peek. erewrite peek_double_lookup; [| solve_lookup | lia].
          rewrite Nat2Z.id. exact Hx. }
        erewrite write_double_at; cycle 1.
        { apply doubles_at_lookup. solve_lookup. }
        { rewrite upd_prefix_length. lia. }
        cbn [heap set_heap rng trace]. rewrite Nat2Z.id. reflexivity.
      * unfold set_heap. cbn [heap rng trace]. f_equal. heap_eq.
  - rewrite Hrun, Hs'. reflexivity.
Qed.

(** X25. The exploring forward pass of a dropout layer, unit by unit. With
    [explore] on and distinct live input, output and state arrays of at
    least [n_inputs] cells, the pass returns after drawing [n_inputs] random
    numbers; [state[i]] holds the [i]-th of them, and [output[i]] is [0]
    where that number is below [probability] and [input[i] * scale]
    elsewhere; no other block changes. *)
Theorem neural_layer_dropout_forward_mask (xcsf : XCSF) (l ai : addr) (s : state)
    (L : Layer.t) (xs os st : list double) :
  explore xcsf = true ->
  layer_at s l = Some L ->
  doubles_at s (Some ai) = Some xs ->
  doubles_at s (Layer.output L) = Some os ->
  doubles_at s (Layer.state L) = Some st ->
  Some ai ≠ Layer.output L -> Some ai ≠ Layer.state L -> Layer.output L ≠ Layer.state L ->
  Layer.n_inputs L <= Z.of_nat (length xs) ->
  Layer.n_inputs L <= Z.of_nat (length os) ->
  Layer.n_inputs L <= Z.of_nat (length st) ->
  exists s',
    neural_layer_dropout_forward xcsf l (Some ai) s = Ok tt s' /\
    rng s' = (rng s + Z.to_nat (Layer.n_inputs L))%nat /\
    trace s' = trace s /\
    (forall i x, 0 <= i < Layer.n_inputs L -> xs !! Z.to_nat i = Some x ->
       peek_double s' (Layer.state L) i = Some (draw s (Z.to_nat i)) /\
       peek_double s' (Layer.output L) i
       = Some (if dlt (draw s (Z.to_nat i)) (Layer.probability L) then 0%float
               else (x * Layer.scale L)%float)) /\
    (forall b, Some b ≠ Layer.output L -> Some b ≠ Layer.state L ->
       heap s' !! b = heap s !! b).
Proof.
  intros Hex HL Hin Hout Hst N1 N2 N3 Hnx Hno Hns.
  apply layer_at_inv in HL. apply doubles_at_Some in Hin.
  destruct (doubles_at_inv _ _ _ Hout) as (ao & Eo & Hao).
  destruct (doubles_at_inv _ _ _ Hst) as (ast & Es & Hast).
  rewrite Eo, Es in *.
  assert (ai ≠ ao) by congruence. assert (ai ≠ ast) by congruence.
  assert (ao ≠ ast) by congruence.
  eexists. split.
  { apply (dropout_forward_explore_run xcsf l ai ao ast s L xs os st); assumption. }
  cbn [heap rng trace]. split; [reflexivity|]. split; [reflexivity|]. split.
  - intros i x Hi Hx.
    destruct (lookup_lt_is_Some_2 os (Z.to_nat i) ltac:(lia)) as [o Ho].
    destruct (lookup_lt_is_Some_2 st (Z.to_nat i) ltac:(lia)) as [sv Hsv].
    split.
    + erewrite peek_double_lookup; [| cbn [heap]; solve_lookup | lia].
      rewrite upd_prefix_lookup, Hsv. cbn.
      destruct (decide (Z.to_nat i < Z.to_nat (Layer.n_inputs L))%nat); [reflexivity | lia].
    + erewrite peek_double_lookup; [| cbn [heap]; solve_lookup | lia].
      rewrite upd_prefix_lookup, Ho. cbn.
      destruct (decide (Z.to_nat i < Z.to_nat (Layer.n_inputs L))%nat); [| lia].
      unfold dropout_forward_cell. rewrite Hx. reflexivity.
  - intros b Hb1 Hb2. rewrite !lookup_insert_ne by congruence. reflexivity.
Qed.

(** X26. A forward pass followed by a backward pass of a dropout layer use the
    same mask. With [explore] on, after [neural_layer_dropout_forward] on
    the input and [neural_layer_dropout_backward] on a [delta] array that is
    none of the layer's, every unit [i < n_inputs] is either dropped in
    both, [output[i] = 0] and [delta[i] = 0], or kept in both,
    [output[i] = input[i] * scale] and
    [delta[i] = delta[i] + l->delta[i] * scale]; it is dropped exactly when
    the [i]-th random number of the forward pass is below [probability]. *)
Theorem dropout_forward_backward_mask (xcsf : XCSF) (l ai ad : addr) (s : state)
    (L : Layer.t) (xs os st ld d : list double) :
  explore xcsf = true ->
  layer_at s l = Some L ->
  doubles_at s (Some ai) = Some xs ->
  doubles_at s (Layer.output L) = Some os ->
  doubles_at s (Layer.state L) = Some st ->
  doubles_at s (Layer.delta L) = Some ld ->
  doubles_at s (Some ad) = Some d ->
  Some ai ≠ Layer.output L -> Some ai ≠ Layer.state L -> Layer.output L ≠ Layer.state L ->
  Layer.delta L ≠ Layer.output L -> Layer.delta L ≠ Layer.state L ->
  Some ad ≠ Layer.output L -> Some ad ≠ Layer.state L -> Some ad ≠ Layer.delta L ->
  Layer.n_inputs L <= Z.of_nat (length xs) ->
  Layer.n_inputs L <= Z.of_nat (length os) ->
  Layer.n_inputs L <= Z.of_nat (length st) ->
  Layer.n_inputs L <= Z.of_nat (length ld) ->
  Layer.n_inputs L <= Z.of_nat (length d) ->
  exists s1 s2,
    neural_layer_dropout_forward xcsf l (Some ai) s = Ok tt s1 /\
    neural_layer_dropout_backward xcsf l (Some ai) (Some ad) s1 = Ok tt s2 /\
    forall i x dv lv, 0 <= i < Layer.n_inputs L ->
      xs !! Z.to_nat i = Some x -> d !! Z.to_nat i = Some dv ->
      ld !! Z.to_nat i = Some lv ->
      if dlt (draw s (Z.to_nat i)) (Layer.probability L)
      then peek_double s2 (Layer.output L) i = Some 0%float /\
           peek_double s2 (Some ad) i = Some 0%float
      else peek_double s2 (Layer.output L) i = Some (x * Layer.scale L)%float /\
           peek_double s2 (Some ad) i = Some (dv + lv * Layer.scale L)%float.
Proof.
  intros Hex HL Hin Hout Hst Hld Hd N1 N2 N3 N4 N5 N6 N7 N8 Hnx Hno Hns Hnl Hnd.
  pose proof (layer_at_inv _ _ _ HL) as Hl.
  apply doubles_at_Some in Hin, Hd.
  destruct (doubles_at_inv _ _ _ Hout) as (ao & Eo & Hao).
  destruct (doubles_at_inv _ _ _ Hst) as (ast & Es & Hast).
  destruct (doubles_at_inv _ _ _ Hld) as (ald & El & Hald).
  rewrite Eo, Es, El in *.
  assert (ai ≠ ao) by congruence. assert (ai ≠ ast) by congruence.
  assert (ao ≠ ast) by congruence. assert (ald ≠ ao) by congruence.
  assert (ald ≠ ast) by congruence. assert (ad ≠ ao) by congruence.
  assert (ad ≠ ast) by congruence. assert (ad ≠ ald) by congruence.
  assert (l ≠ ao) by (intros ->; rewrite Hl in Hao; discriminate).
  assert (l ≠ ast) by (intros ->; rewrite Hl in Hast; discriminate).
  set (n := Z.to_nat (Layer.n_inputs L)).
  set (st1 := upd_prefix (fun i _ => draw s i) n st).
  set (os1 := upd_prefix (dropout_forward_cell L s xs) n os).
  set (s1 := mkState (<[ao := BDoubles os1]> (<[ast := BDoubles st1]> (heap s)))
                     (rng s + n) (trace s)).
  assert (Hfwd : neural_layer_dropout_forward xcsf l (Some ai) s = Ok tt s1).
  { apply (dropout_forward_explore_run xcsf l ai ao ast s L xs os st); assumption. }
  assert (Hl1 : layer_at s1 l = Some L).
  { apply layer_at_lookup. unfold s1. cbn [heap].
    rewrite !lookup_insert_ne by congruence. exact Hl. }
  assert (Hst1 : doubles_at s1 (Layer.state L) = Some st1).
  { rewrite Es. apply doubles_at_lookup. unfold s1. cbn [heap].
    rewrite lookup_insert_ne by congruence. apply lookup_insert_eq. }
  assert (Hld1 : doubles_at s1 (Layer.delta L) = Some ld).
  { rewrite El. apply doubles_at_lookup. unfold s1. cbn [heap].
    rewrite !lookup_insert_ne by congruence. exact Hald. }
  assert (Hd1 : doubles_at s1 (Some ad) = Some d).
  { apply doubles_at_lookup. unfold s1. cbn [heap].
    rewrite !lookup_insert_ne by congruence. exact Hd. }
  destruct (dropout_backward_run xcsf l (Some ai) ad s1 L st1 ld d Hl1 Hst1 Hld1 Hd1)
    as [_ Hbwd].
  { rewrite Es. congruence. }
  { rewrite El. congruence. }
  { unfold st1. rewrite upd_prefix_length. exact Hns. }
  { exact Hnl. }
  { exact Hnd. }
  exists s1. eexists. split; [exact Hfwd|]. split; [exact Hbwd|].
  intros i x dv lv Hi Hx Hdv Hlv.
  destruct (lookup_lt_is_Some_2 os (Z.to_nat i) ltac:(lia)) as [o Ho].
  destruct (lookup_lt_is_Some_2 st (Z.to_nat i) ltac:(lia)) as [sv Hsv].
  assert (Hin_n : (Z.to_nat i < n)%nat) by (unfold n; lia).
  assert (Hs1i : st1 !! Z.to_nat i = Some (draw s (Z.to_nat i))).
  { unfold st1. rewrite upd_prefix_lookup, Hsv. cbn.
    destruct (decide (Z.to_nat i < n)%nat); [reflexivity | lia]. }
  assert (Ho1 : peek_double
                  (set_heap (<[ad := BDoubles (upd_prefix (dropout_backward_cell L st1 ld)
                                                 (Z.to_nat (Layer.n_inputs L)) d)]>
                               (heap s1)) s1) (Some ao) i
                = Some (dropout_forward_cell L s xs (Z.to_nat i) o)).
  { erewrite peek_double_lookup; [| | lia].
    2:{ cbn [heap set_heap]. rewrite lookup_insert_ne by congruence.
        unfold s1. cbn [heap]. apply lookup_insert_eq. }
    unfold os1. rewrite upd_prefix_lookup, Ho. cbn.
    destruct (decide (Z.to_nat i < n)%nat); [reflexivity | lia]. }
  assert (Hd2 : peek_double
                  (set_heap (<[ad := BDoubles (upd_prefix (dropout_backward_cell L st1 ld)
                                                 (Z.to_nat (Layer.n_inputs L)) d)]>
                               (heap s1)) s1) (Some ad) i
                = Some (dropout_backward_cell L st1 ld (Z.to_nat i) dv)).
  { erewrite peek_double_lookup; [| cbn [heap set_heap]; apply lookup_insert_eq | lia].
    rewrite upd_prefix_lookup, Hdv. cbn.
    destruct (decide (Z.to_nat i < Z.to_nat (Layer.n_inputs L))%nat); [reflexivity | lia]. }
  rewrite Ho1, Hd2. unfold dropout_forward_cell, dropout_backward_cell.
  rewrite Hx, Hs1i, Hlv.
  destruct (dlt (draw s (Z.to_nat i)) (Layer.probability L)); split; reflexivity.
Qed.

End Mask.
(** * Forward and backward pass of a max-pooling layer *)

Section PoolGrad.

Context {E : Externals}.

(** X27. The indexes stored by the forward pass keep the backward pass inside
    [delta]. For a max-pooling layer with [n_inputs = height * width *
    channels] and [n_outputs = out_h * out_w * channels], arrays of the
    announced sizes, an input with a maximum in every window and a [delta]
    array of at least [n_inputs] cells that is none of the layer's:
    [neural_layer_maxpool_forward] followed by
    [neural_layer_maxpool_backward] returns; every stored index lies in
    [[0, n_inputs)]; the backward pass writes the block of [delta] only,
    keeps its length, and leaves every cell that no stored index names, all
    cells from [n_inputs] on among them, as it was. *)
Theorem maxpool_forward_backward (xcsf : XCSF) (l ai ad : addr) (s : state)
    (L : Layer.t) (xs os ld d : list double) (ix : list Z) :
  layer_at s l = Some L ->
  doubles_at s (Some ai) = Some xs ->
  ints_at s (Layer.indexes L) = Some ix ->
  doubles_at s (Layer.output L) = Some os ->
  doubles_at s (Layer.delta L) = Some ld ->
  doubles_at s (Some ad) = Some d ->
  Some ai ≠ Layer.output L ->
  Layer.delta L ≠ Layer.output L ->
  Some ad ≠ Layer.output L -> Some ad ≠ Layer.delta L ->
  Layer.n_inputs L = Layer.height L * Layer.width L * Layer.channels L ->
  Layer.n_outputs L = Layer.out_h L * Layer.out_w L * Layer.channels L ->
  Layer.n_inputs L <= INT_MAX ->
  Layer.n_inputs L <= Z.of_nat (length xs) ->
  Layer.n_inputs L <= Z.of_nat (length d) ->
  0 <= Layer.out_h L -> 0 <= Layer.out_w L ->
  Layer.n_outputs L <= INT_MAX ->
  Layer.n_outputs L <= Z.of_nat (length ix) ->
  Layer.n_outputs L <= Z.of_nat (length os) ->
  Layer.n_outputs L <= Z.of_nat (length ld) ->
  windows_hit L xs ->
  exists s1 s2 ix1 d',
    neural_layer_maxpool_forward xcsf l (Some ai) s = Ok tt s1 /\
    ints_at s1 (Layer.indexes L) = Some ix1 /\
    (forall c, 0 <= c < Layer.n_outputs L ->
       exists m, ix1 !! Z.to_nat c = Some m /\ 0 <= m < Layer.n_inputs L) /\
    neural_layer_maxpool_backward xcsf l (Some ai) (Some ad) s1 = Ok tt s2 /\
    heap s2 = <[ad := BDoubles d']> (heap s1) /\
    length d' = length d /\
    (forall p, 0 <= p ->
       (forall c, 0 <= c < Layer.n_outputs L -> ix1 !! Z.to_nat c ≠ Some p) ->
       d' !! Z.to_nat p = d !! Z.to_nat p) /\
    (forall p, Layer.n_inputs L <= p -> d' !! Z.to_nat p = d !! Z.to_nat p).
Proof.
  intros HL Hxs Hix Hos Hld Hd N1 N2 N3 N4 Hn Hm Hnmax Hnlen Hnd Hoh How Hmmax Hmix Hmos
         Hmld Hwin.
  pose proof (layer_at_inv _ _ _ HL) as Hl.
  destruct (Layer.indexes L) as [aix|] eqn:Eix; [| discriminate].
  destruct (Layer.output L) as [ao|] eqn:Eo; [| discriminate].
  destruct (Layer.delta L) as [ald|] eqn:El; [| discriminate].
  apply doubles_at_Some in Hxs, Hos, Hld, Hd. apply ints_at_Some in Hix.
  assert (ai ≠ ao) by congruence. assert (ald ≠ ao) by congruence.
  assert (ad ≠ ao) by congruence. assert (ad ≠ ald) by congruence.
  assert (aix ≠ ao) by (intros ->; rewrite Hix in Hos; discriminate).
  assert (aix ≠ ald) by (intros ->; rewrite Hix in Hld; discriminate).
  assert (aix ≠ ad) by (intros ->; rewrite Hix in Hd; discriminate).
  assert (l ≠ ao) by (intros ->; rewrite Hl in Hos; discriminate).
  assert (l ≠ aix) by (intros ->; rewrite Hl in Hix; discriminate).
  rewrite Hn, Hm in *.
  destruct (maxpool_forward_pure_total L xs (length ix) (length os)
              Hnmax Hnlen Hoh How Hmmax Hmix Hmos Hwin (ix, os) eq_refl eq_refl)
    as ([ix1 os1] & Hpure & Hl1 & Hl2 & Hcells).
  pose proof (maxpool_forward_sim xcsf s l L ai xs aix ao ix os
                Hl Eix Eo Hxs Hix Hos ltac:(assumption)) as Hsim.
  rewrite Hpure in Hsim.
  destruct (neural_layer_maxpool_forward xcsf l (Some ai) s) as [[] s1| |];
    cbn [sim] in Hsim; try contradiction.
  destruct Hsim as (Hh & _ & _). cbn [fst snd] in *.
  assert (Hl' : layer_at s1 l = Some L).
  { apply layer_at_lookup. rewrite Hh, !lookup_insert_ne by congruence. exact Hl. }
  assert (Hix1 : ints_at s1 (Some aix) = Some ix1).
  { apply ints_at_lookup. rewrite Hh, lookup_insert_ne, lookup_insert_eq by congruence.
    reflexivity. }
  assert (Hld1 : doubles_at s1 (Some ald) = Some ld).
  { apply doubles_at_lookup. rewrite Hh, !lookup_insert_ne by congruence. exact Hld. }
  assert (Hd1 : doubles_at s1 (Some ad) = Some d).
  { apply doubles_at_lookup. rewrite Hh, !lookup_insert_ne by congruence. exact Hd. }
  assert (Hrange : forall c, 0 <= c < Layer.out_h L * Layer.out_w L * Layer.channels L ->
            exists m, ix1 !! Z.to_nat c = Some m /\
                      0 <= m < Layer.height L * Layer.width L * Layer.channels L).
  { intros c Hc. destruct (Hcells c Hc) as (m & Hc1 & Hc2 & _). exists m. split; assumption. }
  pose proof (maxpool_backward_run xcsf l (Some ai) ad s1 L ix1 ld d) as Hbwd.
  rewrite Eix, El, Hm in Hbwd.
  specialize (Hbwd Hl' Hix1 Hld1 Hd1 ltac:(congruence) ltac:(lia) Hmld).
  assert (Hsafe : forall i m, 0 <= i < Layer.out_h L * Layer.out_w L * Layer.channels L ->
            ix1 !! Z.to_nat i = Some m -> 0 <= m < Z.of_nat (length d)).
  { intros i m Hi Hmi. destruct (Hrange i Hi) as (m' & Hm' & Hr).
    rewrite Hmi in Hm'. injection Hm' as <-. lia. }
  specialize (Hbwd Hsafe).
  assert (Hkeep : forall p, 0 <= p ->
            (forall c, 0 <= c < Layer.out_h L * Layer.out_w L * Layer.channels L ->
               ix1 !! Z.to_nat c ≠ Some p) ->
            scatter_upto ix1 ld
              (Z.to_nat (Layer.out_h L * Layer.out_w L * Layer.channels L)) d !! Z.to_nat p
            = d !! Z.to_nat p).
  { intros p Hp Hnot. apply scatter_upto_other. intros i m Hi Hmi Heq.
    destruct (Hrange (Z.of_nat i) ltac:(lia)) as (m' & Hm' & Hr).
    rewrite Nat2Z.id, Hmi in Hm'. injection Hm' as <-.
    assert (Hi' : 0 <= Z.of_nat i < Layer.out_h L * Layer.out_w L * Layer.channels L) by lia.
    apply (Hnot (Z.of_nat i) Hi'). rewrite Nat2Z.id, Hmi. f_equal. lia. }
  exists s1. eexists. exists ix1. eexists.
  split; [reflexivity|]. split; [exact Hix1|]. split; [exact Hrange|].
  split; [exact Hbwd|]. split; [reflexivity|].
  split; [apply scatter_upto_length|]. split; [exact Hkeep|].
  intros p Hp. apply scatter_upto_other. intros i m Hi Hmi Heq.
  destruct (Hrange (Z.of_nat i) ltac:(lia)) as (m' & Hm' & Hr).
  rewrite Nat2Z.id, Hmi in Hm'. injection Hm' as <-. lia.
Qed.

End PoolGrad.

(** * Concrete runs *)

Section Runs.

#[local] Existing Instance sample_env.

(** Two arrays: a prediction [[1; 2]] at address 0 and a truth [[3; 5]] at
    address 1. *)
Definition run_pred_state : state :=
  mkState (<[0%nat := BDoubles [1%float; 2%float]]>
             (<[1%nat := BDoubles [3%float; 5%float]]> ∅)) 0 [].

Lemma pred_constant_update_spec_witness :
  exists s',
    pred_constant_update (mkXCSF 0.25%float 2 false) (mkCl 2 (Some 0%nat)) None
                         (Some 1%nat) run_pred_state = Ok tt s' /\
    peek_double s' (Some 0%nat) 0 = Some 2%float /\
    peek_double s' (Some 0%nat) 1 = Some 3.5%float.
Proof.
  destruct (pred_constant_update_spec (mkXCSF 0.25%float 2 false) (mkCl 2 (Some 0%nat))
              None (Some 1%nat) [1%float; 2%float] [3%float; 5%float] run_pred_state)
    as (s' & Hrun & _ & Hv & _).
  - cbn. unfold INT_MAX. lia.
  - reflexivity.
  - reflexivity.
  - cbn. lia.
  - cbn. lia.
  - cbn [prediction exp y_dim BETA] in Hv.
    exists s'. split; [exact Hrun|]. split.
    + rewrite (Hv 0 1%float 3%float); [reflexivity | cbn; lia | reflexivity | reflexivity].
    + rewrite (Hv 1 2%float 5%float); [reflexivity | cbn; lia | reflexivity | reflexivity].
Defined.

(** A dropout layer of two inputs with probability 0.5 at address 0, its
    output, delta and state buffers at 1, 2 and 3, and an input array at 4. *)
Definition run_dropout_layer : Layer.t :=
  Layer.mk 1 VDropout 2 2 2 0 0 0 0 0 0 0 0 0 0.5%float 2%float
           (Some 1%nat) (Some 2%nat) (Some 3%nat) None.

Definition run_dropout_state : state :=
  mkState (<[0%nat := BLayer run_dropout_layer]>
             (<[1%nat := BDoubles [0%float; 0%float]]>
                (<[2%nat := BDoubles [0%float; 0%float]]>
                   (<[3%nat := BDoubles [0%float; 0%float]]>
                      (<[4%nat := BDoubles [1.5%float; (-4)%float]]> ∅))))) 0 [].

Lemma neural_layer_dropout_forward_spec_witness :
  exists s',
    neural_layer_dropout_forward (mkXCSF 0.25%float 1 false) 0%nat (Some 4%nat)
                                 run_dropout_state = Ok tt s' /\
    peek_double s' (Some 1%nat) 0 = Some 1.5%float /\
    peek_double s' (Some 1%nat) 1 = Some (-4)%float.
Proof.
  destruct (neural_layer_dropout_forward_spec (mkXCSF 0.25%float 1 false) 0%nat
              (Some 4%nat) run_dropout_state run_dropout_layer
              [1.5%float; (-4)%float] [0%float; 0%float] [0%float; 0%float])
    as ((s' & Hrun & Hoff & _) & _).
  - reflexivity.
  - reflexivity.
  - reflexivity.
  - reflexivity.
  - discriminate.
  - discriminate.
  - discriminate.
  - cbn. lia.
  - cbn. lia.
  - cbn. lia.
  - cbn. lia.
  - exists s'. split; [exact Hrun|].
    destruct (Hoff eq_refl) as [_ Hid].
    change (Layer.output run_dropout_layer) with (Some 1%nat) in Hid.
    change (Layer.n_inputs run_dropout_layer) with 2 in Hid. split.
    + destruct (Hid 0) as [_ ->]; [lia | reflexivity].
    + destruct (Hid 1) as [_ ->]; [lia | reflexivity].
Defined.

Definition run_xcsf : XCSF := mkXCSF 0.25%float 1 false.

(** A max-pooling layer over a 2x2 image (4 inputs, 1 output) followed by a
    dropout layer of width 1, built through the interface. *)
Definition build_two_layers : M Net.t :=
  let* a := neural_layer_maxpool_init run_xcsf 2 2 1 2 1 0 in
  let* b := neural_layer_dropout_init run_xcsf 1 0.5%float in
  let* n1 := neural_layer_insert run_xcsf (neural_init run_xcsf) a 0 in
  neural_layer_insert run_xcsf n1 b 1.

(** C10. After [neural_init], two insertions and the removal of the tail
    layer, [net.n_inputs] is still the removed layer's 4 while the tail
    layer has 1 input; [n_layers] and the output side are consistent. Also,
    an insertion at position 0 of a network that has a layer dereferences a
    null pointer. *)
Theorem neural_layer_remove_tail_n_inputs :
  (exists net s,
     (let* n2 := build_two_layers in neural_layer_remove run_xcsf n2 0) empty_state
     = Ok net s /\
     Net.n_inputs net = 4 /\
     (exists tl TL, Net.layers net = [tl] /\ layer_at s tl = Some TL /\
                    Layer.n_inputs TL = 1) /\
     tail_n_inputs_ok s net = false /\
     head_outputs_ok s net = true /\ n_layers_ok net = true) /\
  (let* n2 := build_two_layers in
   let* c := neural_layer_dropout_init run_xcsf 4 0.5%float in
   neural_layer_insert run_xcsf n2 c 0) empty_state = Fault.
Proof.
  split.
  - eexists. eexists. split; [vm_compute; reflexivity|].
    split; [reflexivity|]. split.
    + eexists. eexists. split; [reflexivity|]. split; [vm_compute; reflexivity|]. reflexivity.
    + split; [vm_compute; reflexivity|]. split; vm_compute; reflexivity.
  - vm_compute. reflexivity.
Qed.

(** C5, the claim as stated. Asking a network of one output for neuron 1
    does not come back to the caller: the process exits. *)
Lemma neural_output_absent_neuron_exits :
  exists net s,
    build_two_layers empty_state = Ok net s /\
    Net.n_outputs net = 1 /\
    neural_output run_xcsf net 1 s = Exit (neural_output_diag 1 1) s /\
    ~ returns (neural_output run_xcsf net 1 s).
Proof.
  eexists. eexists. split; [vm_compute; reflexivity|].
  split; [reflexivity|]. split; [vm_compute; reflexivity|].
  intros (a & s' & Hr). vm_compute in Hr. discriminate.
Qed.

(** A width-changing layer (4 inputs, 5 outputs) at address 0. *)
Definition grow_layer : Layer.t :=
  Layer.mk 0 (VExt 0) 4 5 5 0 0 0 0 0 0 0 0 0 0%float 0%float None None None None.

Definition grow_state : state := mkState (<[0%nat := BLayer grow_layer]> ∅) 0 [].

(** The width-changing layer followed by two dropout layers of width 5. *)
Definition build_three_layers : M Net.t :=
  let* d1 := neural_layer_dropout_init run_xcsf 5 0.5%float in
  let* d2 := neural_layer_dropout_init run_xcsf 5 0.5%float in
  let* n1 := neural_layer_insert run_xcsf (neural_init run_xcsf) 0%nat 0 in
  let* n2 := neural_layer_insert run_xcsf n1 d1 1 in
  neural_layer_insert run_xcsf n2 d2 2.

(** C2. On a network whose widths are consistent, one call of
    [neural_mutate] in which the first layer grows to 6 outputs resizes the
    second layer to 6 inputs and outputs and leaves the third at 5 inputs:
    the widths are no longer consistent. *)
Theorem neural_mutate_breaks_widths :
  exists net s s' l0 l1 l2 L1 L2,
    build_three_layers grow_state = Ok net s /\
    widths_consistent s (Net.layers net) = true /\
    neural_mutate run_xcsf net s = Ok true s' /\
    Net.layers net = [l0; l1; l2] /\
    layer_at s' l1 = Some L1 /\ layer_at s' l2 = Some L2 /\
    Layer.n_outputs L1 = 6 /\ Layer.n_inputs L2 = 5 /\
    widths_consistent s' (Net.layers net) = false.
Proof.
  do 8 eexists. split; [vm_compute; reflexivity|].
  split; [vm_compute; reflexivity|].
  split; [vm_compute; reflexivity|].
  split; [reflexivity|].
  split; [vm_compute; reflexivity|].
  split; [vm_compute; reflexivity|].
  split; [reflexivity|]. split; [reflexivity|]. vm_compute. reflexivity.
Qed.

(** The network of [build_two_layers] laid out in memory: an input array at
    address 0, a truth array at 1, the max-pooling layer at 2 with its index,
    output and delta arrays at 3, 4 and 5, and the dropout layer at 6 with
    its output, delta and state arrays at 7, 8 and 9. *)
Definition pool_layer : Layer.t :=
  Layer.mk 2 VMaxpool 4 1 1 2 2 1 0 1 1 1 2 1 0%float 0%float
           (Some 4%nat) (Some 5%nat) None (Some 3%nat).

Definition drop_layer : Layer.t :=
  Layer.mk 1 VDropout 1 1 1 0 0 0 0 0 0 0 0 0 0.5%float 2%float
           (Some 7%nat) (Some 8%nat) (Some 9%nat) None.

Definition pool_drop_state : state :=
  mkState (<[0%nat := BDoubles [1%float; 3%float; 2%float; 0%float]]>
          (<[1%nat := BDoubles [5%float]]>
          (<[2%nat := BLayer pool_layer]>
          (<[3%nat := BInts [0]]>
          (<[4%nat := BDoubles [0%float]]>
          (<[5%nat := BDoubles [0%float]]>
          (<[6%nat := BLayer drop_layer]>
          (<[7%nat := BDoubles [0%float]]>
          (<[8%nat := BDoubles [0%float]]>
          (<[9%nat := BDoubles [0%float]]> ∅)))))))))) 0 [].

Definition pool_drop_net : Net.t := Net.mk [2%nat; 6%nat] 2 4 1 (Some 7%nat).

Lemma neural_layer_maxpool_forward_indexes_witness :
  exists s',
    neural_layer_maxpool_forward run_xcsf 2%nat (Some 0%nat) pool_drop_state = Ok tt s' /\
    exists m v, peek_int s' (Some 3%nat) 0 = Some m /\ 0 <= m < 4 /\
                peek_double pool_drop_state (Some 0%nat) m = Some v /\
                peek_double s' (Some 4%nat) 0 = Some v.
Proof.
  destruct (neural_layer_maxpool_forward_indexes run_xcsf 2%nat (Some 0%nat)
              pool_drop_state pool_layer [1%float; 3%float; 2%float; 0%float]
              [0%float] [0])
    as (_ & s' & Hrun & Hcells).
  - reflexivity.
  - reflexivity.
  - reflexivity.
  - reflexivity.
  - discriminate.
  - reflexivity.
  - cbn. unfold INT_MAX. lia.
  - cbn. lia.
  - cbn. lia.
  - cbn. lia.
  - cbn. unfold INT_MAX. lia.
  - cbn. lia.
  - cbn. lia.
  - intros k i j Hk Hi Hj. cbn in Hk, Hi, Hj.
    assert (k = 0) as -> by lia. assert (i = 0) as -> by lia. assert (j = 0) as -> by lia.
    exists 0, 0. split; [cbn; lia|]. split; [cbn; lia|]. split; [reflexivity|].
    exists 1%float. split; reflexivity.
  - exists s'. split; [exact Hrun|]. apply (Hcells 0). cbn. lia.
Defined.

Lemma neural_learn_spec_witness :
  exists s4,
    neural_learn run_xcsf pool_drop_net (Some 1%nat) (Some 0%nat) pool_drop_state
    = Ok tt s4 /\
    trace s4 = [EvBackward 6%nat (Some 4%nat) (Some 5%nat);
                EvBackward 2%nat (Some 0%nat) None; EvUpdate 2%nat; EvUpdate 6%nat].
Proof.
  destruct (neural_learn_spec run_xcsf pool_drop_net (Some 1%nat) (Some 0%nat)
              pool_drop_state 6%nat drop_layer [5%float] [0%float])
    as (s1 & s2 & s3 & s4 & _ & _ & _ & _ & _ & _ & _ & Htr & Hrun & _).
  - cbn [rev pool_drop_net Net.layers app learn_chain_ready].
    split.
    { exists drop_layer. split; [reflexivity|]. split; [cbn; lia|].
      split; [exists 8%nat, [0%float]; repeat split; cbn; lia|].
      left. split; [reflexivity|].
      split; [exists 9%nat, [0%float] | exists 8%nat, [0%float]]; repeat split; cbn; lia. }
    split.
    { exists pool_layer, drop_layer. split; [reflexivity|]. split; [reflexivity|].
      left. split; [reflexivity|]. exists 5%nat, [0%float]. repeat split; cbn; lia. }
    split.
    { exists pool_layer. split; [reflexivity|]. split; [cbn; lia|].
      split; [exists 5%nat, [0%float]; repeat split; cbn; lia|].
      right. split; [reflexivity|]. exists 3%nat, [0]. repeat split; cbn; lia. }
    split; exact I.
  - reflexivity.
  - reflexivity.
  - reflexivity.
  - reflexivity.
  - cbn. lia.
  - cbn. lia.
  - intros l L Hl HL.
    apply elem_of_cons in Hl as [-> | Hl].
    { injection HL as <-. split; discriminate. }
    apply elem_of_cons in Hl as [-> | Hl].
    { injection HL as <-. split; discriminate. }
    apply elem_of_nil in Hl. contradiction.
  - exists s4. split; [exact Hrun | exact Htr].
Defined.


End Runs.
(** * Concrete runs of the layer and network operations *)

Section Runs_more.

#[local] Existing Instance sample_env.

Lemma pool_drop_layers_ok : Forall (layer_ok pool_drop_state) (Net.layers pool_drop_net).
Proof.
  constructor; [| constructor; [| constructor]].
  - exists pool_layer. split; [reflexivity|]. right. split; [reflexivity|].
    exists [0], [0%float], [0%float].
    split; [reflexivity|]. split; [reflexivity|]. split; [reflexivity|]. discriminate.
  - exists drop_layer. split; [reflexivity|]. left. split; [reflexivity|].
    exists [0%float], [0%float], [0%float].
    split; [reflexivity|]. split; [reflexivity|]. split; [reflexivity|].
    split; [discriminate|]. split; discriminate.
Qed.

Lemma pool_drop_copyable :
  Forall (copyable_at pool_drop_state) (Net.layers pool_drop_net).
Proof.
  constructor; [| constructor; [| constructor]].
  - exists pool_layer. split; [reflexivity|]. right.
    split; [reflexivity|]. split; [reflexivity|]. cbn. lia.
  - exists drop_layer. split; [reflexivity|]. left.
    split; [reflexivity|]. split; [reflexivity|]. cbn. lia.
Qed.

Lemma neural_layer_remove_spec_witness :
  exists net' s',
    neural_layer_remove run_xcsf pool_drop_net 0 pool_drop_state = Ok net' s' /\
    Net.layers net' = [6%nat] /\ heap s' !! 2%nat = None.
Proof.
  destruct (neural_layer_remove_spec run_xcsf) as [_ Hrem].
  destruct (Hrem pool_drop_net 0 pool_drop_state 2%nat)
    as (net' & s' & L & Hrun & Hls & _ & _ & _ & _ & Hgone & _).
  - cbn. lia.
  - cbn. lia.
  - reflexivity.
  - exact pool_drop_layers_ok.
  - exists net', s'. split; [exact Hrun|]. split; [exact Hls | exact Hgone].
Defined.

Lemma neural_output_spec_witness :
  neural_output run_xcsf pool_drop_net 0 pool_drop_state = Ok 0%float pool_drop_state.
Proof.
  destruct (neural_output_spec run_xcsf) as [Hout _].
  apply (Hout pool_drop_net 0 pool_drop_state 6%nat drop_layer [0%float] 0%float).
  - cbn. lia.
  - reflexivity.
  - reflexivity.
  - left. reflexivity.
  - reflexivity.
  - reflexivity.
Defined.

Lemma neural_layer_dropout_backward_spec_witness :
  exists d',
    neural_layer_dropout_backward run_xcsf 6%nat None (Some 1%nat) pool_drop_state
    = Ok tt (set_heap (<[1%nat := BDoubles d']> (heap pool_drop_state)) pool_drop_state) /\
    d' !! 0%nat = Some 0%float.
Proof.
  destruct (neural_layer_dropout_backward_spec run_xcsf 6%nat None 1%nat pool_drop_state
              drop_layer [0%float] [0%float] [5%float])
    as (_ & d' & Hrun & _ & Hcell & _).
  - reflexivity.
  - reflexivity.
  - reflexivity.
  - reflexivity.
  - discriminate.
  - discriminate.
  - cbn. lia.
  - cbn. lia.
  - cbn. lia.
  - exists d'. split; [exact Hrun|].
    apply (Hcell 0 0%float 0%float 5%float); [cbn; lia | reflexivity | reflexivity | reflexivity].
Defined.

Lemma neural_layer_maxpool_backward_spec_witness :
  exists d',
    neural_layer_maxpool_backward run_xcsf 2%nat None (Some 0%nat) pool_drop_state
    = Ok tt (set_heap (<[0%nat := BDoubles d']> (heap pool_drop_state)) pool_drop_state) /\
    d' !! 1%nat = Some 3%float.
Proof.
  destruct (neural_layer_maxpool_backward_spec run_xcsf 2%nat None 0%nat pool_drop_state
              pool_layer [0] [0%float] [1%float; 3%float; 2%float; 0%float])
    as (_ & d' & Hrun & _ & Hother & _).
  - reflexivity.
  - reflexivity.
  - reflexivity.
  - reflexivity.
  - discriminate.
  - cbn. lia.
  - cbn. lia.
  - intros i m Hi Hm. cbn in Hi. assert (i = 0) as -> by lia.
    cbn in Hm. injection Hm as <-. cbn. lia.
  - exists d'. split; [exact Hrun|].
    change 1%nat with (Z.to_nat 1).
    rewrite (Hother 1); [reflexivity | lia |].
    intros i Hi Hm. cbn in Hi. assert (i = 0) as -> by lia. cbn in Hm. discriminate Hm.
Defined.

Lemma neural_save_load_roundtrip_witness :
  exists items net' s',
    neural_save run_xcsf pool_drop_net [] pool_drop_state
    = Ok (Z.of_nat (length items), items) pool_drop_state /\
    neural_load run_xcsf items empty_state = Ok (Z.of_nat (length items), [], net') s' /\
    Net.n_layers net' = 2.
Proof.
  destruct (neural_save_load_roundtrip run_xcsf pool_drop_net [] pool_drop_state)
    as (items & Hsave & Hload).
  - exact pool_drop_copyable.
  - reflexivity.
  - cbn. unfold INT_MAX. lia.
  - destruct (Hload empty_state []) as (net' & s' & Hrun & Hn & _).
    rewrite app_nil_r in Hrun.
    exists items, net', s'. split; [exact Hsave|]. split; [exact Hrun | exact Hn].
Defined.

(** The network of the max-pooling layer alone. *)
Definition pool_net : Net.t := Net.mk [2%nat] 1 4 1 (Some 4%nat).

Lemma neural_layer_insert_bookkeeping_witness :
  exists net',
    neural_layer_insert run_xcsf pool_net 6%nat 1 pool_drop_state = Ok net' pool_drop_state /\
    Net.layers net' = [2%nat; 6%nat] /\
    n_layers_ok net' = true /\ head_outputs_ok pool_drop_state net' = true.
Proof.
  destruct (neural_layer_insert_bookkeeping run_xcsf pool_net 6%nat 1 pool_drop_state
              drop_layer) as [_ Hins].
  - reflexivity.
  - cbn. unfold INT_MAX. lia.
  - destruct Hins as (net' & Hrun & Hls & Hn & _ & Hhd); [right; lia|].
    exists net'. split; [exact Hrun|]. split; [exact Hls|].
    split; [apply Hn; reflexivity | apply Hhd; reflexivity].
Defined.

Lemma pool_drop_fixed : fixed_layers pool_drop_state pool_drop_net.
Proof.
  constructor; [| constructor; [| constructor]].
  - exists pool_layer. split; [reflexivity | right; reflexivity].
  - exists drop_layer. split; [reflexivity | left; reflexivity].
Qed.

Lemma neural_mutate_fixed_layers_witness :
  neural_mutate run_xcsf pool_drop_net pool_drop_state = Ok false pool_drop_state.
Proof.
  exact (proj1 (neural_mutate_fixed_layers run_xcsf pool_drop_net pool_drop_state
                  pool_drop_fixed)).
Defined.

Lemma pool_drop_blocks :
  net_blocks pool_drop_state (Net.layers pool_drop_net)
  = [Some 2%nat; Some 3%nat; Some 4%nat; Some 5%nat;
     Some 6%nat; Some 7%nat; Some 8%nat; Some 9%nat].
Proof. reflexivity. Qed.

Lemma neural_free_releases_all_witness :
  exists net' s',
    neural_free run_xcsf pool_drop_net pool_drop_state = Ok net' s' /\
    Net.layers net' = [] /\ Net.n_layers net' = 0 /\
    heap s' !! 7%nat = None /\ Net.output net' = Some 7%nat.
Proof.
  destruct (neural_free_releases_all run_xcsf pool_drop_net pool_drop_state)
    as (net' & s' & Hrun & Hls & Hn & _ & _ & Hout & Hgone & _).
  - exact pool_drop_layers_ok.
  - rewrite pool_drop_blocks. apply (bool_decide_unpack _). vm_compute. exact I.
  - exists net', s'. split; [exact Hrun|]. split; [exact Hls|].
    split; [apply Hn; [reflexivity | cbn; unfold INT_MAX; lia]|].
    split; [| exact Hout].
    apply Hgone. rewrite pool_drop_blocks.
    do 5 apply list_elem_of_further. apply list_elem_of_here.
Defined.

Lemma neural_layer_remove_bookkeeping_witness :
  exists net' s',
    neural_layer_remove run_xcsf pool_drop_net 1 pool_drop_state = Ok net' s' /\
    Net.n_inputs net' = 4 /\ n_layers_ok net' = true /\
    head_outputs_ok s' net' = true /\ tail_n_inputs_ok s' net' = true.
Proof.
  destruct (neural_layer_remove_bookkeeping run_xcsf pool_drop_net 1 pool_drop_state)
    as (net' & s' & Hrun & Hni & Hn & Hhd & Htl).
  - cbn. lia.
  - cbn. lia.
  - cbn. unfold INT_MAX. lia.
  - exact pool_drop_layers_ok.
  - apply (bool_decide_unpack _). vm_compute. exact I.
  - exists net', s'. split; [exact Hrun|]. split; [exact Hni|].
    split; [apply Hn; reflexivity|].
    split; [apply Hhd; reflexivity | apply Htl; [lia | reflexivity]].
Defined.

Lemma neural_layer_dropout_init_invalid_size_witness :
  exists s', neural_layer_dropout_init run_xcsf 0 0.5%float empty_state
             = Exit dropout_size_diag s'.
Proof.
  destruct (neural_layer_dropout_init_invalid_size run_xcsf 0 0.5%float empty_state)
    as (s' & l & L & Hrun & _).
  - left. lia.
  - exists s'. exact Hrun.
Defined.

Lemma layer_copy_checks_type_witness :
  neural_layer_dropout_copy run_xcsf 2%nat pool_drop_state
  = Exit dropout_copy_diag pool_drop_state /\
  neural_layer_maxpool_copy run_xcsf 6%nat pool_drop_state
  = Exit maxpool_copy_diag pool_drop_state.
Proof.
  split.
  - apply (proj1 (layer_copy_checks_type run_xcsf 2%nat pool_drop_state pool_layer
                    eq_refl)).
    cbn. discriminate.
  - apply (proj2 (layer_copy_checks_type run_xcsf 6%nat pool_drop_state drop_layer
                    eq_refl)).
    cbn. discriminate.
Defined.



Lemma max_pool_maximum_witness :
  exists idx,
    max_pool pool_layer (rd [1%float; 3%float; 2%float; 0%float]) 0 0 0 = Some idx /\
    (idx = -1 \/ 0 <= idx < 4).
Proof.
  destruct (max_pool_maximum pool_layer [1%float; 3%float; 2%float; 0%float] 0 0 0)
    as (idx & Hrun & Hres).
  - cbn. lia.
  - cbn. unfold INT_MAX. lia.
  - cbn. lia.
  - exists idx. split; [exact Hrun|].
    destruct Hres as [[Hm _] | (n0 & m0 & best & _ & _ & _ & _ & Hr & _)];
      [left; exact Hm | right; exact Hr].
Defined.

Lemma neural_resize_consistent_witness :
  neural_resize run_xcsf pool_drop_net pool_drop_state = Ok tt pool_drop_state.
Proof.
  apply neural_resize_consistent.
  - constructor; [| constructor; [| constructor]]; eexists; reflexivity.
  - reflexivity.
Defined.

(** The dropout layer of [pool_drop_state] widened to 3 inputs, after a
    layer of 1 output. *)
Definition wide_layer : Layer.t :=
  Layer.mk 1 VDropout 3 3 3 0 0 0 0 0 0 0 0 0 0.5%float 2%float
           (Some 7%nat) (Some 8%nat) (Some 9%nat) None.

Definition wide_state : state :=
  mkState (<[6%nat := BLayer wide_layer]> (heap pool_drop_state)) 0 [].

Lemma neural_resize_dropout_chain_witness :
  widths_consistent wide_state (Net.layers pool_drop_net) = false /\
  exists s',
    neural_resize run_xcsf pool_drop_net wide_state = Ok tt s' /\
    widths_consistent s' (Net.layers pool_drop_net) = true.
Proof.
  split; [reflexivity|].
  destruct (neural_resize_dropout_chain run_xcsf pool_drop_net wide_state 2%nat [6%nat]
              pool_layer) as (s' & Hrun & Hw & _).
  - reflexivity.
  - reflexivity.
  - cbn. lia.
  - constructor; [| constructor]. exists wide_layer.
    split; [reflexivity|]. split; [reflexivity|]. split; [| cbn; lia].
    exists [0%float], [0%float], [0%float].
    split; [reflexivity|]. split; [reflexivity|]. split; [reflexivity|].
    split; [discriminate|]. split; discriminate.
  - apply (bool_decide_unpack _). vm_compute. exact I.
  - apply (bool_decide_unpack _). vm_compute. exact I.
  - exists s'. split; [exact Hrun | exact Hw].
Defined.

(** The network of the dropout layer alone. *)
Definition drop_net : Net.t := Net.mk [6%nat] 1 1 1 (Some 7%nat).

Lemma neural_propagate_dropout_predict_witness :
  exists s',
    neural_propagate run_xcsf drop_net (Some 0%nat) pool_drop_state = Ok tt s' /\
    neural_output run_xcsf drop_net 0 s' = Ok 1%float s'.
Proof.
  destruct (neural_propagate_dropout_predict run_xcsf drop_net 0%nat
              [1%float; 3%float; 2%float; 0%float] 1 pool_drop_state)
    as (s' & Hrun & _ & _ & _ & Hout).
  - reflexivity.
  - reflexivity.
  - cbn. lia.
  - constructor; [| constructor]. exists drop_layer, [0%float].
    split; [reflexivity|]. split; [reflexivity|]. split; [reflexivity|].
    split; [reflexivity | cbn; lia].
  - apply (bool_decide_unpack _). vm_compute. exact I.
  - exists s'. split; [exact Hrun|].
    apply Hout; [lia | cbn; lia | discriminate | reflexivity].
Defined.


Lemma neural_layer_insert_remove_witness :
  exists net1 s',
    neural_layer_insert run_xcsf pool_net 6%nat 1 pool_drop_state = Ok net1 pool_drop_state /\
    neural_layer_remove run_xcsf net1 1 pool_drop_state = Ok pool_net s' /\
    heap s' !! 6%nat = None.
Proof.
  pose proof pool_drop_layers_ok as Hok.
  apply Forall_cons in Hok as [Hok2 Hok6]. apply Forall_cons in Hok6 as [Hok6 _].
  destruct (neural_layer_insert_remove run_xcsf pool_net 6%nat 1 pool_drop_state drop_layer)
    as (net1 & s' & Hins & Hrem & Hgone & _).
  - reflexivity.
  - exact Hok6.
  - constructor; [exact Hok2 | constructor].
  - discriminate.
  - cbn. lia.
  - cbn. unfold INT_MAX. lia.
  - reflexivity.
  - reflexivity.
  - exists net1, s'. split; [exact Hins|]. split; [exact Hrem | exact Hgone].
Defined.

(** A max-pooling layer over an empty image: no window position is in
    bounds. *)
Definition miss_layer : Layer.t :=
  Layer.mk 2 VMaxpool 0 1 1 0 0 1 0 1 1 1 2 1 0%float 0%float
           (Some 4%nat) (Some 5%nat) None (Some 3%nat).

Definition miss_state : state :=
  mkState (<[2%nat := BLayer miss_layer]> (heap pool_drop_state)) 0 [].

Lemma neural_layer_maxpool_forward_window_miss_witness :
  neural_layer_maxpool_forward run_xcsf 2%nat (Some 0%nat) miss_state = Fault.
Proof.
  apply (neural_layer_maxpool_forward_window_miss run_xcsf 2%nat 0%nat miss_state
           miss_layer [1%float; 3%float; 2%float; 0%float] [0%float] [0] 0 0 0).
  - reflexivity.
  - reflexivity.
  - reflexivity.
  - reflexivity.
  - discriminate.
  - cbn. unfold INT_MAX. lia.
  - cbn. lia.
  - cbn. lia.
  - cbn. lia.
  - cbn. lia.
  - intros n m v _ _ Hin _. exfalso. revert Hin. unfold in_grid.
    generalize (window_coord miss_layer 0 n), (window_coord miss_layer 0 m).
    intros a b. cbn [Layer.height Layer.width miss_layer].
    rewrite !andb_true_iff, !Z.leb_le, !Z.ltb_lt. lia.
Defined.

Lemma neural_layer_dropout_init_spec_witness :
  exists l s' L,
    neural_layer_dropout_init run_xcsf 2 0.5%float empty_state = Ok l s' /\
    layer_at s' l = Some L /\ Layer.n_outputs L = 2.
Proof.
  destruct (neural_layer_dropout_init_spec run_xcsf 2 0.5%float empty_state)
    as (l & s' & L & ao & ad & ast & Hrun & _ & HL & _ & _ & _ & Hno & _).
  - cbn. lia.
  - exists l, s', L. split; [exact Hrun|]. split; [exact HL | exact Hno].
Defined.

Definition explore_xcsf : XCSF := mkXCSF 0.25%float 1 true.

Lemma neural_layer_dropout_forward_mask_witness :
  exists s',
    neural_layer_dropout_forward explore_xcsf 6%nat (Some 4%nat) pool_drop_state = Ok tt s' /\
    rng s' = 1%nat.
Proof.
  destruct (neural_layer_dropout_forward_mask explore_xcsf 6%nat 4%nat pool_drop_state
              drop_layer [0%float] [0%float] [0%float])
    as (s' & Hrun & Hrng & _).
  - reflexivity.
  - reflexivity.
  - reflexivity.
  - reflexivity.
  - reflexivity.
  - discriminate.
  - discriminate.
  - discriminate.
  - cbn. lia.
  - cbn. lia.
  - cbn. lia.
  - exists s'. split; [exact Hrun | exact Hrng].
Defined.

Lemma dropout_forward_backward_mask_witness :
  exists s1 s2,
    neural_layer_dropout_forward explore_xcsf 6%nat (Some 4%nat) pool_drop_state
    = Ok tt s1 /\
    neural_layer_dropout_backward explore_xcsf 6%nat (Some 4%nat) (Some 5%nat) s1
    = Ok tt s2.
Proof.
  destruct (dropout_forward_backward_mask explore_xcsf 6%nat 4%nat 5%nat pool_drop_state
              drop_layer [0%float] [0%float] [0%float] [0%float] [0%float])
    as (s1 & s2 & Hf & Hb & _).
  - reflexivity.
  - reflexivity.
  - reflexivity.
  - reflexivity.
  - reflexivity.
  - reflexivity.
  - reflexivity.
  - discriminate.
  - discriminate.
  - discriminate.
  - discriminate.
  - discriminate.
  - discriminate.
  - discriminate.
  - discriminate.
  - cbn. lia.
  - cbn. lia.
  - cbn. lia.
  - cbn. lia.
  - cbn. lia.
  - exists s1, s2. split; [exact Hf | exact Hb].
Defined.

(** [pool_drop_state] with a gradient array of 4 cells at address 10. *)
Definition grad_state : state :=
  mkState (<[10%nat := BDoubles [0%float; 0%float; 0%float; 0%float]]>
             (heap pool_drop_state)) 0 [].

Lemma maxpool_forward_backward_witness :
  exists s1 s2,
    neural_layer_maxpool_forward run_xcsf 2%nat (Some 0%nat) grad_state = Ok tt s1 /\
    neural_layer_maxpool_backward run_xcsf 2%nat (Some 0%nat) (Some 10%nat) s1 = Ok tt s2.
Proof.
  destruct (maxpool_forward_backward run_xcsf 2%nat 0%nat 10%nat grad_state pool_layer
              [1%float; 3%float; 2%float; 0%float] [0%float] [0%float]
              [0%float; 0%float; 0%float; 0%float] [0])
    as (s1 & s2 & ix1 & d' & Hf & _ & _ & Hb & _).
  - reflexivity.
  - reflexivity.
  - reflexivity.
  - reflexivity.
  - reflexivity.
  - reflexivity.
  - discriminate.
  - discriminate.
  - discriminate.
  - discriminate.
  - reflexivity.
  - reflexivity.
  - cbn. unfold INT_MAX. lia.
  - cbn. lia.
  - cbn. lia.
  - cbn. lia.
  - cbn. lia.
  - cbn. unfold INT_MAX. lia.
  - cbn. lia.
  - cbn. lia.
  - cbn. lia.
  - intros k i j Hk Hi Hj. cbn in Hk, Hi, Hj.
    assert (k = 0) as -> by lia. assert (i = 0) as -> by lia. assert (j = 0) as -> by lia.
    exists 0, 0. split; [cbn; lia|]. split; [cbn; lia|]. split; [reflexivity|].
    exists 1%float. split; reflexivity.
  - exists s1, s2. split; [exact Hf | exact Hb].
Defined.

End Runs_more.
